(** * prop-analyzer: betting-slip extraction, review and settlement

    A shallow embedding of the Python sources

      - [src/ocr/image_processor.py]      (class [ImageProcessor])
      - [src/processing/process_bets.py]  (class [BetProcessor])
      - [src/processing/review_handler.py] (class [ReviewHandler])
      - [src/utils/constants.py], [src/database/init_db.py]

    Modelling conventions.

      - Python [float]s are rationals [Q]; the only non-finite value
        that the pipeline can produce on its own, the [NaN] pandas reads out
        of a NULL numeric column, is kept as [NaN] of [pyfloat].  Of the
        rounding of binary floating point, the one case that changes what
        the code does is modelled: a quotient too small for a double is
        [0.0] ([nearest_double]).  Other rounding error is not modelled.
      - A column of a table holds what sqlite3 stores of the value bound to
        it: the [odds] column, declared INTEGER, holds a rational, since a
        number that is not integral is kept as a REAL.
      - Python exceptions are values of [exn]; a computation that may raise
        returns [res A].  [SystemExit] is the only [BaseException] that is
        not an [Exception], so [except Exception] lets it through.
      - An sqlite3 connection is a pair of database snapshots: what has been
        committed, and what the open transaction sees.
      - Library routines that the sources call on strings ([float], [int],
        [pandas.to_datetime], [astype], float formatting) are fields of
        the class [Builtins]; the OCR reader and the scans of the raw text
        are fields of the class [Scanner].  General statements hold for
        every implementation; concrete runs use [decimal_builtins] and
        [sample_scanner].
      - Strings are byte strings; [\d] is read as an ASCII digit. *)

From stdpp Require Import gmap strings list pretty sorting.
From Stdlib Require Import Ascii QArith Qround Qabs.

Local Open Scope Z_scope.
Local Open Scope string_scope.
Local Open Scope list_scope.

(** ** Exceptions and results *)

Inductive exn : Type :=
  | ValueError (msg : string)
  | KeyError
  | TypeError
  | ZeroDivisionError
  | IntegrityError
  | RequestException
  | Timeout
  | SystemExit.

(** [except Exception] catches everything but [SystemExit]. *)
Definition is_Exception (e : exn) : bool :=
  match e with SystemExit => false | _ => true end.

(** [except (Timeout, RequestException)] *)
Definition is_transport_error (e : exn) : bool :=
  match e with Timeout | RequestException => true | _ => false end.

Inductive res (A : Type) : Type :=
  | Ok (a : A)
  | Raise (e : exn).
Arguments Ok {A} a.
Arguments Raise {A} e.

#[global] Instance res_ret : MRet res := fun A a => Ok a.
#[global] Instance res_bind : MBind res := fun A B f m =>
  match m with Ok a => f a | Raise e => Raise e end.

Definition raises {A} (r : res A) : bool :=
  match r with Ok _ => false | Raise _ => true end.

(** ** Numbers *)

Inductive pyfloat : Type :=
  | Fl (q : Q)
  | NaN.

Definition Qltb (x y : Q) : bool := negb (Qle_bool y x).

(** [a / b] on floats: [ZeroDivisionError] when the divisor is zero. *)
Definition py_div (a b : Q) : res Q :=
  if Qeq_bool b 0 then Raise ZeroDivisionError else Ok (a / b)%Q.

(** A quotient too close to zero for a double: at most [2^-1075] in
    magnitude, half of the least positive double, so that rounding to
    nearest makes it [0.0]. *)
Definition underflows (x : Q) : bool :=
  Qle_bool (Qabs x) (1 # (2 ^ 1075)).

(** The double that a quotient is rounded to, where the rounding decides
    what the code does next: [0.0] when the quotient underflows.  Any
    other quotient is kept as the exact rational. *)
Definition nearest_double (x : Q) : Q :=
  if underflows x then 0%Q else x.

(** [numpy.round(x, 0)]: to the nearest integer, ties to the even one. *)
Definition np_round (x : Q) : Z :=
  let f := Qfloor x in
  match Qcompare (x - inject_Z f) (1 # 2) with
  | Lt => f
  | Gt => f + 1
  | Eq => if Z.even f then f else f + 1
  end.

(** [int(x)] of a float truncates toward zero. *)
Definition Qtrunc (x : Q) : Z :=
  if Qle_bool 0 x then Qfloor x else Qceiling x.

(** ** Strings *)

(** [s[1:]] *)
Definition str_tail (s : string) : string :=
  match s with EmptyString => EmptyString | String _ r => r end.

(** [s.startswith(p)] *)
Definition startswith (s p : string) : bool := String.prefix p s.

Definition is_digit (a : Ascii.ascii) : bool :=
  let n := Ascii.nat_of_ascii a in (48 <=? n)%nat && (n <=? 57)%nat.

(** ** Library routines on strings *)

Class Builtins : Type := {
  (** [float(s)] for a string; [None] is [ValueError] *)
  float_of_str : string -> option Q;
  (** [int(s)] for a string; [None] is [ValueError] *)
  int_of_str : string -> option Z;
  (** does [pandas.to_datetime(s)] return (rather than raise)? *)
  to_datetime_ok : string -> bool;
  (** the text an f-string gives a float *)
  repr_float : Q -> string;
  (** [Series.astype('Int64')] on one string cell; [None] is an exception *)
  astype_Int64 : string -> option Z;
  (** [to_datetime(s, format='%m/%d/%Y').strftime('%Y-%m-%d')];
      [None] is an exception *)
  strptime_mdY : string -> option string
}.

(** ** Constants ([src/utils/constants.py]) *)

Definition VALID_RANGES_score : Q * Q := (20, 100)%Q.
Definition VALID_RANGES_odds : Z * Z := (-1000, 1000).

(** [TYPE_REPLACEMENTS], as the list of its items in source order. *)
Definition TYPE_REPLACEMENTS : list (string * string) :=
  [ ("Reb+Ast", "rebs_asts"); ("Pts+Ast", "pts_asts"); ("Pts+Reb", "pts_rebs");
    ("3pts", "three_pointers"); ("Pts+Reb+Ast", "par"); ("Blocks", "blocks");
    ("Steals", "steals"); ("Turnovers", "turnovers"); ("Points", "points");
    ("Assists", "assists"); ("Rebounds", "rebounds") ].

Definition TYPE_REPLACEMENTS_values : list string := TYPE_REPLACEMENTS.*2.

(** [d.get(k, default)] on an association list *)
Fixpoint dict_get (d : list (string * string)) (k : string) : option string :=
  match d with
  | [] => None
  | (k', v) :: d' => if String.eqb k k' then Some v else dict_get d' k
  end.

(** ** Tables ([src/database/init_db.py]) *)

(** One row of [raw_ocr_bets].  [None] is SQL NULL.  The two diagnostic
    columns hold the JSON text of the value kept here.  The [odds] column
    is declared INTEGER, which keeps a number that is not integral as the
    REAL it is bound as, so the column holds a rational. *)
Record raw_bet : Type := {
  id : Z;
  player_id : option Z;
  bet_type : option string;
  score : option Q;
  date : option string;
  bet_line : option string;
  odds : option Q;
  image_source : string;
  raw_text : string;
  read_players : option string;
  read_score_patterns : option (string * string * string);
  is_processed : bool;
  needs_review : bool;
  is_voided : bool
}.

(** One row of [bet_results]. *)
Record bet_result : Type := {
  raw_bet_id : Z;
  br_player_id : option Z;
  game_stats_id : Z;
  br_bet_type : option string;
  result : string;
  result_delta : pyfloat;
  score_range : string;
  over_under : string;
  stat_result : Q;
  line_value : Q
}.

(** One row of [game_stats]; [gs_stats] holds the eleven stat columns. *)
Record game_stat : Type := {
  gs_id : Z;
  gs_player_id : Z;
  gs_date : string;
  gs_stats : gmap string Q
}.

(** One row of [unplayed_bets]. *)
Record unplayed_bet : Type := {
  up_raw_bet_id : Z;
  up_player_id : Z;
  up_date : string
}.

(** ** Settlement arithmetic ([BetProcessor._calculate_results]) *)

Section Settlement.
Context `{!Builtins}.

Definition py_float_str (s : string) : res Q :=
  match float_of_str s with
  | Some q => Ok q
  | None => Raise (ValueError ("could not convert string to float: " +:+ s))
  end.

(** [BetProcessor._calculate_results].  The quotient [odds / 100] is
    rounded as a double rounds it when it underflows; its result is then
    a double, which is too small a divisor for [100 / d] to underflow. *)
Definition _calculate_results (ocr_bet : raw_bet) (game_stats : gmap string Q)
  : res (string * pyfloat * Q * Q * string) :=
  stat_value ←
    match bet_type ocr_bet with
    | None => Raise KeyError
    | Some t => match game_stats !! t with
                | Some v => Ok v
                | None => Raise KeyError
                end
    end;
  line ← match bet_line ocr_bet with
         | None => Raise TypeError
         | Some l => Ok l
         end;
  line_value ← py_float_str (str_tail line);
  over_under ←
    (if startswith line "o" then Ok "Over"
     else if startswith line "u" then Ok "Under"
     else Raise (ValueError ("Invalid bet line format: " +:+ line +:+
                             ". Must start with 'o' or 'u'")));
  let result :=
    if (Qltb line_value stat_value && String.eqb over_under "Over")
       || (Qltb stat_value line_value && String.eqb over_under "Under")
    then "Win"
    else if (Qltb stat_value line_value && String.eqb over_under "Over")
            || (Qltb line_value stat_value && String.eqb over_under "Under")
    then "Loss"
    else "Push" in
  if String.eqb result "Push" then Raise (ValueError "Bet resulted in a push")
  else
    result_delta ←
      (if String.eqb result "Win" then Ok (Fl 100)
       else
         match odds ocr_bet with
         | None => Ok NaN
         | Some odds =>
             if Qltb 0 odds then
               d ← py_div odds 100;
               q ← py_div 100 (nearest_double d);
               Ok (Fl (- inject_Z (np_round q)))
             else Ok (Fl odds)
         end);
    Ok (result, result_delta, stat_value, line_value, over_under).

End Settlement.

(** [BetProcessor._calculate_score_range] *)
Definition score_ranges : list (Q * Q * string) :=
  [ (20, 25, "20-25"); (25, 30, "25-30"); (30, 35, "30-35");
    (35, 40, "35-40"); (40, 45, "40-45"); (45, 50, "45-50") ]%Q.

Definition _calculate_score_range (score : pyfloat) : res string :=
  match score with
  | NaN => Ok "50+"
  | Fl score =>
      if Qltb score 20 then Raise (ValueError "Score is less than 20")
      else
        match List.find (fun r => Qle_bool r.1.1 score && Qltb score r.1.2)
                        score_ranges with
        | Some r => Ok r.2
        | None => Ok "50+"
        end
  end.

(** ** Cells of a pandas row *)

(** A cell of a [pd.Series]: missing ([pd.NA], [None], [NaN]), a string,
    an integer or a float. *)
Inductive pyval : Type :=
  | NA
  | VStr (s : string)
  | VInt (z : Z)
  | VFloat (q : Q).

(** [pd.isna(v)] *)
Definition isna (v : pyval) : bool :=
  match v with NA => true | _ => false end.

(** Truth value of a cell, for [if not x]. *)
Definition truthy (v : pyval) : bool :=
  match v with
  | NA => false
  | VStr s => negb (String.eqb s EmptyString)
  | VInt z => negb (Z.eqb z 0)
  | VFloat q => negb (Qeq_bool q 0)
  end.

(** The six columns the classifier reads. *)
Record bet_entry : Type := {
  e_player : pyval;
  e_bet_type : pyval;
  e_score : pyval;
  e_bet_line : pyval;
  e_odds : pyval;
  e_date : pyval
}.

Definition newline : string := String (ascii_of_nat 10) EmptyString.

(** [re.match(r'^[ou]\d+\.5$', s)]: [o] or [u], one or more digits, [.5],
    then the end of the string or one final newline. *)
Fixpoint match_digits_dot5 (seen : bool) (s : string) : bool :=
  match s with
  | EmptyString => false
  | String c r =>
      if is_digit c then match_digits_dot5 true r
      else seen && (String.eqb s ".5" || String.eqb s (".5" +:+ newline))
  end.

Definition match_bet_line (s : string) : bool :=
  match s with
  | String c r =>
      (Ascii.eqb c "o"%char || Ascii.eqb c "u"%char) && match_digits_dot5 false r
  | EmptyString => false
  end.

Section Classifier.
Context `{!Builtins}.

(** [str(v)], also what an f-string prints for [v] *)
Definition py_str (v : pyval) : string :=
  match v with
  | NA => "<NA>"
  | VStr s => s
  | VInt z => pretty z
  | VFloat q => repr_float q
  end.

(** [float(v)]; [None] is [ValueError] *)
Definition py_float (v : pyval) : option Q :=
  match v with
  | NA => None
  | VStr s => float_of_str s
  | VInt z => Some (inject_Z z)
  | VFloat q => Some q
  end.

(** [int(v)]; [None] is [ValueError] *)
Definition py_int (v : pyval) : option Z :=
  match v with
  | NA => None
  | VStr s => int_of_str s
  | VInt z => Some z
  | VFloat q => Some (Qtrunc q)
  end.

(** does [pd.to_datetime(v)] return? *)
Definition py_to_datetime_ok (v : pyval) : bool :=
  match v with
  | NA => true
  | VStr s => to_datetime_ok s
  | VInt _ | VFloat _ => true
  end.

(** The five blocks that [ImageProcessor._bet_needs_review] and
    [ReviewHandler.bet_needs_review] have word for word in common; each
    takes the set [reasons] built so far and returns it updated. *)

Definition check_bet_type (bet : bet_entry) (reasons : gset string) : gset string :=
  let bet_type := if negb (isna (e_bet_type bet)) then e_bet_type bet else NA in
  if truthy bet_type then
    match bet_type with
    | VStr t =>
        if bool_decide (t ∈ TYPE_REPLACEMENTS_values) then reasons
        else reasons ∪ {[ "Invalid bet type: " +:+ t ]}
    | v => reasons ∪ {[ "Invalid bet type: " +:+ py_str v ]}
    end
  else reasons ∪ {[ "Missing bet type" ]}.

Definition check_score (bet : bet_entry) (reasons : gset string) : gset string :=
  if isna (e_score bet) then reasons ∪ {[ "Missing score" ]}
  else
    let '(score_lower_bound, score_upper_bound) := VALID_RANGES_score in
    match py_float (e_score bet) with
    | Some score =>
        if negb (Qle_bool score_lower_bound score && Qle_bool score score_upper_bound)
        then reasons ∪ {[ "Score out of expected range [" +:+
                            repr_float score_lower_bound +:+ "," +:+
                            repr_float score_upper_bound +:+ "]: " +:+
                            repr_float score ]}
        else reasons
    | None => reasons ∪ {[ "Invalid score format: " +:+ py_str (e_score bet) ]}
    end.

Definition check_bet_line (bet : bet_entry) (reasons : gset string) : gset string :=
  if isna (e_bet_line bet) then reasons ∪ {[ "Missing bet line" ]}
  else if negb (match_bet_line (py_str (e_bet_line bet)))
  then reasons ∪ {[ "Invalid bet line format: " +:+ py_str (e_bet_line bet) ]}
  else reasons.

Definition check_odds (bet : bet_entry) (reasons : gset string) : gset string :=
  if isna (e_odds bet) then reasons ∪ {[ "Missing odds" ]}
  else
    match py_int (e_odds bet) with
    | Some odds =>
        let '(odds_lower_bound, odds_upper_bound) := VALID_RANGES_odds in
        if negb (Z.leb odds_lower_bound odds && Z.leb odds odds_upper_bound)
        then reasons ∪ {[ "Odds out of expected range [" +:+
                            pretty odds_lower_bound +:+ "," +:+
                            pretty odds_upper_bound +:+ "]: " +:+ pretty odds ]}
        else reasons
    | None => reasons ∪ {[ "Invalid odds format: " +:+ py_str (e_odds bet) ]}
    end.

Definition check_date (bet : bet_entry) (reasons : gset string) : gset string :=
  if isna (e_date bet) then reasons ∪ {[ "Missing date" ]}
  else if py_to_datetime_ok (e_date bet) then reasons
  else reasons ∪ {[ "Invalid date format: " +:+ py_str (e_date bet) ]}.

(** The two player blocks of [ImageProcessor._bet_needs_review];
    [player_ids] is [self.player_ids]. *)
Definition check_player (player_ids : gmap string Z) (bet : bet_entry)
           (reasons : gset string) : gset string :=
  (* Check player *)
  let player_name := if negb (isna (e_player bet)) then e_player bet else NA in
  let reasons :=
    if negb (truthy player_name) then reasons ∪ {[ "Missing player name" ]}
    else reasons in
  (* Check player_id *)
  if truthy player_name
     && negb (match player_name with
              | VStr n => bool_decide (is_Some (player_ids !! n))
              | _ => false
              end)
  then reasons ∪ {[ "Player not found: " +:+ py_str player_name ]}
  else reasons.

(** [ImageProcessor._bet_needs_review].  The source returns
    [list(reasons)], a listing of the set in no particular order; the set
    itself is returned here. *)
Definition _bet_needs_review (player_ids : gmap string Z) (bet_entry : bet_entry)
  : bool * gset string :=
  let reasons : gset string := ∅ in
  let reasons := check_player player_ids bet_entry reasons in
  let reasons := check_bet_type bet_entry reasons in
  let reasons := check_score bet_entry reasons in
  let reasons := check_bet_line bet_entry reasons in
  let reasons := check_odds bet_entry reasons in
  let reasons := check_date bet_entry reasons in
  (bool_decide (reasons ≠ ∅), reasons).

(** [ImageProcessor._image_needs_review] (the second definition in the
    class body, which replaces the first). *)
Definition _image_needs_review (player_ids : gmap string Z) (image_df : list bet_entry)
  : bool * gset string :=
  let all_reasons :=
    foldl (fun (all_reasons : gset string) bet_entry =>
             let '(needs_review, reasons) := _bet_needs_review player_ids bet_entry in
             if needs_review then all_reasons ∪ reasons else all_reasons)
          ∅ image_df in
  (bool_decide (all_reasons ≠ ∅), all_reasons).

End Classifier.

(** ** Extraction ([ImageProcessor._extract_bet_data]) *)

(** [NAME_REPLACEMENTS], as the list of its items in source order (the key
    written twice in the source carries the same value both times). *)
Definition NAME_REPLACEMENTS : list (string * string) :=
  [ ("Alex Sarr", "Alexandre Sarr");
    ("Shai Gilgeous-Alex", "Shai Gilgeous-Alexander");
    ("Jabari Smith", "Jabari Smith Jr.");
    ("Victor Wembanyan", "Victor Wembanyama");
    ("Victor Wembanyam", "Victor Wembanyama");
    ("Jaren Jackson", "Jaren Jackson Jr.");
    ("Tim Hardaway", "Tim Hardaway Jr.");
    ("Gary Trent", "Gary Trent Jr.");
    ("Kevin Porter", "Kevin Porter Jr.");
    ("Larry Nance", "Larry Nance Jr.");
    ("Karl-Anthony Town", "Karl-Anthony Towns");
    ("Alperen Şengün", "Alperen Sengun");
    ("Brandin Podziemsk", "Brandin Podziemski");
    ("Giannis Antetokour", "Giannis Antetokounmpo");
    ("Bogdan Bogdanovi", "Bogdan Bogdanović");
    ("Guerschon Yabuse", "Guerschon Yabusele");
    ("Ron Holland", "Ronald Holland II");
    ("Simone Fontecchia", "Simone Fontecchio");
    ("Bennedict Mathurir", "Bennedict Mathurin");
    ("Haywood Highsmit", "Haywood Highsmith");
    ("Dorian Finney-Smit", "Dorian Finney-Smith");
    ("Nickeil Alexander-V", "Nickeil Alexander-Walker");
    ("Kristaps Porziņgis", "Kristaps Porziņģis");
    ("Trayce Jackson-Da", "Trayce Jackson-Davis");
    ("Kentavious Caldwe", "Kentavious Caldwell-Pope");
    ("Gary Payton", "Gary Payton II");
    ("Ricky Council", "Ricky Council IV");
    ("Nick Smith", "Nick Smith Jr.");
    ("Dereck Lively", "Dereck Lively II");
    ("Andre Jackson", "Andre Jackson Jr.");
    ("Jaime Jaquez", "Jaime Jaquez Jr.");
    ("Kelly Oubre", "Kelly Oubre Jr.");
    ("Wendell Carter", "Wendell Carter Jr.");
    ("Trey Murphy", "Trey Murphy III");
    ("Derrick Jones", "Derrick Jones Jr.");
    ("Wendell Carter", "Wendell Carter Jr.");
    ("Scotty Pippen", "Scotty Pippen Jr.");
    ("Michael Porter", "Michael Porter Jr.");
    ("Dante Exum", "Danté Exum");
    ("Tristan Vukčević", "Tristan Vukcevic");
    ("Jakob Poeltl", "Jakob Pöltl");
    ("Vince Williams", "Vince Williams Jr.");
    ("Sandro Mamukelas", "Sandro Mamukelashvili");
    ("Jeff Dowtin", "Jeff Dowtin Jr.");
    ("Jalen Hood-Schifin", "Jalen Hood-Schifino");
    ("Bismack Biyombo", "Bismack Biyombo");
    ("Markelle Fultz", "Markelle Fultz");
    ("Damion Baugh", "Damion Baugh");
    ("A.J. Lawson", "A.J. Lawson") ].

(** The OCR engine and the scans of the raw text. *)
Class Scanner : Type := {
  (** [' '.join(...)] over [self.reader.readtext(file_path)];
      [None] when the reader raises *)
  readtext : string -> option string;
  (** [re.findall(r'\b\d{1,2}/\d{2}\b', raw_text)] *)
  findall_dates : string -> list string;
  (** [re.findall(score_pattern, raw_text)] *)
  findall_score_lines : string -> list (string * string * string);
  (** [self._find_bet_type(raw_text)] *)
  _find_bet_type : string -> option string;
  (** [self._find_players_in_text(raw_text)] *)
  _find_players_in_text : string -> list string
}.

(** One row of the data frame that extraction builds. *)
Record entry : Type := {
  x_bet : bet_entry;
  x_read_score_patterns : option (string * string * string);
  x_read_players : option string;
  x_raw_text : string;
  x_image_source : string
}.

Section Extraction.
Context `{!Scanner}.

(** [xs if len(xs) == max_length else [pd.NA] * max_length] *)
Definition column_or_NA (xs : list string) (max_length : nat) : list pyval :=
  if Nat.eqb (length xs) max_length then VStr <$> xs
  else replicate max_length NA.

(** [xs if len(xs) == max_length else xs + [pd.NA] * (max_length - len(xs))] *)
Definition pad_debug {A} (xs : list A) (max_length : nat) : list (option A) :=
  if Nat.eqb (length xs) max_length then Some <$> xs
  else (Some <$> xs) ++ replicate (max_length - length xs)%nat None.

(** The rows are returned without [image_source], which [process_image]
    fills in; [image_source] is passed along for that. *)
Definition _extract_bet_data (raw_text : string) (image_source : string)
  : option (list entry) :=
  let dates := findall_dates raw_text in
  match dates with
  | [] => None
  | date0 :: _ =>
      let bet_type := _find_bet_type raw_text in
      let bet_type :=
        match bet_type with
        | None => NA
        | Some b => VStr (default b (dict_get TYPE_REPLACEMENTS b))
        end in
      let score_lines := findall_score_lines raw_text in
      match score_lines with
      | [] => None
      | _ =>
          let scores := (fun item => item.1.1) <$> score_lines in
          let lines := (fun item => item.1.2) <$> score_lines in
          let odds := (fun item => item.2) <$> score_lines in
          let players_in_text := _find_players_in_text raw_text in
          let players_in_text :=
            (fun item => default item (dict_get NAME_REPLACEMENTS item))
              <$> players_in_text in
          let max_length :=
            Nat.max (length players_in_text)
                    (Nat.max (length lines) (Nat.max (length scores) (length odds))) in
          let scores := column_or_NA scores max_length in
          let lines := column_or_NA lines max_length in
          let odds := column_or_NA odds max_length in
          let players := column_or_NA players_in_text max_length in
          let score_lines := pad_debug score_lines max_length in
          let players_in_text := pad_debug players_in_text max_length in
          Some ((fun i =>
                   {| x_bet := {| e_date := VStr date0;
                                  e_bet_type := bet_type;
                                  e_bet_line := default NA (lines !! i);
                                  e_score := default NA (scores !! i);
                                  e_odds := default NA (odds !! i);
                                  e_player := default NA (players !! i) |};
                      x_read_score_patterns := default None (score_lines !! i);
                      x_read_players := default None (players_in_text !! i);
                      x_raw_text := raw_text;
                      x_image_source := image_source |})
                  <$> seq 0 max_length)
      end
  end.

End Extraction.

(** ** Field clean-up ([ImageProcessor.clean_data]) *)

(** [x.replace] of the space character by the empty string *)
Fixpoint remove_spaces (s : string) : string :=
  match s with
  | EmptyString => EmptyString
  | String c r => if Ascii.eqb c " "%char then remove_spaces r
                  else String c (remove_spaces r)
  end.

(** [re.sub] of a leading [7], [4], [~] or double quote by [-] *)
Definition fix_leading_minus (s : string) : string :=
  match s with
  | String c r =>
      if Ascii.eqb c "7"%char || Ascii.eqb c "4"%char || Ascii.eqb c "~"%char
         || Ascii.eqb c (ascii_of_nat 34)
      then String "-"%char r else s
  | EmptyString => s
  end.

(** [re.sub(r'(?<!^)-', '4', s)]: every [-] but one in first position *)
Fixpoint minus_to_4 (s : string) : string :=
  match s with
  | EmptyString => EmptyString
  | String c r => String (if Ascii.eqb c "-"%char then "4"%char else c) (minus_to_4 r)
  end.

Definition fix_inner_4 (s : string) : string :=
  match s with
  | String c r => String c (minus_to_4 r)
  | EmptyString => s
  end.

(** [re.sub(r'^0', 'o', s)] *)
Definition fix_leading_o (s : string) : string :=
  match s with
  | String c r => if Ascii.eqb c "0"%char then String "o"%char r else s
  | EmptyString => s
  end.

(** [s[:-1]] *)
Fixpoint str_init (s : string) : string :=
  match s with
  | EmptyString => EmptyString
  | String c EmptyString => EmptyString
  | String c r => String c (str_init r)
  end.

(** [s[1:-1]] *)
Definition strip_ends (s : string) : string := str_init (str_tail s).

(** A string operation applied to the cells that are not missing. *)
Definition on_str (f : string -> string) (v : pyval) : pyval :=
  match v with VStr s => VStr (f s) | _ => v end.

Definition set_bet (x : entry) (b : bet_entry) : entry :=
  {| x_bet := b;
     x_read_score_patterns := x_read_score_patterns x;
     x_read_players := x_read_players x;
     x_raw_text := x_raw_text x;
     x_image_source := x_image_source x |}.

(** [mapM] for [res]: the first exception aborts the whole column. *)
Fixpoint res_mapM {A B} (f : A -> res B) (l : list A) : res (list B) :=
  match l with
  | [] => Ok []
  | a :: l' => b ← f a; bs ← res_mapM f l'; Ok (b :: bs)
  end.

Section Cleaning.
Context `{!Builtins}.

(** The odds column: OCR repairs, then [.astype('Int64')]. *)
Definition clean_odds (v : pyval) : res pyval :=
  match v with
  | VStr s =>
      match astype_Int64 (fix_inner_4 (fix_leading_minus s)) with
      | Some z => Ok (VInt z)
      | None => Raise (ValueError ("invalid literal for int(): " +:+ s))
      end
  | _ => Ok v
  end.

(** The date column: [f"{x}/{self.year}"] parsed with ['%m/%d/%Y'] and
    printed as ['%Y-%m-%d']. *)
Definition clean_date (year : Z) (v : pyval) : res pyval :=
  match v with
  | VStr s =>
      match strptime_mdY (s +:+ "/" +:+ pretty year) with
      | Some d => Ok (VStr d)
      | None => Raise (ValueError ("time data does not match format: " +:+ s))
      end
  | _ => Ok v
  end.

(** The column assignments of [clean_data], one row at a time. *)
Definition clean_row_strings (x : entry) : entry :=
  let b := x_bet x in
  set_bet x {| e_player := e_player b;
               e_bet_type := e_bet_type b;
               e_score := on_str remove_spaces (e_score b);
               e_bet_line := on_str remove_spaces (e_bet_line b);
               e_odds := on_str remove_spaces (e_odds b);
               e_date := e_date b |}.

Definition clean_row_odds (x : entry) : res entry :=
  let b := x_bet x in
  o ← clean_odds (e_odds b);
  Ok (set_bet x {| e_player := e_player b; e_bet_type := e_bet_type b;
                   e_score := e_score b; e_bet_line := e_bet_line b;
                   e_odds := o; e_date := e_date b |}).

Definition clean_row_line_score (x : entry) : entry :=
  let b := x_bet x in
  set_bet x {| e_player := e_player b;
               e_bet_type := e_bet_type b;
               e_score := on_str strip_ends (e_score b);
               e_bet_line := on_str fix_leading_o (e_bet_line b);
               e_odds := e_odds b;
               e_date := e_date b |}.

Definition clean_row_date (year : Z) (x : entry) : res entry :=
  let b := x_bet x in
  d ← clean_date year (e_date b);
  Ok (set_bet x {| e_player := e_player b; e_bet_type := e_bet_type b;
                   e_score := e_score b; e_bet_line := e_bet_line b;
                   e_odds := e_odds b; e_date := d |}).

(** [ImageProcessor.clean_data]; [year] is [self.year].  Each statement of
    the source rewrites one column of the whole frame, so an exception in
    any cell leaves the function without a result. *)
Definition clean_data (year : Z) (extracted_data : list entry) : res (list entry) :=
  let df := extracted_data in
  let df := clean_row_strings <$> df in
  df ← res_mapM clean_row_odds df;
  let df := clean_row_line_score <$> df in
  df ← res_mapM (clean_row_date year) df;
  Ok df.

End Cleaning.

(** ** The database *)

(** One row of [players]. *)
Record player : Type := {
  p_name : string;
  nba_api_id : Z;
  is_active : bool
}.

(** The tables, each in rowid order; [raw_seq] and [gs_seq] are the
    AUTOINCREMENT counters of [raw_ocr_bets] and [game_stats]. *)
Record db : Type := {
  tbl_players : list player;
  tbl_raw_ocr_bets : list raw_bet;
  raw_seq : Z;
  tbl_game_stats : list game_stat;
  gs_seq : Z;
  tbl_bet_results : list bet_result;
  tbl_unplayed_bets : list unplayed_bet
}.

Definition put_raw_ocr_bets (d : db) (rows : list raw_bet) (seq : Z) : db :=
  {| tbl_players := tbl_players d; tbl_raw_ocr_bets := rows; raw_seq := seq;
     tbl_game_stats := tbl_game_stats d; gs_seq := gs_seq d;
     tbl_bet_results := tbl_bet_results d;
     tbl_unplayed_bets := tbl_unplayed_bets d |}.

Definition put_game_stats (d : db) (rows : list game_stat) (seq : Z) : db :=
  {| tbl_players := tbl_players d; tbl_raw_ocr_bets := tbl_raw_ocr_bets d;
     raw_seq := raw_seq d; tbl_game_stats := rows; gs_seq := seq;
     tbl_bet_results := tbl_bet_results d;
     tbl_unplayed_bets := tbl_unplayed_bets d |}.

Definition put_bet_results (d : db) (rows : list bet_result) : db :=
  {| tbl_players := tbl_players d; tbl_raw_ocr_bets := tbl_raw_ocr_bets d;
     raw_seq := raw_seq d; tbl_game_stats := tbl_game_stats d; gs_seq := gs_seq d;
     tbl_bet_results := rows; tbl_unplayed_bets := tbl_unplayed_bets d |}.

Definition put_unplayed_bets (d : db) (rows : list unplayed_bet) : db :=
  {| tbl_players := tbl_players d; tbl_raw_ocr_bets := tbl_raw_ocr_bets d;
     raw_seq := raw_seq d; tbl_game_stats := tbl_game_stats d; gs_seq := gs_seq d;
     tbl_bet_results := tbl_bet_results d; tbl_unplayed_bets := rows |}.

(** SQL [a = b] on nullable columns: never true when a side is NULL. *)
Definition sql_eq {A} (eqb : A -> A -> bool) (a b : option A) : bool :=
  match a, b with
  | Some x, Some y => eqb x y
  | _, _ => false
  end.

(** [UNIQUE(player_id, date, bet_type, score)] of [raw_ocr_bets]: does the
    stored row [r] collide with the new row [n]? *)
Definition raw_unique_conflict (n r : raw_bet) : bool :=
  sql_eq Z.eqb (player_id n) (player_id r)
  && sql_eq String.eqb (date n) (date r)
  && sql_eq String.eqb (bet_type n) (bet_type r)
  && sql_eq Qeq_bool (score n) (score r).

Definition with_id (r : raw_bet) (i : Z) : raw_bet :=
  {| id := i; player_id := player_id r; bet_type := bet_type r; score := score r;
     date := date r; bet_line := bet_line r; odds := odds r;
     image_source := image_source r; raw_text := raw_text r;
     read_players := read_players r;
     read_score_patterns := read_score_patterns r;
     is_processed := is_processed r; needs_review := needs_review r;
     is_voided := is_voided r |}.

(** [INSERT OR IGNORE INTO raw_ocr_bets ...] followed by [commit]. *)
Definition insert_or_ignore_raw (d : db) (n : raw_bet) : db :=
  if existsb (raw_unique_conflict n) (tbl_raw_ocr_bets d) then d
  else put_raw_ocr_bets d (tbl_raw_ocr_bets d ++ [with_id n (raw_seq d + 1)])
                        (raw_seq d + 1).

(** ** Saving and re-reading an image ([ImageProcessor]) *)

(** What [process_image] returns. *)
Inductive processed : Type :=
  | Existing (rows : list raw_bet)
  | Cleaned (cleaned_entries : list entry)
  | Nothing.

(** [groupby('image_source')]: the distinct image names in increasing
    order, each with its rows in frame order. *)
Fixpoint insert_sorted (k : string) (ks : list string) : list string :=
  match ks with
  | [] => [k]
  | k' :: ks' =>
      if String.eqb k k' then ks
      else if String.ltb k k' then k :: ks
      else k' :: insert_sorted k ks'
  end.

Definition groupby_image_source (df : list entry) : list (string * list entry) :=
  let keys := foldr insert_sorted [] (x_image_source <$> df) in
  (fun k => (k, List.filter (fun x => String.eqb (x_image_source x) k) df)) <$> keys.

Section ImageProcessor.
Context `{!Builtins} `{!Scanner}.

(** [self.player_ids] and [self.year] *)
Variable player_ids : gmap string Z.
Variable year : Z.

(** [ImageProcessor._get_existing_data]; the DELETE is committed at once. *)
Definition _get_existing_data (d : db) (image_name : string)
  : db * option (list raw_bet) :=
  let df := List.filter (fun r => String.eqb (image_source r) image_name
                                  && negb (needs_review r))
                        (tbl_raw_ocr_bets d) in
  match df with
  | _ :: _ => (d, Some df)
  | [] =>
      (put_raw_ocr_bets d
         (List.filter (fun r => negb (String.eqb (image_source r) image_name))
                      (tbl_raw_ocr_bets d))
         (raw_seq d),
       None)
  end.

(** A cell as the value bound to a TEXT column. *)
Definition to_text (v : pyval) : option string :=
  if isna v then None else Some (py_str v).

(** The row that one iteration of the inner loop of [_save_to_database]
    binds to the INSERT; an exception while the values are computed
    ([float], [int]) skips the row. *)
Definition row_to_insert (needs_review : bool) (bet_entry : entry) : res raw_bet :=
  let b := x_bet bet_entry in
  let player_name := if negb (isna (e_player b)) then e_player b else NA in
  let player_id :=
    if truthy player_name then
      match player_name with VStr n => player_ids !! n | _ => None end
    else None in
  score ← (if negb (isna (e_score b)) then
             match py_float (e_score b) with
             | Some q => Ok (Some q)
             | None => Raise (ValueError "could not convert string to float")
             end
           else Ok None);
  odds ← (if negb (isna (e_odds b)) then
            match py_int (e_odds b) with
            | Some z => Ok (Some (inject_Z z))
            | None => Raise (ValueError "invalid literal for int()")
            end
          else Ok None);
  Ok {| id := 0;
        player_id := player_id;
        bet_type := to_text (e_bet_type b);
        score := score;
        date := to_text (e_date b);
        bet_line := to_text (e_bet_line b);
        odds := odds;
        image_source := x_image_source bet_entry;
        raw_text := x_raw_text bet_entry;
        read_players := x_read_players bet_entry;
        read_score_patterns := x_read_score_patterns bet_entry;
        is_processed := false;
        needs_review := needs_review;
        is_voided := false |}.

Definition save_bet (needs_review : bool) (d : db) (bet_entry : entry) : db :=
  match row_to_insert needs_review bet_entry with
  | Ok n => insert_or_ignore_raw d n
  | Raise _ => d
  end.

(** The body of the loop over images. *)
Definition save_image (d : db) (image : string * list entry) : db :=
  let '(image_name, image_df) := image in
  let '(needs_review, reasons) := _image_needs_review player_ids (x_bet <$> image_df) in
  foldl (save_bet needs_review) d image_df.

(** [ImageProcessor._save_to_database] *)
Definition _save_to_database (d : db) (cleaned_entries : list entry) : db :=
  match cleaned_entries with
  | [] => d
  | _ => foldl save_image d (groupby_image_source cleaned_entries)
  end.

(** [ImageProcessor.process_image]; the file path is the image name. *)
Definition process_image (d : db) (image_name : string) : db * processed :=
  let '(d, existing_data) := _get_existing_data d image_name in
  match existing_data with
  | Some df => (d, Existing df)
  | None =>
      match readtext image_name with
      | None => (d, Nothing)
      | Some raw_text =>
          if String.eqb raw_text EmptyString then (d, Nothing)
          else
            match _extract_bet_data raw_text image_name with
            | None => (d, Nothing)
            | Some [] => (d, Nothing)
            | Some extracted_data =>
                match clean_data year extracted_data with
                | Raise e => (d, Nothing)
                | Ok cleaned_entries =>
                    (_save_to_database d cleaned_entries, Cleaned cleaned_entries)
                end
            end
      end
  end.

End ImageProcessor.

(** ** Connections and transactions *)

(** An sqlite3 connection: the committed database and the database as the
    open transaction sees it. *)
Record conn : Type := {
  committed : db;
  working : db
}.

Definition connect (d : db) : conn := {| committed := d; working := d |}.

Definition commit (c : conn) : conn :=
  {| committed := working c; working := working c |}.

Definition rollback (c : conn) : conn :=
  {| committed := committed c; working := committed c |}.

(** A statement that writes *)
Definition execute (f : db -> db) (c : conn) : conn :=
  {| committed := committed c; working := f (working c) |}.

(** Code that uses a connection and may raise. *)
Definition M (A : Type) : Type := conn -> conn * res A.

#[global] Instance M_ret : MRet M := fun A a c => (c, Ok a).
#[global] Instance M_bind : MBind M := fun A B f m c =>
  match m c with
  | (c', Ok a) => f a c'
  | (c', Raise e) => (c', Raise e)
  end.

Definition lift {A} (r : res A) : M A := fun c => (c, r).
Definition query {A} (f : db -> A) : M A := fun c => (c, Ok (f (working c))).
Definition exec (f : db -> db) : M unit := fun c => (execute f c, Ok tt).

(** [self.conn.commit()] and [self.conn.rollback()] *)
Definition do_commit : M unit := fun c => (commit c, Ok tt).
Definition do_rollback : M unit := fun c => (rollback c, Ok tt).

(** [with self.conn: body]: commit when the body returns, roll back and
    re-raise when it raises. *)
Definition with_conn {A} (body : M A) : M A := fun c =>
  match body c with
  | (c', Ok a) => (commit c', Ok a)
  | (c', Raise e) => (rollback c', Raise e)
  end.

(** ** The settlement engine ([BetProcessor]) *)

(** The columns of [game_stats], in the order of the INSERT. *)
Definition stat_columns : list string :=
  [ "points"; "assists"; "rebounds"; "blocks"; "steals"; "turnovers";
    "three_pointers"; "par"; "pts_rebs"; "pts_asts"; "rebs_asts" ].

(** [d[k]] for each [k], [KeyError] on the first missing key *)
Definition dict_items (d : gmap string Q) (keys : list string) (e : exn)
  : res (list (string * Q)) :=
  res_mapM (fun k => match d !! k with
                     | Some v => Ok (k, v)
                     | None => Raise e
                     end) keys.

(** What the stats service answers for a player and a date. *)
Inductive api_reply : Type :=
  | GameLogEmpty
  | GameOn (api_stats : gmap string Q)
  | NoGame
  | ApiError (e : exn).

Definition bet_type_map : list (string * string) :=
  [ ("PTS", "points"); ("AST", "assists"); ("REB", "rebounds"); ("BLK", "blocks");
    ("STL", "steals"); ("TOV", "turnovers"); ("FG3M", "three_pointers") ].

(** [BetProcessor._standardize_stat_names] *)
Definition _standardize_stat_names (api_stats : gmap string Q) : res (gmap string Q) :=
  renamed ← res_mapM (fun kv : string * string =>
                        match api_stats !! kv.1 with
                        | Some v => Ok (kv.2, v)
                        | None => Raise KeyError
                        end) bet_type_map;
  let renamed_stats : gmap string Q := list_to_map renamed in
  let renamed_stats :=
    foldl (fun (m : gmap string Q) stat => <[stat := default 0%Q (m !! stat)]> m)
          renamed_stats ["points"; "assists"; "rebounds"] in
  let get k := default 0%Q (renamed_stats !! k) in
  let renamed_stats :=
    <["par" := (get "points" + get "rebounds" + get "assists")%Q]> renamed_stats in
  let renamed_stats :=
    <["pts_rebs" := (get "points" + get "rebounds")%Q]> renamed_stats in
  let renamed_stats :=
    <["pts_asts" := (get "points" + get "assists")%Q]> renamed_stats in
  let renamed_stats :=
    <["rebs_asts" := (get "rebounds" + get "assists")%Q]> renamed_stats in
  Ok renamed_stats.

Definition set_is_processed (r : raw_bet) : raw_bet :=
  {| id := id r; player_id := player_id r; bet_type := bet_type r; score := score r;
     date := date r; bet_line := bet_line r; odds := odds r;
     image_source := image_source r; raw_text := raw_text r;
     read_players := read_players r;
     read_score_patterns := read_score_patterns r;
     is_processed := true; needs_review := needs_review r;
     is_voided := is_voided r |}.

(** SQL [UPDATE raw_ocr_bets SET ... WHERE cond] *)
Definition update_raw (cond : raw_bet -> bool) (f : raw_bet -> raw_bet) (d : db) : db :=
  put_raw_ocr_bets d ((fun r => if cond r then f r else r) <$> tbl_raw_ocr_bets d)
                   (raw_seq d).

Definition score_float (s : option Q) : pyfloat :=
  match s with Some q => Fl q | None => NaN end.

Section BetProcessor.
Context `{!Builtins}.

(** The stats service: player id and date of the bet to the reply. *)
Variable nba_api : Z -> option string -> api_reply.

(** [BetProcessor._get_unprocessed_bets] *)
Definition _get_unprocessed_bets (d : db) : list raw_bet :=
  List.filter (fun r => negb (is_processed r) && negb (needs_review r)
                        && negb (is_voided r))
              (tbl_raw_ocr_bets d).

Definition same_player_date (pid : option Z) (dt : option string)
           (pid' : Z) (dt' : string) : bool :=
  sql_eq Z.eqb pid (Some pid') && sql_eq String.eqb dt (Some dt').

(** [BetProcessor._get_game_stats_id]: [fetchone()[0]] *)
Definition _get_game_stats_id (ocr_bet : raw_bet) (d : db) : res Z :=
  match List.find (fun g => same_player_date (player_id ocr_bet) (date ocr_bet)
                                             (gs_player_id g) (gs_date g))
                  (tbl_game_stats d) with
  | Some g => Ok (gs_id g)
  | None => Raise TypeError
  end.

(** [BetProcessor._get_cached_stats]; a NULL stat column makes [float]
    raise, which the function turns into [None]. *)
Definition _get_cached_stats (ocr_bet : raw_bet) (d : db) : option (gmap string Q) :=
  match List.find (fun g => same_player_date (player_id ocr_bet) (date ocr_bet)
                                             (gs_player_id g) (gs_date g))
                  (tbl_game_stats d) with
  | Some g =>
      match dict_items (gs_stats g) stat_columns TypeError with
      | Ok items => Some (list_to_map items)
      | Raise _ => None
      end
  | None => None
  end.

(** [BetProcessor._in_unplayed_bets] *)
Definition _in_unplayed_bets (ocr_bet : raw_bet) (d : db) : bool :=
  existsb (fun r =>
             sql_eq Z.eqb (player_id r) (player_id ocr_bet)
             && sql_eq String.eqb (date r) (date ocr_bet)
             && existsb (fun u => same_player_date (player_id r) (date r)
                                                   (up_player_id u) (up_date u))
                        (tbl_unplayed_bets d))
          (tbl_raw_ocr_bets d).

(** [BetProcessor._get_api_stats]: a transport error ends in [quit()],
    every other exception is raised again. *)
Definition _get_api_stats (ocr_bet : raw_bet) : res (option (gmap string Q)) :=
  match player_id ocr_bet with
  | None => Raise (ValueError "cannot convert float NaN to integer")
  | Some pid =>
      match nba_api pid (date ocr_bet) with
      | ApiError e => if is_transport_error e then Raise SystemExit else Raise e
      | GameLogEmpty => Raise (ValueError "No API stats found")
      | GameOn api_stats => s ← _standardize_stat_names api_stats; Ok (Some s)
      | NoGame => Ok None
      end
  end.

(** [BetProcessor._get_player_game_stats] *)
Definition _get_player_game_stats (ocr_bet : raw_bet)
  : M (bool * option (gmap string Q)) :=
  cached_stats ← query (_get_cached_stats ocr_bet);
  match cached_stats with
  | Some s => mret (true, Some s)
  | None =>
      unplayed ← query (_in_unplayed_bets ocr_bet);
      if (unplayed : bool) then mret (true, None)
      else s ← lift (_get_api_stats ocr_bet); mret (false, s)
  end.

(** [BetProcessor.insert_into_game_stats] *)
Definition insert_into_game_stats (ocr_bet : raw_bet) (game_stats : gmap string Q)
  : M unit :=
  with_conn (
    items ← lift (dict_items game_stats stat_columns KeyError);
    d ← query (fun d => d);
    match player_id ocr_bet, date ocr_bet with
    | Some pid, Some dt =>
        if existsb (fun g => Z.eqb (gs_player_id g) pid && String.eqb (gs_date g) dt)
                   (tbl_game_stats d)
        then lift (Raise IntegrityError)
        else exec (fun d =>
               put_game_stats d
                 (tbl_game_stats d ++
                    [ {| gs_id := gs_seq d + 1; gs_player_id := pid; gs_date := dt;
                         gs_stats := list_to_map items |} ])
                 (gs_seq d + 1))
    | _, _ => lift (Raise IntegrityError)
    end).

(** [BetProcessor.insert_into_unplayed_bets]: INSERT OR IGNORE *)
Definition insert_into_unplayed_bets (ocr_bet : raw_bet) : M unit :=
  with_conn (
    exec (fun d =>
      match player_id ocr_bet, date ocr_bet with
      | Some pid, Some dt =>
          if existsb (fun u => Z.eqb (up_raw_bet_id u) (id ocr_bet)) (tbl_unplayed_bets d)
          then d
          else put_unplayed_bets d
                 (tbl_unplayed_bets d ++
                    [ {| up_raw_bet_id := id ocr_bet; up_player_id := pid;
                         up_date := dt |} ])
      | _, _ => d
      end)).

(** The constraints of [bet_results] on the row to insert. *)
Definition bet_results_accepts (d : db) (row : bet_result) : bool :=
  negb (existsb (fun b => Z.eqb (raw_bet_id b) (raw_bet_id row)) (tbl_bet_results d))
  && bool_decide (is_Some (br_player_id row))
  && bool_decide (is_Some (br_bet_type row))
  && (String.eqb (result row) "Win" || String.eqb (result row) "Loss")
  && match result_delta row with Fl _ => true | NaN => false end
  && (String.eqb (over_under row) "Over" || String.eqb (over_under row) "Under").

(** [BetProcessor.insert_into_bet_results] *)
Definition insert_into_bet_results (ocr_bet : raw_bet) (game_stats : gmap string Q)
  : M unit :=
  '(result, result_delta, stat_result, line_value, over_under) ←
     lift (_calculate_results ocr_bet game_stats);
  score_range ← lift (_calculate_score_range (score_float (score ocr_bet)));
  game_stats_id ← (fun c => (c, _get_game_stats_id ocr_bet (working c)));
  with_conn (
    d ← query (fun d => d);
    let row := {| raw_bet_id := id ocr_bet; br_player_id := player_id ocr_bet;
                  game_stats_id := game_stats_id; br_bet_type := bet_type ocr_bet;
                  result := result; result_delta := result_delta;
                  score_range := score_range; over_under := over_under;
                  stat_result := stat_result; line_value := line_value |} in
    if bet_results_accepts d row
    then exec (fun d => put_bet_results d (tbl_bet_results d ++ [row]))
    else lift (Raise IntegrityError)).

(** [BetProcessor._mark_bet_processed] *)
Definition _mark_bet_processed (ocr_bet : raw_bet) : M unit :=
  exec (update_raw (fun r => Z.eqb (id r) (id ocr_bet)) set_is_processed).

(** The body of the [try] in the loop of [_process_unprocessed_bets]. *)
Definition process_bet (ocr_bet : raw_bet) : M unit :=
  '(in_db, game_stats) ← _get_player_game_stats ocr_bet;
  match game_stats with
  | None =>
      insert_into_unplayed_bets ocr_bet;;
      _mark_bet_processed ocr_bet
  | Some game_stats =>
      (if (in_db : bool) then mret tt
       else insert_into_game_stats ocr_bet game_stats);;
      insert_into_bet_results ocr_bet game_stats;;
      _mark_bet_processed ocr_bet
  end.

(** [try: body except Exception: handler] *)
Definition try_except {A} (body : M A) (handler : exn -> M A) : M A := fun c =>
  match body c with
  | (c', Ok a) => (c', Ok a)
  | (c', Raise e) => if is_Exception e then handler e c' else (c', Raise e)
  end.

(** The loop of [_process_unprocessed_bets] over the rows fetched at its
    start. *)
Fixpoint process_bets_loop (bets : list raw_bet) : M unit :=
  match bets with
  | [] => mret tt
  | ocr_bet :: rest =>
      try_except (process_bet ocr_bet) (fun _ => mret tt);;
      process_bets_loop rest
  end.

(** [BetProcessor._process_unprocessed_bets] *)
Definition _process_unprocessed_bets : M unit :=
  unprocessed_ocr_bets ← query _get_unprocessed_bets;
  process_bets_loop unprocessed_ocr_bets.

(** [BetProcessor.process_new_bets]; [validate_data_integrity] only reads
    and logs. *)
Definition process_new_bets : M bool :=
  try_except
    (_process_unprocessed_bets;;
     do_commit;;
     mret true)
    (fun _ => do_rollback;; mret false).

(** A settlement run on the database [d], from opening the connection to
    the end of the process: the database that remains is the committed
    one. *)
Definition settlement_run (d : db) : db * res bool :=
  let '(c, r) := process_new_bets (connect d) in (committed c, r).

End BetProcessor.

(** ** The review import ([ReviewHandler]) *)

(** One row of the reviewed CSV file. *)
Record csv_row : Type := {
  c_id : Z;
  c_bet : bet_entry
}.

Definition set_is_voided (r : raw_bet) : raw_bet :=
  {| id := id r; player_id := player_id r; bet_type := bet_type r; score := score r;
     date := date r; bet_line := bet_line r; odds := odds r;
     image_source := image_source r; raw_text := raw_text r;
     read_players := read_players r;
     read_score_patterns := read_score_patterns r;
     is_processed := is_processed r; needs_review := needs_review r;
     is_voided := true |}.

(** What the [odds] column keeps of a cell bound to it as it is: an
    integer, a float with an integral value and a text that reads as an
    integer are stored as that integer, any other float as the REAL it
    is. *)
Definition stored_odds `{!Builtins} (v : pyval) : option Q :=
  match v with
  | NA => None
  | VInt z => Some (inject_Z z)
  | VFloat q =>
      if Qeq_bool q (inject_Z (Qfloor q)) then Some (inject_Z (Qfloor q))
      else Some q
  | VStr s => inject_Z <$> int_of_str s
  end.

(** The SET clause of the UPDATE that accepts a reviewed row. *)
Definition set_reviewed (pid : option Z) (bt : option string) (sc : option Q)
           (bl : option string) (od : option Q) (r : raw_bet) : raw_bet :=
  {| id := id r; player_id := pid; bet_type := bt; score := sc;
     date := date r; bet_line := bl; odds := od;
     image_source := image_source r; raw_text := raw_text r;
     read_players := read_players r;
     read_score_patterns := read_score_patterns r;
     is_processed := is_processed r; needs_review := false;
     is_voided := is_voided r |}.

Section ReviewHandler.
Context `{!Builtins}.

(** [SELECT nba_api_id FROM players WHERE name = ?] then [fetchone()[0]]:
    [TypeError] when no row comes back. *)
Definition select_player_id (name : pyval) (d : db) : res Z :=
  match name with
  | VStr n =>
      match List.find (fun p => String.eqb (p_name p) n) (tbl_players d) with
      | Some p => Ok (nba_api_id p)
      | None => Raise TypeError
      end
  | _ => Raise TypeError
  end.

(** [ReviewHandler.bet_needs_review] *)
Definition bet_needs_review (d : db) (bet_entry : bet_entry)
  : res (bool * gset string) :=
  let reasons : gset string := ∅ in
  let player_name := if negb (isna (e_player bet_entry)) then e_player bet_entry else NA in
  let reasons :=
    if negb (truthy player_name) then reasons ∪ {[ "Missing player name" ]}
    else reasons in
  reasons ←
    (if truthy player_name then
       player_id ← select_player_id player_name d;
       if Z.eqb player_id 0
       then Ok (reasons ∪ {[ "Player not found: " +:+ py_str player_name ]})
       else Ok reasons
     else Ok reasons);
  let reasons := check_bet_type bet_entry reasons in
  let reasons := check_score bet_entry reasons in
  let reasons := check_bet_line bet_entry reasons in
  let reasons := check_odds bet_entry reasons in
  let reasons := check_date bet_entry reasons in
  Ok (bool_decide (reasons ≠ ∅), reasons).

(** The rows that currently need review. *)
Definition flagged (r : raw_bet) : bool := needs_review r && negb (is_voided r).

(** [set(db_df['id']) - set(csv_df['id'])] *)
Definition deleted_ids (d : db) (csv_df : list csv_row) : gset Z :=
  list_to_set (id <$> List.filter flagged (tbl_raw_ocr_bets d))
  ∖ list_to_set (c_id <$> csv_df).

(** The row that the UPDATE of an accepted CSV row makes of the table
    row [r].  The cells of the CSV row are bound as they are, and each
    column stores what its type makes of the cell. *)
Definition reviewed (player_id : Z) (bet : csv_row) (r : raw_bet) : raw_bet :=
  set_reviewed (Some player_id)
               (to_text (e_bet_type (c_bet bet)))
               (py_float (e_score (c_bet bet)))
               (to_text (e_bet_line (c_bet bet)))
               (stored_odds (e_odds (c_bet bet))) r.

(** Would the UPDATE break [UNIQUE(player_id, date, bet_type, score)]?
    It does when a row that it rewrites gets the key of another row;
    [id] being the primary key, another row is a row with another id. *)
Definition review_conflict (player_id : Z) (bet : csv_row) (d : db) : bool :=
  existsb (fun r =>
             Z.eqb (id r) (c_id bet)
             && existsb (fun r' => negb (Z.eqb (id r') (c_id bet))
                                   && raw_unique_conflict (reviewed player_id bet r) r')
                        (tbl_raw_ocr_bets d))
          (tbl_raw_ocr_bets d).

(** The body of the [try] in the loop over the CSV rows.  An UPDATE that
    breaks the UNIQUE constraint raises [IntegrityError] and changes
    nothing. *)
Definition review_row (bet : csv_row) : M unit :=
  '(needs_review, reasons) ←
     (fun c => (c, bet_needs_review (working c) (c_bet bet)));
  player_id ← (fun c => (c, select_player_id (e_player (c_bet bet)) (working c)));
  if (needs_review : bool) then mret tt
  else
    conflict ← query (review_conflict player_id bet);
    if (conflict : bool) then lift (Raise IntegrityError)
    else exec (update_raw (fun r => Z.eqb (id r) (c_id bet))
                          (reviewed player_id bet)).

Fixpoint review_rows (csv_df : list csv_row) : M unit :=
  match csv_df with
  | [] => mret tt
  | bet :: rest =>
      try_except (review_row bet) (fun _ => mret tt);;
      review_rows rest
  end.

(** [ReviewHandler.update_reviewed_entries]; [input_file] is [None] when
    the file is found in neither place, else the rows read from it.  The
    export that follows the import writes files only. *)
Definition update_reviewed_entries (input_file : option (list csv_row)) (d : db) : db :=
  match input_file with
  | None => d
  | Some [] => d
  | Some csv_df =>
      let body : M unit :=
        with_conn (
          deleted ← query (fun d => deleted_ids d csv_df);
          (if bool_decide (deleted ≠ ∅)
           then exec (update_raw (fun r => bool_decide (id r ∈ deleted)) set_is_voided)
           else mret tt);;
          review_rows csv_df;;
          do_commit) in
      committed (body (connect d)).1
  end.

End ReviewHandler.

(** ** A concrete reading of the library routines

    Decimal numerals for [float] and [int], ISO dates for [to_datetime],
    and the shortest decimal expansion for the text of a float. *)

Definition digit_val (c : ascii) : Z := Z.of_nat (nat_of_ascii c) - 48.

Fixpoint digits_value (acc : Z) (s : string) : option Z :=
  match s with
  | EmptyString => Some acc
  | String c r =>
      if is_digit c then digits_value (10 * acc + digit_val c) r else None
  end.

Definition parse_nat (s : string) : option Z :=
  match s with EmptyString => None | _ => digits_value 0 s end.

Definition split_sign (s : string) : bool * string :=
  match s with
  | String c r =>
      if Ascii.eqb c "-"%char then (true, r)
      else if Ascii.eqb c "+"%char then (false, r)
      else (false, s)
  | EmptyString => (false, s)
  end.

Definition parse_int (s : string) : option Z :=
  let '(neg, r) := split_sign s in
  z ← parse_nat r; Some (if (neg : bool) then - z else z).

(** The text before the first [sep], and the text after it if there is one. *)
Fixpoint split_at (sep : ascii) (s : string) : string * option string :=
  match s with
  | EmptyString => (EmptyString, None)
  | String c r =>
      if Ascii.eqb c sep then (EmptyString, Some r)
      else let '(a, b) := split_at sep r in (String c a, b)
  end.

Definition parse_decimal (s : string) : option Q :=
  let '(neg, r) := split_sign s in
  let sgn (z : Z) := if (neg : bool) then - z else z in
  match split_at "."%char r with
  | (ip, None) => z ← parse_nat ip; Some (inject_Z (sgn z))
  | (ip, Some fp) =>
      match ip, fp with
      | EmptyString, EmptyString => None
      | _, _ =>
          i ← digits_value 0 ip;
          f ← digits_value 0 fp;
          let scale := 10 ^ Z.of_nat (String.length fp) in
          Some (Qred (Qmake (sgn (i * scale + f)) (Z.to_pos scale)))
      end
  end.

Fixpoint frac_digits (fuel : nat) (r : Q) : string :=
  match fuel with
  | O => EmptyString
  | S fuel' =>
      let r10 := (r * 10)%Q in
      let d := Qfloor r10 in
      let r' := Qred (r10 - inject_Z d) in
      String (ascii_of_nat (48 + Z.to_nat d))
             (if Qeq_bool r' 0 then EmptyString else frac_digits fuel' r')
  end.

Definition decimal_repr (q : Q) : string :=
  let a := Qabs q in
  let ip := Qfloor a in
  (if Qltb q 0 then "-" else EmptyString)
  +:+ pretty ip +:+ "." +:+ frac_digits 17 (Qred (a - inject_Z ip)).

Definition is_leap (y : Z) : bool :=
  ((y mod 4 =? 0)%Z && negb (y mod 100 =? 0)%Z) || (y mod 400 =? 0)%Z.

Definition days_in_month (y m : Z) : Z :=
  if (m =? 2)%Z then (if is_leap y then 29 else 28)
  else if (m =? 4)%Z || (m =? 6)%Z || (m =? 9)%Z || (m =? 11)%Z then 30
  else 31.

Definition valid_ymd (y m d : Z) : bool :=
  (1 <=? y)%Z && (1 <=? m)%Z && (m <=? 12)%Z && (1 <=? d)%Z
  && (d <=? days_in_month y m)%Z.

Definition pad (width : nat) (z : Z) : string :=
  let s := pretty z in
  String.concat EmptyString (replicate (width - String.length s) "0") +:+ s.

Definition short (n : nat) (s : string) : bool :=
  (1 <=? String.length s)%nat && (String.length s <=? n)%nat.

(** [M/D/YYYY] to [YYYY-MM-DD] *)
Definition parse_mdY (s : string) : option string :=
  match split_at "/"%char s with
  | (ms, Some r) =>
      match split_at "/"%char r with
      | (ds, Some ys) =>
          m ← parse_nat ms; d ← parse_nat ds; y ← parse_nat ys;
          if short 2 ms && short 2 ds && (String.length ys =? 4)%nat
             && valid_ymd y m d
          then Some (pad 4 y +:+ "-" +:+ pad 2 m +:+ "-" +:+ pad 2 d)
          else None
      | _ => None
      end
  | _ => None
  end.

(** [YYYY-MM-DD] *)
Definition iso_date_ok (s : string) : bool :=
  match split_at "-"%char s with
  | (ys, Some r) =>
      match split_at "-"%char r with
      | (ms, Some ds) =>
          match parse_nat ys, parse_nat ms, parse_nat ds with
          | Some y, Some m, Some d =>
              (String.length ys =? 4)%nat && (String.length ms =? 2)%nat
              && (String.length ds =? 2)%nat && valid_ymd y m d
          | _, _, _ => false
          end
      | _ => false
      end
  | _ => false
  end.

Definition decimal_builtins : Builtins := {|
  float_of_str := parse_decimal;
  int_of_str := parse_int;
  to_datetime_ok := iso_date_ok;
  repr_float := decimal_repr;
  astype_Int64 := parse_int;
  strptime_mdY := parse_mdY
|}.

(** ** Statements about the settlement arithmetic *)

(** The loss delta that [_calculate_results] computes from integer odds. *)
Definition loss_delta (z : Z) : pyfloat :=
  if (0 <? z)%Z
  then Fl (- inject_Z (np_round (100 / (inject_Z z / 100))))
  else Fl (inject_Z z).

(** The delta of a lost bet as [_calculate_results] computes it from the
    [odds] column of the bet. *)
Definition loss_delta_of (o : option Q) : res pyfloat :=
  match o with
  | None => Ok NaN
  | Some odds =>
      if Qltb 0 odds then
        d ← py_div odds 100;
        q ← py_div 100 (nearest_double d);
        Ok (Fl (- inject_Z (np_round q)))
      else Ok (Fl odds)
  end.


Section SettlementSpec.
Context `{!Builtins}.

(** Over wins above the line, under wins below it. *)
Definition win_condition (l : string) (s L : Q) : Prop :=
  (startswith l "o" = true /\ (L < s)%Q)
  \/ (startswith l "u" = true /\ (s < L)%Q).

(** The strict opposite. *)
Definition loss_condition (l : string) (s L : Q) : Prop :=
  (startswith l "o" = true /\ (s < L)%Q)
  \/ (startswith l "u" = true /\ (L < s)%Q).

Definition over_under_of (l : string) : string :=
  if startswith l "o" then "Over" else "Under".

(** What a bet looks like once its stat value, line text and line value
    are known. *)
Definition reads (ocr_bet : raw_bet) (game_stats : gmap string Q)
           (s : Q) (l : string) (L : Q) : Prop :=
  (exists t, bet_type ocr_bet = Some t /\ game_stats !! t = Some s)
  /\ bet_line ocr_bet = Some l
  /\ float_of_str (str_tail l) = Some L.


End SettlementSpec.



(** ** Statements about the classifier *)

Inductive field : Type :=
  | FPlayer | FBetType | FScore | FBetLine | FOdds | FDate.

Section ClassifierSpec.
Context `{!Builtins}.
Variable player_ids : gmap string Z.

(** The rule of each field: a resolved player of the roster, a canonical
    bet type, a number within the score range, a line of the form [o] or
    [u], digits, [.5], an integer within the odds range, a date that
    parses. *)
Definition field_valid (f : field) (bet : bet_entry) : Prop :=
  match f with
  | FPlayer =>
      exists n, e_player bet = VStr n /\ n <> EmptyString
                /\ is_Some (player_ids !! n)
  | FBetType =>
      exists t, e_bet_type bet = VStr t /\ t ∈ TYPE_REPLACEMENTS_values
  | FScore =>
      isna (e_score bet) = false
      /\ exists q, py_float (e_score bet) = Some q /\ (20 <= q)%Q /\ (q <= 100)%Q
  | FBetLine =>
      isna (e_bet_line bet) = false
      /\ match_bet_line (py_str (e_bet_line bet)) = true
  | FOdds =>
      isna (e_odds bet) = false
      /\ exists z, py_int (e_odds bet) = Some z /\ (-1000 <= z <= 1000)%Z
  | FDate =>
      isna (e_date bet) = false /\ py_to_datetime_ok (e_date bet) = true
  end.

(** The reason that reports a violation of the rule of a field. *)
Definition field_reason (f : field) (bet : bet_entry) : string :=
  match f with
  | FPlayer =>
      if truthy (e_player bet) then "Player not found: " +:+ py_str (e_player bet)
      else "Missing player name"
  | FBetType =>
      if truthy (e_bet_type bet) then "Invalid bet type: " +:+ py_str (e_bet_type bet)
      else "Missing bet type"
  | FScore =>
      if isna (e_score bet) then "Missing score"
      else match py_float (e_score bet) with
           | None => "Invalid score format: " +:+ py_str (e_score bet)
           | Some q => "Score out of expected range [" +:+ repr_float 20 +:+ ","
                       +:+ repr_float 100 +:+ "]: " +:+ repr_float q
           end
  | FBetLine =>
      if isna (e_bet_line bet) then "Missing bet line"
      else "Invalid bet line format: " +:+ py_str (e_bet_line bet)
  | FOdds =>
      if isna (e_odds bet) then "Missing odds"
      else match py_int (e_odds bet) with
           | None => "Invalid odds format: " +:+ py_str (e_odds bet)
           | Some z => "Odds out of expected range [-1000,1000]: " +:+ pretty z
           end
  | FDate =>
      if isna (e_date bet) then "Missing date"
      else "Invalid date format: " +:+ py_str (e_date bet)
  end.

End ClassifierSpec.

(** ** Statements about extraction *)

Section ExtractionSpec.
Context `{!Scanner}.

(** The player names of a text after [NAME_REPLACEMENTS]. *)
Definition players_read (raw_text : string) : list string :=
  (fun item => default item (dict_get NAME_REPLACEMENTS item))
    <$> _find_players_in_text raw_text.

(** Padding as the specification states it: every score line and every
    player name that was read keeps its place in the rows. *)
Definition padding_as_stated (raw_text image_name : string) : Prop :=
  forall extracted,
    _extract_bet_data raw_text image_name = Some extracted ->
    (forall i item,
       findall_score_lines raw_text !! i = Some item ->
       exists x, extracted !! i = Some x
                 /\ e_score (x_bet x) = VStr item.1.1
                 /\ e_bet_line (x_bet x) = VStr item.1.2
                 /\ e_odds (x_bet x) = VStr item.2)
    /\ (forall i name,
          players_read raw_text !! i = Some name ->
          exists x, extracted !! i = Some x /\ e_player (x_bet x) = VStr name).

End ExtractionSpec.

(** ** Statements about the clean-up *)

Section CleaningSpec.
Context `{!Builtins}.

(** The odds text of the row does not convert to an integer. *)
Definition odds_conversion_fails (x : entry) : Prop :=
  exists s, e_odds (x_bet x) = VStr s
            /\ astype_Int64 (fix_inner_4 (fix_leading_minus (remove_spaces s))) = None.

(** The date text of the row, with the year, is not a date. *)
Definition date_conversion_fails (year : Z) (x : entry) : Prop :=
  exists s, e_date (x_bet x) = VStr s
            /\ strptime_mdY (s +:+ "/" +:+ pretty year) = None.

(** A failing conversion as the specification states it: the frame is
    still returned, with every row in it. *)
Definition failure_degrades_field_as_stated (year : Z) (df : list entry) : Prop :=
  (exists x, x ∈ df /\ (odds_conversion_fails x \/ date_conversion_fails year x)) ->
  exists cleaned, clean_data year df = Ok cleaned /\ length cleaned = length df.

End CleaningSpec.

(** ** Statements about saving *)

Section SavingSpec.
Context `{!Builtins}.
Variable player_ids : gmap string Z.

(** The verdict on the rows of [df] that belong to the image [k]. *)
Definition image_flag (df : list entry) (k : string) : bool :=
  (_image_needs_review player_ids
     (x_bet <$> List.filter (fun x => String.eqb (x_image_source x) k) df)).1.

End SavingSpec.

(** Every bet of the image is saved with the shared flag, as stated: once
    [process_image] has cleaned and saved the frame of an image, each row
    of the frame is in the table, as the row that the INSERT binds under
    the verdict on the image. *)
Definition image_bets_saved_as_stated `{!Builtins} `{!Scanner}
           (player_ids : gmap string Z) (year : Z) (d : db) (image_name : string)
  : Prop :=
  forall d' cleaned_entries x,
    process_image player_ids year d image_name = (d', Cleaned cleaned_entries) ->
    x ∈ cleaned_entries ->
    exists n r,
      row_to_insert player_ids
        (existsb (fun b => (_bet_needs_review player_ids b).1)
                 (x_bet <$> cleaned_entries)) x = Ok n
      /\ r ∈ tbl_raw_ocr_bets d'
      /\ r = with_id n (id r).

(** ** Statements about runs *)

(** [m] keeps [P] true of both snapshots of the connection. *)
Definition preserves {A} (P : db -> Prop) (m : M A) : Prop :=
  forall c, P (committed c) -> P (working c) ->
    P (committed (m c).1) /\ P (working (m c).1).

(** Every row of [bet_results] was already in [orig] or is a win or a loss. *)
Definition results_settled (orig : list bet_result) (d : db) : Prop :=
  forall row, row ∈ tbl_bet_results d ->
    row ∈ orig \/ result row = "Win" \/ result row = "Loss".

(** The ids of the rows of [raw_ocr_bets], in table order. *)
Definition raw_ids (d : db) : list Z := id <$> tbl_raw_ocr_bets d.

(** [d'] has the rows of [d] that it kept and rows with ids that [d]
    never used. *)
Definition only_adds_fresh (d d' : db) : Prop :=
  (raw_seq d <= raw_seq d')%Z
  /\ forall r, r ∈ tbl_raw_ocr_bets d' ->
       r ∈ tbl_raw_ocr_bets d \/ (raw_seq d < id r)%Z.

(** The ids in use are distinct and none exceeds the counter. *)
Definition ids_well_formed (d : db) : Prop :=
  NoDup (raw_ids d) /\ forall r, r ∈ tbl_raw_ocr_bets d -> (id r <= raw_seq d)%Z.

(** Row existence as the specification states it, for the extraction of
    one image: every row of the table is still there afterwards. *)
Definition rows_survive_as_stated (d d' : db) : Prop :=
  forall r, r ∈ tbl_raw_ocr_bets d -> id r ∈ raw_ids d'.

(** Voiding as the specification states it, for the import of the rows
    [csv_df]: every flagged row whose id is not among them ends up
    voided. *)
Definition voiding_as_stated `{!Builtins} (csv_df : list csv_row) (d : db) : Prop :=
  forall r,
    r ∈ tbl_raw_ocr_bets d -> flagged r = true -> id r ∉ (c_id <$> csv_df) ->
    exists r', r' ∈ tbl_raw_ocr_bets (update_reviewed_entries (Some csv_df) d)
               /\ id r' = id r /\ is_voided r' = true.

(** ** Sample data *)

Definition sample_bet (line : string) (o : Z) : raw_bet :=
  {| id := 1; player_id := Some 2544; bet_type := Some "points";
     score := Some (51 # 2); date := Some "2025-02-14";
     bet_line := Some line; odds := Some (inject_Z o);
     image_source := "slip1.png"; raw_text := "raw";
     read_players := None; read_score_patterns := None;
     is_processed := false; needs_review := false; is_voided := false |}.

Definition sample_stats (points : Q) : gmap string Q := {[ "points" := points ]}.

Definition sample_player_ids : gmap string Z :=
  {[ "LeBron James" := 2544%Z; "Stephen Curry" := 201939%Z ]}.

Definition sample_entry (score : pyval) : bet_entry :=
  {| e_player := VStr "LeBron James"; e_bet_type := VStr "points";
     e_score := score; e_bet_line := VStr "o21.5"; e_odds := VInt (-150);
     e_date := VStr "2025-02-14" |}.

(** Three slips as the OCR reader and the scans see them: a clean one, one
    whose date is the 30th of February, and one on which a second player
    name was read without a second score line. *)
Definition slip1_text : string := "2/14 Points LeBron James +25.50% o21.5 -150".
Definition slip2_text : string := "2/30 Points LeBron James +25.50% o21.5 -150".
Definition slip3_text : string :=
  "2/14 Points LeBron James +25.50% o21.5 -150 Stephen Curry".

Definition is_slip (t : string) : bool :=
  String.eqb t slip1_text || String.eqb t slip2_text || String.eqb t slip3_text.

Definition sample_scanner : Scanner := {|
  readtext f :=
    if String.eqb f "slip1.png" then Some slip1_text
    else if String.eqb f "slip2.png" then Some slip2_text
    else if String.eqb f "slip3.png" then Some slip3_text
    else None;
  findall_dates t :=
    if String.eqb t slip2_text then ["2/30"]
    else if is_slip t then ["2/14"] else [];
  findall_score_lines t :=
    if is_slip t then [("+25.50%", "o21.5", "-150")] else [];
  _find_bet_type t := if is_slip t then Some "Points" else None;
  _find_players_in_text t :=
    if String.eqb t slip3_text then ["LeBron James"; "Stephen Curry"]
    else if is_slip t then ["LeBron James"] else []
|}.

Definition empty_db : db :=
  {| tbl_players := [ {| p_name := "LeBron James"; nba_api_id := 2544;
                         is_active := true |} ];
     tbl_raw_ocr_bets := []; raw_seq := 0;
     tbl_game_stats := []; gs_seq := 0;
     tbl_bet_results := []; tbl_unplayed_bets := [] |}.

Definition sample_image_run (d : db) (image_name : string) : db * processed :=
  @process_image decimal_builtins sample_scanner sample_player_ids 2025 d image_name.

(** The table and the frame after [slip3.png] has been processed. *)
Definition slip3_db : db := (sample_image_run empty_db "slip3.png").1.

Definition slip3_cleaned : list entry :=
  match (sample_image_run empty_db "slip3.png").2 with
  | Cleaned cleaned_entries => cleaned_entries
  | _ => []
  end.

Definition slip3_rows : list raw_bet := tbl_raw_ocr_bets slip3_db.

(** The table and the frame after [slip1.png] has been processed, and
    the row that the INSERT binds for its bet. *)
Definition slip1_db : db := (sample_image_run empty_db "slip1.png").1.

Definition slip1_cleaned : list entry :=
  match (sample_image_run empty_db "slip1.png").2 with
  | Cleaned cleaned_entries => cleaned_entries
  | _ => []
  end.

Definition slip1_row : raw_bet :=
  match slip1_cleaned with
  | x :: _ =>
      match @row_to_insert decimal_builtins sample_player_ids false x with
      | Ok n => n
      | Raise _ => sample_bet EmptyString 0
      end
  | [] => sample_bet EmptyString 0
  end.

(** A scanner that reads the slip of [slip1.png] from a second file as
    well, as when a slip is photographed twice. *)

Definition twice_scanner : Scanner := {|
  readtext f :=
    if String.eqb f "slip1_again.png" then Some slip1_text
    else @readtext sample_scanner f;
  findall_dates := @findall_dates sample_scanner;
  findall_score_lines := @findall_score_lines sample_scanner;
  _find_bet_type := @_find_bet_type sample_scanner;
  _find_players_in_text := @_find_players_in_text sample_scanner
|}.

(** The frame of the second photograph. *)
Definition slip1_again_cleaned : list entry :=
  match @process_image decimal_builtins twice_scanner sample_player_ids 2025
          slip1_db "slip1_again.png" with
  | (_, Cleaned cleaned_entries) => cleaned_entries
  | _ => []
  end.

(** The rows extracted from the text of [slip3.png]. *)
Definition slip3_extracted : list entry :=
  default [] (@_extract_bet_data sample_scanner slip3_text "slip3.png").

(** The rows extracted from the text of [slip2.png]. *)
Definition slip2_extracted : list entry :=
  default [] (@_extract_bet_data sample_scanner slip2_text "slip2.png").

(** A reviewed file that still lists the second row of [slip3.png] and no
    longer lists the first. *)
Definition sample_csv : list csv_row :=
  [ {| c_id := 2; c_bet := sample_entry NA |} ].

(** Two bets ready for settlement; the stats service answers for the
    first player and times out for the second. *)
Definition second_bet : raw_bet :=
  {| id := 2; player_id := Some 201939; bet_type := Some "points";
     score := Some (61 # 2); date := Some "2025-02-14";
     bet_line := Some "u24.5"; odds := Some (inject_Z 120);
     image_source := "slip4.png"; raw_text := "raw";
     read_players := None; read_score_patterns := None;
     is_processed := false; needs_review := false; is_voided := false |}.

Definition two_bets_db : db :=
  {| tbl_players :=
       [ {| p_name := "LeBron James"; nba_api_id := 2544; is_active := true |};
         {| p_name := "Stephen Curry"; nba_api_id := 201939; is_active := true |} ];
     tbl_raw_ocr_bets := [ sample_bet "o21.5" (-150); second_bet ]; raw_seq := 2;
     tbl_game_stats := []; gs_seq := 0;
     tbl_bet_results := []; tbl_unplayed_bets := [] |}.

Definition game_log_row : gmap string Q :=
  list_to_map [ ("PTS", 25%Q); ("AST", 7%Q); ("REB", 8%Q); ("BLK", 1%Q);
                ("STL", 2%Q); ("TOV", 3%Q); ("FG3M", 2%Q) ].

Definition sample_api (pid : Z) (dt : option string) : api_reply :=
  if Z.eqb pid 2544 then GameOn game_log_row else ApiError Timeout.

Definition timeout_run : db * res bool :=
  @settlement_run decimal_builtins sample_api two_bets_db.

(** * Statements about further code *)

(** The stat dictionary of [game_log_row]. *)
Definition sample_game_stats : gmap string Q :=
  match _standardize_stat_names game_log_row with
  | Ok stats => stats
  | Raise _ => ∅
  end.

Definition after_sample_insert : conn :=
  (insert_into_game_stats (sample_bet "o21.5" (-150)) sample_game_stats
     (connect two_bets_db)).1.

(** ** What a settlement run writes *)

(** What holds when [m] returns and when it raises, given [Pre] before. *)
Definition hoare {A} (Pre : conn -> Prop) (m : M A)
           (Post : A -> conn -> Prop) (Exc : exn -> conn -> Prop) : Prop :=
  forall c, Pre c ->
    match m c with
    | (c', Ok a) => Post a c'
    | (c', Raise e) => Exc e c'
    end.

(** The bet has a row in [bet_results] or in [unplayed_bets]. *)
Definition has_record (d : db) (k : Z) : Prop :=
  (exists b, b ∈ tbl_bet_results d /\ raw_bet_id b = k)
  \/ (exists u, u ∈ tbl_unplayed_bets d /\ up_raw_bet_id u = k).

(** The four writes of a settlement run, for the candidates [cands]: a
    new [game_stats] row for the player and date of a candidate that had
    none, an [unplayed_bets] row for a candidate that had none, a
    [bet_results] row that [_calculate_results] gives for a candidate, that
    refers to a row of [game_stats] and that the table accepts, and the
    processed flag of a candidate that has its record (or has no date). *)
Inductive settle_step `{!Builtins} (cands : list raw_bet) (d : db) : db -> Prop :=
  | step_game_stats bet g :
      bet ∈ cands ->
      player_id bet = Some (gs_player_id g) -> date bet = Some (gs_date g) ->
      existsb (fun g' => Z.eqb (gs_player_id g') (gs_player_id g)
                         && String.eqb (gs_date g') (gs_date g))
              (tbl_game_stats d) = false ->
      gs_id g = (gs_seq d + 1)%Z ->
      settle_step cands d
        (put_game_stats d (tbl_game_stats d ++ [g]) (gs_seq d + 1))
  | step_unplayed bet pid dt :
      bet ∈ cands -> player_id bet = Some pid -> date bet = Some dt ->
      existsb (fun u => Z.eqb (up_raw_bet_id u) (id bet))
              (tbl_unplayed_bets d) = false ->
      settle_step cands d
        (put_unplayed_bets d
           (tbl_unplayed_bets d ++
              [ {| up_raw_bet_id := id bet; up_player_id := pid; up_date := dt |} ]))
  | step_result bet row game_stats g :
      bet ∈ cands -> raw_bet_id row = id bet ->
      br_player_id row = player_id bet -> br_bet_type row = bet_type bet ->
      g ∈ tbl_game_stats d -> game_stats_id row = gs_id g ->
      _calculate_results bet game_stats
      = Ok (result row, result_delta row, stat_result row, line_value row,
            over_under row) ->
      bet_results_accepts d row = true ->
      settle_step cands d (put_bet_results d (tbl_bet_results d ++ [row]))
  | step_processed bet :
      bet ∈ cands ->
      has_record d (id bet) \/ date bet = None ->
      settle_step cands d
        (update_raw (fun r => Z.eqb (id r) (id bet)) set_is_processed d).

(** Both snapshots of the connection come from [d0] by such writes. *)
Definition settled_from `{!Builtins} (cands : list raw_bet) (d0 : db) (c : conn) : Prop :=
  rtc (settle_step cands) d0 (committed c)
  /\ rtc (settle_step cands) d0 (working c).

(** The stats service never fails: it answers with a game, with no game
    or with an empty log. *)
Definition api_answers (nba_api : Z -> option string -> api_reply) : Prop :=
  forall pid dt e, nba_api pid dt <> ApiError e.

(** ** Integrity queries ([BetProcessor.validate_data_integrity]) *)

(** Query 2: the [(player_id, date)] groups of [game_stats] that have more
    than one row, with their counts, in the order of first occurrence. *)
Definition duplicate_game_stats (d : db) : list (Z * string * nat) :=
  let keys := (fun g => (gs_player_id g, gs_date g)) <$> tbl_game_stats d in
  List.filter (fun kn => Nat.ltb 1 kn.2)
    ((fun k => (k, length (List.filter (fun k' => bool_decide (k' = k)) keys)))
       <$> remove_dups keys).

(** Query 3: the ids of the rows marked as processed whose id is neither in
    [bet_results] nor in [unplayed_bets]. *)
Definition processed_without_record (d : db) : list Z :=
  id <$> List.filter
           (fun r => is_processed r
                     && negb (bool_decide
                                (id r ∈ (raw_bet_id <$> tbl_bet_results d)
                                        ++ (up_raw_bet_id <$> tbl_unplayed_bets d))))
           (tbl_raw_ocr_bets d).

(** The CASE of query 11: the first required field that is NULL. *)
Definition missing_field (r : raw_bet) : option string :=
  match player_id r with None => Some "player_id" | Some _ =>
  match bet_type r with None => Some "bet_type" | Some _ =>
  match score r with None => Some "score" | Some _ =>
  match date r with None => Some "date" | Some _ =>
  match bet_line r with None => Some "bet_line" | Some _ =>
  match odds r with None => Some "odds" | Some _ => None
  end end end end end end.

(** Query 11: the rows neither voided nor flagged that miss a required
    field. *)
Definition missing_required_fields (d : db) : list (Z * string) :=
  omap (fun r => if negb (is_voided r) && negb (needs_review r)
                 then (fun f => (id r, f)) <$> missing_field r
                 else None)
       (tbl_raw_ocr_bets d).

(** What [d'] may differ in from [d] when only candidates were settled:
    rows of [raw_ocr_bets] with the id of a candidate may have become
    processed, and the other three tables may have grown at their end, the
    last two by rows of candidates. *)
Definition marks_only (cands : list raw_bet) (d d' : db) : Prop :=
  tbl_players d' = tbl_players d
  /\ length (tbl_raw_ocr_bets d') = length (tbl_raw_ocr_bets d)
  /\ (forall i r, tbl_raw_ocr_bets d !! i = Some r ->
        tbl_raw_ocr_bets d' !! i = Some r
        \/ (tbl_raw_ocr_bets d' !! i = Some (set_is_processed r)
            /\ exists bet, bet ∈ cands /\ id bet = id r))
  /\ tbl_game_stats d `prefix_of` tbl_game_stats d'
  /\ tbl_bet_results d `prefix_of` tbl_bet_results d'
  /\ tbl_unplayed_bets d `prefix_of` tbl_unplayed_bets d'
  /\ (forall row, row ∈ tbl_bet_results d' ->
        row ∈ tbl_bet_results d \/ exists bet, bet ∈ cands /\ raw_bet_id row = id bet)
  /\ (forall u, u ∈ tbl_unplayed_bets d' ->
        u ∈ tbl_unplayed_bets d \/ exists bet, bet ∈ cands /\ up_raw_bet_id u = id bet).

(** Every processed row has a result or an unplayed record. *)
Definition processed_have_record (d : db) : Prop :=
  forall r, r ∈ tbl_raw_ocr_bets d -> is_processed r = true -> has_record d (id r).

(** No two rows of [game_stats] for the same player and date. *)
Definition game_stats_unique (d : db) : Prop :=
  NoDup ((fun g => (gs_player_id g, gs_date g)) <$> tbl_game_stats d).

(** A stats service that knows one game and never fails. *)
Definition answering_api (pid : Z) (dt : option string) : api_reply :=
  if Z.eqb pid 2544 then GameOn game_log_row else NoGame.

(** ** The review import, row by row *)

(** What a review import can make of the table row [r], its voiding
    apart: the row as it is, or the row as the UPDATE rewrites it for a
    CSV row of the file that has its id, that the classifier accepts and
    whose player is found. *)
Definition review_outcome `{!Builtins} (d : db) (csv_df : list csv_row)
           (r r' : raw_bet) : Prop :=
  r' = r
  \/ exists bet reasons player_id,
       bet ∈ csv_df
       /\ c_id bet = id r
       /\ bet_needs_review d (c_bet bet) = Ok (false, reasons)
       /\ select_player_id (e_player (c_bet bet)) d = Ok player_id
       /\ r' = reviewed player_id bet r.

(** [d'] differs from [d] at most in the rows of [raw_ocr_bets]. *)
Definition same_but_raw_rows (d d' : db) : Prop :=
  tbl_players d' = tbl_players d
  /\ raw_seq d' = raw_seq d
  /\ tbl_game_stats d' = tbl_game_stats d
  /\ gs_seq d' = gs_seq d
  /\ tbl_bet_results d' = tbl_bet_results d
  /\ tbl_unplayed_bets d' = tbl_unplayed_bets d.

(** Two flagged rows and a reviewed file that corrects the first and
    leaves the second without a score. *)
Definition flagged_bet (k : Z) : raw_bet :=
  {| id := k; player_id := None; bet_type := Some "points";
     score := None; date := Some "2025-02-14";
     bet_line := None; odds := None;
     image_source := "slip5.png"; raw_text := "raw";
     read_players := None; read_score_patterns := None;
     is_processed := false; needs_review := true; is_voided := false |}.

Definition flagged_db : db :=
  {| tbl_players :=
       [ {| p_name := "LeBron James"; nba_api_id := 2544; is_active := true |} ];
     tbl_raw_ocr_bets := [ flagged_bet 1; flagged_bet 2 ]; raw_seq := 2;
     tbl_game_stats := []; gs_seq := 0;
     tbl_bet_results := []; tbl_unplayed_bets := [] |}.

Definition reviewed_csv : list csv_row :=
  [ {| c_id := 1; c_bet := sample_entry (VFloat (51 # 2)) |};
    {| c_id := 2; c_bet := sample_entry NA |} ].

(** The columns that the review import never writes, and the two flags it
    moves in one direction only. *)
Definition review_keeps (r r' : raw_bet) : Prop :=
  id r' = id r
  /\ is_processed r' = is_processed r
  /\ date r' = date r
  /\ image_source r' = image_source r
  /\ raw_text r' = raw_text r
  /\ read_players r' = read_players r
  /\ read_score_patterns r' = read_score_patterns r
  /\ (is_voided r = true -> is_voided r' = true)
  /\ (needs_review r = false -> needs_review r' = false).


(** An entry for a player that [empty_db] does not have. *)
Definition curry_entry : bet_entry :=
  {| e_player := VStr "Stephen Curry"; e_bet_type := VStr "points";
     e_score := VFloat (51 # 2); e_bet_line := VStr "o21.5";
     e_odds := VInt (-150); e_date := VStr "2025-02-14" |}.

(** ** The validator ([src/utils/db_validation.py]) *)

(** Check 2: the rows with two of the three status flags set. *)
Definition inconsistent_status (d : db) : list (Z * bool * bool * bool) :=
  (fun r => (id r, is_processed r, needs_review r, is_voided r))
    <$> List.filter (fun r => (is_processed r && needs_review r)
                              || (is_processed r && is_voided r)
                              || (needs_review r && is_voided r))
                    (tbl_raw_ocr_bets d).

(** The WHERE clause of check 4; a NULL delta compares as unknown. *)
Definition result_is_invalid (br : bet_result) : bool :=
  match result_delta br with
  | Fl q =>
      (String.eqb (result br) "Win" && negb (Qeq_bool q 100))
      || (String.eqb (result br) "Loss" && Qle_bool 0 q)
      || (String.eqb (result br) "Push" && negb (Qeq_bool q 0))
  | NaN => false
  end.

(** Check 4: the results, joined with their bets, whose delta does not fit
    the result; each is listed with the line of the bet. *)
Definition invalid_results (d : db) : list (bet_result * option string) :=
  br ← tbl_bet_results d;
  r ← List.filter (fun r => Z.eqb (raw_bet_id br) (id r)) (tbl_raw_ocr_bets d);
  if result_is_invalid br then [(br, bet_line r)] else [].

(** Check 5: the results whose [game_stats_id] is the id of no row of
    [game_stats]. *)
Definition missing_stats (d : db) : list bet_result :=
  List.filter (fun br => negb (existsb (fun gs => Z.eqb (game_stats_id br) (gs_id gs))
                                       (tbl_game_stats d)))
              (tbl_bet_results d).

(** Every result that has its bet in the table fits its delta. *)
Definition results_valid (d : db) : Prop :=
  forall br, br ∈ tbl_bet_results d -> raw_bet_id br ∈ raw_ids d ->
             result_is_invalid br = false.

(** Every result refers to a row of [game_stats]. *)
Definition stats_present (d : db) : Prop :=
  forall br, br ∈ tbl_bet_results d ->
             exists gs, gs ∈ tbl_game_stats d /\ gs_id gs = game_stats_id br.

(** A bet at odds 0 that lost, with the stats of its game in the table. *)
Definition zero_odds_bet : raw_bet := sample_bet "o21.5" 0.

Definition zero_odds_db : db :=
  {| tbl_players :=
       [ {| p_name := "LeBron James"; nba_api_id := 2544; is_active := true |} ];
     tbl_raw_ocr_bets := [ zero_odds_bet ]; raw_seq := 1;
     tbl_game_stats :=
       [ {| gs_id := 1; gs_player_id := 2544; gs_date := "2025-02-14";
            gs_stats := sample_stats 18 |} ];
     gs_seq := 1;
     tbl_bet_results := []; tbl_unplayed_bets := [] |}.

(** ** The upload to the sheet ([src/utils/upload_bets.py]) *)

(** One row of the query of [_get_unuploaded_bets]. *)
Record unuploaded_bet : Type := {
  ub_bet_id : Z;
  ub_player : string;
  ub_bet_type : string;
  ub_result : string;
  ub_result_delta : Q;
  ub_score_range : string;
  ub_bet_line : option string;
  ub_odds : option Q;
  ub_date : option string;
  ub_score : option Q
}.

(** One row of the frame that [_group_bets] returns. *)
Record bet_group : Type := {
  g_bet_type : string;
  g_score_range : string;
  ResultSum : Q;
  Count : Z
}.

(** Order of the group keys, first by bet type, then by score range. *)
Definition key_ltb (a b : string * string) : bool :=
  String.ltb a.1 b.1 || (String.eqb a.1 b.1 && String.ltb a.2 b.2).

Definition key_le (a b : string * string) : Prop := key_ltb b a = false.

#[global] Instance key_le_dec : RelDecision key_le.
Proof. intros a b. unfold key_le. apply _. Defined.

Definition group_key (b : unuploaded_bet) : string * string :=
  (ub_bet_type b, ub_score_range b).

(** [_group_bets]: [groupby(['bet_type', 'score_range'])], the sum and the
    size of each group, the groups in increasing order of their keys. *)
Definition _group_bets (bets : list unuploaded_bet) : list bet_group :=
  let keys := merge_sort key_le (remove_dups (group_key <$> bets)) in
  (fun k =>
     let g := List.filter (fun b => bool_decide (group_key b = k)) bets in
     {| g_bet_type := k.1; g_score_range := k.2;
        ResultSum := foldl Qplus 0%Q (ub_result_delta <$> g);
        Count := Z.of_nat (length g) |}) <$> keys.

(** [unuploaded_bets["date"].max()]: the largest date, NULLs skipped. *)
Definition last_date_of (bets : list unuploaded_bet) : option string :=
  foldl (fun acc b =>
           match acc, ub_date b with
           | None, dt => dt
           | Some a, Some dt => if String.ltb a dt then Some dt else Some a
           | Some a, None => Some a
           end) None bets.

(** One row of [aggregated_results], without its key [sheet_cell]. *)
Record aggregated_result : Type := {
  ar_bet_type : string;
  ar_score_range : string;
  ar_volume : option Z;
  ar_result : option Q;
  ar_updated_to : string;
  ar_processed_at : string
}.

(** One entry of the batch update: the cell and the number written. *)
Inductive cell_value : Type :=
  | NewResult (q : Q)
  | NewVolume (z : Z).

(** What an upload leaves behind: the [aggregated_results] table, the
    batch update sent to the sheet if one was sent, and the ids of the
    results marked as uploaded. *)
Record upload_state : Type := {
  aggregated : gmap string aggregated_result;
  batch_sent : option (list (string * cell_value));
  marked_uploaded : list Z
}.

Section Upload.

(** [SHEET_CELL_MAPPING] of [src/utils/sensitive/sheets_data.py]. *)
Variable SHEET_CELL_MAPPING : gmap (string * string * string) string.

(** The worksheet, read: the integer that [_get_current_values] makes of
    the text of a result cell and of a volume cell. *)
Variable sheet_result : string -> res Z.
Variable sheet_volume : string -> res Z.

(** [worksheet.batch_update(updates)]: does the request go through? *)
Variable batch_update : list (string * cell_value) -> res unit.

(** [pd.Timestamp.now().strftime('%Y-%m-%d')] *)
Variable today : string.

Definition cell_of (g : bet_group) (kind : string) : res string :=
  match SHEET_CELL_MAPPING !! (g_bet_type g, g_score_range g, kind) with
  | Some cell => Ok cell
  | None => Raise KeyError
  end.

(** A dict comprehension over [zip(cells, values)]: a later pair replaces
    an earlier one with the same cell. *)
Definition dict_of (cells : list string) (values : list Z) : gmap string Z :=
  foldl (fun m kv => <[kv.1 := kv.2]> m) ∅ (zip cells values).

(** [_get_current_values] *)
Definition _get_current_values (grouped : list bet_group)
  : res (gmap string Z * gmap string Z) :=
  result_cells ← res_mapM (fun g => cell_of g "Result") grouped;
  volume_cells ← res_mapM (fun g => cell_of g "Volume") grouped;
  results_values ← res_mapM sheet_result result_cells;
  volumes_values ← res_mapM sheet_volume volume_cells;
  Ok (dict_of result_cells results_values, dict_of volume_cells volumes_values).

Definition dict_at (m : gmap string Z) (k : string) : res Z :=
  match m !! k with Some v => Ok v | None => Raise KeyError end.

(** The two upserts of [_save_aggregated_results]: a new row gets the
    value and the group, a row that exists gets the value only. *)
Definition upsert (cell : string) (new : aggregated_result)
           (merge : aggregated_result -> aggregated_result)
           (t : gmap string aggregated_result) : gmap string aggregated_result :=
  match t !! cell with
  | Some old => <[cell := merge old]> t
  | None => <[cell := new]> t
  end.

(** [_save_aggregated_results]: both upserts, then the commit; any
    exception rolls both back.  [updated_to] is NOT NULL. *)
Definition _save_aggregated_results (g : bet_group) (last_date : option string)
           (new_result : Q) (new_volume : Z) (t : gmap string aggregated_result)
  : gmap string aggregated_result * res unit :=
  match
    result_cell ← cell_of g "Result";
    updated_to ← match last_date with
                 | Some dt => Ok dt
                 | None => Raise IntegrityError
                 end;
    let t1 :=
      upsert result_cell
        {| ar_bet_type := g_bet_type g; ar_score_range := g_score_range g;
           ar_volume := None; ar_result := Some new_result;
           ar_updated_to := updated_to; ar_processed_at := today |}
        (fun old =>
           {| ar_bet_type := ar_bet_type old; ar_score_range := ar_score_range old;
              ar_volume := ar_volume old; ar_result := Some new_result;
              ar_updated_to := updated_to; ar_processed_at := today |}) t in
    volume_cell ← cell_of g "Volume";
    Ok (upsert volume_cell
          {| ar_bet_type := g_bet_type g; ar_score_range := g_score_range g;
             ar_volume := Some new_volume; ar_result := None;
             ar_updated_to := updated_to; ar_processed_at := today |}
          (fun old =>
             {| ar_bet_type := ar_bet_type old; ar_score_range := ar_score_range old;
                ar_volume := Some new_volume; ar_result := ar_result old;
                ar_updated_to := updated_to; ar_processed_at := today |}) t1)
  with
  | Ok t' => (t', Ok tt)
  | Raise e => (t, Raise e)
  end.

(** [_create_updates]: the loop over the groups; the log is a file. *)
Fixpoint _create_updates (grouped_bets : list bet_group)
         (current_results current_volumes : gmap string Z)
         (last_date : option string) (t : gmap string aggregated_result)
  : gmap string aggregated_result * res (list (string * cell_value)) :=
  match grouped_bets with
  | [] => (t, Ok [])
  | g :: rest =>
      match
        result_cell ← cell_of g "Result";
        volume_cell ← cell_of g "Volume";
        curr_result ← dict_at current_results result_cell;
        curr_volume ← dict_at current_volumes volume_cell;
        Ok (result_cell, volume_cell,
            (inject_Z curr_result + ResultSum g)%Q, (curr_volume + Count g)%Z)
      with
      | Raise e => (t, Raise e)
      | Ok (result_cell, volume_cell, new_result, new_volume) =>
          match _save_aggregated_results g last_date new_result new_volume t with
          | (t1, Raise e) => (t1, Raise e)
          | (t1, Ok _) =>
              match _create_updates rest current_results current_volumes
                                    last_date t1 with
              | (t2, Raise e) => (t2, Raise e)
              | (t2, Ok updates) =>
                  (t2, Ok ((result_cell, NewResult new_result)
                           :: (volume_cell, NewVolume new_volume) :: updates))
              end
          end
      end
  end.

(** [_get_updates] *)
Definition _get_updates (grouped : list bet_group) (last_date : option string)
           (t : gmap string aggregated_result)
  : gmap string aggregated_result * res (list (string * cell_value)) :=
  match _get_current_values grouped with
  | Raise e => (t, Raise e)
  | Ok (current_results, current_volumes) =>
      _create_updates grouped current_results current_volumes last_date t
  end.

(** What the batch update holds for one group: the current number of its
    result cell plus the sum of the group, and the current number of its
    volume cell plus the size of the group. *)
Definition group_update (g : bet_group) : res (list (string * cell_value)) :=
  result_cell ← cell_of g "Result";
  volume_cell ← cell_of g "Volume";
  curr_result ← sheet_result result_cell;
  curr_volume ← sheet_volume volume_cell;
  Ok [ (result_cell, NewResult (inject_Z curr_result + ResultSum g)%Q);
       (volume_cell, NewVolume (curr_volume + Count g)%Z) ].

(** What one group contributes, with the cells and the numbers named. *)
Definition reads_group (g : bet_group) (rc vc : string) (r v : Z)
           (p : list (string * cell_value)) : Prop :=
  cell_of g "Result" = Ok rc /\ cell_of g "Volume" = Ok vc
  /\ sheet_result rc = Ok r /\ sheet_volume vc = Ok v
  /\ p = [ (rc, NewResult (inject_Z r + ResultSum g)%Q);
           (vc, NewVolume (v + Count g)%Z) ].

(** A row of [aggregated_results] that holds a result and was written
    today, up to the date [dt]. *)
Definition saved_today (dt : string) (row : aggregated_result) : Prop :=
  ar_updated_to row = dt /\ ar_processed_at row = today
  /\ is_Some (ar_result row).

(** [upload_to_sheets], from the rows of [_get_unuploaded_bets] on; an
    exception is logged and turned into [False]. *)
Definition upload_to_sheets (dry_run : bool) (unuploaded_bets : list unuploaded_bet)
           (t : gmap string aggregated_result) : upload_state * res bool :=
  let failed t' e :=
    ({| aggregated := t'; batch_sent := None; marked_uploaded := [] |},
     if is_Exception e then Ok false else Raise e) in
  match unuploaded_bets with
  | [] => ({| aggregated := t; batch_sent := None; marked_uploaded := [] |}, Ok true)
  | _ =>
      let grouped_bets := _group_bets unuploaded_bets in
      let last_date := last_date_of unuploaded_bets in
      match _get_updates grouped_bets last_date t with
      | (t', Raise e) => failed t' e
      | (t', Ok updates) =>
          if dry_run
          then ({| aggregated := t'; batch_sent := None; marked_uploaded := [] |},
                Ok true)
          else
            match batch_update updates with
            | Raise e => failed t' e
            | Ok _ =>
                ({| aggregated := t'; batch_sent := Some updates;
                    marked_uploaded := ub_bet_id <$> unuploaded_bets |}, Ok true)
            end
      end
  end.

End Upload.

(** A sheet with one pair of cells and two results waiting for upload. *)
Definition sample_mapping : gmap (string * string * string) string :=
  {[ ("points", "25-30", "Result") := "B2"; ("points", "25-30", "Volume") := "C2" ]}.

Definition sample_unuploaded (k : Z) (delta : Q) (range : string) : unuploaded_bet :=
  {| ub_bet_id := k; ub_player := "LeBron James"; ub_bet_type := "points";
     ub_result := "Win"; ub_result_delta := delta; ub_score_range := range;
     ub_bet_line := Some "o21.5"; ub_odds := Some (-150 # 1)%Q;
     ub_date := Some "2025-02-14"; ub_score := Some (51 # 2) |}.

Definition sample_uploads : list unuploaded_bet :=
  [ sample_unuploaded 1 100 "25-30"; sample_unuploaded 2 (-150) "25-30" ].

(** ** The texts that the score pattern of [_extract_bet_data] captures *)

Fixpoint spaces (n : nat) : string :=
  match n with
  | O => EmptyString
  | S n' => String " "%char (spaces n')
  end.

Fixpoint all_digits (s : string) : bool :=
  match s with
  | EmptyString => true
  | String c r => is_digit c && all_digits r
  end.

(** Group 1, [\+[2-9]\d\s*\.\s*\d{2}%], with blanks for the white space. *)
Definition ocr_score (s : string) : Prop :=
  exists d1 d2 d3 d4 n1 n2,
    s = String "+"%char (String d1 (String d2
          (spaces n1 +:+ String "."%char
             (spaces n2 +:+ String d3 (String d4 (String "%"%char EmptyString))))))
    /\ is_digit d1 = true /\ Ascii.eqb d1 "0"%char = false
    /\ Ascii.eqb d1 "1"%char = false
    /\ is_digit d2 = true /\ is_digit d3 = true /\ is_digit d4 = true.

(** Group 2, [[0|u|o]\d*\s*+\.\s*5], with a first character other than
    the bar, at least one digit, and blanks for the white space. *)
Definition ocr_line (s : string) : Prop :=
  exists c ds n1 n2,
    s = String c (ds +:+ spaces n1 +:+ String "."%char (spaces n2 +:+ "5"))
    /\ (c = "0"%char \/ c = "u"%char \/ c = "o"%char)
    /\ ds <> EmptyString /\ all_digits ds = true.

(** Group 3, a character of the class (minus, plus, 7, 4, tilde, double
    quote, bar) and three digits, with a first character other than the
    bar. *)
Definition ocr_odds (s : string) : Prop :=
  exists sg o1 o2 o3,
    s = String sg (String o1 (String o2 (String o3 EmptyString)))
    /\ (sg = "-"%char \/ sg = "+"%char \/ sg = "7"%char \/ sg = "4"%char
        \/ sg = "~"%char \/ sg = ascii_of_nat 34)
    /\ is_digit o1 = true /\ is_digit o2 = true /\ is_digit o3 = true.

(** A row of the extracted frame whose score, line and odds are such
    captures and whose date is one that [clean_data] converts. *)
Definition ocr_row (year : Z) (x : entry) : Prop :=
  (exists s, e_score (x_bet x) = VStr s /\ ocr_score s)
  /\ (exists l, e_bet_line (x_bet x) = VStr l /\ ocr_line l)
  /\ (exists o, e_odds (x_bet x) = VStr o /\ ocr_odds o)
  /\ exists d, @clean_date decimal_builtins year (e_date (x_bet x)) = Ok d.

(** A row with the usual OCR slips: blanks around the point of the score,
    a zero for the o of the line, a 7 for the minus of the odds. *)
Definition noisy_entry : entry :=
  {| x_bet := {| e_player := VStr "LeBron James"; e_bet_type := VStr "points";
                 e_score := VStr "+25 . 50%"; e_bet_line := VStr "021 .5";
                 e_odds := VStr "7150"; e_date := VStr "2/14" |};
     x_read_score_patterns := Some ("+25 . 50%", "021 .5", "7150");
     x_read_players := Some "LeBron James";
     x_raw_text := "2/14 Points LeBron James +25 . 50% 021 .5 7150";
     x_image_source := "slip6.png" |}.

(** * Properties *)

(** ** Settlement arithmetic *)

Lemma Qltb_lt (x y : Q) : Qltb x y = true <-> (x < y)%Q.
Proof.
  unfold Qltb. rewrite negb_true_iff. split.
  - intros E. apply Qnot_le_lt. intros Hle.
    apply Qle_bool_iff in Hle. congruence.
  - intros Hlt. apply not_true_is_false. intros Hle.
    apply Qle_bool_iff in Hle. exact (Qlt_not_le _ _ Hlt Hle).
Qed.

Lemma Qltb_ge (x y : Q) : Qltb x y = false <-> (y <= x)%Q.
Proof.
  unfold Qltb. rewrite negb_false_iff. apply Qle_bool_iff.
Qed.

Lemma Qltb_asym (x y : Q) : Qltb x y = true -> Qltb y x = false.
Proof.
  intros E. apply Qltb_lt in E. apply Qltb_ge. apply Qlt_le_weak. exact E.
Qed.

Lemma Qltb_inject_Z (a b : Z) : Qltb (inject_Z a) (inject_Z b) = (a <? b)%Z.
Proof.
  destruct (Z.ltb_spec a b) as [Hlt | Hge].
  - apply Qltb_lt. rewrite <- Zlt_Qlt. exact Hlt.
  - apply Qltb_ge. rewrite <- Zle_Qle. exact Hge.
Qed.

Lemma startswith_u_not_o (l : string) :
  startswith l "u" = true -> startswith l "o" = false.
Proof.
  unfold startswith. destruct l as [| a r]; [discriminate |].
  change (String.prefix "u" (String a r))
    with (if ascii_dec "u" a then String.prefix EmptyString r else false).
  change (String.prefix "o" (String a r))
    with (if ascii_dec "o" a then String.prefix EmptyString r else false).
  destruct (ascii_dec "u" a) as [<- | Hne]; [| discriminate].
  intros _. destruct (ascii_dec "o" "u") as [E | _]; [discriminate E | reflexivity].
Qed.

Section SettlementFacts.
Context `{!Builtins}.

(** A quotient of at least a hundredth is no underflow. *)
Lemma nearest_double_large (x : Q) : (1 # 100 <= x)%Q -> nearest_double x = x.
Proof.
  intros Hx. unfold nearest_double, underflows.
  destruct (Qle_bool (Qabs x) (1 # 2 ^ 1075)) eqn:E; [| reflexivity].
  exfalso. apply Qle_bool_iff in E.
  assert (H0 : (0 <= x)%Q) by (eapply Qle_trans; [| exact Hx]; discriminate).
  rewrite (Qabs_pos _ H0) in E.
  assert (Hlt : (1 # 2 ^ 1075 < 1 # 100)%Q) by (vm_compute; reflexivity).
  exact (Qlt_irrefl _ (Qlt_le_trans _ _ _ Hlt (Qle_trans _ _ _ Hx E))).
Qed.

Lemma integer_odds_hundredth (z : Z) : (0 < z)%Z -> (1 # 100 <= inject_Z z / 100)%Q.
Proof.
  intros Hz. apply Qle_shift_div_l; [reflexivity |].
  unfold Qle. cbn. lia.
Qed.

Lemma loss_delta_steps (z : Z) :
  (0 < z)%Z ->
  (d ← py_div (inject_Z z) 100; q ← py_div 100 (nearest_double d);
   Ok (Fl (- inject_Z (np_round q))))
  = Ok (Fl (- inject_Z (np_round (100 / (inject_Z z / 100))))).
Proof.
  intros Hz. unfold py_div.
  replace (Qeq_bool 100 0) with false by reflexivity. cbn [mbind res_bind].
  rewrite (nearest_double_large _ (integer_odds_hundredth z Hz)).
  assert (Hnz : Qeq_bool (inject_Z z / 100) 0 = false).
  { apply not_true_is_false. intros E. apply Qeq_bool_eq in E.
    assert (Hpos : (0 < inject_Z z / 100)%Q).
    { apply Qlt_shift_div_l; [reflexivity |].
      rewrite Qmult_0_l. replace 0%Q with (inject_Z 0) by reflexivity.
      rewrite <- Zlt_Qlt. exact Hz. }
    rewrite E in Hpos. exact (Qlt_irrefl _ Hpos). }
  rewrite Hnz. reflexivity.
Qed.

Lemma calculate_results_win ocr_bet game_stats s l L :
  reads ocr_bet game_stats s l L ->
  win_condition l s L ->
  _calculate_results ocr_bet game_stats
  = Ok ("Win", Fl 100, s, L, over_under_of l).
Proof.
  intros ((t & Ht & Hs) & Hl & HL) Hw.
  unfold _calculate_results, py_float_str, over_under_of.
  rewrite Ht, Hs, Hl. cbn [mbind res_bind]. rewrite HL. cbn [mbind res_bind].
  destruct Hw as [(Ho & Hlt) | (Hu & Hlt)].
  - rewrite Ho. cbn [mbind res_bind].
    apply Qltb_lt in Hlt. rewrite Hlt. reflexivity.
  - rewrite (startswith_u_not_o _ Hu), Hu. cbn [mbind res_bind].
    apply Qltb_lt in Hlt. rewrite Hlt.
    rewrite (Qltb_asym _ _ Hlt). reflexivity.
Qed.

Lemma calculate_results_loss ocr_bet game_stats s l L z :
  reads ocr_bet game_stats s l L ->
  odds ocr_bet = Some (inject_Z z) ->
  loss_condition l s L ->
  _calculate_results ocr_bet game_stats
  = Ok ("Loss", loss_delta z, s, L, over_under_of l).
Proof.
  intros ((t & Ht & Hs) & Hl & HL) Hz Hw.
  unfold _calculate_results, py_float_str, over_under_of.
  rewrite Ht, Hs, Hl. cbn [mbind res_bind]. rewrite HL. cbn [mbind res_bind].
  assert (Hdelta :
    match odds ocr_bet with
    | Some q0 =>
        if Qltb 0 q0
        then d ← py_div q0 100; q ← py_div 100 (nearest_double d);
             Ok (Fl (- inject_Z (np_round q)))
        else Ok (Fl q0)
    | None => Ok NaN
    end = Ok (loss_delta z)).
  { rewrite Hz. unfold loss_delta.
    replace 0%Q with (inject_Z 0) by reflexivity. rewrite Qltb_inject_Z.
    destruct (Z.ltb_spec 0 z) as [Hpos | Hnp]; [| reflexivity].
    apply loss_delta_steps. exact Hpos. }
  destruct Hw as [(Ho & Hlt) | (Hu & Hlt)].
  - rewrite Ho. cbn [mbind res_bind].
    apply Qltb_lt in Hlt. rewrite Hlt, (Qltb_asym _ _ Hlt).
    cbn -[py_div np_round Qltb]. rewrite Hdelta. reflexivity.
  - rewrite (startswith_u_not_o _ Hu), Hu. cbn [mbind res_bind].
    apply Qltb_lt in Hlt. rewrite Hlt, (Qltb_asym _ _ Hlt).
    cbn -[py_div np_round Qltb]. rewrite Hdelta. reflexivity.
Qed.

(** Neither a win nor a loss: the function raises. *)
Lemma calculate_results_no_outcome ocr_bet game_stats s l L :
  reads ocr_bet game_stats s l L ->
  ~ win_condition l s L ->
  ~ loss_condition l s L ->
  exists msg, _calculate_results ocr_bet game_stats = Raise (ValueError msg).
Proof.
  intros ((t & Ht & Hs) & Hl & HL) Hnw Hnl.
  unfold _calculate_results, py_float_str.
  rewrite Ht, Hs, Hl. cbn [mbind res_bind]. rewrite HL. cbn [mbind res_bind].
  destruct (startswith l "o") eqn:Ho; cbn [mbind res_bind].
  - destruct (Qltb L s) eqn:E1.
    { exfalso. apply Hnw. left. split; [exact Ho | apply Qltb_lt, E1]. }
    destruct (Qltb s L) eqn:E2.
    { exfalso. apply Hnl. left. split; [exact Ho | apply Qltb_lt, E2]. }
    eexists. reflexivity.
  - destruct (startswith l "u") eqn:Hu; cbn [mbind res_bind].
    + destruct (Qltb s L) eqn:E2.
      { exfalso. apply Hnw. right. split; [exact Hu | apply Qltb_lt, E2]. }
      destruct (Qltb L s) eqn:E1.
      { exfalso. apply Hnl. right. split; [exact Hu | apply Qltb_lt, E1]. }
      eexists. reflexivity.
    + eexists. reflexivity.
Qed.

Lemma win_loss_exclusive l s L : win_condition l s L -> loss_condition l s L -> False.
Proof.
  intros [(Ho & H1) | (Hu & H1)] [(Ho' & H2) | (Hu' & H2)].
  - exact (Qlt_irrefl _ (Qlt_trans _ _ _ H1 H2)).
  - rewrite (startswith_u_not_o _ Hu') in Ho. discriminate.
  - rewrite (startswith_u_not_o _ Hu) in Ho'. discriminate.
  - exact (Qlt_irrefl _ (Qlt_trans _ _ _ H1 H2)).
Qed.


(** A lost bet gets the delta that [loss_delta_of] makes of its odds. *)
Lemma calculate_results_loss_of ocr_bet game_stats s l L :
  reads ocr_bet game_stats s l L ->
  loss_condition l s L ->
  _calculate_results ocr_bet game_stats
  = (delta ← loss_delta_of (odds ocr_bet);
     Ok ("Loss", delta, s, L, over_under_of l)).
Proof.
  intros ((t & Ht & Hs) & Hl & HL) Hw.
  unfold _calculate_results, py_float_str, over_under_of.
  rewrite Ht, Hs, Hl. cbn [mbind res_bind]. rewrite HL. cbn [mbind res_bind].
  fold (loss_delta_of (odds ocr_bet)).
  destruct Hw as [(Ho & Hlt) | (Hu & Hlt)].
  - rewrite Ho. cbn [mbind res_bind].
    apply Qltb_lt in Hlt. rewrite Hlt, (Qltb_asym _ _ Hlt). reflexivity.
  - rewrite (startswith_u_not_o _ Hu), Hu. cbn [mbind res_bind].
    apply Qltb_lt in Hlt. rewrite Hlt, (Qltb_asym _ _ Hlt). reflexivity.
Qed.



End SettlementFacts.




Section DivisionFacts.
Context `{!Builtins}.

Lemma positive_odds (z : Z) : Qltb 0 (inject_Z z) = true -> (0 < z)%Z.
Proof.
  replace 0%Q with (inject_Z 0) by reflexivity. rewrite Qltb_inject_Z.
  intros E. apply Z.ltb_lt. exact E.
Qed.




End DivisionFacts.




(** ** Invariants of code that runs on a connection *)

Section Preservation.
Context {P : db -> Prop}.

Lemma preserves_ret {A} (a : A) : preserves P (mret a).
Proof. intros c Hc Hw. cbn. auto. Qed.

Lemma preserves_lift {A} (r : res A) : preserves P (lift r).
Proof. intros c Hc Hw. cbn. auto. Qed.

Lemma preserves_query {A} (f : db -> A) : preserves P (query f).
Proof. intros c Hc Hw. cbn. auto. Qed.

Lemma preserves_read {A} (f : conn -> res A) : preserves P (fun c => (c, f c)).
Proof. intros c Hc Hw. cbn. auto. Qed.

Lemma preserves_exec (f : db -> db) :
  (forall d, P d -> P (f d)) -> preserves P (exec f).
Proof. intros Hf c Hc Hw. cbn. auto. Qed.

Lemma preserves_commit : preserves P do_commit.
Proof. intros c Hc Hw. cbn. auto. Qed.

Lemma preserves_rollback : preserves P do_rollback.
Proof. intros c Hc Hw. cbn. auto. Qed.

Lemma preserves_bind {A B} (m : M A) (f : A -> M B) :
  preserves P m -> (forall a, preserves P (f a)) -> preserves P (m ≫= f).
Proof.
  intros Hm Hf c Hc Hw. unfold mbind, M_bind.
  specialize (Hm c Hc Hw). destruct (m c) as [c' [a | e]]; cbn in *.
  - destruct Hm as [Hc' Hw']. exact (Hf a c' Hc' Hw').
  - exact Hm.
Qed.

Lemma preserves_with_conn {A} (body : M A) :
  preserves P body -> preserves P (with_conn body).
Proof.
  intros Hb c Hc Hw. unfold with_conn.
  specialize (Hb c Hc Hw). destruct (body c) as [c' [a | e]]; cbn in *; tauto.
Qed.

Lemma preserves_try_except {A} (body : M A) (handler : exn -> M A) :
  preserves P body -> (forall e, preserves P (handler e)) ->
  preserves P (try_except body handler).
Proof.
  intros Hb Hh c Hc Hw. unfold try_except.
  specialize (Hb c Hc Hw). destruct (body c) as [c' [a | e]]; cbn in *.
  - exact Hb.
  - destruct (is_Exception e); cbn.
    + destruct Hb as [Hc' Hw']. exact (Hh e c' Hc' Hw').
    + exact Hb.
Qed.

End Preservation.

(** The settlement run keeps every property that its four kinds of write
    keep. *)
Section RunPreserves.
Context `{!Builtins}.
Variable nba_api : Z -> option string -> api_reply.
Variable P : db -> Prop.
Hypothesis P_game_stats : forall d rows seq, P d -> P (put_game_stats d rows seq).
Hypothesis P_unplayed_bets : forall d rows, P d -> P (put_unplayed_bets d rows).
Hypothesis P_processed :
  forall d cond, P d -> P (update_raw cond set_is_processed d).
Hypothesis P_bet_results :
  forall d row, bet_results_accepts d row = true ->
    P d -> P (put_bet_results d (tbl_bet_results d ++ [row])).

Lemma get_player_game_stats_preserves ocr_bet :
  preserves P (_get_player_game_stats nba_api ocr_bet).
Proof.
  unfold _get_player_game_stats.
  apply preserves_bind; [apply preserves_query |]. intros [s |].
  - apply preserves_ret.
  - apply preserves_bind; [apply preserves_query |]. intros [|].
    + apply preserves_ret.
    + apply preserves_bind; [apply preserves_lift |]. intros a. apply preserves_ret.
Qed.

Lemma insert_into_game_stats_preserves ocr_bet game_stats :
  preserves P (insert_into_game_stats ocr_bet game_stats).
Proof.
  unfold insert_into_game_stats. apply preserves_with_conn.
  apply preserves_bind; [apply preserves_lift |]. intros items.
  apply preserves_bind; [apply preserves_query |]. intros d.
  destruct (player_id ocr_bet), (date ocr_bet); try apply preserves_lift.
  destruct (existsb _ _); [apply preserves_lift |].
  apply preserves_exec. intros d' Hd'. apply P_game_stats. exact Hd'.
Qed.

Lemma insert_into_unplayed_bets_preserves ocr_bet :
  preserves P (insert_into_unplayed_bets ocr_bet).
Proof.
  unfold insert_into_unplayed_bets. apply preserves_with_conn.
  apply preserves_exec. intros d Hd.
  destruct (player_id ocr_bet), (date ocr_bet); try exact Hd.
  destruct (existsb _ _); [exact Hd |]. apply P_unplayed_bets. exact Hd.
Qed.

Lemma insert_into_bet_results_preserves ocr_bet game_stats :
  preserves P (insert_into_bet_results ocr_bet game_stats).
Proof.
  unfold insert_into_bet_results.
  apply preserves_bind; [apply preserves_lift |].
  intros [[[[result result_delta] stat_result] line_value] over_under].
  apply preserves_bind; [apply preserves_lift |]. intros score_range.
  apply preserves_bind; [apply (preserves_read (fun c => _)) |]. intros gid.
  apply preserves_with_conn.
  intros c Hc Hw. unfold mbind, M_bind, query. cbn [fst snd].
  destruct (bet_results_accepts (working c) _) eqn:Hacc; cbn.
  - split; [exact Hc |]. apply P_bet_results; assumption.
  - auto.
Qed.

Lemma mark_bet_processed_preserves ocr_bet :
  preserves P (_mark_bet_processed ocr_bet).
Proof.
  unfold _mark_bet_processed. apply preserves_exec. intros d Hd.
  apply P_processed. exact Hd.
Qed.

Lemma process_bet_preserves ocr_bet : preserves P (process_bet nba_api ocr_bet).
Proof.
  unfold process_bet.
  apply preserves_bind; [apply get_player_game_stats_preserves |].
  intros [in_db [game_stats |]].
  - apply preserves_bind.
    + destruct in_db; [apply preserves_ret | apply insert_into_game_stats_preserves].
    + intros _. apply preserves_bind; [apply insert_into_bet_results_preserves |].
      intros _. apply mark_bet_processed_preserves.
  - apply preserves_bind; [apply insert_into_unplayed_bets_preserves |].
    intros _. apply mark_bet_processed_preserves.
Qed.

Lemma process_bets_loop_preserves bets :
  preserves P (process_bets_loop nba_api bets).
Proof.
  induction bets as [| ocr_bet rest IH]; cbn [process_bets_loop].
  - apply preserves_ret.
  - apply preserves_bind; [| intros _; exact IH].
    apply preserves_try_except; [apply process_bet_preserves |].
    intros e. apply preserves_ret.
Qed.

Lemma process_new_bets_preserves : preserves P (process_new_bets nba_api).
Proof.
  unfold process_new_bets, _process_unprocessed_bets.
  apply preserves_try_except.
  - apply preserves_bind.
    + apply preserves_bind; [apply preserves_query |].
      intros bets. apply process_bets_loop_preserves.
    + intros _. apply preserves_bind; [apply preserves_commit |].
      intros _. apply preserves_ret.
  - intros e. apply preserves_bind; [apply preserves_rollback |].
    intros _. apply preserves_ret.
Qed.

Lemma settlement_run_preserves d : P d -> P (settlement_run nba_api d).1.
Proof.
  intros Hd. unfold settlement_run.
  pose proof (process_new_bets_preserves (connect d) Hd Hd) as [Hc _].
  destruct (process_new_bets nba_api (connect d)) as [c r]. exact Hc.
Qed.

End RunPreserves.

(** ** A tie is an error *)

Section PushFacts.
Context `{!Builtins}.

Lemma tie_no_outcome l s L :
  (s == L)%Q -> ~ win_condition l s L /\ ~ loss_condition l s L.
Proof.
  intros E. split; intros [(_ & Hlt) | (_ & Hlt)]; rewrite E in Hlt;
    exact (Qlt_irrefl _ Hlt).
Qed.

Lemma calculate_results_push ocr_bet game_stats s l L :
  reads ocr_bet game_stats s l L ->
  (s == L)%Q ->
  startswith l "o" = true \/ startswith l "u" = true ->
  _calculate_results ocr_bet game_stats
  = Raise (ValueError "Bet resulted in a push").
Proof.
  intros ((t & Ht & Hs) & Hl & HL) E Hou.
  assert (E1 : Qltb L s = false) by (apply Qltb_ge; rewrite E; apply Qle_refl).
  assert (E2 : Qltb s L = false) by (apply Qltb_ge; rewrite E; apply Qle_refl).
  unfold _calculate_results, py_float_str.
  rewrite Ht, Hs, Hl. cbn [mbind res_bind]. rewrite HL. cbn [mbind res_bind].
  destruct Hou as [Ho | Hu].
  - rewrite Ho. cbn [mbind res_bind]. rewrite E1, E2. reflexivity.
  - rewrite (startswith_u_not_o _ Hu), Hu. cbn [mbind res_bind].
    rewrite E1, E2. reflexivity.
Qed.

Lemma insert_into_bet_results_raises ocr_bet game_stats e c :
  _calculate_results ocr_bet game_stats = Raise e ->
  insert_into_bet_results ocr_bet game_stats c = (c, Raise e).
Proof.
  intros E. unfold insert_into_bet_results, mbind, M_bind, lift. rewrite E.
  reflexivity.
Qed.

Lemma accepted_row_settled d row :
  bet_results_accepts d row = true ->
  result row = "Win" \/ result row = "Loss".
Proof.
  unfold bet_results_accepts. rewrite !andb_true_iff.
  intros (((((_ & _) & _) & Hres) & _) & _).
  apply orb_true_iff in Hres. destruct Hres as [E | E];
    apply String.eqb_eq in E; auto.
Qed.

Lemma settlement_run_results_settled nba_api d :
  results_settled (tbl_bet_results d) (settlement_run nba_api d).1.
Proof.
  apply (settlement_run_preserves nba_api (results_settled (tbl_bet_results d))).
  - intros d' rows seq Hd'. exact Hd'.
  - intros d' rows Hd'. exact Hd'.
  - intros d' cond Hd'. exact Hd'.
  - intros d' row Hacc Hd' r Hin. cbn in Hin.
    apply elem_of_app in Hin. destruct Hin as [Hin | Hin].
    + apply Hd'. exact Hin.
    + apply list_elem_of_singleton in Hin. subst r. right.
      exact (accepted_row_settled _ _ Hacc).
  - intros row Hin. left. exact Hin.
Qed.

End PushFacts.

(** C2.  When the stat value equals the line value, [_calculate_results]
    raises [ValueError] (the push error whenever the line starts with [o]
    or [u]), [insert_into_bet_results] raises it too and leaves the
    connection as it was, and after a settlement run every row of
    [bet_results] that was not there before is a win or a loss. *)
Theorem C2_tie_raises `{!Builtins} nba_api ocr_bet game_stats s l L :
  reads ocr_bet game_stats s l L ->
  (s == L)%Q ->
  (exists msg,
     _calculate_results ocr_bet game_stats = Raise (ValueError msg)
     /\ forall c,
          insert_into_bet_results ocr_bet game_stats c = (c, Raise (ValueError msg)))
  /\ (startswith l "o" = true \/ startswith l "u" = true ->
      _calculate_results ocr_bet game_stats
      = Raise (ValueError "Bet resulted in a push"))
  /\ (forall d row,
        row ∈ tbl_bet_results (settlement_run nba_api d).1 ->
        row ∈ tbl_bet_results d \/ result row = "Win" \/ result row = "Loss").
Proof.
  intros Hr E. split; [| split].
  - destruct (tie_no_outcome l s L E) as [Hnw Hnl].
    destruct (calculate_results_no_outcome _ _ _ _ _ Hr Hnw Hnl) as [msg Hm].
    exists msg. split; [exact Hm |].
    intros c. apply insert_into_bet_results_raises. exact Hm.
  - intros Hou. exact (calculate_results_push _ _ _ _ _ Hr E Hou).
  - intros d row Hin. exact (settlement_run_results_settled nba_api d row Hin).
Qed.

Lemma C2_tie_raises_witness :
  @_calculate_results decimal_builtins (sample_bet "o21" (-150)) (sample_stats 21)
  = Raise (ValueError "Bet resulted in a push").
Proof.
  refine (proj1 (proj2
    (@C2_tie_raises decimal_builtins (fun _ _ => NoGame)
       (sample_bet "o21" (-150)) (sample_stats 21) 21%Q "o21" 21%Q _ _)) _).
  - split; [exists "points"; split; reflexivity | split; reflexivity].
  - reflexivity.
  - left. reflexivity.
Defined.

(** ** The classifier *)

Lemma add_reason_iff (R : gset string) (x r : string) (V : Prop) :
  ~ V -> (r ∈ R ∪ {[ x ]} <-> r ∈ R \/ (~ V /\ r = x)).
Proof.
  intros Hnv. rewrite elem_of_union, elem_of_singleton. tauto.
Qed.

Lemma keep_reason_iff (R : gset string) (x r : string) (V : Prop) :
  V -> (r ∈ R <-> r ∈ R \/ (~ V /\ r = x)).
Proof. tauto. Qed.

Section ClassifierFacts.
Context `{!Builtins}.
Variable player_ids : gmap string Z.

Lemma check_player_reasons bet (R : gset string) r :
  r ∈ check_player player_ids bet R <->
  r ∈ R \/ (~ field_valid player_ids FPlayer bet /\ r = field_reason FPlayer bet).
Proof.
  unfold check_player, field_valid, field_reason.
  destruct (e_player bet) as [| n | z | q] eqn:Ep; cbn [isna negb truthy].
  - cbn. apply add_reason_iff. intros (n & Hn & _); discriminate.
  - destruct (String.eqb n EmptyString) eqn:En; cbn [negb andb].
    + apply String.eqb_eq in En. subst n.
      apply add_reason_iff. intros (n & Hn & Hne & _); congruence.
    + apply String.eqb_neq in En. case_bool_decide as Hs; cbn [negb].
      * apply keep_reason_iff. exists n. auto.
      * apply add_reason_iff.
        intros (n' & Hn & _ & Hs'). injection Hn as <-. exact (Hs Hs').
  - destruct (negb (Z.eqb z 0)) eqn:Ez; cbn [negb andb];
      apply add_reason_iff; intros (n & Hn & _); discriminate.
  - destruct (negb (Qeq_bool q 0)) eqn:Ez; cbn [negb andb];
      apply add_reason_iff; intros (n & Hn & _); discriminate.
Qed.

Lemma check_bet_type_reasons bet (R : gset string) r :
  r ∈ check_bet_type bet R <->
  r ∈ R \/ (~ field_valid player_ids FBetType bet /\ r = field_reason FBetType bet).
Proof.
  unfold check_bet_type, field_valid, field_reason.
  destruct (e_bet_type bet) as [| t | z | q] eqn:Et; cbn [isna negb truthy].
  - cbn. apply add_reason_iff. intros (t & Ht & _); discriminate.
  - destruct (String.eqb t EmptyString) eqn:En; cbn [negb].
    + apply String.eqb_eq in En. subst t.
      apply add_reason_iff. intros (t & Ht & Hin). injection Ht as <-.
      revert Hin. vm_compute. intros Hin.
      repeat (apply elem_of_cons in Hin; destruct Hin as [Hin | Hin];
              [discriminate |]).
      apply elem_of_nil in Hin. exact Hin.
    + case_bool_decide as Hs.
      * apply keep_reason_iff. exists t. auto.
      * apply add_reason_iff. intros (t' & Ht & Hin). injection Ht as <-. auto.
  - destruct (negb (Z.eqb z 0)) eqn:Ez;
      apply add_reason_iff; intros (t & Ht & _); discriminate.
  - destruct (negb (Qeq_bool q 0)) eqn:Ez;
      apply add_reason_iff; intros (t & Ht & _); discriminate.
Qed.

Lemma check_score_reasons bet (R : gset string) r :
  r ∈ check_score bet R <->
  r ∈ R \/ (~ field_valid player_ids FScore bet /\ r = field_reason FScore bet).
Proof.
  unfold check_score, field_valid, field_reason.
  destruct (isna (e_score bet)) eqn:Ena.
  - apply add_reason_iff. intros (Hna & _). discriminate.
  - unfold VALID_RANGES_score.
    destruct (py_float (e_score bet)) as [q |] eqn:Eq.
    + destruct (Qle_bool 20 q && Qle_bool q 100) eqn:Erange; cbn [negb].
      * apply keep_reason_iff. split; [reflexivity |]. exists q.
        apply andb_true_iff in Erange. destruct Erange as [E1 E2].
        apply Qle_bool_iff in E1. apply Qle_bool_iff in E2. auto.
      * apply add_reason_iff. intros (_ & q' & Hq & H1 & H2). injection Hq as <-.
        apply Qle_bool_iff in H1. apply Qle_bool_iff in H2.
        rewrite H1, H2 in Erange. discriminate.
    + apply add_reason_iff. intros (_ & q' & Hq & _). discriminate.
Qed.

Lemma check_bet_line_reasons bet (R : gset string) r :
  r ∈ check_bet_line bet R <->
  r ∈ R \/ (~ field_valid player_ids FBetLine bet /\ r = field_reason FBetLine bet).
Proof.
  unfold check_bet_line, field_valid, field_reason.
  destruct (isna (e_bet_line bet)) eqn:Ena.
  - apply add_reason_iff. intros (Hna & _). discriminate.
  - destruct (match_bet_line (py_str (e_bet_line bet))) eqn:Em; cbn [negb].
    + apply keep_reason_iff. auto.
    + apply add_reason_iff. intros (_ & Hm). discriminate.
Qed.

Lemma check_odds_reasons bet (R : gset string) r :
  r ∈ check_odds bet R <->
  r ∈ R \/ (~ field_valid player_ids FOdds bet /\ r = field_reason FOdds bet).
Proof.
  unfold check_odds, field_valid, field_reason.
  destruct (isna (e_odds bet)) eqn:Ena.
  - apply add_reason_iff. intros (Hna & _). discriminate.
  - unfold VALID_RANGES_odds.
    destruct (py_int (e_odds bet)) as [z |] eqn:Ez.
    + replace (pretty (-1000)%Z) with "-1000" by (vm_compute; reflexivity).
      replace (pretty 1000%Z) with "1000" by (vm_compute; reflexivity).
      destruct (Z.leb (-1000) z && Z.leb z 1000) eqn:Erange; cbn [negb].
      * apply keep_reason_iff. split; [reflexivity |]. exists z.
        apply andb_true_iff in Erange. destruct Erange as [E1 E2].
        apply Z.leb_le in E1. apply Z.leb_le in E2. auto.
      * apply add_reason_iff. intros (_ & z' & Hz & H1 & H2). injection Hz as <-.
        apply Z.leb_le in H1. apply Z.leb_le in H2.
        rewrite H1, H2 in Erange. discriminate.
    + apply add_reason_iff. intros (_ & z' & Hz & _). discriminate.
Qed.

Lemma check_date_reasons bet (R : gset string) r :
  r ∈ check_date bet R <->
  r ∈ R \/ (~ field_valid player_ids FDate bet /\ r = field_reason FDate bet).
Proof.
  unfold check_date, field_valid, field_reason.
  destruct (isna (e_date bet)) eqn:Ena.
  - apply add_reason_iff. intros (Hna & _). discriminate.
  - destruct (py_to_datetime_ok (e_date bet)) eqn:Em.
    + apply keep_reason_iff. auto.
    + apply add_reason_iff. intros (_ & Hm). discriminate.
Qed.

(** Reason-set exactness: the reasons returned are those of the fields
    whose rule fails, and no other. *)
Lemma bet_needs_review_reasons bet r :
  r ∈ (_bet_needs_review player_ids bet).2 <->
  exists f, ~ field_valid player_ids f bet /\ r = field_reason f bet.
Proof.
  unfold _bet_needs_review. cbn [snd].
  rewrite check_date_reasons, check_odds_reasons, check_bet_line_reasons,
    check_score_reasons, check_bet_type_reasons, check_player_reasons.
  split.
  - intros [[[[[[Hin | Hx] | Hx] | Hx] | Hx] | Hx] | Hx];
      [ apply elem_of_empty in Hin; destruct Hin | eauto .. ].
  - intros ([] & Hx); tauto.
Qed.

Lemma bet_needs_review_flag bet :
  (_bet_needs_review player_ids bet).1
  = bool_decide ((_bet_needs_review player_ids bet).2 ≠ ∅).
Proof. reflexivity. Qed.

Lemma bet_needs_review_all_valid bet :
  (forall f, field_valid player_ids f bet) ->
  _bet_needs_review player_ids bet = (false, ∅).
Proof.
  intros Hv.
  assert (E : (_bet_needs_review player_ids bet).2 = ∅).
  { apply set_eq. intros r. rewrite bet_needs_review_reasons. split.
    - intros (f & Hn & _). destruct (Hn (Hv f)).
    - intros Hin. apply elem_of_empty in Hin. destruct Hin. }
  pose proof (bet_needs_review_flag bet) as Hf. rewrite E in Hf.
  rewrite (surjective_pairing (_bet_needs_review player_ids bet)), Hf, E.
  reflexivity.
Qed.

Lemma bet_needs_review_one_invalid bet f :
  ~ field_valid player_ids f bet ->
  (forall g, g <> f -> field_valid player_ids g bet) ->
  _bet_needs_review player_ids bet = (true, {[ field_reason f bet ]}).
Proof.
  intros Hn Hv.
  assert (E : (_bet_needs_review player_ids bet).2 = {[ field_reason f bet ]}).
  { apply set_eq. intros r. rewrite bet_needs_review_reasons, elem_of_singleton.
    split.
    - intros (g & Hg & ->).
      assert (Heq : g = f).
      { destruct g, f; try reflexivity; exfalso; apply Hg, Hv; discriminate. }
      subst g. reflexivity.
    - intros ->. exists f. auto. }
  pose proof (bet_needs_review_flag bet) as Hf. rewrite E in Hf.
  rewrite (surjective_pairing (_bet_needs_review player_ids bet)), Hf, E.
  reflexivity.
Qed.

End ClassifierFacts.

(** The reason text quoted by the specification is not the one the
    classifier produces for a score of 15.0. *)
Lemma C4_counterexample_reason_text :
  (@_bet_needs_review decimal_builtins sample_player_ids
     (sample_entry (VStr "15.0"))).2
  <> {[ "score out of expected range [20,100]: 15.0" ]}.
Proof.
  intros E.
  assert (Hin : "Score out of expected range [20.0,100.0]: 15.0"
                ∈ (@_bet_needs_review decimal_builtins sample_player_ids
                     (sample_entry (VStr "15.0"))).2).
  { apply bet_needs_review_reasons. exists FScore. split.
    - intros (_ & q & Hq & Hlo & _). vm_compute in Hq. injection Hq as <-.
      vm_compute in Hlo. apply Hlo. reflexivity.
    - vm_compute. reflexivity. }
  rewrite E in Hin. apply elem_of_singleton in Hin. discriminate Hin.
Qed.

(** C4 (amended).  The classifier is a function of the candidate record
    (and the roster): when all six fields satisfy their rules it returns
    no-review with the empty reason set; when exactly one field violates
    its rule it returns review with exactly the reason of that field; a
    score of 15.0 with all else valid gives exactly the reason
    [Score out of expected range [20.0,100.0]: 15.0]. *)
Theorem C4_classifier_exact `{!Builtins} player_ids bet :
  ((forall f, field_valid player_ids f bet) ->
     _bet_needs_review player_ids bet = (false, ∅))
  /\ (forall f,
        ~ field_valid player_ids f bet ->
        (forall g, g <> f -> field_valid player_ids g bet) ->
        _bet_needs_review player_ids bet = (true, {[ field_reason f bet ]}))
  /\ (isna (e_score bet) = false ->
      py_float (e_score bet) = Some 15%Q ->
      (forall g, g <> FScore -> field_valid player_ids g bet) ->
      repr_float 20 = "20.0" -> repr_float 100 = "100.0" ->
      repr_float 15 = "15.0" ->
      _bet_needs_review player_ids bet
      = (true, {[ "Score out of expected range [20.0,100.0]: 15.0" ]})).
Proof.
  split; [apply bet_needs_review_all_valid | split].
  - intros f. apply bet_needs_review_one_invalid.
  - intros Hna Hq Hv R20 R100 R15.
    rewrite (bet_needs_review_one_invalid player_ids bet FScore).
    + unfold field_reason. rewrite Hna, Hq, R20, R100, R15. reflexivity.
    + intros (_ & q & Hq' & Hlo & _). rewrite Hq in Hq'. injection Hq' as <-.
      apply Hlo. reflexivity.
    + exact Hv.
Qed.

Lemma C4_classifier_exact_witness :
  @_bet_needs_review decimal_builtins sample_player_ids (sample_entry (VStr "15.0"))
  = (true, {[ "Score out of expected range [20.0,100.0]: 15.0" ]}).
Proof.
  refine (proj2 (proj2
    (@C4_classifier_exact decimal_builtins sample_player_ids
       (sample_entry (VStr "15.0")))) eq_refl eq_refl _ eq_refl eq_refl eq_refl).
  intros g Hg. destruct g; cbn.
  - exists "LeBron James". split; [reflexivity |]. split; [discriminate |].
    exists 2544%Z. reflexivity.
  - exists "points". split; [reflexivity |].
    repeat first [ apply list_elem_of_here | apply list_elem_of_further ].
  - destruct (Hg eq_refl).
  - split; reflexivity.
  - split; [reflexivity |]. exists (-150)%Z. split; [reflexivity | lia].
  - split; reflexivity.
Defined.

(** ** The flag of an image *)

Section ImageFlagFacts.
Context `{!Builtins}.
Variable player_ids : gmap string Z.

Lemma bet_without_review_has_no_reason bet :
  (_bet_needs_review player_ids bet).1 = false ->
  (_bet_needs_review player_ids bet).2 = ∅.
Proof.
  rewrite bet_needs_review_flag. intros E.
  apply bool_decide_eq_false in E.
  destruct (decide ((_bet_needs_review player_ids bet).2 = ∅)) as [E0 | Hne];
    [exact E0 | destruct (E Hne)].
Qed.

Lemma image_reasons_fold (image_df : list bet_entry) (acc : gset string) :
  foldl (fun (all_reasons : gset string) bet_entry =>
           let '(needs_review, reasons) := _bet_needs_review player_ids bet_entry in
           if needs_review then all_reasons ∪ reasons else all_reasons)
        acc image_df
  = acc ∪ ⋃ ((fun b => (_bet_needs_review player_ids b).2) <$> image_df).
Proof.
  revert acc. induction image_df as [| b rest IH]; intros acc; cbn [foldl fmap list_fmap union_list].
  - cbn. symmetry. apply (right_id_L ∅ (∪)).
  - rewrite IH. cbn [union_list foldr].
    pose proof (bet_without_review_has_no_reason b) as Hb.
    destruct (_bet_needs_review player_ids b) as [nr R]. cbn [fst snd] in *.
    destruct nr.
    + rewrite (assoc_L (∪)). reflexivity.
    + rewrite (Hb eq_refl), (left_id_L ∅ (∪)). reflexivity.
Qed.

Lemma union_list_empty_iff (Rs : list (gset string)) :
  ⋃ Rs = ∅ <-> Forall (fun R => R = ∅) Rs.
Proof.
  induction Rs as [| R Rs IH]; cbn.
  - split; [constructor | reflexivity].
  - rewrite Forall_cons, <- IH. split.
    + intros E. apply empty_union_L in E. exact E.
    + intros [-> ->]. apply (left_id_L ∅ (∪)).
Qed.

(** The verdict on an image is the disjunction of the verdicts on its
    bets, and its reasons are the union of theirs. *)
Lemma image_needs_review_or (image_df : list bet_entry) :
  _image_needs_review player_ids image_df
  = (existsb (fun b => (_bet_needs_review player_ids b).1) image_df,
     ⋃ ((fun b => (_bet_needs_review player_ids b).2) <$> image_df)).
Proof.
  unfold _image_needs_review. rewrite image_reasons_fold.
  rewrite (left_id_L ∅ (∪)). f_equal.
  induction image_df as [| b rest IH]; cbn [existsb fmap list_fmap union_list foldr].
  - reflexivity.
  - rewrite <- IH, bet_needs_review_flag.
    destruct (bool_decide ((_bet_needs_review player_ids b).2 ≠ ∅)) eqn:Eb;
      cbn [orb].
    + apply bool_decide_eq_true. intros E. apply empty_union_L in E.
      apply bool_decide_eq_true in Eb. apply Eb. apply E.
    + apply bool_decide_eq_false in Eb.
      assert (E0 : (_bet_needs_review player_ids b).2 = ∅).
      { destruct (decide ((_bet_needs_review player_ids b).2 = ∅)) as [E0 | Hne];
          [exact E0 | destruct (Eb Hne)]. }
      cbn [union_list foldr] in *. rewrite E0, (left_id_L ∅ (∪)). reflexivity.
Qed.

End ImageFlagFacts.

(** ** Saving the rows of an image *)

Section SaveFacts.
Context `{!Builtins}.
Variable player_ids : gmap string Z.

Lemma row_to_insert_flag nr x n :
  row_to_insert player_ids nr x = Ok n ->
  needs_review n = nr /\ image_source n = x_image_source x.
Proof.
  unfold row_to_insert.
  destruct (if negb (isna (e_score (x_bet x))) then _ else _) as [sc | e];
    cbn [mbind res_bind]; [| discriminate].
  destruct (if negb (isna (e_odds (x_bet x))) then _ else _) as [od | e];
    cbn [mbind res_bind]; [| discriminate].
  intros E. injection E as <-. split; reflexivity.
Qed.

Lemma insert_or_ignore_raw_appends d n :
  exists new : list raw_bet,
    tbl_raw_ocr_bets (insert_or_ignore_raw d n) = (tbl_raw_ocr_bets d ++ new)%list
    /\ Forall (fun r => needs_review r = needs_review n
                        /\ image_source r = image_source n) new.
Proof.
  unfold insert_or_ignore_raw. destruct (existsb _ _).
  - exists []. split; [symmetry; apply app_nil_r | constructor].
  - eexists. split; [reflexivity |]. constructor; [| constructor].
    split; reflexivity.
Qed.

Lemma save_bet_appends nr d x :
  exists new : list raw_bet,
    tbl_raw_ocr_bets (save_bet player_ids nr d x) = (tbl_raw_ocr_bets d ++ new)%list
    /\ Forall (fun r => needs_review r = nr
                        /\ image_source r = x_image_source x) new.
Proof.
  unfold save_bet. destruct (row_to_insert player_ids nr x) as [n | e] eqn:E.
  - destruct (row_to_insert_flag _ _ _ E) as [<- <-].
    apply insert_or_ignore_raw_appends.
  - exists []. split; [symmetry; apply app_nil_r | constructor].
Qed.

Lemma save_bets_appends nr (image_df : list entry) d :
  exists new : list raw_bet,
    tbl_raw_ocr_bets (foldl (save_bet player_ids nr) d image_df)
    = (tbl_raw_ocr_bets d ++ new)%list
    /\ Forall (fun r => needs_review r = nr
                        /\ exists x, x ∈ image_df
                                     /\ image_source r = x_image_source x) new.
Proof.
  revert d. induction image_df as [| x rest IH]; intros d; cbn [foldl].
  - exists []. split; [symmetry; apply app_nil_r | constructor].
  - destruct (save_bet_appends nr d x) as (new1 & E1 & F1).
    destruct (IH (save_bet player_ids nr d x)) as (new2 & E2 & F2).
    exists (new1 ++ new2). split.
    + rewrite E2, E1, <- app_assoc. reflexivity.
    + apply Forall_app. split.
      * eapply Forall_impl; [exact F1 |]. intros r [Hr Hi]. split; [exact Hr |].
        exists x. split; [apply list_elem_of_here | exact Hi].
      * eapply Forall_impl; [exact F2 |]. intros r (Hr & y & Hy & Hi).
        split; [exact Hr |]. exists y. split; [apply list_elem_of_further, Hy | exact Hi].
Qed.

(** The rows that saving one image adds all carry the verdict on that
    image. *)
Lemma save_image_appends d image_name (image_df : list entry) :
  exists new : list raw_bet,
    tbl_raw_ocr_bets (save_image player_ids d (image_name, image_df))
    = (tbl_raw_ocr_bets d ++ new)%list
    /\ Forall (fun r =>
                 needs_review r
                 = (_image_needs_review player_ids (x_bet <$> image_df)).1
                 /\ exists x, x ∈ image_df
                              /\ image_source r = x_image_source x) new.
Proof.
  unfold save_image.
  destruct (_image_needs_review player_ids (x_bet <$> image_df)) as [nr reasons].
  apply save_bets_appends.
Qed.

Lemma groupby_image_source_groups (df : list entry) k g :
  (k, g) ∈ groupby_image_source df ->
  g = List.filter (fun x => String.eqb (x_image_source x) k) df.
Proof.
  unfold groupby_image_source. intros Hin.
  apply list_elem_of_fmap in Hin. destruct Hin as (k' & E & _).
  injection E as -> ->. reflexivity.
Qed.

Lemma save_images_appends (df : list entry) (groups : list (string * list entry)) d :
  (forall k g, (k, g) ∈ groups ->
     g = List.filter (fun x => String.eqb (x_image_source x) k) df) ->
  exists new : list raw_bet,
    tbl_raw_ocr_bets (foldl (save_image player_ids) d groups)
    = (tbl_raw_ocr_bets d ++ new)%list
    /\ Forall (fun r => needs_review r = image_flag player_ids df (image_source r)
                        /\ exists x, x ∈ df /\ image_source r = x_image_source x)
              new.
Proof.
  revert d. induction groups as [| [k g] rest IH]; intros d Hg; cbn [foldl].
  - exists []. split; [symmetry; apply app_nil_r | constructor].
  - destruct (save_image_appends d k g) as (new1 & E1 & F1).
    destruct (IH (save_image player_ids d (k, g))) as (new2 & E2 & F2).
    { intros k' g' Hin. apply Hg. apply list_elem_of_further, Hin. }
    exists (new1 ++ new2). split.
    + rewrite E2, E1, <- app_assoc. reflexivity.
    + apply Forall_app. split; [| exact F2].
      eapply Forall_impl; [exact F1 |]. intros r (Hr & x & Hx & Hi).
      pose proof (Hg k g (list_elem_of_here _ _)) as Eg.
      rewrite Eg in Hx. apply list_elem_of_In, filter_In in Hx.
      destruct Hx as [Hx Hk]. apply String.eqb_eq in Hk.
      split.
      * rewrite Hr. unfold image_flag. rewrite Hi, Hk, <- Eg. reflexivity.
      * exists x. split; [apply list_elem_of_In, Hx | exact Hi].
Qed.

Lemma with_id_id n k : id (with_id n k) = k.
Proof. reflexivity. Qed.

(** One INSERT OR IGNORE: afterwards the table has the row, or a row with
    its key. *)
Lemma insert_or_ignore_raw_saved d n :
  exists r, r ∈ tbl_raw_ocr_bets (insert_or_ignore_raw d n)
            /\ (r = with_id n (id r) \/ raw_unique_conflict n r = true).
Proof.
  unfold insert_or_ignore_raw.
  destruct (existsb (raw_unique_conflict n) (tbl_raw_ocr_bets d)) eqn:Ex.
  - apply existsb_exists in Ex. destruct Ex as (r & Hr & Ec).
    exists r. split; [apply list_elem_of_In, Hr | right; exact Ec].
  - exists (with_id n (raw_seq d + 1)). split; [| left; reflexivity].
    cbn [tbl_raw_ocr_bets put_raw_ocr_bets]. apply elem_of_app. right.
    apply list_elem_of_here.
Qed.

Lemma save_bets_keeps nr (image_df : list entry) d r :
  r ∈ tbl_raw_ocr_bets d ->
  r ∈ tbl_raw_ocr_bets (foldl (save_bet player_ids nr) d image_df).
Proof.
  intros Hr. destruct (save_bets_appends nr image_df d) as (new & -> & _).
  apply elem_of_app. left. exact Hr.
Qed.

Lemma save_bets_saved nr (image_df : list entry) d x n :
  x ∈ image_df ->
  row_to_insert player_ids nr x = Ok n ->
  exists r, r ∈ tbl_raw_ocr_bets (foldl (save_bet player_ids nr) d image_df)
            /\ (r = with_id n (id r) \/ raw_unique_conflict n r = true).
Proof.
  revert d. induction image_df as [| y rest IH]; intros d Hin Hn.
  - apply elem_of_nil in Hin. destruct Hin.
  - cbn [foldl]. apply elem_of_cons in Hin. destruct Hin as [<- | Hin].
    + destruct (insert_or_ignore_raw_saved d n) as (r & Hr & Hc).
      exists r. split; [| exact Hc]. apply save_bets_keeps.
      unfold save_bet. rewrite Hn. exact Hr.
    + apply IH; assumption.
Qed.

Lemma save_images_keeps (groups : list (string * list entry)) d r :
  r ∈ tbl_raw_ocr_bets d ->
  r ∈ tbl_raw_ocr_bets (foldl (save_image player_ids) d groups).
Proof.
  revert d. induction groups as [| [k g] rest IH]; intros d Hr; [exact Hr |].
  cbn [foldl]. apply IH.
  destruct (save_image_appends d k g) as (new & -> & _).
  apply elem_of_app. left. exact Hr.
Qed.

Lemma save_images_saved (groups : list (string * list entry)) d k g x n :
  (k, g) ∈ groups ->
  x ∈ g ->
  row_to_insert player_ids (_image_needs_review player_ids (x_bet <$> g)).1 x = Ok n ->
  exists r, r ∈ tbl_raw_ocr_bets (foldl (save_image player_ids) d groups)
            /\ (r = with_id n (id r) \/ raw_unique_conflict n r = true).
Proof.
  revert d. induction groups as [| [k' g'] rest IH]; intros d Hin Hx Hn.
  - apply elem_of_nil in Hin. destruct Hin.
  - cbn [foldl]. apply elem_of_cons in Hin. destruct Hin as [E | Hin].
    + injection E as <- <-.
      assert (Hs : exists r, r ∈ tbl_raw_ocr_bets (save_image player_ids d (k, g))
                             /\ (r = with_id n (id r)
                                 \/ raw_unique_conflict n r = true)).
      { unfold save_image.
        destruct (_image_needs_review player_ids (x_bet <$> g)) as [nr reasons].
        cbn [fst] in Hn. exact (save_bets_saved nr g d x n Hx Hn). }
      destruct Hs as (r & Hr & Hc). exists r. split; [| exact Hc].
      apply save_images_keeps, Hr.
    + exact (IH _ Hin Hx Hn).
Qed.

Lemma existsb_none {A} (f : A -> bool) (l : list A) :
  (forall a, a ∈ l -> f a = false) -> existsb f l = false.
Proof.
  intros Hl. apply not_true_is_false. intros E.
  apply existsb_exists in E. destruct E as (a & Ha & Ef).
  rewrite (Hl a (proj2 (list_elem_of_In _ _) Ha)) in Ef. discriminate Ef.
Qed.

(** Saving rows whose keys differ from the key of [n] leaves the key of
    [n] free. *)
Lemma save_bets_fresh nr (image_df : list entry) d n :
  (forall r, r ∈ tbl_raw_ocr_bets d -> raw_unique_conflict n r = false) ->
  (forall y ny, y ∈ image_df -> row_to_insert player_ids nr y = Ok ny ->
                raw_unique_conflict n ny = false) ->
  forall r, r ∈ tbl_raw_ocr_bets (foldl (save_bet player_ids nr) d image_df) ->
            raw_unique_conflict n r = false.
Proof.
  revert d. induction image_df as [| y rest IH]; intros d Hd Hrest; [exact Hd |].
  cbn [foldl]. apply IH.
  - intros r Hr. unfold save_bet in Hr.
    destruct (row_to_insert player_ids nr y) as [ny | e] eqn:Ey; [| apply Hd, Hr].
    unfold insert_or_ignore_raw in Hr.
    destruct (existsb _ _); [apply Hd, Hr |].
    cbn [tbl_raw_ocr_bets put_raw_ocr_bets] in Hr.
    apply elem_of_app in Hr. destruct Hr as [Hr | Hr]; [apply Hd, Hr |].
    apply list_elem_of_singleton in Hr. subst r.
    exact (Hrest y ny (list_elem_of_here _ _) Ey).
  - intros y' ny' Hy'. apply Hrest. apply list_elem_of_further, Hy'.
Qed.

(** A row whose key is free when its turn comes is inserted. *)
Lemma save_bets_inserted nr (l1 l2 : list entry) x d n :
  row_to_insert player_ids nr x = Ok n ->
  (forall r, r ∈ tbl_raw_ocr_bets d -> raw_unique_conflict n r = false) ->
  (forall y ny, y ∈ l1 -> row_to_insert player_ids nr y = Ok ny ->
                raw_unique_conflict n ny = false) ->
  exists r,
    r ∈ tbl_raw_ocr_bets (foldl (save_bet player_ids nr) d (l1 ++ x :: l2))
    /\ r = with_id n (id r).
Proof.
  intros Hn Hd Hl1. rewrite foldl_app. cbn [foldl].
  set (d1 := foldl (save_bet player_ids nr) d l1).
  pose proof (save_bets_fresh nr l1 d n Hd Hl1) as Hfree. fold d1 in Hfree.
  exists (with_id n (raw_seq d1 + 1)). split; [| reflexivity].
  apply save_bets_keeps. unfold save_bet. rewrite Hn.
  unfold insert_or_ignore_raw. rewrite (existsb_none _ _ Hfree).
  cbn [tbl_raw_ocr_bets put_raw_ocr_bets]. apply elem_of_app. right.
  apply list_elem_of_here.
Qed.

Lemma insert_sorted_elem k ks :
  k ∈ insert_sorted k ks /\ forall k', k' ∈ ks -> k' ∈ insert_sorted k ks.
Proof.
  induction ks as [| k0 ks IH]; cbn [insert_sorted].
  - split; [apply list_elem_of_here | intros k' Hk'; apply elem_of_nil in Hk'; destruct Hk'].
  - destruct (String.eqb_spec k k0) as [-> | Hne].
    + split; [apply list_elem_of_here | auto].
    + destruct (String.ltb k k0).
      * split; [apply list_elem_of_here |].
        intros k' Hk'. apply list_elem_of_further, Hk'.
      * destruct IH as [IH1 IH2]. split.
        -- apply list_elem_of_further, IH1.
        -- intros k' Hk'. apply elem_of_cons in Hk'. destruct Hk' as [-> | Hk'].
           ++ apply list_elem_of_here.
           ++ apply list_elem_of_further, IH2, Hk'.
Qed.

Lemma groupby_image_source_has (df : list entry) x :
  x ∈ df ->
  (x_image_source x,
   List.filter (fun y => String.eqb (x_image_source y) (x_image_source x)) df)
    ∈ groupby_image_source df.
Proof.
  intros Hx. unfold groupby_image_source.
  apply list_elem_of_fmap. exists (x_image_source x). split; [reflexivity |].
  assert (Hk : x_image_source x ∈ (x_image_source <$> df))
    by (apply list_elem_of_fmap; eauto).
  clear Hx. induction (x_image_source <$> df) as [| k ks IH]; cbn [foldr].
  - apply elem_of_nil in Hk. destruct Hk.
  - apply elem_of_cons in Hk. destruct Hk as [<- | Hk].
    + exact (proj1 (insert_sorted_elem _ _)).
    + exact (proj2 (insert_sorted_elem _ _) _ (IH Hk)).
Qed.

(** Every row of the frame whose values convert is in the table after
    [_save_to_database], or a row with its key is. *)
Lemma save_to_database_saved d (cleaned_entries : list entry) x n :
  x ∈ cleaned_entries ->
  row_to_insert player_ids
    (image_flag player_ids cleaned_entries (x_image_source x)) x = Ok n ->
  exists r, r ∈ tbl_raw_ocr_bets (_save_to_database player_ids d cleaned_entries)
            /\ (r = with_id n (id r) \/ raw_unique_conflict n r = true).
Proof.
  intros Hx Hn. unfold _save_to_database.
  destruct cleaned_entries as [| x0 rest] eqn:Ec.
  { apply elem_of_nil in Hx. destruct Hx. }
  rewrite <- Ec in *. clear Ec x0 rest.
  apply (save_images_saved _ d (x_image_source x)
           (List.filter (fun y => String.eqb (x_image_source y) (x_image_source x))
                        cleaned_entries) x n).
  - apply groupby_image_source_has, Hx.
  - apply list_elem_of_In, filter_In. split; [apply list_elem_of_In, Hx |].
    apply String.eqb_refl.
  - exact Hn.
Qed.

Lemma save_to_database_appends d (cleaned_entries : list entry) :
  exists new : list raw_bet,
    tbl_raw_ocr_bets (_save_to_database player_ids d cleaned_entries)
    = (tbl_raw_ocr_bets d ++ new)%list
    /\ Forall (fun r =>
                 needs_review r = image_flag player_ids cleaned_entries (image_source r)
                 /\ exists x, x ∈ cleaned_entries
                              /\ image_source r = x_image_source x) new.
Proof.
  unfold _save_to_database. destruct cleaned_entries as [| x0 rest].
  - exists []. split; [symmetry; apply app_nil_r | constructor].
  - apply save_images_appends. intros k g.
    apply groupby_image_source_groups.
Qed.

End SaveFacts.

(** ** One image, from the OCR text to the table *)

Lemma res_mapM_Forall2 {A B} (f : A -> res B) (l : list A) (l' : list B) :
  res_mapM f l = Ok l' -> Forall2 (fun a b => f a = Ok b) l l'.
Proof.
  revert l'. induction l as [| a l IH]; intros l'; cbn [res_mapM].
  - intros E. injection E as <-. constructor.
  - destruct (f a) as [b | e] eqn:Ea; cbn [mbind res_bind]; [| discriminate].
    destruct (res_mapM f l) as [bs | e]; cbn [mbind res_bind]; [| discriminate].
    intros E. injection E as <-. constructor; [exact Ea | apply IH; reflexivity].
Qed.

Lemma res_mapM_raises {A B} (f : A -> res B) (l : list A) a :
  a ∈ l -> raises (f a) = true -> raises (res_mapM f l) = true.
Proof.
  induction l as [| a0 l IH]; intros Hin Hr.
  - apply elem_of_nil in Hin. destruct Hin.
  - cbn [res_mapM]. destruct (f a0) as [b | e] eqn:Ea0; cbn [mbind res_bind];
      [| reflexivity].
    apply elem_of_cons in Hin. destruct Hin as [-> | Hin].
    + rewrite Ea0 in Hr. discriminate.
    + specialize (IH Hin Hr).
      destruct (res_mapM f l) as [bs | e]; [discriminate | reflexivity].
Qed.

Section ProcessImageFacts.
Context `{!Builtins} `{!Scanner}.
Variable player_ids : gmap string Z.
Variable year : Z.

Lemma extract_image_source raw_text image_name extracted :
  _extract_bet_data raw_text image_name = Some extracted ->
  Forall (fun x => x_image_source x = image_name) extracted.
Proof.
  unfold _extract_bet_data.
  destruct (findall_dates raw_text) as [| date0 ?]; [discriminate |].
  destruct (findall_score_lines raw_text) as [| sl0 ?]; [discriminate |].
  intros E. injection E as <-. apply Forall_fmap, Forall_forall.
  intros i _. reflexivity.
Qed.

Lemma clean_data_image_source (df cleaned : list entry) image_name :
  clean_data year df = Ok cleaned ->
  Forall (fun x => x_image_source x = image_name) df ->
  Forall (fun x => x_image_source x = image_name) cleaned.
Proof.
  unfold clean_data.
  destruct (res_mapM clean_row_odds (clean_row_strings <$> df)) as [df1 |] eqn:E1;
    cbn [mbind res_bind]; [| discriminate].
  destruct (res_mapM (clean_row_date year) (clean_row_line_score <$> df1))
    as [df2 |] eqn:E2; cbn [mbind res_bind]; [| discriminate].
  intros E Hdf. injection E as <-.
  apply res_mapM_Forall2 in E1. apply res_mapM_Forall2 in E2.
  assert (H1 : Forall (fun x => x_image_source x = image_name) df1).
  { clear E2. revert df1 E1. induction Hdf as [| x df Hx Hdf IH]; intros df1 E1.
    - apply Forall2_nil_inv_l in E1. subst. constructor.
    - rewrite fmap_cons in E1. apply Forall2_cons_inv_l in E1.
      destruct E1 as (y & df1' & Ey & E1 & ->). constructor; [| apply IH, E1].
      unfold clean_row_odds in Ey.
      destruct (clean_odds _) as [o | e]; cbn [mbind res_bind] in Ey;
        [| discriminate].
      injection Ey as <-. exact Hx. }
  clear E1 Hdf. revert df2 E2. induction H1 as [| x df1 Hx H1 IH]; intros df2 E2.
  - apply Forall2_nil_inv_l in E2. subst. constructor.
  - rewrite fmap_cons in E2. apply Forall2_cons_inv_l in E2.
    destruct E2 as (y & df2' & Ey & E2 & ->). constructor; [| apply IH, E2].
    unfold clean_row_date in Ey.
    destruct (clean_date _ _) as [o | e]; cbn [mbind res_bind] in Ey;
      [| discriminate].
    injection Ey as <-. exact Hx.
Qed.

Lemma get_existing_data_none d image_name d1 :
  _get_existing_data d image_name = (d1, None) ->
  tbl_raw_ocr_bets d1
  = List.filter (fun r => negb (String.eqb (image_source r) image_name))
                (tbl_raw_ocr_bets d)
  /\ List.filter (fun r => String.eqb (image_source r) image_name
                           && negb (needs_review r))
                 (tbl_raw_ocr_bets d) = [].
Proof.
  unfold _get_existing_data.
  destruct (List.filter _ (tbl_raw_ocr_bets d)) as [| r0 ?] eqn:Ef.
  - intros E. injection E as <-. split; reflexivity.
  - discriminate.
Qed.

Lemma filter_all {A} (f : A -> bool) (l : list A) :
  Forall (fun x => f x = true) l -> List.filter f l = l.
Proof.
  induction 1 as [| x l Hx Hl IH]; cbn; [reflexivity |].
  rewrite Hx, IH. reflexivity.
Qed.

(** Once an image has been processed and its rows saved, every row of
    the table that belongs to the image carries the verdict on the
    image. *)
Lemma process_image_flag d image_name d' cleaned_entries r :
  process_image player_ids year d image_name = (d', Cleaned cleaned_entries) ->
  r ∈ tbl_raw_ocr_bets d' ->
  image_source r = image_name ->
  needs_review r = (_image_needs_review player_ids (x_bet <$> cleaned_entries)).1.
Proof.
  unfold process_image.
  destruct (_get_existing_data d image_name) as [d1 [df |]] eqn:Eg; [discriminate |].
  destruct (readtext image_name) as [raw_text |]; [| discriminate].
  destruct (String.eqb raw_text EmptyString); [discriminate |].
  destruct (_extract_bet_data raw_text image_name) as [[| x0 extracted] |] eqn:Ex;
    try discriminate.
  destruct (clean_data year (x0 :: extracted)) as [cleaned |] eqn:Ec;
    [| discriminate].
  intros E Hin Hsrc. injection E as <- <-.
  pose proof (clean_data_image_source _ _ _ Ec (extract_image_source _ _ _ Ex))
    as Hall.
  destruct (save_to_database_appends player_ids d1 cleaned) as (new & Enew & Fnew).
  rewrite Enew in Hin. apply elem_of_app in Hin. destruct Hin as [Hin | Hin].
  - exfalso. destruct (get_existing_data_none _ _ _ Eg) as [E1 _].
    rewrite E1 in Hin. apply list_elem_of_In, filter_In in Hin.
    destruct Hin as [_ Hne]. apply negb_true_iff, String.eqb_neq in Hne.
    exact (Hne Hsrc).
  - rewrite Forall_forall in Fnew. destruct (Fnew r Hin) as [Hflag _].
    rewrite Hflag. unfold image_flag. rewrite Hsrc.
    rewrite filter_all; [reflexivity |].
    eapply Forall_impl; [exact Hall |]. intros x Hx. apply String.eqb_eq, Hx.
Qed.

Lemma groupby_image_source_single (df : list entry) k :
  df <> [] ->
  Forall (fun x => x_image_source x = k) df ->
  groupby_image_source df = [(k, df)].
Proof.
  intros Hne Hall. unfold groupby_image_source.
  assert (Hkeys : foldr insert_sorted [] (x_image_source <$> df) = [k]).
  { destruct df as [| x0 df]; [contradiction |]. clear Hne.
    revert x0 Hall. induction df as [| x1 df IH]; intros x0 Hall.
    - apply Forall_cons in Hall. destruct Hall as [<- _]. reflexivity.
    - apply Forall_cons in Hall. destruct Hall as [E0 Hall].
      rewrite fmap_cons. cbn [foldr]. rewrite (IH x1 Hall), E0.
      cbn [insert_sorted]. rewrite String.eqb_refl. reflexivity. }
  rewrite Hkeys. cbn [fmap list_fmap]. rewrite filter_all; [reflexivity |].
  eapply Forall_impl; [exact Hall |]. intros x Hx. apply String.eqb_eq, Hx.
Qed.

(** Once an image has been processed, a row of its frame whose values
    convert and whose key is taken neither by a row of another image nor
    by a row earlier in the frame is in the table, under the verdict on
    the image. *)
Lemma process_image_inserted d image_name d' (l1 l2 : list entry) x n :
  process_image player_ids year d image_name = (d', Cleaned (l1 ++ x :: l2)) ->
  row_to_insert player_ids
    (_image_needs_review player_ids (x_bet <$> l1 ++ x :: l2)).1 x = Ok n ->
  (forall r, r ∈ tbl_raw_ocr_bets d -> image_source r <> image_name ->
             raw_unique_conflict n r = false) ->
  (forall y ny,
     y ∈ l1 ->
     row_to_insert player_ids
       (_image_needs_review player_ids (x_bet <$> l1 ++ x :: l2)).1 y = Ok ny ->
     raw_unique_conflict n ny = false) ->
  exists r, r ∈ tbl_raw_ocr_bets d' /\ r = with_id n (id r).
Proof.
  unfold process_image.
  destruct (_get_existing_data d image_name) as [d1 [df |]] eqn:Eg; [discriminate |].
  destruct (readtext image_name) as [raw_text |]; [| discriminate].
  destruct (String.eqb raw_text EmptyString); [discriminate |].
  destruct (_extract_bet_data raw_text image_name) as [[| x0 extracted] |] eqn:Ex;
    try discriminate.
  destruct (clean_data year (x0 :: extracted)) as [cleaned |] eqn:Ec;
    [| discriminate].
  intros E Hn Hd Hl1. injection E as <- ->.
  pose proof (clean_data_image_source _ _ _ Ec (extract_image_source _ _ _ Ex))
    as Hall.
  unfold _save_to_database.
  destruct (l1 ++ x :: l2) as [| c0 crest] eqn:Ecl.
  { destruct l1; discriminate Ecl. }
  rewrite <- Ecl in *.
  rewrite (groupby_image_source_single (l1 ++ x :: l2) image_name);
    [| rewrite Ecl; discriminate | exact Hall].
  cbn [foldl]. unfold save_image.
  destruct (_image_needs_review player_ids (x_bet <$> l1 ++ x :: l2))
    as [nr reasons]. cbn [fst] in Hn, Hl1.
  apply save_bets_inserted; [exact Hn | | exact Hl1].
  intros r Hr. destruct (get_existing_data_none _ _ _ Eg) as [E1 _].
  rewrite E1 in Hr. apply list_elem_of_In, filter_In in Hr.
  destruct Hr as [Hr Hsrc]. apply negb_true_iff, String.eqb_neq in Hsrc.
  apply Hd; [apply list_elem_of_In, Hr | exact Hsrc].
Qed.

Lemma process_image_entry_source d image_name d' cleaned_entries x :
  process_image player_ids year d image_name = (d', Cleaned cleaned_entries) ->
  x ∈ cleaned_entries -> x_image_source x = image_name.
Proof.
  unfold process_image.
  destruct (_get_existing_data d image_name) as [d1 [df |]] eqn:Eg; [discriminate |].
  destruct (readtext image_name) as [raw_text |]; [| discriminate].
  destruct (String.eqb raw_text EmptyString); [discriminate |].
  destruct (_extract_bet_data raw_text image_name) as [[| x0 extracted] |] eqn:Ex;
    try discriminate.
  destruct (clean_data year (x0 :: extracted)) as [cleaned |] eqn:Ec;
    [| discriminate].
  intros E Hx. injection E as <- <-.
  pose proof (clean_data_image_source _ _ _ Ec (extract_image_source _ _ _ Ex))
    as Hall.
  rewrite Forall_forall in Hall. exact (Hall x Hx).
Qed.

(** Once an image has been processed, every row of its frame whose
    values convert is in the table, or a row with its key is. *)
Lemma process_image_saved d image_name d' cleaned_entries x n :
  process_image player_ids year d image_name = (d', Cleaned cleaned_entries) ->
  x ∈ cleaned_entries ->
  row_to_insert player_ids
    (_image_needs_review player_ids (x_bet <$> cleaned_entries)).1 x = Ok n ->
  exists r, r ∈ tbl_raw_ocr_bets d'
            /\ (r = with_id n (id r) \/ raw_unique_conflict n r = true).
Proof.
  unfold process_image.
  destruct (_get_existing_data d image_name) as [d1 [df |]] eqn:Eg; [discriminate |].
  destruct (readtext image_name) as [raw_text |]; [| discriminate].
  destruct (String.eqb raw_text EmptyString); [discriminate |].
  destruct (_extract_bet_data raw_text image_name) as [[| x0 extracted] |] eqn:Ex;
    try discriminate.
  destruct (clean_data year (x0 :: extracted)) as [cleaned |] eqn:Ec;
    [| discriminate].
  intros E Hx Hn. injection E as <- <-.
  pose proof (clean_data_image_source _ _ _ Ec (extract_image_source _ _ _ Ex))
    as Hall.
  apply (save_to_database_saved player_ids d1 cleaned x n Hx).
  unfold image_flag. rewrite filter_all; [exact Hn |].
  rewrite Forall_forall in Hall. apply Forall_forall. intros y Hy.
  rewrite (Hall y Hy), (Hall x Hx). apply String.eqb_refl.
Qed.

End ProcessImageFacts.

(** A bet that is not saved: the slip of [slip1.png] is photographed once
    more, the table has its bet from [slip1.png] already, and INSERT OR
    IGNORE adds no row for the second image. *)
Lemma C8_counterexample_bet_ignored :
  ~ @image_bets_saved_as_stated decimal_builtins twice_scanner
      sample_player_ids 2025 slip1_db "slip1_again.png".
Proof.
  intros Hclaim.
  destruct (Hclaim slip1_db slip1_again_cleaned
              (default {| x_bet := curry_entry; x_read_score_patterns := None;
                          x_read_players := None; x_raw_text := EmptyString;
                          x_image_source := EmptyString |}
                       (slip1_again_cleaned !! 0%nat)))
    as (n & r & En & Hr & Er).
  - vm_compute. reflexivity.
  - vm_compute. apply list_elem_of_here.
  - vm_compute in En. injection En as <-.
    vm_compute in Hr.
    apply elem_of_cons in Hr.
    destruct Hr as [-> | Hr]; [vm_compute in Er; discriminate Er |].
    apply elem_of_nil in Hr. exact Hr.
Qed.

(** C8 (amended).  The verdict on an image is the disjunction of the
    verdicts on its bets, with the reasons of the bets united.  Every row
    that [_save_to_database] adds carries the verdict on the rows of its
    image, and for every row of the frame whose score and odds convert, the
    table then has the row that the INSERT binds under that verdict, or
    has a row with the same player, date, bet type and score, for which
    INSERT OR IGNORE adds nothing.  After [process_image] has saved an
    image, every row of the table that belongs to the image carries the
    verdict on the image; the same alternative holds of every row of its
    frame; and a row of the frame whose score and odds convert and whose
    player, date, bet type and score are those of no row of another image
    and of no row earlier in the frame is in the table, as the row that
    the INSERT binds under the verdict on the image. *)
Theorem C8_image_flag_shared `{!Builtins} `{!Scanner} player_ids year :
  (forall image_df : list bet_entry,
     _image_needs_review player_ids image_df
     = (existsb (fun b => (_bet_needs_review player_ids b).1) image_df,
        ⋃ ((fun b => (_bet_needs_review player_ids b).2) <$> image_df)))
  /\ (forall d cleaned_entries,
        (exists new : list raw_bet,
           tbl_raw_ocr_bets (_save_to_database player_ids d cleaned_entries)
           = tbl_raw_ocr_bets d ++ new
           /\ Forall (fun r =>
                        needs_review r
                        = image_flag player_ids cleaned_entries (image_source r))
                     new)
        /\ forall x n,
             x ∈ cleaned_entries ->
             row_to_insert player_ids
               (image_flag player_ids cleaned_entries (x_image_source x)) x = Ok n ->
             exists r,
               r ∈ tbl_raw_ocr_bets (_save_to_database player_ids d cleaned_entries)
               /\ ((r = with_id n (id r)
                    /\ needs_review r
                       = image_flag player_ids cleaned_entries (x_image_source x)
                    /\ image_source r = x_image_source x)
                   \/ raw_unique_conflict n r = true))
  /\ (forall d image_name d' cleaned_entries,
        process_image player_ids year d image_name = (d', Cleaned cleaned_entries) ->
        let flag := existsb (fun b => (_bet_needs_review player_ids b).1)
                            (x_bet <$> cleaned_entries) in
        (forall r,
           r ∈ tbl_raw_ocr_bets d' ->
           image_source r = image_name ->
           needs_review r = flag)
        /\ (forall x n,
              x ∈ cleaned_entries ->
              row_to_insert player_ids flag x = Ok n ->
              exists r,
                r ∈ tbl_raw_ocr_bets d'
                /\ ((r = with_id n (id r)
                     /\ needs_review r = flag
                     /\ image_source r = image_name)
                    \/ raw_unique_conflict n r = true))
        /\ forall l1 x l2 n,
             cleaned_entries = l1 ++ x :: l2 ->
             row_to_insert player_ids flag x = Ok n ->
             (forall r, r ∈ tbl_raw_ocr_bets d -> image_source r <> image_name ->
                        raw_unique_conflict n r = false) ->
             (forall y ny, y ∈ l1 -> row_to_insert player_ids flag y = Ok ny ->
                           raw_unique_conflict n ny = false) ->
             exists r,
               r ∈ tbl_raw_ocr_bets d'
               /\ r = with_id n (id r)
               /\ needs_review r = flag
               /\ image_source r = image_name).
Proof.
  split; [apply image_needs_review_or | split].
  - intros d cleaned_entries. split.
    + destruct (save_to_database_appends player_ids d cleaned_entries)
        as (new & Enew & Fnew).
      exists new. split; [exact Enew |].
      eapply Forall_impl; [exact Fnew |]. intros r [Hr _]. exact Hr.
    + intros x n Hx Hn.
      destruct (save_to_database_saved player_ids d cleaned_entries x n Hx Hn)
        as (r & Hr & Hc).
      exists r. split; [exact Hr |]. destruct Hc as [Er | Hc]; [left | right; exact Hc].
      destruct (row_to_insert_flag _ _ _ _ Hn) as [Hf Hs].
      split; [exact Er |]. rewrite Er. cbn [needs_review image_source with_id].
      auto.
  - intros d image_name d' cleaned_entries Hp flag.
    assert (Hflag : flag
                    = (_image_needs_review player_ids (x_bet <$> cleaned_entries)).1)
      by (rewrite image_needs_review_or; reflexivity).
    split; [| split].
    + intros r Hin Hsrc. unfold flag.
      rewrite (process_image_flag player_ids year _ _ _ _ _ Hp Hin Hsrc).
      rewrite image_needs_review_or. reflexivity.
    + intros x n Hx Hn.
      rewrite Hflag in Hn.
      destruct (process_image_saved player_ids year _ _ _ _ x n Hp Hx Hn)
        as (r & Hr & Hc).
      exists r. split; [exact Hr |]. destruct Hc as [Er | Hc]; [left | right; exact Hc].
      destruct (row_to_insert_flag _ _ _ _ Hn) as [Hf Hs].
      split; [exact Er |]. rewrite Er. cbn [needs_review image_source with_id].
      rewrite Hflag. split; [exact Hf |]. rewrite Hs.
      apply (process_image_entry_source player_ids year _ _ _ _ _ Hp Hx).
    + intros l1 x l2 n Ecl Hn Hd Hl1. rewrite Hflag in Hn, Hl1. subst cleaned_entries.
      destruct (process_image_inserted player_ids year _ _ _ _ _ _ _ Hp Hn Hd Hl1)
        as (r & Hr & Er).
      exists r. split; [exact Hr |]. split; [exact Er |].
      destruct (row_to_insert_flag _ _ _ _ Hn) as [Hf Hs].
      rewrite Er. cbn [needs_review image_source with_id].
      rewrite Hflag. split; [exact Hf |]. rewrite Hs.
      apply (process_image_entry_source player_ids year _ _ _ _ _ Hp).
      apply elem_of_app. right. apply list_elem_of_here.
Qed.

Lemma C8_image_flag_shared_witness :
  Forall (fun r => needs_review r = true) slip3_rows
  /\ exists r,
       r ∈ tbl_raw_ocr_bets slip1_db
       /\ r = with_id slip1_row (id r)
       /\ needs_review r = false
       /\ image_source r = "slip1.png".
Proof.
  split.
  - assert (Hp : @process_image decimal_builtins sample_scanner sample_player_ids 2025
                   empty_db "slip3.png" = (slip3_db, Cleaned slip3_cleaned))
      by (vm_compute; reflexivity).
    destruct (proj2 (proj2
      (@C8_image_flag_shared decimal_builtins sample_scanner sample_player_ids 2025))
      empty_db "slip3.png" slip3_db slip3_cleaned Hp) as [Hrows _].
    assert (Hflag : existsb (fun b => (@_bet_needs_review decimal_builtins
                                         sample_player_ids b).1)
                            (x_bet <$> slip3_cleaned) = true)
      by (vm_compute; reflexivity).
    rewrite Hflag in Hrows.
    apply Forall_forall. intros r Hr. apply Hrows; [exact Hr |].
    vm_compute in Hr.
    apply elem_of_cons in Hr. destruct Hr as [-> | Hr]; [reflexivity |].
    apply elem_of_cons in Hr. destruct Hr as [-> | Hr]; [reflexivity |].
    apply elem_of_nil in Hr. destruct Hr.
  - assert (Hp : @process_image decimal_builtins sample_scanner sample_player_ids 2025
                   empty_db "slip1.png" = (slip1_db, Cleaned slip1_cleaned))
      by (vm_compute; reflexivity).
    destruct (proj2 (proj2
      (@C8_image_flag_shared decimal_builtins sample_scanner sample_player_ids 2025))
      empty_db "slip1.png" slip1_db slip1_cleaned Hp) as (_ & _ & Hins).
    assert (Hflag : existsb (fun b => (@_bet_needs_review decimal_builtins
                                         sample_player_ids b).1)
                            (x_bet <$> slip1_cleaned) = false)
      by (vm_compute; reflexivity).
    rewrite Hflag in Hins.
    apply (Hins [] (default {| x_bet := curry_entry; x_read_score_patterns := None;
                               x_read_players := None; x_raw_text := EmptyString;
                               x_image_source := EmptyString |}
                            (slip1_cleaned !! 0%nat)) []).
    + vm_compute. reflexivity.
    + vm_compute. reflexivity.
    + intros r Hr. apply elem_of_nil in Hr. destruct Hr.
    + intros y ny Hy. apply elem_of_nil in Hy. destruct Hy.
Defined.

(** ** Reconciling the lengths of the columns *)

Section ExtractionFacts.
Context `{!Scanner}.

Lemma column_or_NA_lookup (xs : list string) (m i : nat) :
  (i < m)%nat ->
  column_or_NA xs m !! i
  = Some (if Nat.eqb (length xs) m then default NA (VStr <$> xs !! i) else NA).
Proof.
  intros Hi. unfold column_or_NA. destruct (Nat.eqb_spec (length xs) m) as [E | Hne].
  - rewrite list_lookup_fmap.
    destruct (xs !! i) as [x |] eqn:Ex; [reflexivity |].
    apply lookup_ge_None in Ex. lia.
  - apply lookup_replicate. auto.
Qed.

Lemma pad_debug_lookup {A} (xs : list A) (m i : nat) :
  (length xs <= m)%nat -> (i < m)%nat ->
  pad_debug xs m !! i = Some (xs !! i).
Proof.
  intros Hle Hi. unfold pad_debug.
  destruct (Nat.eqb_spec (length xs) m) as [E | Hne].
  - rewrite list_lookup_fmap. destruct (xs !! i) as [x |] eqn:Ex; [reflexivity |].
    apply lookup_ge_None in Ex. lia.
  - destruct (xs !! i) as [x |] eqn:Ex.
    + rewrite lookup_app_l by (rewrite length_fmap; eapply lookup_lt_Some; eauto).
      rewrite list_lookup_fmap, Ex. reflexivity.
    + apply lookup_ge_None in Ex.
      rewrite lookup_app_r by (rewrite length_fmap; exact Ex).
      apply lookup_replicate. split; [reflexivity |].
      rewrite length_fmap. lia.
Qed.

(** The rows that extraction returns, position by position. *)
Lemma extract_bet_data_rows raw_text image_name extracted :
  _extract_bet_data raw_text image_name = Some extracted ->
  let score_lines := findall_score_lines raw_text in
  let players := players_read raw_text in
  let m := Nat.max (length players) (length score_lines) in
  length extracted = m
  /\ forall i x,
       extracted !! i = Some x ->
       (i < m)%nat
       /\ e_score (x_bet x)
          = (if Nat.eqb (length score_lines) m
             then default NA ((fun item => VStr item.1.1) <$> score_lines !! i)
             else NA)
       /\ e_bet_line (x_bet x)
          = (if Nat.eqb (length score_lines) m
             then default NA ((fun item => VStr item.1.2) <$> score_lines !! i)
             else NA)
       /\ e_odds (x_bet x)
          = (if Nat.eqb (length score_lines) m
             then default NA ((fun item => VStr item.2) <$> score_lines !! i)
             else NA)
       /\ e_player (x_bet x)
          = (if Nat.eqb (length players) m
             then default NA (VStr <$> players !! i)
             else NA)
       /\ x_read_score_patterns x = score_lines !! i
       /\ x_read_players x = players !! i.
Proof.
  unfold _extract_bet_data, players_read.
  destruct (findall_dates raw_text) as [| date0 ?]; [discriminate |].
  destruct (findall_score_lines raw_text) as [| sl0 sls] eqn:Esl; [discriminate |].
  rewrite <- Esl. clear Esl sl0 sls.
  set (score_lines := findall_score_lines raw_text).
  set (players := (fun item => default item (dict_get NAME_REPLACEMENTS item))
                    <$> _find_players_in_text raw_text).
  rewrite !length_fmap.
  replace (Nat.max (length players)
             (Nat.max (length score_lines)
                (Nat.max (length score_lines) (length score_lines))))
    with (Nat.max (length players) (length score_lines)) by lia.
  set (m := Nat.max (length players) (length score_lines)).
  intros E. injection E as <-. cbn zeta. split.
  - rewrite length_fmap, length_seq. reflexivity.
  - intros i x Hx. rewrite list_lookup_fmap in Hx.
    destruct (seq 0 m !! i) as [j |] eqn:Ej; [| discriminate].
    apply lookup_seq in Ej. destruct Ej as [-> Hi].
    cbn [fmap option_fmap option_map] in Hx.
    injection Hx as <-. cbn [x_bet e_score e_bet_line e_odds e_player
                             x_read_score_patterns x_read_players Nat.add].
    rewrite !column_or_NA_lookup by exact Hi.
    rewrite !pad_debug_lookup by (first [exact Hi | unfold m; lia]).
    rewrite !length_fmap, !list_lookup_fmap. cbn [default from_option].
    split; [exact Hi |].
    repeat split; destruct (Nat.eqb (length score_lines) m);
      try reflexivity; destruct (score_lines !! i); reflexivity.
Qed.

End ExtractionFacts.

(** On [slip3.png] two player names and one score line were read: the
    score that was read is not kept in the first row. *)
Lemma C5_counterexample_column_dropped :
  ~ @padding_as_stated sample_scanner slip3_text "slip3.png".
Proof.
  intros Hclaim.
  destruct (Hclaim slip3_extracted eq_refl) as [Hscores _].
  destruct (Hscores 0%nat ("+25.50%", "o21.5", "-150") eq_refl)
    as (x & Hx & Hscore & _).
  vm_compute in Hx. injection Hx as <-. discriminate Hscore.
Qed.

(** C5 (amended).  Extraction returns as many rows as the longer of the
    two lists read (score lines, player names).  A list of that length
    keeps each value at its position; a shorter list is replaced as a
    whole by unresolved values, so no value that was read appears at
    another position.  Only the two diagnostic columns are padded: they
    keep what was read and are unresolved past its end. *)
Theorem C5_short_columns_unresolved `{!Scanner} raw_text image_name extracted :
  _extract_bet_data raw_text image_name = Some extracted ->
  let score_lines := findall_score_lines raw_text in
  let players := players_read raw_text in
  let m := Nat.max (length players) (length score_lines) in
  length extracted = m
  /\ forall i x,
       extracted !! i = Some x ->
       (length score_lines = m ->
          exists item, score_lines !! i = Some item
                       /\ e_score (x_bet x) = VStr item.1.1
                       /\ e_bet_line (x_bet x) = VStr item.1.2
                       /\ e_odds (x_bet x) = VStr item.2)
       /\ (length score_lines <> m ->
             e_score (x_bet x) = NA /\ e_bet_line (x_bet x) = NA
             /\ e_odds (x_bet x) = NA)
       /\ (length players = m ->
             exists name, players !! i = Some name
                          /\ e_player (x_bet x) = VStr name)
       /\ (length players <> m -> e_player (x_bet x) = NA)
       /\ x_read_score_patterns x = score_lines !! i
       /\ x_read_players x = players !! i.
Proof.
  intros E. destruct (extract_bet_data_rows _ _ _ E) as [Hlen Hrows].
  cbn zeta in *. split; [exact Hlen |].
  intros i x Hx.
  destruct (Hrows i x Hx) as (Hi & Hs & Hl & Ho & Hp & Hds & Hdp).
  split; [| split; [| split; [| split; [| split]]]].
  - intros En. apply Nat.eqb_eq in En. rewrite En in Hs, Hl, Ho.
    destruct (findall_score_lines raw_text !! i) as [item |] eqn:Ei.
    + exists item. auto.
    + apply lookup_ge_None in Ei. apply Nat.eqb_eq in En. lia.
  - intros Hne. apply Nat.eqb_neq in Hne. rewrite Hne in Hs, Hl, Ho. auto.
  - intros En. apply Nat.eqb_eq in En. rewrite En in Hp.
    destruct (players_read raw_text !! i) as [name |] eqn:Ei.
    + exists name. auto.
    + apply lookup_ge_None in Ei. apply Nat.eqb_eq in En. lia.
  - intros Hne. apply Nat.eqb_neq in Hne. rewrite Hne in Hp. exact Hp.
  - exact Hds.
  - exact Hdp.
Qed.

Lemma C5_short_columns_unresolved_witness :
  length slip3_extracted = 2%nat
  /\ Forall (fun x => e_score (x_bet x) = NA
                      /\ x_read_score_patterns x
                         = findall_score_lines (Scanner := sample_scanner)
                             slip3_text !! 0%nat)
            (take 1 slip3_extracted).
Proof.
  pose proof (@C5_short_columns_unresolved sample_scanner slip3_text "slip3.png"
                slip3_extracted eq_refl) as [Hlen Hrows].
  split; [exact Hlen |].
  constructor; [| constructor].
  destruct (Hrows 0%nat _ eq_refl) as (_ & Hna & _ & _ & Hdbg & _).
  split; [apply Hna; vm_compute; lia | exact Hdbg].
Defined.

(** ** A conversion that fails *)

Lemma raises_inv {A} (r : res A) : raises r = true -> exists e, r = Raise e.
Proof. destruct r as [a | e]; [discriminate | eauto]. Qed.

Lemma res_mapM_ok {A B} (f : A -> res B) (l : list A) :
  Forall (fun a => raises (f a) = false) l ->
  exists l', res_mapM f l = Ok l' /\ length l' = length l.
Proof.
  induction 1 as [| a l Ha Hl IH]; cbn [res_mapM].
  - exists []. split; reflexivity.
  - destruct (f a) as [b | e]; [| discriminate]. cbn [mbind res_bind].
    destruct IH as (l' & -> & Hlen). cbn [mbind res_bind].
    exists (b :: l'). split; [reflexivity | cbn; rewrite Hlen; reflexivity].
Qed.

Section CleaningFacts.
Context `{!Builtins}.
Variable year : Z.

Lemma clean_row_odds_raises x :
  odds_conversion_fails x ->
  raises (clean_row_odds (clean_row_strings x)) = true.
Proof.
  intros (s & Es & Ef). unfold clean_row_odds, clean_row_strings, clean_odds.
  cbn [x_bet set_bet e_odds]. rewrite Es. cbn [on_str]. rewrite Ef. reflexivity.
Qed.

Lemma clean_row_odds_ok x :
  ~ odds_conversion_fails x ->
  raises (clean_row_odds (clean_row_strings x)) = false.
Proof.
  intros Hn. unfold clean_row_odds, clean_row_strings, clean_odds.
  cbn [x_bet set_bet e_odds].
  destruct (e_odds (x_bet x)) as [| s | z | q] eqn:Es; cbn [on_str];
    try reflexivity.
  destruct (astype_Int64 _) eqn:Ef; [reflexivity |].
  exfalso. apply Hn. exists s. auto.
Qed.

Lemma clean_row_odds_date x y :
  clean_row_odds (clean_row_strings x) = Ok y ->
  e_date (x_bet y) = e_date (x_bet x).
Proof.
  unfold clean_row_odds. destruct (clean_odds _) as [o | e];
    cbn [mbind res_bind]; [| discriminate].
  intros E. injection E as <-. reflexivity.
Qed.

Lemma clean_row_date_raises y :
  (exists s, e_date (x_bet y) = VStr s
             /\ strptime_mdY (s +:+ "/" +:+ pretty year) = None) ->
  raises (clean_row_date year (clean_row_line_score y)) = true.
Proof.
  intros (s & Es & Ef). unfold clean_row_date, clean_row_line_score, clean_date.
  cbn [x_bet set_bet e_date]. rewrite Es, Ef. reflexivity.
Qed.

Lemma clean_row_date_ok y :
  ~ (exists s, e_date (x_bet y) = VStr s
               /\ strptime_mdY (s +:+ "/" +:+ pretty year) = None) ->
  raises (clean_row_date year (clean_row_line_score y)) = false.
Proof.
  intros Hn. unfold clean_row_date, clean_row_line_score, clean_date.
  cbn [x_bet set_bet e_date].
  destruct (e_date (x_bet y)) as [| s | z | q] eqn:Es; try reflexivity.
  destruct (strptime_mdY _) eqn:Ef; [reflexivity |].
  exfalso. apply Hn. exists s. auto.
Qed.

(** One failing conversion, in any row, and [clean_data] raises. *)
Lemma clean_data_raises (df : list entry) x :
  x ∈ df ->
  odds_conversion_fails x \/ date_conversion_fails year x ->
  exists e, clean_data year df = Raise e.
Proof.
  intros Hin Hfail. unfold clean_data.
  destruct (res_mapM clean_row_odds (clean_row_strings <$> df)) as [df1 | e] eqn:E1;
    cbn [mbind res_bind]; [| eauto].
  destruct Hfail as [Ho | Hd].
  - exfalso.
    assert (Hr : raises (res_mapM clean_row_odds (clean_row_strings <$> df)) = true).
    { apply (res_mapM_raises _ _ (clean_row_strings x)).
      - apply list_elem_of_fmap. exists x. auto.
      - apply clean_row_odds_raises, Ho. }
    rewrite E1 in Hr. discriminate.
  - apply res_mapM_Forall2 in E1.
    apply list_elem_of_lookup in Hin. destruct Hin as [i Hi].
    assert (Hi' : (clean_row_strings <$> df) !! i = Some (clean_row_strings x))
      by (rewrite list_lookup_fmap, Hi; reflexivity).
    destruct (Forall2_lookup_l _ _ _ _ _ E1 Hi') as (y & Hy & Ey).
    assert (Hr : raises (res_mapM (clean_row_date year)
                           (clean_row_line_score <$> df1)) = true).
    { apply (res_mapM_raises _ _ (clean_row_line_score y)).
      - apply list_elem_of_fmap. exists y. split; [reflexivity |].
        apply list_elem_of_lookup. eauto.
      - apply clean_row_date_raises. rewrite (clean_row_odds_date _ _ Ey).
        exact Hd. }
    destruct (res_mapM (clean_row_date year) (clean_row_line_score <$> df1))
      as [df2 | e]; [discriminate | cbn [mbind res_bind]; eauto].
Qed.

(** No failing conversion, and every row comes back. *)
Lemma clean_data_ok (df : list entry) :
  (forall x, x ∈ df ->
     ~ odds_conversion_fails x /\ ~ date_conversion_fails year x) ->
  exists cleaned, clean_data year df = Ok cleaned /\ length cleaned = length df.
Proof.
  intros Hok. unfold clean_data.
  destruct (res_mapM_ok clean_row_odds (clean_row_strings <$> df))
    as (df1 & E1 & Hlen1).
  { apply Forall_fmap, Forall_forall. intros x Hx.
    apply clean_row_odds_ok. apply (Hok x Hx). }
  rewrite E1. cbn [mbind res_bind].
  destruct (res_mapM_ok (clean_row_date year) (clean_row_line_score <$> df1))
    as (df2 & E2 & Hlen2).
  { apply Forall_fmap, Forall_forall. intros y Hy.
    apply clean_row_date_ok.
    apply res_mapM_Forall2 in E1.
    apply list_elem_of_lookup in Hy. destruct Hy as [i Hi].
    destruct (Forall2_lookup_r _ _ _ _ _ E1 Hi) as (x' & Hx' & Ey).
    rewrite list_lookup_fmap in Hx'.
    destruct (df !! i) as [x |] eqn:Ex; [| discriminate].
    injection Hx' as <-. rewrite (clean_row_odds_date _ _ Ey).
    apply (Hok x). apply list_elem_of_lookup. eauto. }
  rewrite E2. cbn [mbind res_bind]. exists df2. split; [reflexivity |].
  rewrite Hlen2, length_fmap, Hlen1, length_fmap. reflexivity.
Qed.

End CleaningFacts.

(** On [slip2.png] the date read is 2/30: the clean-up returns nothing. *)
Lemma C9_counterexample_whole_frame_lost :
  ~ @failure_degrades_field_as_stated decimal_builtins 2025 slip2_extracted.
Proof.
  intros Hclaim. destruct Hclaim as (cleaned & Hc & _).
  - eexists. split; [apply list_elem_of_here |].
    right. exists "2/30". split; reflexivity.
  - vm_compute in Hc. discriminate Hc.
Qed.

(** C9 (amended).  In the clean-up an odds text that does not convert to
    an integer, or a date that does not convert with the year, in any row,
    makes [clean_data] raise; [process_image] then returns nothing and
    saves no row of the image.  When no conversion fails, [clean_data]
    returns every row. *)
Theorem C9_conversion_failure_aborts `{!Builtins} `{!Scanner} player_ids year :
  (forall (df : list entry) x,
     x ∈ df ->
     odds_conversion_fails x \/ date_conversion_fails year x ->
     exists e, clean_data year df = Raise e)
  /\ (forall d image_name d1 raw_text extracted x,
        _get_existing_data d image_name = (d1, None) ->
        readtext image_name = Some raw_text ->
        raw_text <> EmptyString ->
        _extract_bet_data raw_text image_name = Some extracted ->
        x ∈ extracted ->
        odds_conversion_fails x \/ date_conversion_fails year x ->
        process_image player_ids year d image_name = (d1, Nothing))
  /\ (forall df : list entry,
        (forall x, x ∈ df ->
           ~ odds_conversion_fails x /\ ~ date_conversion_fails year x) ->
        exists cleaned, clean_data year df = Ok cleaned
                        /\ length cleaned = length df).
Proof.
  split; [| split].
  - intros df x. apply clean_data_raises.
  - intros d image_name d1 raw_text extracted x Hg Hr Hne Hx Hin Hfail.
    unfold process_image. rewrite Hg, Hr.
    apply String.eqb_neq in Hne. rewrite Hne, Hx.
    destruct extracted as [| x0 rest]; [reflexivity |].
    destruct (clean_data_raises year _ x Hin Hfail) as [e ->]. reflexivity.
  - intros df. apply clean_data_ok.
Qed.

Lemma C9_conversion_failure_aborts_witness :
  sample_image_run empty_db "slip2.png" = (empty_db, Nothing).
Proof.
  refine (proj1 (proj2
    (@C9_conversion_failure_aborts decimal_builtins sample_scanner
       sample_player_ids 2025))
    empty_db "slip2.png" empty_db slip2_text slip2_extracted _ _ _ _ _ _ _).
  - reflexivity.
  - reflexivity.
  - discriminate.
  - reflexivity.
  - apply list_elem_of_here.
  - right. exists "2/30". split; reflexivity.
Defined.

(** ** Which rows of [raw_ocr_bets] exist *)

Lemma update_raw_ids cond f d :
  (forall r, id (f r) = id r) -> raw_ids (update_raw cond f d) = raw_ids d.
Proof.
  intros Hf. unfold raw_ids, update_raw. cbn [tbl_raw_ocr_bets put_raw_ocr_bets].
  rewrite <- list_fmap_compose. apply list_fmap_ext. intros i r _. cbn.
  destruct (cond r); [apply Hf | reflexivity].
Qed.

Lemma update_raw_lookup cond f d i r :
  tbl_raw_ocr_bets d !! i = Some r ->
  tbl_raw_ocr_bets (update_raw cond f d) !! i = Some (if cond r then f r else r).
Proof.
  intros Hi. unfold update_raw. cbn [tbl_raw_ocr_bets put_raw_ocr_bets].
  rewrite list_lookup_fmap, Hi. reflexivity.
Qed.

Section SettlementRows.
Context `{!Builtins}.
Variable nba_api : Z -> option string -> api_reply.

(** A settlement run neither removes nor adds a row of [raw_ocr_bets]. *)
Lemma settlement_run_raw_ids d :
  raw_ids (settlement_run nba_api d).1 = raw_ids d.
Proof.
  apply (settlement_run_preserves nba_api (fun d' => raw_ids d' = raw_ids d)).
  - intros d' rows seq Hd'. exact Hd'.
  - intros d' rows Hd'. exact Hd'.
  - intros d' cond Hd'. rewrite update_raw_ids; [exact Hd' | reflexivity].
  - intros d' row _ Hd'. exact Hd'.
  - reflexivity.
Qed.

End SettlementRows.

Section ReviewRows.
Context `{!Builtins}.

Lemma select_player_id_exn name d e :
  select_player_id name d = Raise e -> is_Exception e = true.
Proof.
  unfold select_player_id. destruct name as [| n | z | q];
    try (intros E; injection E as <-; reflexivity).
  destruct (List.find _ _); [discriminate |].
  intros E. injection E as <-. reflexivity.
Qed.

Lemma bet_needs_review_exn d bet e :
  bet_needs_review d bet = Raise e -> is_Exception e = true.
Proof.
  unfold bet_needs_review.
  destruct (truthy _).
  - destruct (select_player_id _ d) as [pid | e'] eqn:Es; cbn [mbind res_bind].
    + destruct (Z.eqb pid 0); discriminate.
    + intros E. injection E as <-. exact (select_player_id_exn _ _ _ Es).
  - discriminate.
Qed.

(** One CSV row: the connection keeps its committed snapshot, nothing is
    raised, and the open transaction either is as before or has had the
    rows with the id of the CSV row rewritten. *)
Lemma review_row_step bet c :
  exists d',
    try_except (review_row bet) (fun _ => mret tt) c
    = ({| committed := committed c; working := d' |}, Ok tt)
    /\ (d' = working c
        \/ exists f, (forall r, id (f r) = id r)
                     /\ d' = update_raw (fun r => Z.eqb (id r) (c_id bet)) f
                                        (working c)).
Proof.
  destruct c as [dc dw]. unfold try_except, review_row, mbind, M_bind.
  cbn [working committed].
  destruct (bet_needs_review dw (c_bet bet)) as [[nr reasons] | e] eqn:Eb;
    cbn [working committed].
  - destruct (select_player_id (e_player (c_bet bet)) dw) as [pid | e] eqn:Es;
      cbn [working committed].
    + destruct nr.
      * exists dw. split; [reflexivity | left; reflexivity].
      * unfold query. cbn [working committed].
        destruct (review_conflict pid bet dw).
        -- exists dw. split; [reflexivity | left; reflexivity].
        -- eexists. split; [reflexivity |]. right. eexists. split; [| reflexivity].
           intros r. reflexivity.
    + rewrite (select_player_id_exn _ _ _ Es).
      exists dw. split; [reflexivity | left; reflexivity].
  - rewrite (bet_needs_review_exn _ _ _ Eb).
    exists dw. split; [reflexivity | left; reflexivity].
Qed.

(** The loop over the CSV rows: no row is added or removed, and a row
    whose id is not in the CSV file stays as it is. *)
Lemma review_rows_effect (csv_df : list csv_row) c :
  exists d',
    review_rows csv_df c = ({| committed := committed c; working := d' |}, Ok tt)
    /\ raw_ids d' = raw_ids (working c)
    /\ forall i r,
         tbl_raw_ocr_bets (working c) !! i = Some r ->
         id r ∉ (c_id <$> csv_df) ->
         tbl_raw_ocr_bets d' !! i = Some r.
Proof.
  revert c. induction csv_df as [| bet rest IH]; intros c; cbn [review_rows].
  - exists (working c). destruct c. cbn. auto.
  - unfold mbind at 1, M_bind at 1.
    destruct (review_row_step bet c) as (d1 & -> & Hd1).
    destruct (IH {| committed := committed c; working := d1 |})
      as (d2 & -> & Hids & Hrows). cbn [committed working] in *.
    exists d2. split; [reflexivity |]. split.
    + rewrite Hids. destruct Hd1 as [-> | (f & Hf & ->)]; [reflexivity |].
      apply update_raw_ids, Hf.
    + intros i r Hi Hnot. apply Hrows.
      * destruct Hd1 as [-> | (f & Hf & ->)]; [exact Hi |].
        rewrite (update_raw_lookup _ _ _ _ _ Hi).
        destruct (Z.eqb_spec (id r) (c_id bet)) as [E | _]; [| reflexivity].
        exfalso. apply Hnot. rewrite fmap_cons, E. apply list_elem_of_here.
      * intros Hin. apply Hnot. rewrite fmap_cons. apply list_elem_of_further, Hin.
Qed.

(** The database after the import of a CSV file that has rows. *)
Lemma update_reviewed_entries_effect bet0 (rest : list csv_row) d :
  let csv_df := bet0 :: rest in
  let deleted := deleted_ids d csv_df in
  let d1 := if bool_decide (deleted ≠ ∅)
            then update_raw (fun r => bool_decide (id r ∈ deleted)) set_is_voided d
            else d in
  raw_ids (update_reviewed_entries (Some csv_df) d) = raw_ids d
  /\ forall i r,
       tbl_raw_ocr_bets d1 !! i = Some r ->
       id r ∉ (c_id <$> csv_df) ->
       tbl_raw_ocr_bets (update_reviewed_entries (Some csv_df) d) !! i = Some r.
Proof.
  intros csv_df deleted d1.
  unfold update_reviewed_entries. cbv delta [csv_df]. cbv iota. fold csv_df.
  unfold with_conn, mbind, M_bind, query, connect. cbn [working committed].
  fold deleted.
  assert (Estep :
    (if bool_decide (deleted ≠ ∅)
     then exec (update_raw (fun r => bool_decide (id r ∈ deleted)) set_is_voided)
     else mret tt) {| committed := d; working := d |}
    = ({| committed := d; working := d1 |}, Ok tt)).
  { unfold d1. destruct (bool_decide (deleted ≠ ∅)); reflexivity. }
  rewrite Estep.
  destruct (review_rows_effect csv_df {| committed := d; working := d1 |})
    as (d2 & -> & Hids & Hrows). cbn [committed working] in *.
  cbn [do_commit commit fst committed working]. split.
  - rewrite Hids. unfold d1. destruct (bool_decide (deleted ≠ ∅)); [| reflexivity].
    apply update_raw_ids. reflexivity.
  - exact Hrows.
Qed.

End ReviewRows.

(** An import whose file has no rows voids nothing, whatever is flagged. *)
Lemma C7_counterexample_empty_file :
  ~ @voiding_as_stated decimal_builtins [] slip3_db.
Proof.
  intros Hclaim.
  assert (Hin : default (sample_bet "o21.5" 0) (slip3_rows !! 0%nat)
                ∈ tbl_raw_ocr_bets slip3_db) by apply list_elem_of_here.
  destruct (Hclaim _ Hin eq_refl) as (r' & Hr' & Hid & Hv).
  { intros Hcsv. apply elem_of_nil in Hcsv. exact Hcsv. }
  cbn [update_reviewed_entries] in Hr'.
  vm_compute in Hr'.
  apply elem_of_cons in Hr'. destruct Hr' as [-> | Hr'].
  - discriminate Hv.
  - apply elem_of_cons in Hr'. destruct Hr' as [-> | Hr'].
    + discriminate Hv.
    + apply elem_of_nil in Hr'. exact Hr'.
Qed.

(** C7 (amended).  In an import whose CSV file has at least one row,
    every row that is flagged (needs review, not voided) and whose id is
    not in the file ends with [is_voided] set, in its place in the table,
    with [is_processed] and every other column as before. *)
Theorem C7_voiding_frame `{!Builtins} bet0 (rest : list csv_row) d i r :
  tbl_raw_ocr_bets d !! i = Some r ->
  flagged r = true ->
  id r ∉ (c_id <$> bet0 :: rest) ->
  exists r',
    tbl_raw_ocr_bets (update_reviewed_entries (Some (bet0 :: rest)) d) !! i = Some r'
    /\ is_voided r' = true
    /\ is_processed r' = is_processed r
    /\ needs_review r' = needs_review r
    /\ id r' = id r /\ player_id r' = player_id r /\ bet_type r' = bet_type r
    /\ score r' = score r /\ date r' = date r /\ bet_line r' = bet_line r
    /\ odds r' = odds r /\ image_source r' = image_source r
    /\ raw_text r' = raw_text r /\ read_players r' = read_players r
    /\ read_score_patterns r' = read_score_patterns r.
Proof.
  intros Hi Hflag Hnot.
  exists (set_is_voided r). split; [| repeat split].
  destruct (update_reviewed_entries_effect bet0 rest d) as [_ Hrows].
  cbn zeta in Hrows. apply Hrows; [| exact Hnot].
  assert (Hdel : id r ∈ deleted_ids d (bet0 :: rest)).
  { unfold deleted_ids. apply elem_of_difference. split.
    - apply elem_of_list_to_set, list_elem_of_fmap. exists r. split; [reflexivity |].
      apply list_elem_of_In, filter_In. split; [| exact Hflag].
      apply list_elem_of_In, list_elem_of_lookup. eauto.
    - intros Hin. apply elem_of_list_to_set in Hin. exact (Hnot Hin). }
  rewrite bool_decide_eq_true_2.
  - rewrite (update_raw_lookup _ _ _ _ _ Hi).
    rewrite bool_decide_eq_true_2 by exact Hdel. reflexivity.
  - intros E. rewrite E in Hdel. apply elem_of_empty in Hdel. exact Hdel.
Qed.

Lemma C7_voiding_frame_witness :
  exists r',
    tbl_raw_ocr_bets
      (@update_reviewed_entries decimal_builtins (Some sample_csv) slip3_db)
      !! 0%nat = Some r'
    /\ is_voided r' = true /\ is_processed r' = false.
Proof.
  assert (Hrow : tbl_raw_ocr_bets slip3_db !! 0%nat
                 = Some (default (sample_bet "o21.5" 0) (slip3_rows !! 0%nat)))
    by (vm_compute; reflexivity).
  assert (Hflag : flagged (default (sample_bet "o21.5" 0) (slip3_rows !! 0%nat))
                  = true)
    by (vm_compute; reflexivity).
  assert (Hnot : id (default (sample_bet "o21.5" 0) (slip3_rows !! 0%nat))
                 ∉ (c_id <$> sample_csv)).
  { intros Hin. apply elem_of_cons in Hin. destruct Hin as [Hin | Hin].
    - vm_compute in Hin. discriminate Hin.
    - apply elem_of_nil in Hin. exact Hin. }
  destruct (@C7_voiding_frame decimal_builtins
              {| c_id := 2; c_bet := sample_entry NA |} [] slip3_db 0%nat
              _ Hrow Hflag Hnot)
    as (r' & Hr' & Hv & Hp & _).
  exists r'. split; [exact Hr' |]. split; [exact Hv |]. rewrite Hp.
  vm_compute. reflexivity.
Defined.

(** ** Extraction and the rows already in the table *)

Lemma only_adds_fresh_refl d : only_adds_fresh d d.
Proof. split; [lia | auto]. Qed.

Lemma only_adds_fresh_trans d1 d2 d3 :
  only_adds_fresh d1 d2 -> only_adds_fresh d2 d3 -> only_adds_fresh d1 d3.
Proof.
  intros [H1 R1] [H2 R2]. split; [lia |].
  intros r Hr. destruct (R2 r Hr) as [Hin | Hlt].
  - exact (R1 r Hin).
  - right. lia.
Qed.

Lemma insert_or_ignore_raw_fresh d n : only_adds_fresh d (insert_or_ignore_raw d n).
Proof.
  unfold insert_or_ignore_raw. destruct (existsb _ _).
  - apply only_adds_fresh_refl.
  - split; cbn [raw_seq put_raw_ocr_bets tbl_raw_ocr_bets]; [lia |].
    intros r Hr. apply elem_of_app in Hr. destruct Hr as [Hr | Hr]; [auto |].
    apply list_elem_of_singleton in Hr. subst r. right. cbn. lia.
Qed.

Lemma foldl_only_adds_fresh {A} (f : db -> A -> db) (l : list A) d :
  (forall d a, only_adds_fresh d (f d a)) -> only_adds_fresh d (foldl f d l).
Proof.
  intros Hf. revert d. induction l as [| a l IH]; intros d; cbn [foldl].
  - apply only_adds_fresh_refl.
  - eapply only_adds_fresh_trans; [apply Hf | apply IH].
Qed.

Section ExistingRows.
Context `{!Builtins} `{!Scanner}.
Variable player_ids : gmap string Z.
Variable year : Z.

Lemma save_to_database_fresh d (cleaned_entries : list entry) :
  only_adds_fresh d (_save_to_database player_ids d cleaned_entries).
Proof.
  unfold _save_to_database. destruct cleaned_entries as [| x0 rest].
  - apply only_adds_fresh_refl.
  - apply foldl_only_adds_fresh. intros d' [k g]. unfold save_image.
    destruct (_image_needs_review _ _) as [nr reasons].
    apply foldl_only_adds_fresh. intros d'' x. unfold save_bet.
    destruct (row_to_insert _ _ _).
    + apply insert_or_ignore_raw_fresh.
    + apply only_adds_fresh_refl.
Qed.

(** The database that [process_image] leaves: the one that
    [_get_existing_data] leaves, or that one after the rows of the image
    have been saved. *)
Lemma process_image_db d image_name :
  let d1 := (_get_existing_data d image_name).1 in
  (process_image player_ids year d image_name).1 = d1
  \/ exists cleaned_entries,
       (process_image player_ids year d image_name).1
       = _save_to_database player_ids d1 cleaned_entries.
Proof.
  unfold process_image.
  destruct (_get_existing_data d image_name) as [d1 [df |]]; cbn [fst];
    [left; reflexivity |].
  destruct (readtext image_name) as [raw_text |]; [| left; reflexivity].
  destruct (String.eqb raw_text EmptyString); [left; reflexivity |].
  destruct (_extract_bet_data raw_text image_name) as [[| x0 extracted] |];
    [left; reflexivity | | left; reflexivity].
  destruct (clean_data year (x0 :: extracted)) as [cleaned | e];
    [| left; reflexivity].
  right. exists cleaned. reflexivity.
Qed.

Lemma get_existing_data_db d image_name :
  (_get_existing_data d image_name).1 = d
  \/ ((_get_existing_data d image_name).1
      = put_raw_ocr_bets d
          (List.filter (fun r => negb (String.eqb (image_source r) image_name))
                       (tbl_raw_ocr_bets d))
          (raw_seq d)
      /\ forall r, r ∈ tbl_raw_ocr_bets d -> image_source r = image_name ->
                   needs_review r = true).
Proof.
  unfold _get_existing_data.
  destruct (List.filter _ (tbl_raw_ocr_bets d)) as [| r0 ?] eqn:Ef;
    [| left; reflexivity].
  right. split; [reflexivity |].
  intros r Hin Hsrc. destruct (needs_review r) eqn:Hn; [reflexivity |].
  exfalso.
  assert (Hf : In r (List.filter
                       (fun r => String.eqb (image_source r) image_name
                                 && negb (needs_review r))
                       (tbl_raw_ocr_bets d))).
  { apply filter_In. split; [apply list_elem_of_In, Hin |].
    rewrite Hn. apply andb_true_iff. split; [apply String.eqb_eq, Hsrc | reflexivity]. }
  rewrite Ef in Hf. destruct Hf.
Qed.

(** Rows of other images stay. *)
Lemma process_image_keeps_other_images d image_name r :
  r ∈ tbl_raw_ocr_bets d ->
  image_source r <> image_name ->
  r ∈ tbl_raw_ocr_bets (process_image player_ids year d image_name).1.
Proof.
  intros Hin Hne.
  assert (H1 : r ∈ tbl_raw_ocr_bets (_get_existing_data d image_name).1).
  { destruct (get_existing_data_db d image_name) as [-> | [-> _]]; [exact Hin |].
    cbn [tbl_raw_ocr_bets put_raw_ocr_bets].
    apply list_elem_of_In, filter_In. split; [apply list_elem_of_In, Hin |].
    apply negb_true_iff, String.eqb_neq, Hne. }
  destruct (process_image_db d image_name) as [-> | (cleaned & ->)]; [exact H1 |].
  destruct (save_to_database_appends player_ids
              (_get_existing_data d image_name).1 cleaned) as (new & -> & _).
  apply elem_of_app. left. exact H1.
Qed.

(** An image with a row that needs no review is left alone. *)
Lemma process_image_existing d image_name r0 :
  r0 ∈ tbl_raw_ocr_bets d ->
  image_source r0 = image_name ->
  needs_review r0 = false ->
  (process_image player_ids year d image_name).1 = d.
Proof.
  intros Hin Hsrc Hn. unfold process_image, _get_existing_data.
  destruct (List.filter _ (tbl_raw_ocr_bets d)) as [| r1 ?] eqn:Ef;
    [| reflexivity].
  exfalso.
  assert (Hf : In r0 (List.filter
                        (fun r => String.eqb (image_source r) image_name
                                  && negb (needs_review r))
                        (tbl_raw_ocr_bets d))).
  { apply filter_In. split; [apply list_elem_of_In, Hin |].
    rewrite Hn. apply andb_true_iff. split; [apply String.eqb_eq, Hsrc | reflexivity]. }
  rewrite Ef in Hf. destruct Hf.
Qed.

Lemma NoDup_fmap_elem {A B} (f : A -> B) (l : list A) x y :
  NoDup (f <$> l) -> x ∈ l -> y ∈ l -> f x = f y -> x = y.
Proof.
  induction l as [| a l IH]; intros Hnd Hx Hy E.
  - apply elem_of_nil in Hx. destruct Hx.
  - rewrite fmap_cons in Hnd. apply NoDup_cons in Hnd. destruct Hnd as [Hna Hnd].
    apply elem_of_cons in Hx. apply elem_of_cons in Hy.
    destruct Hx as [-> | Hx], Hy as [-> | Hy].
    + reflexivity.
    + exfalso. apply Hna. rewrite E. apply list_elem_of_fmap. eauto.
    + exfalso. apply Hna. rewrite <- E. apply list_elem_of_fmap. eauto.
    + exact (IH Hnd Hx Hy E).
Qed.

(** An image all of whose rows need review loses them. *)
Lemma process_image_deletes d image_name r :
  ids_well_formed d ->
  (forall r0, r0 ∈ tbl_raw_ocr_bets d -> image_source r0 = image_name ->
              needs_review r0 = true) ->
  r ∈ tbl_raw_ocr_bets d ->
  image_source r = image_name ->
  id r ∉ raw_ids (process_image player_ids year d image_name).1.
Proof.
  intros [Hnd Hseq] Hall Hin Hsrc Hid.
  apply list_elem_of_fmap in Hid. destruct Hid as (r' & Eid & Hr').
  set (d1 := put_raw_ocr_bets d
               (List.filter (fun r => negb (String.eqb (image_source r) image_name))
                            (tbl_raw_ocr_bets d))
               (raw_seq d)).
  assert (E1 : (_get_existing_data d image_name).1 = d1).
  { unfold _get_existing_data.
    destruct (List.filter
                (fun r => String.eqb (image_source r) image_name
                          && negb (needs_review r))
                (tbl_raw_ocr_bets d)) as [| r1 ?] eqn:Ef;
      [reflexivity |].
    exfalso.
    assert (Hf : In r1 (List.filter
                          (fun r => String.eqb (image_source r) image_name
                                    && negb (needs_review r))
                          (tbl_raw_ocr_bets d)))
      by (rewrite Ef; left; reflexivity).
    apply filter_In in Hf. destruct Hf as [Hr1 Hc].
    apply andb_true_iff in Hc. destruct Hc as [Hs Hn].
    apply String.eqb_eq in Hs.
    rewrite (Hall r1 (proj2 (list_elem_of_In _ _) Hr1) Hs) in Hn. discriminate. }
  assert (Hold : r' ∈ tbl_raw_ocr_bets d1 -> False).
  { cbn [d1 tbl_raw_ocr_bets put_raw_ocr_bets]. intros Hf.
    apply list_elem_of_In, filter_In in Hf. destruct Hf as [Hr'd Hne].
    apply negb_true_iff, String.eqb_neq in Hne. apply Hne.
    rewrite <- Hsrc. f_equal.
    apply (NoDup_fmap_elem id (tbl_raw_ocr_bets d)); auto.
    apply list_elem_of_In, Hr'd. }
  destruct (process_image_db d image_name) as [E | (cleaned & E)];
    rewrite E, E1 in Hr'.
  - exact (Hold Hr').
  - destruct (save_to_database_fresh d1 cleaned) as [_ Hfresh].
    destruct (Hfresh r' Hr') as [Hr'1 | Hlt]; [exact (Hold Hr'1) |].
    cbn [d1 raw_seq put_raw_ocr_bets] in Hlt.
    specialize (Hseq r Hin). lia.
Qed.

End ExistingRows.

(** Processing [slip3.png] a second time, while its rows still need
    review, removes both rows: the ids 1 and 2 are gone. *)
Lemma C6_counterexample_rows_deleted :
  ~ rows_survive_as_stated slip3_db (sample_image_run slip3_db "slip3.png").1.
Proof.
  intros Hclaim.
  assert (Hin : default (sample_bet "o21.5" 0) (slip3_rows !! 0%nat)
                ∈ tbl_raw_ocr_bets slip3_db) by apply list_elem_of_here.
  specialize (Hclaim _ Hin). vm_compute in Hclaim.
  apply elem_of_cons in Hclaim. destruct Hclaim as [E | Hclaim]; [discriminate E |].
  apply elem_of_cons in Hclaim. destruct Hclaim as [E | Hclaim]; [discriminate E |].
  apply elem_of_nil in Hclaim. exact Hclaim.
Qed.

(** C6 (amended).  A settlement run and a review import leave the rows of
    [raw_ocr_bets] in place, id by id; saving extracted rows only appends
    to the table; processing an image keeps every row of the other images
    and, when the image has a row that needs no review, changes nothing.
    But when every row of the image needs review, processing the image
    deletes them all: none of their ids is left in the table. *)
Theorem C6_row_existence `{!Builtins} `{!Scanner} nba_api player_ids year :
  (forall d, raw_ids (settlement_run nba_api d).1 = raw_ids d)
  /\ (forall input_file d, raw_ids (update_reviewed_entries input_file d) = raw_ids d)
  /\ (forall d cleaned_entries,
        exists new : list raw_bet,
          tbl_raw_ocr_bets (_save_to_database player_ids d cleaned_entries)
          = tbl_raw_ocr_bets d ++ new)
  /\ (forall d image_name r,
        r ∈ tbl_raw_ocr_bets d ->
        image_source r <> image_name ->
        r ∈ tbl_raw_ocr_bets (process_image player_ids year d image_name).1)
  /\ (forall d image_name r0,
        r0 ∈ tbl_raw_ocr_bets d ->
        image_source r0 = image_name ->
        needs_review r0 = false ->
        (process_image player_ids year d image_name).1 = d)
  /\ (forall d image_name r,
        ids_well_formed d ->
        (forall r0, r0 ∈ tbl_raw_ocr_bets d -> image_source r0 = image_name ->
                    needs_review r0 = true) ->
        r ∈ tbl_raw_ocr_bets d ->
        image_source r = image_name ->
        id r ∉ raw_ids (process_image player_ids year d image_name).1).
Proof.
  split; [| split; [| split; [| split; [| split]]]].
  - apply settlement_run_raw_ids.
  - intros [[| bet0 rest] |] d; try reflexivity.
    apply (update_reviewed_entries_effect bet0 rest d).
  - intros d cleaned_entries.
    destruct (save_to_database_appends player_ids d cleaned_entries)
      as (new & Enew & _).
    exists new. exact Enew.
  - apply process_image_keeps_other_images.
  - apply process_image_existing.
  - apply process_image_deletes.
Qed.

Lemma C6_row_existence_witness :
  1%Z ∉ raw_ids (sample_image_run slip3_db "slip3.png").1.
Proof.
  refine (proj2 (proj2 (proj2 (proj2 (proj2
    (@C6_row_existence decimal_builtins sample_scanner (fun _ _ => NoGame)
       sample_player_ids 2025)))))
    slip3_db "slip3.png" (default (sample_bet "o21.5" 0) (slip3_rows !! 0%nat))
    _ _ _ _).
  - split.
    + exact (bool_decide_unpack (NoDup (raw_ids slip3_db))
               ltac:(vm_compute; exact I)).
    + intros r Hr. vm_compute in Hr.
      apply elem_of_cons in Hr. destruct Hr as [-> | Hr]; [discriminate |].
      apply elem_of_cons in Hr. destruct Hr as [-> | Hr]; [discriminate |].
      apply elem_of_nil in Hr. destruct Hr.
  - intros r Hr _. vm_compute in Hr.
    apply elem_of_cons in Hr. destruct Hr as [-> | Hr]; [reflexivity |].
    apply elem_of_cons in Hr. destruct Hr as [-> | Hr]; [reflexivity |].
    apply elem_of_nil in Hr. destruct Hr.
  - apply list_elem_of_here.
  - reflexivity.
Defined.

(** ** A run that meets a transport error *)

(** C3 (the code at the failing input).  The stats service answers for
    the first bet and times out for the second.  The run ends in
    [SystemExit], which no handler of the run catches: it neither rolls
    back nor returns [False].  The [game_stats] row and the [bet_results]
    row of the first bet, committed when they were inserted, remain; its
    processed flag, not yet committed, is lost. *)
Theorem C3_timeout_keeps_committed_writes :
  timeout_run.2 = Raise SystemExit
  /\ (gs_player_id <$> tbl_game_stats timeout_run.1) = [2544%Z]
  /\ ((fun b => (raw_bet_id b, result b)) <$> tbl_bet_results timeout_run.1)
     = [(1%Z, "Win")]
  /\ (is_processed <$> tbl_raw_ocr_bets timeout_run.1) = [false; false]
  /\ tbl_game_stats two_bets_db = [] /\ tbl_bet_results two_bets_db = [].
Proof.
  repeat split; vm_compute; reflexivity.
Qed.

(** * Further properties of the code *)

(** ** Score buckets ([BetProcessor._calculate_score_range]) *)

Lemma Qle_bool_false_lt (x y : Q) : Qle_bool x y = false -> (y < x)%Q.
Proof.
  intros E. apply Qnot_le_lt. intros Hle. apply Qle_bool_iff in Hle. congruence.
Qed.

Lemma bucket_step (lo hi q : Q) :
  (lo <= q)%Q -> Qle_bool lo q && Qltb q hi = false -> (hi <= q)%Q.
Proof.
  intros Hlo E. apply Qle_bool_iff in Hlo. rewrite Hlo in E. cbn in E.
  apply Qltb_ge. exact E.
Qed.

(** A score below 20 is refused; a score from 20 up to 50 gets the one
    five-point bucket that contains it; a score of 50 or more, and the NaN
    of a NULL score, get the open bucket.  A score that passes the range
    check of the classifier is never refused. *)
Theorem score_range_buckets (q : Q) :
  ((q < 20)%Q ->
     _calculate_score_range (Fl q) = Raise (ValueError "Score is less than 20"))
  /\ ((20 <= q)%Q -> (q < 50)%Q ->
        exists lo hi name,
          (lo, hi, name) ∈ score_ranges /\ (lo <= q)%Q /\ (q < hi)%Q
          /\ _calculate_score_range (Fl q) = Ok name)
  /\ ((50 <= q)%Q -> _calculate_score_range (Fl q) = Ok "50+")
  /\ _calculate_score_range NaN = Ok "50+"
  /\ (Qle_bool 20 q && Qle_bool q 100 = true ->
        raises (_calculate_score_range (Fl q)) = false).
Proof.
  assert (Hlow : (q < 20)%Q ->
            _calculate_score_range (Fl q) = Raise (ValueError "Score is less than 20")).
  { intros Hlt. unfold _calculate_score_range.
    apply Qltb_lt in Hlt. rewrite Hlt. reflexivity. }
  assert (Hmid : (20 <= q)%Q -> (q < 50)%Q ->
            exists lo hi name,
              (lo, hi, name) ∈ score_ranges /\ (lo <= q)%Q /\ (q < hi)%Q
              /\ _calculate_score_range (Fl q) = Ok name).
  { intros H20 H50. unfold _calculate_score_range.
    apply Qltb_ge in H20 as E20. rewrite E20.
    unfold score_ranges. cbn [List.find fst snd].
    destruct (Qle_bool 20 q && Qltb q 25) eqn:E1.
    { apply andb_true_iff in E1. destruct E1 as [_ E1]. apply Qltb_lt in E1.
      exists 20%Q, 25%Q, "20-25". repeat split; auto.
      apply list_elem_of_here. }
    pose proof (bucket_step _ _ _ H20 E1) as H25.
    destruct (Qle_bool 25 q && Qltb q 30) eqn:E2.
    { apply andb_true_iff in E2. destruct E2 as [_ E2]. apply Qltb_lt in E2.
      exists 25%Q, 30%Q, "25-30". repeat split; auto.
      do 1 apply list_elem_of_further. apply list_elem_of_here. }
    pose proof (bucket_step _ _ _ H25 E2) as H30.
    destruct (Qle_bool 30 q && Qltb q 35) eqn:E3.
    { apply andb_true_iff in E3. destruct E3 as [_ E3]. apply Qltb_lt in E3.
      exists 30%Q, 35%Q, "30-35". repeat split; auto.
      do 2 apply list_elem_of_further. apply list_elem_of_here. }
    pose proof (bucket_step _ _ _ H30 E3) as H35.
    destruct (Qle_bool 35 q && Qltb q 40) eqn:E4.
    { apply andb_true_iff in E4. destruct E4 as [_ E4]. apply Qltb_lt in E4.
      exists 35%Q, 40%Q, "35-40". repeat split; auto.
      do 3 apply list_elem_of_further. apply list_elem_of_here. }
    pose proof (bucket_step _ _ _ H35 E4) as H40.
    destruct (Qle_bool 40 q && Qltb q 45) eqn:E5.
    { apply andb_true_iff in E5. destruct E5 as [_ E5]. apply Qltb_lt in E5.
      exists 40%Q, 45%Q, "40-45". repeat split; auto.
      do 4 apply list_elem_of_further. apply list_elem_of_here. }
    pose proof (bucket_step _ _ _ H40 E5) as H45.
    destruct (Qle_bool 45 q && Qltb q 50) eqn:E6.
    { apply andb_true_iff in E6. destruct E6 as [_ E6]. apply Qltb_lt in E6.
      exists 45%Q, 50%Q, "45-50". repeat split; auto.
      do 5 apply list_elem_of_further. apply list_elem_of_here. }
    pose proof (bucket_step _ _ _ H45 E6) as H50'.
    exfalso. exact (Qlt_not_le _ _ H50 H50'). }
  assert (Hhigh : (50 <= q)%Q -> _calculate_score_range (Fl q) = Ok "50+").
  { intros H50. unfold _calculate_score_range.
    assert (E20 : Qltb q 20 = false).
    { apply Qltb_ge. eapply Qle_trans; [| exact H50]. discriminate. }
    rewrite E20. unfold score_ranges. cbn [List.find fst snd].
    assert (Hge : forall hi : Q, (hi <= 50)%Q -> Qltb q hi = false).
    { intros hi Hhi. apply Qltb_ge. eapply Qle_trans; [exact Hhi | exact H50]. }
    rewrite !Hge by discriminate. rewrite !andb_false_r. reflexivity. }
  split; [exact Hlow | split; [exact Hmid | split; [exact Hhigh | split]]].
  - reflexivity.
  - intros E. apply andb_true_iff in E. destruct E as [E20 _].
    apply Qle_bool_iff in E20.
    destruct (Qlt_le_dec q 50) as [H50 | H50].
    + destruct (Hmid E20 H50) as (lo & hi & name & _ & _ & _ & ->). reflexivity.
    + rewrite (Hhigh H50). reflexivity.
Qed.

Lemma score_range_buckets_witness :
  _calculate_score_range (Fl 15) = Raise (ValueError "Score is less than 20")
  /\ _calculate_score_range (Fl (101 # 2)) = Ok "50+".
Proof.
  split.
  - exact (proj1 (score_range_buckets 15) eq_refl).
  - refine (proj1 (proj2 (proj2 (score_range_buckets (101 # 2)))) _).
    discriminate.
Defined.

(** ** Lines at a half never tie *)

Lemma half_integer_apart (s L : Q) (k n : Z) :
  (s == inject_Z k)%Q -> (L == inject_Z n + (1 # 2))%Q -> ~ (s == L)%Q.
Proof.
  intros Hs HL E. rewrite Hs, HL in E.
  unfold Qeq, Qplus, inject_Z in E. cbn in E. lia.
Qed.

Lemma digit_facts (c : ascii) :
  is_digit c = true ->
  Ascii.eqb c " "%char = false /\ Ascii.eqb c "."%char = false
  /\ Ascii.eqb c "-"%char = false /\ Ascii.eqb c "+"%char = false
  /\ (0 <= digit_val c <= 9)%Z.
Proof.
  destruct c as [[] [] [] [] [] [] [] []]; cbn; try discriminate;
    intros _; repeat split; try reflexivity;
    vm_compute; intros E; discriminate E.
Qed.

Lemma split_at_dot_digits ds r :
  all_digits ds = true -> split_at "."%char (ds +:+ String "."%char r) = (ds, Some r).
Proof.
  induction ds as [| c ds IH]; intros Hd.
  - cbn. reflexivity.
  - cbn [all_digits] in Hd. apply andb_true_iff in Hd. destruct Hd as [Hc Hd].
    change (String c ds +:+ String "."%char r)
      with (String c (ds +:+ String "."%char r)).
    cbn [split_at]. destruct (digit_facts c Hc) as (_ & -> & _).
    rewrite (IH Hd). reflexivity.
Qed.

Lemma digits_value_digits ds acc :
  all_digits ds = true -> exists n, digits_value acc ds = Some n.
Proof.
  revert acc. induction ds as [| c ds IH]; intros acc Hd.
  - exists acc. reflexivity.
  - cbn [all_digits] in Hd. apply andb_true_iff in Hd. destruct Hd as [Hc Hd].
    cbn [digits_value]. rewrite Hc. apply IH, Hd.
Qed.

(** The text of digits and [.5] reads as a whole number and a half. *)
Lemma parse_decimal_half ds :
  ds <> EmptyString -> all_digits ds = true ->
  exists n L, parse_decimal (ds +:+ ".5") = Some L /\ (L == inject_Z n + (1 # 2))%Q.
Proof.
  intros Hne Hd. destruct (digits_value_digits ds 0 Hd) as [n Hn].
  exists n. unfold parse_decimal.
  assert (Hsign : split_sign (ds +:+ ".5") = (false, ds +:+ ".5")).
  { destruct ds as [| c ds']; [contradiction |].
    cbn [all_digits] in Hd. apply andb_true_iff in Hd. destruct Hd as [Hc _].
    change (String c ds' +:+ ".5") with (String c (ds' +:+ ".5")).
    unfold split_sign. destruct (digit_facts c Hc) as (_ & _ & -> & -> & _).
    reflexivity. }
  rewrite Hsign.
  change (ds +:+ ".5") with (ds +:+ String "."%char "5").
  rewrite (split_at_dot_digits ds "5" Hd).
  destruct ds as [| c ds']; [contradiction |].
  rewrite Hn. cbn [mbind option_bind].
  change (digits_value 0 "5") with (Some 5%Z). cbn [mbind option_bind].
  eexists. split; [reflexivity |].
  rewrite Qred_correct. unfold Qeq, Qplus, inject_Z. cbn. lia.
Qed.

(** A bet with integer odds whose line is [o] or [u], one to fifteen
    digits and [.5] (a line that the classifier accepts, and whose value a
    double holds exactly) never ties against a whole-number stat:
    [_calculate_results] returns a win or a loss. *)
Theorem half_line_never_ties ocr_bet game_stats t s k c ds z :
  bet_type ocr_bet = Some t ->
  game_stats !! t = Some s ->
  (s == inject_Z k)%Q ->
  bet_line ocr_bet = Some (String c (ds +:+ ".5")) ->
  c = "o"%char \/ c = "u"%char ->
  ds <> EmptyString ->
  all_digits ds = true ->
  (String.length ds <= 15)%nat ->
  odds ocr_bet = Some (inject_Z z) ->
  match_bet_line (String c (ds +:+ ".5")) = true
  /\ exists r delta L,
       @_calculate_results decimal_builtins ocr_bet game_stats
       = Ok (r, delta, s, L, over_under_of (String c (ds +:+ ".5")))
       /\ (r = "Win" \/ r = "Loss").
Proof.
  intros Ht Hst Hs Hline Hc Hne Hd _ Hz. split.
  { unfold match_bet_line.
    assert (E : Ascii.eqb c "o" || Ascii.eqb c "u" = true)
      by (destruct Hc as [-> | ->]; reflexivity).
    rewrite E. cbn [andb].
    destruct ds as [| c0 ds']; [contradiction |].
    cbn [all_digits] in Hd. apply andb_true_iff in Hd. destruct Hd as [Hc0 Hd].
    change (String c0 ds' +:+ ".5") with (String c0 (ds' +:+ ".5")).
    cbn [match_digits_dot5]. rewrite Hc0.
    clear -Hd. induction ds' as [| c1 ds IH]; [reflexivity |].
    cbn [all_digits] in Hd. apply andb_true_iff in Hd. destruct Hd as [Hc1 Hd].
    change (String c1 ds +:+ ".5") with (String c1 (ds +:+ ".5")).
    cbn [match_digits_dot5]. rewrite Hc1. exact (IH Hd). }
  destruct (parse_decimal_half ds Hne Hd) as (n & L & HL & HLn).
  set (l := String c (ds +:+ ".5")) in *.
  assert (Hr : @reads decimal_builtins ocr_bet game_stats s l L).
  { split; [exists t; split; assumption |]. split; [exact Hline | exact HL]. }
  assert (Hou : startswith l "o" = true \/ startswith l "u" = true).
  { assert (Hp : startswith l (String c EmptyString) = true).
    { unfold l, startswith.
      change (String.prefix (String c EmptyString) (String c (ds +:+ ".5")))
        with (if ascii_dec c c then String.prefix EmptyString (ds +:+ ".5")
              else false).
      destruct (ascii_dec c c) as [_ | Hcc]; [| destruct (Hcc eq_refl)].
      destruct (ds +:+ ".5"); reflexivity. }
    destruct Hc as [-> | ->]; [left | right]; exact Hp. }
  pose proof (half_integer_apart s L k n Hs HLn) as Hapart.
  assert (Hcase : win_condition l s L \/ loss_condition l s L).
  { destruct (Q_dec s L) as [[Hlt | Hgt] | Heq]; [| | destruct (Hapart Heq)].
    - destruct Hou as [Ho | Hu]; [right; left | left; right]; auto.
    - destruct Hou as [Ho | Hu]; [left; left | right; right]; auto. }
  destruct Hcase as [Hw | Hl].
  - exists "Win", (Fl 100), L. split; [| left; reflexivity].
    exact (calculate_results_win _ _ _ _ _ Hr Hw).
  - exists "Loss", (loss_delta z), L. split; [| right; reflexivity].
    exact (calculate_results_loss _ _ _ _ _ _ Hr Hz Hl).
Qed.

Lemma half_line_never_ties_witness :
  match_bet_line "u21.5" = true
  /\ exists r delta L,
       @_calculate_results decimal_builtins (sample_bet "u21.5" 120) (sample_stats 21)
       = Ok (r, delta, 21%Q, L, "Under")
       /\ (r = "Win" \/ r = "Loss").
Proof.
  refine (half_line_never_ties (sample_bet "u21.5" 120) (sample_stats 21)
            "points" 21%Q 21%Z "u"%char "21" 120%Z _ _ _ _ _ _ _ _ _).
  - reflexivity.
  - reflexivity.
  - reflexivity.
  - reflexivity.
  - right. reflexivity.
  - discriminate.
  - reflexivity.
  - cbn. lia.
  - reflexivity.
Defined.

(** ** The size of a loss *)

Lemma np_round_lower (x : Q) (n : Z) : (inject_Z n <= x)%Q -> (n <= np_round x)%Z.
Proof.
  intros Hx. assert (Hf : (n <= Qfloor x)%Z).
  { rewrite <- (Qfloor_Z n). apply Qfloor_resp_le. exact Hx. }
  unfold np_round. destruct (Qcompare _ _); [destruct (Z.even _) | |]; lia.
Qed.

Lemma np_round_upper (x : Q) (n : Z) : (x <= inject_Z n)%Q -> (np_round x <= n)%Z.
Proof.
  intros Hx. assert (Hf : (Qfloor x <= n)%Z).
  { rewrite <- (Qfloor_Z n). apply Qfloor_resp_le. exact Hx. }
  destruct (Z.eq_dec (Qfloor x) n) as [E | Hne].
  - assert (Hzero : (x - inject_Z (Qfloor x) == 0)%Q).
    { apply Qle_antisym.
      - rewrite E. apply (Qplus_le_l _ _ (inject_Z n)). ring_simplify. exact Hx.
      - apply (Qplus_le_l _ _ (inject_Z (Qfloor x))). ring_simplify.
        apply Qfloor_le. }
    unfold np_round.
    assert (Hc : Qcompare (x - inject_Z (Qfloor x)) (1 # 2) = Lt).
    { rewrite Hzero. reflexivity. }
    rewrite Hc. lia.
  - unfold np_round. destruct (Qcompare _ _); [destruct (Z.even _) | |]; lia.
Qed.

Lemma unit_loss_range (z : Z) :
  (0 < z <= 1000)%Z ->
  (inject_Z 10 <= 100 / (inject_Z z / 100))%Q
  /\ (100 / (inject_Z z / 100) <= inject_Z 10000)%Q.
Proof.
  intros Hz. destruct z as [| p | p]; try lia.
  unfold Qdiv, Qmult, Qinv, Qle, inject_Z. cbn [Qnum Qden].
  rewrite Z.mul_1_r. cbn [Qnum Qden]. split; lia.
Qed.

(** The size of a loss.  With integer odds in the range that the
    classifier accepts, the delta of a losing bet is a whole number that
    is never positive, is the odds themselves when they are not positive,
    lies between -10000 and -10 when they are positive, and is zero only
    at odds 0.  The bounds are those of integer odds: odds of one half,
    whose integer part is in the range too, lose 20000, and odds that are
    not positive are the delta whether they are whole or not. *)
Theorem loss_delta_bounds `{!Builtins} ocr_bet game_stats s l L :
  reads ocr_bet game_stats s l L ->
  loss_condition l s L ->
  (forall z,
     odds ocr_bet = Some (inject_Z z) ->
     (-1000 <= z <= 1000)%Z ->
     exists d : Z,
       _calculate_results ocr_bet game_stats
       = Ok ("Loss", Fl (inject_Z d), s, L, over_under_of l)
       /\ (d <= 0)%Z
       /\ ((z <= 0)%Z -> d = z)
       /\ ((0 < z)%Z -> (-10000 <= d <= -10)%Z)
       /\ (d = 0%Z <-> z = 0%Z))
  /\ (odds ocr_bet = Some (1 # 2) ->
      _calculate_results ocr_bet game_stats
      = Ok ("Loss", Fl (inject_Z (-20000)), s, L, over_under_of l))
  /\ (forall q,
        odds ocr_bet = Some q -> (q <= 0)%Q ->
        _calculate_results ocr_bet game_stats
        = Ok ("Loss", Fl q, s, L, over_under_of l)).
Proof.
  intros Hr Hl. split; [| split].
  - intros z Hz Hrange.
    rewrite (calculate_results_loss _ _ _ _ _ _ Hr Hz Hl). unfold loss_delta.
    destruct (Z.ltb_spec 0 z) as [Hpos | Hnp].
    + destruct (unit_loss_range z ltac:(lia)) as [Hlo Hhi].
      pose proof (np_round_lower _ _ Hlo) as H1.
      pose proof (np_round_upper _ _ Hhi) as H2.
      exists (- np_round (100 / (inject_Z z / 100)))%Z.
      split; [reflexivity |]. repeat split; lia.
    + exists z. split; [reflexivity |]. repeat split; lia.
  - intros Hq. rewrite (calculate_results_loss_of _ _ _ _ _ Hr Hl), Hq.
    reflexivity.
  - intros q Hq Hle. rewrite (calculate_results_loss_of _ _ _ _ _ Hr Hl), Hq.
    unfold loss_delta_of. rewrite (proj2 (Qltb_ge 0 q) Hle). reflexivity.
Qed.

Lemma loss_delta_bounds_witness :
  exists d : Z,
    @_calculate_results decimal_builtins (sample_bet "o21.5" 120) (sample_stats 18)
    = Ok ("Loss", Fl (inject_Z d), 18%Q, (43 # 2)%Q, "Over")
    /\ (d <= 0)%Z.
Proof.
  destruct (proj1 (@loss_delta_bounds decimal_builtins (sample_bet "o21.5" 120)
                     (sample_stats 18) 18%Q "o21.5" (43 # 2)%Q
                     ltac:(split; [exists "points"; split; reflexivity
                                  | split; reflexivity])
                     ltac:(left; split; reflexivity))
              120%Z eq_refl ltac:(lia))
    as (d & E & Hd & _).
  exists d. split; [exact E | exact Hd].
Defined.

(** ** The stat dictionary ([BetProcessor._standardize_stat_names]) *)

Lemma res_mapM_first_error {A B} (f : A -> res B) (l : list A) e a :
  (forall x, x ∈ l -> f x = Raise e \/ raises (f x) = false) ->
  a ∈ l -> f a = Raise e -> res_mapM f l = Raise e.
Proof.
  induction l as [| x l IH]; intros Hall Hin Ha.
  - apply elem_of_nil in Hin. destruct Hin.
  - cbn [res_mapM].
    destruct (Hall x (list_elem_of_here _ _)) as [-> | Hx]; [reflexivity |].
    destruct (f x) as [b | e'] eqn:Ex; [| discriminate]. cbn [mbind res_bind].
    apply elem_of_cons in Hin. destruct Hin as [-> | Hin]; [congruence |].
    rewrite IH; auto. intros y Hy. apply Hall. apply list_elem_of_further, Hy.
Qed.

(** With the seven counters of the game log present, the dictionary has
    the eleven stat columns: the counters under their new names and the
    four sums.  A counter that is missing is a [KeyError]. *)
Theorem standardize_stat_names_columns (api_stats : gmap string Q) :
  (forall pts ast reb blk stl tov fg3,
     api_stats !! "PTS" = Some pts -> api_stats !! "AST" = Some ast ->
     api_stats !! "REB" = Some reb -> api_stats !! "BLK" = Some blk ->
     api_stats !! "STL" = Some stl -> api_stats !! "TOV" = Some tov ->
     api_stats !! "FG3M" = Some fg3 ->
     exists stats,
       _standardize_stat_names api_stats = Ok stats
       /\ dom stats = list_to_set stat_columns
       /\ dict_items stats stat_columns KeyError
          = Ok [ ("points", pts); ("assists", ast); ("rebounds", reb);
                 ("blocks", blk); ("steals", stl); ("turnovers", tov);
                 ("three_pointers", fg3);
                 ("par", (pts + reb + ast)%Q); ("pts_rebs", (pts + reb)%Q);
                 ("pts_asts", (pts + ast)%Q); ("rebs_asts", (reb + ast)%Q) ])
  /\ (forall k, k ∈ bet_type_map.*1 -> api_stats !! k = None ->
        _standardize_stat_names api_stats = Raise KeyError).
Proof.
  split.
  - intros pts ast reb blk stl tov fg3 H1 H2 H3 H4 H5 H6 H7.
    unfold _standardize_stat_names, bet_type_map.
    cbn [res_mapM fst snd]. rewrite H1, H2, H3, H4, H5, H6, H7.
    cbn [mbind res_bind]. eexists. split; [reflexivity |]. split.
    + vm_compute. reflexivity.
    + vm_compute. reflexivity.
  - intros k Hk Hnone. unfold _standardize_stat_names.
    apply list_elem_of_fmap in Hk. destruct Hk as ([k' v] & -> & Hin).
    rewrite (res_mapM_first_error _ bet_type_map KeyError (k', v)); auto.
    + intros [x y] _. cbn. destruct (api_stats !! x); auto.
    + cbn in *. rewrite Hnone. reflexivity.
Qed.

Lemma standardize_stat_names_columns_witness :
  exists stats,
    _standardize_stat_names game_log_row = Ok stats
    /\ dom stats = list_to_set stat_columns.
Proof.
  destruct (proj1 (standardize_stat_names_columns game_log_row)
              25%Q 7%Q 8%Q 1%Q 2%Q 3%Q 2%Q
              eq_refl eq_refl eq_refl eq_refl eq_refl eq_refl eq_refl)
    as (stats & E & Hdom & _).
  exists stats. split; [exact E | exact Hdom].
Defined.

(** ** The stat cache: insert, then look up *)

Lemma dict_items_lookup (d : gmap string Q) keys e items :
  dict_items d keys e = Ok items ->
  forall k, k ∈ keys -> (list_to_map items : gmap string Q) !! k = d !! k.
Proof.
  unfold dict_items. revert items.
  induction keys as [| k0 keys IH]; intros items E k Hk.
  - apply elem_of_nil in Hk. destruct Hk.
  - cbn [res_mapM] in E. destruct (d !! k0) as [v0 |] eqn:E0; [| discriminate].
    cbn [mbind res_bind] in E.
    destruct (res_mapM _ keys) as [items' |] eqn:E'; [| discriminate].
    cbn [mbind res_bind] in E. injection E as <-.
    cbn [list_to_map foldr]. cbn.
    destruct (decide (k0 = k)) as [-> | Hne].
    + rewrite lookup_insert_eq. symmetry. exact E0.
    + rewrite lookup_insert_ne by exact Hne.
      apply elem_of_cons in Hk. destruct Hk as [-> | Hk]; [congruence |].
      apply (IH items' eq_refl k Hk).
Qed.

Lemma dict_items_agree (d d' : gmap string Q) keys e e' items :
  dict_items d keys e = Ok items ->
  (forall k, k ∈ keys -> d' !! k = d !! k) ->
  dict_items d' keys e' = Ok items.
Proof.
  unfold dict_items. revert items.
  induction keys as [| k0 keys IH]; intros items E Hagree; cbn [res_mapM] in *.
  - exact E.
  - rewrite (Hagree k0 (list_elem_of_here _ _)).
    destruct (d !! k0) as [v0 |]; [| discriminate]. cbn [mbind res_bind] in *.
    destruct (res_mapM _ keys) as [items' |] eqn:E'; [| discriminate].
    rewrite (IH items' eq_refl); [exact E |].
    intros k Hk. apply Hagree. apply list_elem_of_further, Hk.
Qed.

Lemma find_app_last {A} (f : A -> bool) (l : list A) (y : A) :
  existsb f l = false -> f y = true -> List.find f (l ++ [y]) = Some y.
Proof.
  induction l as [| x l IH]; cbn; intros Hl Hy.
  - rewrite Hy. reflexivity.
  - apply orb_false_iff in Hl. destruct Hl as [-> Hl]. apply IH; assumption.
Qed.

Section CacheFacts.
Context `{!Builtins}.

Lemma insert_into_game_stats_ok ocr_bet game_stats c c' :
  insert_into_game_stats ocr_bet game_stats c = (c', Ok tt) ->
  exists pid dt items,
    player_id ocr_bet = Some pid /\ date ocr_bet = Some dt
    /\ dict_items game_stats stat_columns KeyError = Ok items
    /\ existsb (fun g => Z.eqb (gs_player_id g) pid && String.eqb (gs_date g) dt)
               (tbl_game_stats (working c)) = false
    /\ committed c' = working c'
    /\ working c'
       = put_game_stats (working c)
           (tbl_game_stats (working c) ++
              [ {| gs_id := gs_seq (working c) + 1; gs_player_id := pid;
                   gs_date := dt; gs_stats := list_to_map items |} ])
           (gs_seq (working c) + 1).
Proof.
  unfold insert_into_game_stats, with_conn, mbind, M_bind, lift, query, exec.
  destruct (dict_items game_stats stat_columns KeyError) as [items | e];
    [| discriminate].
  destruct (player_id ocr_bet) as [pid |]; [| discriminate].
  destruct (date ocr_bet) as [dt |]; [| discriminate].
  destruct (existsb _ (tbl_game_stats (working c))) eqn:Eex; [discriminate |].
  intros E. injection E as <-.
  exists pid, dt, items. repeat split; try reflexivity. exact Eex.
Qed.

(** After [insert_into_game_stats] has returned, the row is committed,
    [_get_cached_stats] finds for the same player and date the values that
    were inserted, whichever bet asks, and [_get_player_game_stats] answers
    from the cache whatever the stats service would say. *)
Theorem game_stats_insert_then_cached ocr_bet game_stats c c' :
  insert_into_game_stats ocr_bet game_stats c = (c', Ok tt) ->
  committed c' = working c'
  /\ exists cached,
       (forall k, k ∈ stat_columns -> cached !! k = game_stats !! k)
       /\ forall bet',
            player_id bet' = player_id ocr_bet ->
            date bet' = date ocr_bet ->
            _get_cached_stats bet' (working c') = Some cached
            /\ forall nba_api,
                 _get_player_game_stats nba_api bet' c'
                 = (c', Ok (true, Some cached)).
Proof.
  intros Hins.
  destruct (insert_into_game_stats_ok _ _ _ _ Hins)
    as (pid & dt & items & Hp & Hd & Hitems & Hex & Hc & Hw).
  split; [exact Hc |].
  exists (list_to_map items). split.
  { intros k Hk. exact (dict_items_lookup _ _ _ _ Hitems k Hk). }
  assert (Hcached : forall bet',
            player_id bet' = player_id ocr_bet -> date bet' = date ocr_bet ->
            _get_cached_stats bet' (working c') = Some (list_to_map items)).
  { intros bet' Hp' Hd'. unfold _get_cached_stats.
    rewrite Hw, Hp', Hd', Hp, Hd. cbn [tbl_game_stats put_game_stats].
    rewrite (find_app_last _ _
               {| gs_id := gs_seq (working c) + 1; gs_player_id := pid;
                  gs_date := dt; gs_stats := list_to_map items |}).
    - cbn [gs_stats].
      rewrite (dict_items_agree game_stats (list_to_map items) stat_columns
                 KeyError TypeError items Hitems); [reflexivity |].
      intros k Hk. exact (dict_items_lookup _ _ _ _ Hitems k Hk).
    - rewrite <- Hex. generalize (tbl_game_stats (working c)). intros l.
      induction l as [| g l IH]; cbn [existsb]; [reflexivity |].
      rewrite IH. f_equal. unfold same_player_date, sql_eq.
      rewrite Z.eqb_sym, String.eqb_sym. reflexivity.
    - unfold same_player_date, sql_eq. cbn.
      rewrite Z.eqb_refl, String.eqb_refl. reflexivity. }
  intros bet' Hp' Hd'. split; [exact (Hcached bet' Hp' Hd') |].
  intros nba_api. unfold _get_player_game_stats, mbind, M_bind, query.
  rewrite (Hcached bet' Hp' Hd'). reflexivity.
Qed.

End CacheFacts.

Lemma game_stats_insert_then_cached_witness :
  committed after_sample_insert = working after_sample_insert.
Proof.
  refine (proj1 (game_stats_insert_then_cached
                   (sample_bet "o21.5" (-150)) sample_game_stats
                   (connect two_bets_db) after_sample_insert _)).
  vm_compute. reflexivity.
Defined.

(** ** Reasoning about code that runs on a connection *)

Lemma hoare_ret {A} (Pre : conn -> Prop) (a : A) Post Exc :
  (forall c, Pre c -> Post a c) -> hoare Pre (mret a) Post Exc.
Proof. intros H c Hc. cbn. auto. Qed.

Lemma hoare_bind {A B} (Pre : conn -> Prop) (m : M A) (f : A -> M B)
      (Mid : A -> conn -> Prop) Post Exc :
  hoare Pre m Mid Exc -> (forall a, hoare (Mid a) (f a) Post Exc) ->
  hoare Pre (m ≫= f) Post Exc.
Proof.
  intros Hm Hf c Hc. unfold mbind, M_bind. specialize (Hm c Hc).
  destruct (m c) as [c' [a | e]]; [exact (Hf a c' Hm) | exact Hm].
Qed.

Lemma hoare_conseq {A} (Pre Pre' : conn -> Prop) (m : M A)
      (Post Post' : A -> conn -> Prop) (Exc Exc' : exn -> conn -> Prop) :
  hoare Pre' m Post' Exc' ->
  (forall c, Pre c -> Pre' c) ->
  (forall a c, Post' a c -> Post a c) ->
  (forall e c, Exc' e c -> Exc e c) ->
  hoare Pre m Post Exc.
Proof.
  intros Hm H1 H2 H3 c Hc. specialize (Hm c (H1 c Hc)).
  destruct (m c) as [c' [a | e]]; auto.
Qed.

Lemma hoare_try_except {A} (Pre : conn -> Prop) (body : M A) handler
      (Post : A -> conn -> Prop) (Mid Exc : exn -> conn -> Prop) :
  hoare Pre body Post Mid ->
  (forall e, is_Exception e = true -> hoare (Mid e) (handler e) Post Exc) ->
  (forall e c, is_Exception e = false -> Mid e c -> Exc e c) ->
  hoare Pre (try_except body handler) Post Exc.
Proof.
  intros Hb Hh Hpass c Hc. unfold try_except. specialize (Hb c Hc).
  destruct (body c) as [c' [a | e]]; [exact Hb |].
  destruct (is_Exception e) eqn:Ee.
  - exact (Hh e Ee c' Hb).
  - exact (Hpass e c' Ee Hb).
Qed.

(** ** The writes of a settlement run *)

Lemma res_mapM_error {A B} (f : A -> res B) (l : list A) e :
  res_mapM f l = Raise e -> exists a, a ∈ l /\ f a = Raise e.
Proof.
  induction l as [| x l IH]; cbn [res_mapM]; [discriminate |].
  destruct (f x) as [b | e'] eqn:Ex; cbn [mbind res_bind].
  - destruct (res_mapM f l) as [bs | e'']; cbn [mbind res_bind]; [discriminate |].
    intros E. injection E as ->. destruct (IH eq_refl) as (a & Ha & Ea).
    exists a. split; [apply list_elem_of_further, Ha | exact Ea].
  - intros E. injection E as ->. exists x. split; [apply list_elem_of_here | exact Ex].
Qed.

Lemma dict_items_error (d : gmap string Q) keys e0 e :
  dict_items d keys e0 = Raise e -> e = e0.
Proof.
  intros E. apply res_mapM_error in E. destruct E as (k & _ & Ek).
  destruct (d !! k); [discriminate | congruence].
Qed.

Lemma standardize_stat_names_error api_stats e :
  _standardize_stat_names api_stats = Raise e -> e = KeyError.
Proof.
  unfold _standardize_stat_names.
  destruct (res_mapM _ bet_type_map) as [renamed | e'] eqn:E;
    cbn [mbind res_bind]; [discriminate |].
  intros E'. injection E' as <-.
  apply res_mapM_error in E. destruct E as ([k v] & _ & Ek). cbn in Ek.
  destruct (api_stats !! k); [discriminate | congruence].
Qed.

Section SettlementWrites.
Context `{!Builtins}.
Variable nba_api : Z -> option string -> api_reply.

Lemma calculate_results_exception ocr_bet game_stats e :
  _calculate_results ocr_bet game_stats = Raise e -> is_Exception e = true.
Proof.
  unfold _calculate_results, py_float_str.
  destruct (bet_type ocr_bet) as [t |];
    [| intros E; injection E as <-; reflexivity].
  destruct (game_stats !! t) as [s |];
    [| intros E; injection E as <-; reflexivity].
  destruct (bet_line ocr_bet) as [l |];
    [| intros E; injection E as <-; reflexivity].
  cbn [mbind res_bind].
  destruct (float_of_str (str_tail l)) as [L |];
    [| intros E; injection E as <-; reflexivity].
  cbn [mbind res_bind].
  fold (loss_delta_of (odds ocr_bet)).
  assert (Hdelta : forall e', loss_delta_of (odds ocr_bet) = Raise e' ->
                              is_Exception e' = true).
  { intros e'. unfold loss_delta_of, py_div.
    destruct (odds ocr_bet) as [q0 |]; [| discriminate].
    destruct (Qltb 0 q0); [| discriminate].
    replace (Qeq_bool 100 0) with false by reflexivity. cbn [mbind res_bind].
    destruct (Qeq_bool (nearest_double (q0 / 100)) 0); [| discriminate].
    intros E. injection E as <-. reflexivity. }
  destruct (startswith l "o"); [| destruct (startswith l "u")];
    cbn [mbind res_bind];
    try (intros E; injection E as <-; reflexivity);
    destruct (Qltb L s), (Qltb s L); cbn -[loss_delta_of];
    try (intros E; injection E as <-; reflexivity);
    destruct (loss_delta_of (odds ocr_bet)) as [? | e'] eqn:Ed;
    cbn [mbind res_bind]; try discriminate;
    intros E; injection E as <-; exact (Hdelta e' eq_refl).
Qed.

Lemma calculate_score_range_exception sc e :
  _calculate_score_range sc = Raise e -> is_Exception e = true.
Proof.
  unfold _calculate_score_range. destruct sc as [q |]; [| discriminate].
  destruct (Qltb q 20); [intros E; injection E as <-; reflexivity |].
  destruct (List.find _ _); discriminate.
Qed.

Lemma get_api_stats_exception ocr_bet e :
  api_answers nba_api ->
  _get_api_stats nba_api ocr_bet = Raise e -> is_Exception e = true.
Proof.
  intros Hapi. unfold _get_api_stats.
  destruct (player_id ocr_bet) as [pid |];
    [| intros E; injection E as <-; reflexivity].
  destruct (nba_api pid (date ocr_bet)) as [| api_stats | | e'] eqn:Ea.
  - intros E. injection E as <-. reflexivity.
  - destruct (_standardize_stat_names api_stats) as [s | e'] eqn:Es;
      cbn [mbind res_bind]; [discriminate |].
    intros E. injection E as <-.
    rewrite (standardize_stat_names_error _ _ Es). reflexivity.
  - discriminate.
  - destruct (Hapi _ _ _ Ea).
Qed.

Lemma in_unplayed_bets_player ocr_bet d :
  _in_unplayed_bets ocr_bet d = true -> is_Some (player_id ocr_bet).
Proof.
  unfold _in_unplayed_bets. intros E. apply existsb_exists in E.
  destruct E as (r & _ & Hr). apply andb_true_iff in Hr. destruct Hr as [Hr _].
  apply andb_true_iff in Hr. destruct Hr as [Hr _].
  unfold sql_eq in Hr. destruct (player_id r); [| discriminate].
  destruct (player_id ocr_bet); [eauto | discriminate].
Qed.

Variable cands : list raw_bet.
Variable d0 : db.

Let R := settled_from cands d0.

Lemma settled_commit c : R c -> R (commit c).
Proof. intros [_ Hw]. split; exact Hw. Qed.

Lemma settled_rollback c : R c -> R (rollback c).
Proof. intros [Hc _]. split; exact Hc. Qed.

Lemma settled_step c d' :
  R c -> settle_step cands (working c) d' ->
  R {| committed := committed c; working := d' |}.
Proof.
  intros [Hc Hw] Hs. split; [exact Hc |]. eapply rtc_r; eauto.
Qed.

Lemma get_player_game_stats_spec ocr_bet :
  hoare R (_get_player_game_stats nba_api ocr_bet)
        (fun r c => R c /\ (r.2 = None -> is_Some (player_id ocr_bet)))
        (fun e c => R c /\ (api_answers nba_api -> is_Exception e = true)).
Proof.
  intros c Hc. unfold _get_player_game_stats, mbind, M_bind, query, lift, mret, M_ret.
  destruct (_get_cached_stats ocr_bet (working c)) as [s |].
  - split; [exact Hc | discriminate].
  - destruct (_in_unplayed_bets ocr_bet (working c)) eqn:Eu.
    + split; [exact Hc |]. intros _. exact (in_unplayed_bets_player _ _ Eu).
    + destruct (_get_api_stats nba_api ocr_bet) as [s | e] eqn:Ea.
      * split; [exact Hc |]. cbn. intros ->. unfold _get_api_stats in Ea.
        destruct (player_id ocr_bet); [eauto | discriminate].
      * split; [exact Hc |]. intros Hapi.
        exact (get_api_stats_exception _ _ Hapi Ea).
Qed.

Lemma insert_into_game_stats_spec ocr_bet game_stats :
  ocr_bet ∈ cands ->
  hoare R (insert_into_game_stats ocr_bet game_stats)
        (fun _ c => R c) (fun e c => R c /\ is_Exception e = true).
Proof.
  intros Hin c Hc.
  destruct (insert_into_game_stats ocr_bet game_stats c) as [c' [[] | e]] eqn:E.
  - destruct (insert_into_game_stats_ok _ _ _ _ E)
      as (pid & dt & items & Hp & Hd & _ & Hex & Hcw & Hw).
    assert (Hstep : settle_step cands (working c) (working c')).
    { rewrite Hw. apply (step_game_stats cands (working c) ocr_bet);
        [exact Hin | exact Hp | exact Hd | exact Hex | reflexivity]. }
    destruct Hc as [_ Hwc]. split; [rewrite Hcw |]; eapply rtc_r; eauto.
  - revert E.
    unfold insert_into_game_stats, with_conn, mbind, M_bind, lift, query, exec.
    destruct (dict_items game_stats stat_columns KeyError) as [items | e'] eqn:Ed.
    + destruct (player_id ocr_bet) as [pid |];
        [| intros E; injection E as <- <-; split;
           [apply settled_rollback, Hc | reflexivity]].
      destruct (date ocr_bet) as [dt |];
        [| intros E; injection E as <- <-; split;
           [apply settled_rollback, Hc | reflexivity]].
      destruct (existsb _ (tbl_game_stats (working c))); [| discriminate].
      intros E; injection E as <- <-; split;
        [apply settled_rollback, Hc | reflexivity].
    + intros E; injection E as <- <-. split; [apply settled_rollback, Hc |].
      rewrite (dict_items_error _ _ _ _ Ed). reflexivity.
Qed.

Lemma insert_into_unplayed_bets_spec ocr_bet :
  ocr_bet ∈ cands ->
  hoare R (insert_into_unplayed_bets ocr_bet)
        (fun _ c => R c /\ (is_Some (player_id ocr_bet) ->
                            has_record (working c) (id ocr_bet)
                            \/ date ocr_bet = None))
        (fun _ _ => False).
Proof.
  intros Hin c Hc.
  unfold insert_into_unplayed_bets, with_conn, exec, execute, commit.
  cbn [working committed].
  destruct (player_id ocr_bet) as [pid |] eqn:Ep.
  - destruct (date ocr_bet) as [dt |] eqn:Ed.
    + destruct (existsb _ (tbl_unplayed_bets (working c))) eqn:Eex.
      * split; [apply (settled_commit c Hc) |]. intros _. left. right.
        apply existsb_exists in Eex. destruct Eex as (u & Hu & Eu).
        exists u. split; [apply list_elem_of_In, Hu | apply Z.eqb_eq, Eu].
      * assert (Hs : settle_step cands (working c)
                       (put_unplayed_bets (working c)
                          (tbl_unplayed_bets (working c) ++
                             [ {| up_raw_bet_id := id ocr_bet; up_player_id := pid;
                                  up_date := dt |} ])))
          by (eapply step_unplayed; eauto).
        split.
        { destruct Hc as [_ Hw]. split; cbn [working committed]; eapply rtc_r; eauto. }
        intros _. left. right. eexists. split.
        -- cbn [tbl_unplayed_bets put_unplayed_bets].
           apply elem_of_app. right. apply list_elem_of_here.
        -- reflexivity.
    + split; [apply (settled_commit c Hc) | auto].
  - split; [apply (settled_commit c Hc) |]. intros [? E]. discriminate.
Qed.

Lemma insert_into_bet_results_spec ocr_bet game_stats :
  ocr_bet ∈ cands ->
  hoare R (insert_into_bet_results ocr_bet game_stats)
        (fun _ c => R c /\ has_record (working c) (id ocr_bet))
        (fun e c => R c /\ is_Exception e = true).
Proof.
  intros Hin c Hc.
  unfold insert_into_bet_results, with_conn, mbind, M_bind, lift, query, exec.
  destruct (_calculate_results ocr_bet game_stats)
    as [[[[[result result_delta] stat_result] line_value] over_under] | e] eqn:Ec.
  2: { split; [exact Hc | exact (calculate_results_exception _ _ _ Ec)]. }
  destruct (_calculate_score_range (score_float (score ocr_bet)))
    as [score_range | e] eqn:Es.
  2: { split; [exact Hc | exact (calculate_score_range_exception _ _ Es)]. }
  destruct (_get_game_stats_id ocr_bet (working c)) as [gid | e] eqn:Eg.
  2: { split; [exact Hc |]. unfold _get_game_stats_id in Eg.
       destruct (List.find _ _); [discriminate |]. injection Eg as <-. reflexivity. }
  assert (Hg : exists g, g ∈ tbl_game_stats (working c) /\ gid = gs_id g).
  { unfold _get_game_stats_id in Eg.
    destruct (List.find _ _) as [g |] eqn:Ef; [| discriminate].
    injection Eg as <-. exists g. split; [| reflexivity].
    apply find_some in Ef. apply list_elem_of_In, Ef. }
  destruct Hg as (g & Hg & Egid).
  destruct (bet_results_accepts (working c) _) eqn:Eacc.
  - cbn [commit execute working committed].
    match goal with
    | |- context [put_bet_results _ (_ ++ [?row])] =>
        assert (Hs : settle_step cands (working c)
                       (put_bet_results (working c)
                          (tbl_bet_results (working c) ++ [row])))
          by (eapply (step_result cands (working c) ocr_bet row game_stats g);
              eauto)
    end.
    split.
    + destruct Hc as [_ Hw]. split; eapply rtc_r; eauto.
    + left. eexists. split.
      * cbn [tbl_bet_results put_bet_results].
        apply elem_of_app. right. apply list_elem_of_here.
      * reflexivity.
  - split; [apply settled_rollback, Hc | reflexivity].
Qed.

Lemma mark_bet_processed_spec ocr_bet :
  ocr_bet ∈ cands ->
  hoare (fun c => R c /\ (has_record (working c) (id ocr_bet)
                          \/ date ocr_bet = None))
        (_mark_bet_processed ocr_bet)
        (fun _ c => R c) (fun _ _ => False).
Proof.
  intros Hin c [Hc Hrec]. unfold _mark_bet_processed, exec.
  apply (settled_step c _ Hc). apply step_processed; assumption.
Qed.

Lemma process_bet_spec ocr_bet :
  ocr_bet ∈ cands ->
  hoare R (process_bet nba_api ocr_bet)
        (fun _ c => R c)
        (fun e c => R c /\ (api_answers nba_api -> is_Exception e = true)).
Proof.
  intros Hin. unfold process_bet.
  eapply hoare_bind; [apply get_player_game_stats_spec |].
  intros [in_db [game_stats |]]; cbn [snd].
  - eapply (hoare_bind _ _ _ (fun _ c => R c)).
    + destruct in_db.
      * apply hoare_ret. intros c [Hc _]. exact Hc.
      * eapply hoare_conseq; [apply (insert_into_game_stats_spec _ _ Hin) | | |].
        -- intros c [Hc _]. exact Hc.
        -- auto.
        -- intros e c [Hc He]. auto.
    + intros _.
      eapply (hoare_bind _ _ _ (fun _ c => R c /\ has_record (working c) (id ocr_bet))).
      * eapply hoare_conseq;
          [apply (insert_into_bet_results_spec _ game_stats Hin) | | |].
        -- auto.
        -- intros a c H1. exact H1.
        -- intros e c [Hc He]. auto.
      * intros _. eapply hoare_conseq; [apply (mark_bet_processed_spec _ Hin) | | |].
        -- intros c [Hc Hrec]. auto.
        -- auto.
        -- intros e c [].
  - eapply (hoare_bind _ _ _
              (fun _ c => R c /\ (has_record (working c) (id ocr_bet)
                                  \/ date ocr_bet = None))).
    + intros c [Hc Hp].
      pose proof (insert_into_unplayed_bets_spec _ Hin c Hc) as Hu.
      destruct (insert_into_unplayed_bets ocr_bet c) as [c' [u | e]]; [| destruct Hu].
      destruct Hu as [Hc' Hrec]. split; [exact Hc' |]. apply Hrec, Hp. reflexivity.
    + intros _. eapply hoare_conseq; [apply (mark_bet_processed_spec _ Hin) | | |].
      * auto.
      * auto.
      * intros e c [].
Qed.

Lemma process_bets_loop_spec bets :
  (forall bet, bet ∈ bets -> bet ∈ cands) ->
  hoare R (process_bets_loop nba_api bets)
        (fun _ c => R c)
        (fun e c => R c /\ is_Exception e = false /\ ~ api_answers nba_api).
Proof.
  induction bets as [| ocr_bet rest IH]; intros Hsub; cbn [process_bets_loop].
  - apply hoare_ret. auto.
  - eapply (hoare_bind _ _ _ (fun _ c => R c)).
    + eapply hoare_try_except.
      * apply process_bet_spec, Hsub, list_elem_of_here.
      * intros e He. apply hoare_ret. intros c [Hc _]. exact Hc.
      * intros e c He [Hc Himp]. split; [exact Hc |]. split; [exact He |].
        intros Hapi. rewrite (Himp Hapi) in He. discriminate.
    + intros _. apply IH. intros bet Hb. apply Hsub, list_elem_of_further, Hb.
Qed.

End SettlementWrites.

(** ** What a settlement run leaves behind *)

Lemma has_record_ids d k :
  has_record d k <->
  k ∈ (raw_bet_id <$> tbl_bet_results d) ++ (up_raw_bet_id <$> tbl_unplayed_bets d).
Proof.
  unfold has_record. rewrite elem_of_app, !list_elem_of_fmap. split.
  - intros [(b & Hb & E) | (u & Hu & E)]; [left | right]; eauto.
  - intros [(b & E & Hb) | (u & E & Hu)]; [left | right]; eauto.
Qed.

Lemma filter_nil_all {A} (f : A -> bool) (l : list A) :
  List.filter f l = [] <-> forall x, x ∈ l -> f x = false.
Proof.
  induction l as [| a l IH]; cbn [List.filter].
  - split; [intros _ x Hx; apply elem_of_nil in Hx; destruct Hx | reflexivity].
  - destruct (f a) eqn:Ea.
    + split; [discriminate |]. intros Hall.
      rewrite (Hall a (list_elem_of_here _ _)) in Ea. discriminate.
    + rewrite IH. split.
      * intros Hall x Hx. apply elem_of_cons in Hx. destruct Hx as [-> | Hx]; auto.
      * intros Hall x Hx. apply Hall, list_elem_of_further, Hx.
Qed.

Lemma count_absent `{EqDecision A} (l : list A) k :
  k ∉ l -> length (List.filter (fun k' => bool_decide (k' = k)) l) = 0%nat.
Proof.
  intros Hk. replace (List.filter _ l) with (@nil A); [reflexivity |].
  symmetry. apply filter_nil_all. intros x Hx. apply bool_decide_eq_false.
  intros ->. exact (Hk Hx).
Qed.

Lemma count_present `{EqDecision A} (l : list A) k :
  k ∈ l -> (1 <= length (List.filter (fun k' => bool_decide (k' = k)) l))%nat.
Proof.
  induction l as [| a l IH]; intros Hk.
  - apply elem_of_nil in Hk. destruct Hk.
  - cbn [List.filter]. destruct (bool_decide (a = k)) eqn:Ea; cbn [length]; [lia |].
    apply elem_of_cons in Hk. destruct Hk as [-> | Hk]; [| exact (IH Hk)].
    apply bool_decide_eq_false in Ea. destruct (Ea eq_refl).
Qed.

Lemma count_NoDup `{EqDecision A} (l : list A) :
  (forall k, k ∈ l ->
     (length (List.filter (fun k' => bool_decide (k' = k)) l) <= 1)%nat)
  <-> NoDup l.
Proof.
  induction l as [| a l IH].
  - split; [intros _; apply NoDup_nil_2 |].
    intros _ k Hk. apply elem_of_nil in Hk. destruct Hk.
  - split.
    + intros Hc. apply NoDup_cons. split.
      * intros Ha. specialize (Hc a (list_elem_of_here _ _)).
        cbn [List.filter] in Hc. rewrite bool_decide_eq_true_2 in Hc by reflexivity.
        cbn [length] in Hc. pose proof (count_present l a Ha). lia.
      * apply IH. intros k Hk. specialize (Hc k (list_elem_of_further _ _ _ Hk)).
        cbn [List.filter] in Hc. destruct (bool_decide (a = k)); cbn [length] in Hc; lia.
    + intros Hnd. apply NoDup_cons in Hnd. destruct Hnd as [Ha Hnd].
      intros k Hk. cbn [List.filter]. destruct (bool_decide (a = k)) eqn:Ea.
      * apply bool_decide_eq_true in Ea. subst k. cbn [length].
        rewrite (count_absent l a Ha). lia.
      * apply elem_of_cons in Hk. destruct Hk as [-> | Hk].
        -- apply bool_decide_eq_false in Ea. destruct (Ea eq_refl).
        -- apply IH; assumption.
Qed.

(** Query 2 finds nothing exactly when the keys of [game_stats] are
    pairwise different. *)
Lemma duplicate_game_stats_empty d :
  duplicate_game_stats d = [] <-> game_stats_unique d.
Proof.
  unfold duplicate_game_stats, game_stats_unique.
  set (keys := (fun g => (gs_player_id g, gs_date g)) <$> tbl_game_stats d).
  rewrite filter_nil_all, <- count_NoDup. split.
  - intros Hall k Hk.
    specialize (Hall (k, length (List.filter (fun k' => bool_decide (k' = k)) keys))).
    cbn [snd] in Hall. apply Nat.ltb_ge. apply Hall.
    apply list_elem_of_fmap. exists k. split; [reflexivity |].
    apply elem_of_remove_dups, Hk.
  - intros Hc [k n] Hkn. apply list_elem_of_fmap in Hkn.
    destruct Hkn as (k' & E & Hk'). injection E as -> ->. cbn [snd].
    apply Nat.ltb_ge. apply Hc. apply elem_of_remove_dups, Hk'.
Qed.

(** Query 3 finds nothing exactly when every processed row has a record. *)
Lemma processed_without_record_empty d :
  processed_without_record d = [] <-> processed_have_record d.
Proof.
  unfold processed_without_record, processed_have_record. split.
  - intros E r Hr Hp. apply fmap_nil_inv in E.
    pose proof (proj1 (filter_nil_all _ _) E r Hr) as Hf. cbn beta in Hf.
    rewrite Hp in Hf. cbn [andb] in Hf. apply negb_false_iff in Hf.
    apply bool_decide_eq_true in Hf. apply has_record_ids, Hf.
  - intros Hall. replace (List.filter _ (tbl_raw_ocr_bets d)) with (@nil raw_bet);
      [reflexivity |].
    symmetry. apply filter_nil_all. intros r Hr.
    destruct (is_processed r) eqn:Hp; [| reflexivity]. cbn [andb].
    apply negb_false_iff, bool_decide_eq_true, has_record_ids, Hall; assumption.
Qed.

(** When query 11 finds nothing, every candidate of a run has a date. *)
Lemma missing_required_fields_empty d bet :
  missing_required_fields d = [] -> bet ∈ _get_unprocessed_bets d ->
  date bet <> None.
Proof.
  unfold missing_required_fields, _get_unprocessed_bets. intros E Hb Hd.
  apply list_elem_of_In, filter_In in Hb. destruct Hb as [Hb Hc].
  apply list_elem_of_In in Hb.
  apply andb_true_iff in Hc. destruct Hc as [Hc Hv].
  apply andb_true_iff in Hc. destruct Hc as [_ Hn].
  assert (Hin : (id bet, default EmptyString (missing_field bet))
                  ∈ @nil (Z * string)).
  { rewrite <- E. apply list_elem_of_omap. exists bet. split; [exact Hb |].
    rewrite Hv, Hn. cbn [andb]. unfold missing_field. rewrite Hd.
    destruct (player_id bet), (bet_type bet), (score bet); reflexivity. }
  apply elem_of_nil in Hin. exact Hin.
Qed.

Lemma marks_only_refl cands d : marks_only cands d d.
Proof.
  unfold marks_only. repeat split; auto.
Qed.

Lemma set_is_processed_idem r : set_is_processed (set_is_processed r) = set_is_processed r.
Proof. reflexivity. Qed.

Lemma marks_only_trans cands d1 d2 d3 :
  marks_only cands d1 d2 -> marks_only cands d2 d3 -> marks_only cands d1 d3.
Proof.
  intros (Hp1 & Hl1 & Hr1 & Hg1 & Hb1 & Hu1 & Hnb1 & Hnu1)
         (Hp2 & Hl2 & Hr2 & Hg2 & Hb2 & Hu2 & Hnb2 & Hnu2).
  unfold marks_only. split; [congruence |]. split; [congruence |].
  split; [| split; [etrans; eauto | split; [etrans; eauto | split; [etrans; eauto |]]]].
  - intros i r Hi. destruct (Hr1 i r Hi) as [H1 | [H1 Hc]].
    + exact (Hr2 i r H1).
    + destruct (Hr2 i _ H1) as [H2 | [H2 _]].
      * right. auto.
      * right. rewrite set_is_processed_idem in H2. auto.
  - split.
    + intros row Hrow. destruct (Hnb2 row Hrow) as [H2 | H2]; auto.
    + intros u Hu. destruct (Hnu2 u Hu) as [H2 | H2]; auto.
Qed.

Lemma settle_step_marks `{!Builtins} cands d d' :
  settle_step cands d d' -> marks_only cands d d'.
Proof.
  intros Hs. destruct Hs as [bet g Hin Hp Hd Hex Hid | bet pid dt Hin Hp Hd Hex
                            | bet row game_stats g Hin Hid Hbp Hbt Hg Hgid Hcalc Hacc
                            | bet Hin Hrec];
    unfold marks_only;
    cbn [tbl_players tbl_raw_ocr_bets tbl_game_stats tbl_bet_results
         tbl_unplayed_bets put_game_stats put_unplayed_bets put_bet_results
         update_raw put_raw_ocr_bets].
  - repeat split; auto. apply prefix_app_r. reflexivity.
  - repeat split; auto; [apply prefix_app_r; reflexivity |].
    intros u Hu. apply elem_of_app in Hu. destruct Hu as [Hu | Hu]; [auto |].
    apply list_elem_of_singleton in Hu. subst u. right. exists bet. auto.
  - repeat split; auto; [apply prefix_app_r; reflexivity |].
    intros r Hr. apply elem_of_app in Hr. destruct Hr as [Hr | Hr]; [auto |].
    apply list_elem_of_singleton in Hr. subst r. right. exists bet. auto.
  - repeat split; auto; [apply length_fmap |].
    intros i r Hi. rewrite list_lookup_fmap, Hi. cbn [fmap option_fmap option_map].
    destruct (Z.eqb (id r) (id bet)) eqn:E; [| auto].
    right. split; [reflexivity |]. exists bet. split; [exact Hin |].
    symmetry. apply Z.eqb_eq, E.
Qed.

Lemma settled_marks `{!Builtins} cands d d' : rtc (settle_step cands) d d' -> marks_only cands d d'.
Proof.
  induction 1 as [| d1 d2 d3 Hs _ IH]; [apply marks_only_refl |].
  eapply marks_only_trans; [apply settle_step_marks, Hs | exact IH].
Qed.

Lemma has_record_mono `{!Builtins} cands d d' k :
  settle_step cands d d' -> has_record d k -> has_record d' k.
Proof.
  intros Hs. apply settle_step_marks in Hs.
  destruct Hs as (_ & _ & _ & _ & [lb Hb] & [lu Hu] & _).
  intros [(b & Hin & E) | (u & Hin & E)]; [left; exists b | right; exists u];
    (split; [| exact E]).
  - rewrite Hb. apply elem_of_app. auto.
  - rewrite Hu. apply elem_of_app. auto.
Qed.

Lemma settle_step_processed `{!Builtins} cands d d' :
  (forall bet, bet ∈ cands -> date bet <> None) ->
  settle_step cands d d' -> processed_have_record d -> processed_have_record d'.
Proof.
  intros Hdates Hs Hinv.
  pose proof (fun k => has_record_mono _ _ _ k Hs) as Hmono.
  destruct Hs as [bet g Hin Hp Hd Hex Hid | bet pid dt Hin Hp Hd Hex
                 | bet row game_stats g Hin Hid Hbp Hbt Hg Hgid Hcalc Hacc
                 | bet Hin Hrec].
  - intros r Hr Hpr. apply Hmono, Hinv; assumption.
  - intros r Hr Hpr. apply Hmono, Hinv; assumption.
  - intros r Hr Hpr. apply Hmono, Hinv; assumption.
  - intros r' Hr' Hpr. unfold update_raw in Hr'.
    cbn [tbl_raw_ocr_bets put_raw_ocr_bets] in Hr'.
    apply list_elem_of_fmap in Hr'. destruct Hr' as (r & -> & Hr).
    destruct (Z.eqb (id r) (id bet)) eqn:E.
    + apply Z.eqb_eq in E. cbn [id set_is_processed]. rewrite E.
      destruct Hrec as [Hrec | Hnone]; [| destruct (Hdates bet Hin Hnone)].
      apply Hmono, Hrec.
    + apply Hmono, Hinv; assumption.
Qed.

Lemma settle_step_unique `{!Builtins} cands d d' :
  settle_step cands d d' -> game_stats_unique d -> game_stats_unique d'.
Proof.
  intros Hs Hinv. destruct Hs as [bet g Hin Hp Hd Hex Hid | bet pid dt Hin Hp Hd Hex
                                 | bet row game_stats g Hin Hid Hbp Hbt Hg Hgid Hcalc Hacc
                                 | bet Hin Hrec];
    try exact Hinv.
  unfold game_stats_unique. cbn [tbl_game_stats put_game_stats].
  rewrite fmap_app. apply NoDup_app. split; [exact Hinv |]. split.
  - intros k Hk Hk'. apply list_elem_of_fmap in Hk. destruct Hk as (g' & -> & Hg').
    cbn in Hk'. apply list_elem_of_singleton in Hk'. injection Hk' as E1 E2.
    assert (Hf : existsb (fun g' => Z.eqb (gs_player_id g') (gs_player_id g)
                                    && String.eqb (gs_date g') (gs_date g))
                         (tbl_game_stats d) = true).
    { apply existsb_exists. exists g'. split; [apply list_elem_of_In, Hg' |].
      rewrite E1, E2, Z.eqb_refl, String.eqb_refl. reflexivity. }
    rewrite Hex in Hf. discriminate.
  - cbn. apply NoDup_singleton.
Qed.

Lemma settled_processed `{!Builtins} cands d d' :
  (forall bet, bet ∈ cands -> date bet <> None) ->
  rtc (settle_step cands) d d' ->
  processed_have_record d -> processed_have_record d'.
Proof.
  intros Hdates Ht. induction Ht as [| d1 d2 d3 Hs _ IH]; [auto |].
  intros H1. apply IH. exact (settle_step_processed _ _ _ Hdates Hs H1).
Qed.

Lemma settled_unique `{!Builtins} cands d d' :
  rtc (settle_step cands) d d' -> game_stats_unique d -> game_stats_unique d'.
Proof.
  intros Ht. induction Ht as [| d1 d2 d3 Hs _ IH]; [auto |].
  intros H1. apply IH. exact (settle_step_unique _ _ _ Hs H1).
Qed.

Section SettlementRun.
Context `{!Builtins}.
Variable nba_api : Z -> option string -> api_reply.

Lemma process_new_bets_spec d :
  match process_new_bets nba_api (connect d) with
  | (c', Ok b) =>
      b = true /\ settled_from (_get_unprocessed_bets d) d c'
      /\ committed c' = working c'
  | (c', Raise e) =>
      settled_from (_get_unprocessed_bets d) d c'
      /\ is_Exception e = false /\ ~ api_answers nba_api
  end.
Proof.
  pose proof (process_bets_loop_spec nba_api (_get_unprocessed_bets d) d
                (_get_unprocessed_bets d) (fun _ Hb => Hb) (connect d)) as Hloop.
  assert (Hstart : settled_from (_get_unprocessed_bets d) d (connect d))
    by (split; apply rtc_refl).
  specialize (Hloop Hstart).
  unfold process_new_bets, try_except, _process_unprocessed_bets,
    mbind, M_bind, query, do_commit, mret, M_ret.
  change (working (connect d)) with d.
  destruct (process_bets_loop nba_api (_get_unprocessed_bets d) (connect d))
    as [c' [[] | e]].
  - split; [reflexivity |]. split; [apply settled_commit, Hloop | reflexivity].
  - destruct Hloop as (Hc & He & Hapi). rewrite He. auto.
Qed.

Lemma settlement_run_trace d :
  rtc (settle_step (_get_unprocessed_bets d)) d (settlement_run nba_api d).1.
Proof.
  unfold settlement_run. pose proof (process_new_bets_spec d) as Hs.
  destruct (process_new_bets nba_api (connect d)) as [c' [b | e]]; cbn [fst].
  - destruct Hs as (_ & [Hc _] & _). exact Hc.
  - destruct Hs as ([Hc _] & _). exact Hc.
Qed.

(** A settlement run changes nothing but the processed flag of its
    candidates and appends to the other tables: the players are as before;
    a row of [raw_ocr_bets] that is flagged, voided or already processed is
    left as it was and a candidate is at most marked as processed; the rows
    that [game_stats], [bet_results] and [unplayed_bets] had are kept, in
    place; and every new result or unplayed record carries the id of a
    candidate. *)
Theorem settlement_run_frame d :
  NoDup (raw_ids d) ->
  let d' := (settlement_run nba_api d).1 in
  tbl_players d' = tbl_players d
  /\ length (tbl_raw_ocr_bets d') = length (tbl_raw_ocr_bets d)
  /\ (forall i r, tbl_raw_ocr_bets d !! i = Some r ->
        tbl_raw_ocr_bets d' !! i = Some r
        \/ (r ∈ _get_unprocessed_bets d
            /\ tbl_raw_ocr_bets d' !! i = Some (set_is_processed r)))
  /\ tbl_game_stats d `prefix_of` tbl_game_stats d'
  /\ tbl_bet_results d `prefix_of` tbl_bet_results d'
  /\ tbl_unplayed_bets d `prefix_of` tbl_unplayed_bets d'
  /\ (forall row, row ∈ tbl_bet_results d' ->
        row ∈ tbl_bet_results d
        \/ exists bet, bet ∈ _get_unprocessed_bets d /\ raw_bet_id row = id bet)
  /\ (forall u, u ∈ tbl_unplayed_bets d' ->
        u ∈ tbl_unplayed_bets d
        \/ exists bet, bet ∈ _get_unprocessed_bets d /\ up_raw_bet_id u = id bet).
Proof.
  intros Hnd d'.
  destruct (settled_marks _ _ _ (settlement_run_trace d))
    as (Hp & Hl & Hr & Hg & Hb & Hu & Hnb & Hnu).
  repeat split; try assumption.
  intros i r Hi. destruct (Hr i r Hi) as [Hsame | [Hset (bet & Hin & Eid)]];
    [left; exact Hsame |].
  right. split; [| exact Hset].
  assert (Hbet : bet ∈ tbl_raw_ocr_bets d).
  { unfold _get_unprocessed_bets in Hin. apply list_elem_of_In, filter_In in Hin.
    apply list_elem_of_In, Hin. }
  assert (Hrin : r ∈ tbl_raw_ocr_bets d) by (eapply list_elem_of_lookup_2; eauto).
  rewrite <- (NoDup_fmap_elem id _ bet r Hnd Hbet Hrin Eid). exact Hin.
Qed.

(** A run that starts with no processed row without a record (query 3 of
    the integrity check) and no unflagged row with a missing field (query
    11) ends with no processed row without a record. *)
Theorem settlement_run_keeps_processed_recorded d :
  processed_without_record d = [] ->
  missing_required_fields d = [] ->
  processed_without_record (settlement_run nba_api d).1 = [].
Proof.
  intros H3 H11. apply processed_without_record_empty.
  apply processed_without_record_empty in H3.
  refine (settled_processed _ _ _ _ (settlement_run_trace d) H3).
  intros bet Hb. exact (missing_required_fields_empty d bet H11 Hb).
Qed.

(** A run that starts without two rows of [game_stats] for the same player
    and date (query 2 of the integrity check) ends without. *)
Theorem settlement_run_keeps_game_stats_unique d :
  duplicate_game_stats d = [] ->
  duplicate_game_stats (settlement_run nba_api d).1 = [].
Proof.
  intros H2. apply duplicate_game_stats_empty.
  apply duplicate_game_stats_empty in H2.
  exact (settled_unique _ _ _ (settlement_run_trace d) H2).
Qed.

(** When the stats service answers every request, no error in the
    settlement of a single bet ends the run: it returns True and everything
    it wrote is committed. *)
Theorem settlement_run_survives_bet_errors d :
  api_answers nba_api ->
  exists c', process_new_bets nba_api (connect d) = (c', Ok true)
             /\ committed c' = working c'
             /\ settlement_run nba_api d = (working c', Ok true).
Proof.
  intros Hapi. pose proof (process_new_bets_spec d) as Hs.
  unfold settlement_run.
  destruct (process_new_bets nba_api (connect d)) as [c' [b | e]].
  - destruct Hs as (-> & _ & Hcw). exists c'. rewrite Hcw. auto.
  - destruct Hs as (_ & _ & Hn). destruct (Hn Hapi).
Qed.

End SettlementRun.

Lemma answering_api_answers : api_answers answering_api.
Proof.
  intros pid dt e. unfold answering_api. destruct (Z.eqb pid 2544); discriminate.
Qed.

Lemma settlement_run_frame_witness :
  NoDup (raw_ids two_bets_db)
  /\ (forall i r, tbl_raw_ocr_bets two_bets_db !! i = Some r ->
        tbl_raw_ocr_bets (@settlement_run decimal_builtins sample_api two_bets_db).1 !! i
          = Some r
        \/ (r ∈ _get_unprocessed_bets two_bets_db
            /\ tbl_raw_ocr_bets
                 (@settlement_run decimal_builtins sample_api two_bets_db).1 !! i
               = Some (set_is_processed r))).
Proof.
  assert (Hnd : NoDup (raw_ids two_bets_db))
    by exact (bool_decide_unpack (NoDup (raw_ids two_bets_db))
                ltac:(vm_compute; exact I)).
  split; [exact Hnd |].
  exact (proj1 (proj2 (proj2
           (@settlement_run_frame decimal_builtins sample_api two_bets_db Hnd)))).
Defined.

Lemma settlement_run_keeps_processed_recorded_witness :
  processed_without_record two_bets_db = []
  /\ missing_required_fields two_bets_db = []
  /\ processed_without_record
       (@settlement_run decimal_builtins answering_api two_bets_db).1 = [].
Proof.
  assert (H3 : processed_without_record two_bets_db = [])
    by (vm_compute; reflexivity).
  assert (H11 : missing_required_fields two_bets_db = [])
    by (vm_compute; reflexivity).
  split; [exact H3 |]. split; [exact H11 |].
  exact (@settlement_run_keeps_processed_recorded decimal_builtins answering_api
           two_bets_db H3 H11).
Defined.

Lemma settlement_run_keeps_game_stats_unique_witness :
  duplicate_game_stats two_bets_db = []
  /\ duplicate_game_stats
       (@settlement_run decimal_builtins answering_api two_bets_db).1 = [].
Proof.
  assert (H2 : duplicate_game_stats two_bets_db = []) by (vm_compute; reflexivity).
  split; [exact H2 |].
  exact (@settlement_run_keeps_game_stats_unique decimal_builtins answering_api
           two_bets_db H2).
Defined.

Lemma settlement_run_survives_bet_errors_witness :
  api_answers answering_api
  /\ exists c', @process_new_bets decimal_builtins answering_api (connect two_bets_db)
                = (c', Ok true)
                /\ committed c' = working c'
                /\ @settlement_run decimal_builtins answering_api two_bets_db
                   = (working c', Ok true).
Proof.
  split; [exact answering_api_answers |].
  exact (@settlement_run_survives_bet_errors decimal_builtins answering_api
           two_bets_db answering_api_answers).
Defined.

(** ** The review import, row by row *)

Section ReviewRows.
Context `{!Builtins}.

Lemma select_player_id_players d1 d2 name :
  tbl_players d1 = tbl_players d2 ->
  select_player_id name d1 = select_player_id name d2.
Proof. intros E. unfold select_player_id. rewrite E. reflexivity. Qed.

Lemma bet_needs_review_players d1 d2 bet :
  tbl_players d1 = tbl_players d2 ->
  bet_needs_review d1 bet = bet_needs_review d2 bet.
Proof.
  intros E. unfold bet_needs_review.
  rewrite (select_player_id_players d1 d2 _ E). reflexivity.
Qed.

Lemma same_but_raw_rows_refl d : same_but_raw_rows d d.
Proof. repeat split. Qed.

Lemma same_but_raw_rows_trans d1 d2 d3 :
  same_but_raw_rows d1 d2 -> same_but_raw_rows d2 d3 -> same_but_raw_rows d1 d3.
Proof.
  intros (?&?&?&?&?&?) (?&?&?&?&?&?). repeat split; congruence.
Qed.

Lemma same_but_raw_rows_update cond f d : same_but_raw_rows d (update_raw cond f d).
Proof. repeat split. Qed.

(** One CSV row, exactly: the UPDATE is run when the classifier accepts the
    row, the player is found and the UNIQUE constraint holds; otherwise
    nothing changes. *)
Lemma review_row_exact bet c :
  exists d',
    try_except (review_row bet) (fun _ => mret tt) c
    = ({| committed := committed c; working := d' |}, Ok tt)
    /\ ((d' = working c
         /\ forall reasons pid,
              bet_needs_review (working c) (c_bet bet) = Ok (false, reasons) ->
              select_player_id (e_player (c_bet bet)) (working c) = Ok pid ->
              review_conflict pid bet (working c) = true)
        \/ exists reasons pid,
             bet_needs_review (working c) (c_bet bet) = Ok (false, reasons)
             /\ select_player_id (e_player (c_bet bet)) (working c) = Ok pid
             /\ review_conflict pid bet (working c) = false
             /\ d' = update_raw (fun r => Z.eqb (id r) (c_id bet))
                                (reviewed pid bet) (working c)).
Proof.
  destruct c as [dc dw]. unfold try_except, review_row, mbind, M_bind.
  cbn [working committed].
  destruct (bet_needs_review dw (c_bet bet)) as [[nr reasons] | e] eqn:Eb;
    cbn [working committed].
  - destruct (select_player_id (e_player (c_bet bet)) dw) as [pid | e] eqn:Es;
      cbn [working committed].
    + destruct nr.
      * exists dw. split; [reflexivity |]. left. split; [reflexivity |].
        intros ? ? E. discriminate E.
      * unfold query. cbn [working committed].
        destruct (review_conflict pid bet dw) eqn:Ec.
        -- exists dw. split; [reflexivity |]. left. split; [reflexivity |].
           intros reasons' pid' _ E. injection E as <-. exact Ec.
        -- eexists. split; [reflexivity |]. right. exists reasons, pid.
           repeat split; auto.
    + rewrite (select_player_id_exn _ _ _ Es).
      exists dw. split; [reflexivity |]. left. split; [reflexivity |].
      intros ? ? _ E. discriminate E.
  - rewrite (bet_needs_review_exn _ _ _ Eb).
    exists dw. split; [reflexivity |]. left. split; [reflexivity |].
    intros ? ? E. discriminate E.
Qed.

Lemma review_outcome_players d1 d2 csv_df r r' :
  tbl_players d1 = tbl_players d2 ->
  review_outcome d1 csv_df r r' -> review_outcome d2 csv_df r r'.
Proof.
  intros E [-> | (bet & reasons & pid & Hin & Hid & Hacc & Hpid & ->)];
    [left; reflexivity |].
  right. exists bet, reasons, pid.
  rewrite <- (bet_needs_review_players d1 d2 _ E).
  rewrite <- (select_player_id_players d1 d2 _ E). auto.
Qed.

Lemma review_outcome_id d csv_df r r' : review_outcome d csv_df r r' -> id r' = id r.
Proof. intros [-> | (? & ? & ? & _ & _ & _ & _ & ->)]; reflexivity. Qed.

Lemma review_outcome_cons d bet rest r r1 r2 :
  review_outcome d [bet] r r1 -> review_outcome d rest r1 r2 ->
  review_outcome d (bet :: rest) r r2.
Proof.
  intros [-> | (b1 & rs1 & p1 & Hin1 & Hid1 & Hacc1 & Hpid1 & ->)]
         [-> | (b2 & rs2 & p2 & Hin2 & Hid2 & Hacc2 & Hpid2 & ->)].
  - left. reflexivity.
  - right. exists b2, rs2, p2. repeat split; auto.
    apply list_elem_of_further, Hin2.
  - right. exists b1, rs1, p1. repeat split; auto.
    apply list_elem_of_singleton in Hin1. subst b1. apply list_elem_of_here.
  - right. exists b2, rs2, p2. repeat split; auto.
    apply list_elem_of_further, Hin2.
Qed.

(** One CSV row, row by row of the table. *)
Lemma review_row_outcome bet c :
  exists d',
    try_except (review_row bet) (fun _ => mret tt) c
    = ({| committed := committed c; working := d' |}, Ok tt)
    /\ same_but_raw_rows (working c) d'
    /\ forall i r,
         tbl_raw_ocr_bets (working c) !! i = Some r ->
         exists r', tbl_raw_ocr_bets d' !! i = Some r'
                    /\ review_outcome (working c) [bet] r r'.
Proof.
  destruct (review_row_exact bet c)
    as (d' & E & [[-> _] | (reasons & pid & Hacc & Hpid & _ & ->)]).
  - exists (working c). split; [exact E |].
    split; [apply same_but_raw_rows_refl |].
    intros i r Hi. exists r. split; [exact Hi | left; reflexivity].
  - eexists. split; [exact E |]. split; [apply same_but_raw_rows_update |].
    intros i r Hi. rewrite (update_raw_lookup _ _ _ _ _ Hi).
    eexists. split; [reflexivity |].
    destruct (Z.eqb_spec (id r) (c_id bet)) as [Hid | _]; [| left; reflexivity].
    right. exists bet, reasons, pid. repeat split; auto.
    apply list_elem_of_here.
Qed.

(** The loop over the CSV rows, row by row of the table. *)
Lemma review_rows_outcome (csv_df : list csv_row) c :
  exists d',
    review_rows csv_df c = ({| committed := committed c; working := d' |}, Ok tt)
    /\ same_but_raw_rows (working c) d'
    /\ forall i r,
         tbl_raw_ocr_bets (working c) !! i = Some r ->
         exists r', tbl_raw_ocr_bets d' !! i = Some r'
                    /\ review_outcome (working c) csv_df r r'.
Proof.
  revert c. induction csv_df as [| bet rest IH]; intros c; cbn [review_rows].
  - exists (working c). destruct c. cbn [working committed].
    split; [reflexivity |]. split; [apply same_but_raw_rows_refl |].
    intros i r Hi. exists r. split; [exact Hi | left; reflexivity].
  - unfold mbind at 1, M_bind at 1.
    destruct (review_row_outcome bet c) as (d1 & -> & Hs1 & Hr1).
    destruct (IH {| committed := committed c; working := d1 |})
      as (d2 & -> & Hs2 & Hr2). cbn [committed working] in *.
    exists d2. split; [reflexivity |].
    split; [eapply same_but_raw_rows_trans; eauto |].
    intros i r Hi. destruct (Hr1 i r Hi) as (r1 & Hi1 & Ho1).
    destruct (Hr2 i r1 Hi1) as (r2 & Hi2 & Ho2).
    exists r2. split; [exact Hi2 |].
    apply (review_outcome_cons _ _ _ _ r1); [exact Ho1 |].
    apply (review_outcome_players d1); [| exact Ho2].
    apply Hs1.
Qed.

Lemma review_rows_app (l1 l2 : list csv_row) c :
  review_rows (l1 ++ l2) c = review_rows l2 (review_rows l1 c).1.
Proof.
  revert c. induction l1 as [| bet l1 IH]; intros c; [reflexivity |].
  cbn [app review_rows]. unfold mbind, M_bind.
  destruct (review_row_outcome bet c) as (d1 & -> & _). apply IH.
Qed.

End ReviewRows.

Section ReviewImport.
Context `{!Builtins}.

(** The import of a file that has rows: the flagged rows whose id is not
    in the file are voided, the loop runs, and its writes are committed. *)
Lemma update_reviewed_entries_unfold bet0 (rest : list csv_row) d :
  let csv_df := bet0 :: rest in
  let d1 := update_raw (fun r => bool_decide (id r ∈ deleted_ids d csv_df))
                       set_is_voided d in
  same_but_raw_rows d d1
  /\ tbl_raw_ocr_bets d1
     = (fun r => if bool_decide (id r ∈ deleted_ids d csv_df)
                 then set_is_voided r else r) <$> tbl_raw_ocr_bets d
  /\ exists d0,
       same_but_raw_rows d d0 /\ tbl_raw_ocr_bets d0 = tbl_raw_ocr_bets d1
       /\ update_reviewed_entries (Some csv_df) d
          = working (review_rows csv_df {| committed := d; working := d0 |}).1.
Proof.
  intros csv_df d1.
  split; [apply same_but_raw_rows_update |]. split; [reflexivity |].
  set (deleted := deleted_ids d csv_df).
  set (d0 := if bool_decide (deleted ≠ ∅) then d1 else d).
  assert (Hr0 : tbl_raw_ocr_bets d0 = tbl_raw_ocr_bets d1).
  { unfold d0. destruct (bool_decide (deleted ≠ ∅)) eqn:Ed; [reflexivity |].
    apply bool_decide_eq_false in Ed.
    assert (E : deleted = ∅)
      by (destruct (decide (deleted = ∅)); [assumption | contradiction]).
    unfold d1, update_raw. cbn [tbl_raw_ocr_bets put_raw_ocr_bets].
    fold deleted. rewrite E. symmetry.
    erewrite list_fmap_ext; [apply list_fmap_id |].
    intros i r _. cbn. rewrite bool_decide_eq_false_2; [reflexivity |].
    apply not_elem_of_empty. }
  exists d0. split.
  { unfold d0. destruct (bool_decide (deleted ≠ ∅));
      [apply same_but_raw_rows_update | apply same_but_raw_rows_refl]. }
  split; [exact Hr0 |].
  unfold update_reviewed_entries. cbv delta [csv_df]. cbv iota. fold csv_df.
  unfold with_conn, mbind, M_bind, query, connect. cbn [working committed].
  fold deleted.
  assert (Estep :
    (if bool_decide (deleted ≠ ∅)
     then exec (update_raw (fun r => bool_decide (id r ∈ deleted)) set_is_voided)
     else mret tt) {| committed := d; working := d |}
    = ({| committed := d; working := d0 |}, Ok tt)).
  { unfold d0, d1. fold deleted. destruct (bool_decide (deleted ≠ ∅)); reflexivity. }
  rewrite Estep.
  destruct (review_rows_outcome csv_df {| committed := d; working := d0 |})
    as (d2 & -> & _). reflexivity.
Qed.

(** The import of a file that has rows, row by row of the table. *)
Lemma update_reviewed_entries_outcome bet0 (rest : list csv_row) d :
  let csv_df := bet0 :: rest in
  let d' := update_reviewed_entries (Some csv_df) d in
  same_but_raw_rows d d'
  /\ forall i r,
       tbl_raw_ocr_bets d !! i = Some r ->
       exists r',
         tbl_raw_ocr_bets d' !! i = Some r'
         /\ review_outcome d csv_df
              (if bool_decide (id r ∈ deleted_ids d csv_df)
               then set_is_voided r else r) r'.
Proof.
  intros csv_df d'.
  destruct (update_reviewed_entries_unfold bet0 rest d)
    as (_ & Hr1 & d0 & Hs0 & Hr0 & E).
  cbv zeta in Hr1, Hr0, E. fold csv_df in Hr1, Hr0, E. unfold d'. rewrite E.
  destruct (review_rows_outcome csv_df {| committed := d; working := d0 |})
    as (d2 & -> & Hs2 & Hr2). cbn [fst committed working] in *.
  split; [eapply same_but_raw_rows_trans; eauto |].
  intros i r Hi.
  destruct (Hr2 i (if bool_decide (id r ∈ deleted_ids d csv_df)
                   then set_is_voided r else r)) as (r' & Hi' & Ho).
  { rewrite Hr0, Hr1, list_lookup_fmap, Hi. reflexivity. }
  exists r'. split; [exact Hi' |].
  apply (review_outcome_players d0); [| exact Ho]. apply Hs0.
Qed.

Lemma checks_keep bet (R : gset string) r :
  r ∈ R ->
  r ∈ check_date bet (check_odds bet (check_bet_line bet
        (check_score bet (check_bet_type bet R)))).
Proof.
  intros Hr.
  apply (check_date_reasons ∅). left. apply (check_odds_reasons ∅). left.
  apply (check_bet_line_reasons ∅). left. apply (check_score_reasons ∅). left.
  apply (check_bet_type_reasons ∅). left. exact Hr.
Qed.

Lemma in_file_not_deleted d (csv_df : list csv_row) k :
  k ∈ (c_id <$> csv_df) -> bool_decide (k ∈ deleted_ids d csv_df) = false.
Proof.
  intros Hin. apply bool_decide_eq_false. unfold deleted_ids.
  intros Hd. apply elem_of_difference in Hd. destruct Hd as [_ Hd].
  apply Hd, elem_of_list_to_set, Hin.
Qed.

Lemma csv_row_by_id (csv_df : list csv_row) bet bet2 :
  NoDup (c_id <$> csv_df) -> bet ∈ csv_df -> bet2 ∈ csv_df ->
  c_id bet2 = c_id bet -> bet2 = bet.
Proof.
  intros Hnd Hin Hin2 Hid.
  apply list_elem_of_lookup in Hin. destruct Hin as [i Hi].
  apply list_elem_of_lookup in Hin2. destruct Hin2 as [j Hj].
  assert (E : i = j).
  { apply (NoDup_lookup _ _ _ (c_id bet) Hnd).
    - rewrite list_lookup_fmap, Hi. reflexivity.
    - rewrite list_lookup_fmap, Hj. cbn. rewrite Hid. reflexivity. }
  subst j. congruence.
Qed.

(** A classifier that accepts has found the player. *)
Lemma accepted_player d bet reasons :
  bet_needs_review d bet = Ok (false, reasons) ->
  exists name p,
    e_player bet = VStr name
    /\ List.find (fun p => String.eqb (p_name p) name) (tbl_players d) = Some p
    /\ select_player_id (e_player bet) d = Ok (nba_api_id p).
Proof.
  intros Hacc. unfold bet_needs_review in Hacc.
  destruct (isna (e_player bet)) eqn:Ena; cbn [negb] in Hacc.
  { cbn [truthy negb mbind res_bind] in Hacc. exfalso.
    injection Hacc as Hf _. apply bool_decide_eq_false in Hf. apply Hf.
    clear Hf. intros Hempty.
    assert (Hm : "Missing player name" ∈ (∅ : gset string)).
    { rewrite <- Hempty. apply checks_keep.
      apply elem_of_union. right. apply elem_of_singleton. reflexivity. }
    apply elem_of_empty in Hm. exact Hm. }
  destruct (truthy (e_player bet)) eqn:Etr; cbn [negb] in Hacc.
  2: { exfalso. cbn [mbind res_bind] in Hacc.
       injection Hacc as Hf _. apply bool_decide_eq_false in Hf. apply Hf.
       clear Hf. intros Hempty.
       assert (Hm : "Missing player name" ∈ (∅ : gset string)).
       { rewrite <- Hempty. apply checks_keep.
         apply elem_of_union. right. apply elem_of_singleton. reflexivity. }
       apply elem_of_empty in Hm. exact Hm. }
  destruct (select_player_id (e_player bet) d) as [pid | e] eqn:Es;
    [| discriminate].
  unfold select_player_id in Es.
  destruct (e_player bet) as [| name | |]; try discriminate.
  destruct (List.find _ (tbl_players d)) as [p |] eqn:Ef; [| discriminate].
  injection Es as <-. exists name, p. split; [reflexivity |]. split; [exact Ef |].
  reflexivity.
Qed.

Lemma raw_ids_lookup d i r :
  tbl_raw_ocr_bets d !! i = Some r -> raw_ids d !! i = Some (id r).
Proof. intros Hi. unfold raw_ids. rewrite list_lookup_fmap, Hi. reflexivity. Qed.

Lemma raw_ids_lookup_inv d d' i r' :
  raw_ids d' = raw_ids d -> tbl_raw_ocr_bets d' !! i = Some r' ->
  exists r, tbl_raw_ocr_bets d !! i = Some r /\ id r = id r'.
Proof.
  intros Hids Hi. apply raw_ids_lookup in Hi. rewrite Hids in Hi.
  unfold raw_ids in Hi. rewrite list_lookup_fmap in Hi.
  destruct (tbl_raw_ocr_bets d !! i) as [r |]; [| discriminate Hi].
  injection Hi as E. exists r. auto.
Qed.

(** An accepted correction.  When the ids of the table and of the file are
    pairwise different, the classifier finds nothing wrong with a CSV row,
    and the corrected row has the key that the table keeps unique (player,
    date, bet type, score) in common with no other row of the table, as
    that row is or as a CSV row with its id would correct it, then the
    table row with the id of the CSV row takes the player, bet type,
    score, line and odds of the CSV row, each as its column stores the
    cell, and is no longer flagged; its other columns stay. *)
Theorem review_import_accepts bet0 (rest : list csv_row) d bet reasons i r :
  NoDup (raw_ids d) ->
  NoDup (c_id <$> bet0 :: rest) ->
  bet ∈ bet0 :: rest ->
  bet_needs_review d (c_bet bet) = Ok (false, reasons) ->
  tbl_raw_ocr_bets d !! i = Some r ->
  id r = c_id bet ->
  (forall j r2 pid,
     tbl_raw_ocr_bets d !! j = Some r2 -> j <> i ->
     select_player_id (e_player (c_bet bet)) d = Ok pid ->
     raw_unique_conflict (reviewed pid bet r) r2 = false
     /\ forall bet2 pid2,
          bet2 ∈ bet0 :: rest -> c_id bet2 = id r2 ->
          select_player_id (e_player (c_bet bet2)) d = Ok pid2 ->
          raw_unique_conflict (reviewed pid bet r) (reviewed pid2 bet2 r2) = false) ->
  exists name p,
    e_player (c_bet bet) = VStr name
    /\ List.find (fun p => String.eqb (p_name p) name) (tbl_players d) = Some p
    /\ tbl_raw_ocr_bets (update_reviewed_entries (Some (bet0 :: rest)) d) !! i
       = Some {| id := id r; player_id := Some (nba_api_id p);
                 bet_type := to_text (e_bet_type (c_bet bet));
                 score := py_float (e_score (c_bet bet));
                 date := date r;
                 bet_line := to_text (e_bet_line (c_bet bet));
                 odds := stored_odds (e_odds (c_bet bet));
                 image_source := image_source r; raw_text := raw_text r;
                 read_players := read_players r;
                 read_score_patterns := read_score_patterns r;
                 is_processed := is_processed r; needs_review := false;
                 is_voided := is_voided r |}.
Proof.
  intros Hndt Hnd Hin Hacc Hi Hid Hfree.
  destruct (accepted_player d (c_bet bet) reasons Hacc) as (name & p & En & Ef & Es).
  exists name, p. split; [exact En |]. split; [exact Ef |].
  change (Some {| id := id r; player_id := Some (nba_api_id p);
                  bet_type := to_text (e_bet_type (c_bet bet));
                  score := py_float (e_score (c_bet bet));
                  date := date r;
                  bet_line := to_text (e_bet_line (c_bet bet));
                  odds := stored_odds (e_odds (c_bet bet));
                  image_source := image_source r; raw_text := raw_text r;
                  read_players := read_players r;
                  read_score_patterns := read_score_patterns r;
                  is_processed := is_processed r; needs_review := false;
                  is_voided := is_voided r |})
    with (Some (reviewed (nba_api_id p) bet r)).
  set (pid := nba_api_id p) in *.
  destruct (update_reviewed_entries_unfold bet0 rest d)
    as (_ & Hr1 & d0 & Hs0 & Hr0 & E).
  cbv zeta in Hr1, Hr0, E. rewrite E. clear E.
  set (csv_df := bet0 :: rest) in *.
  assert (Hrows0 : forall j r2, tbl_raw_ocr_bets d !! j = Some r2 ->
            tbl_raw_ocr_bets d0 !! j
            = Some (if bool_decide (id r2 ∈ deleted_ids d csv_df)
                    then set_is_voided r2 else r2)).
  { intros j r2 Hj. rewrite Hr0, Hr1, list_lookup_fmap, Hj. reflexivity. }
  assert (Hids0 : raw_ids d0 = raw_ids d).
  { unfold raw_ids. rewrite Hr0, Hr1, <- list_fmap_compose.
    apply list_fmap_ext. intros j r2 _. cbn.
    destruct (bool_decide _); reflexivity. }
  assert (Hi0 : tbl_raw_ocr_bets d0 !! i = Some r).
  { rewrite (Hrows0 i r Hi), in_file_not_deleted; [reflexivity |].
    rewrite Hid. apply list_elem_of_fmap. exists bet. auto. }
  pose proof Hin as Hsplit. apply list_elem_of_split in Hsplit.
  destruct Hsplit as (l1 & l2 & Hsplit).
  assert (Hnd' := Hnd). rewrite Hsplit, fmap_app, fmap_cons in Hnd'.
  apply NoDup_app in Hnd'. destruct Hnd' as (_ & Hdisj & Hnd2).
  apply NoDup_cons in Hnd2. destruct Hnd2 as [Hn2 _].
  assert (Hn1 : id r ∉ (c_id <$> l1)).
  { intros Hin1. apply (Hdisj _ Hin1). rewrite Hid. apply list_elem_of_here. }
  rewrite <- Hid in Hn2.
  assert (Hsub1 : forall b, b ∈ l1 -> b ∈ csv_df).
  { intros b Hb. rewrite Hsplit. apply elem_of_app. left. exact Hb. }
  rewrite Hsplit, review_rows_app.
  destruct (review_rows_outcome l1 {| committed := d; working := d0 |})
    as (da & Ea & Hsa & Houta).
  destruct (review_rows_effect l1 {| committed := d; working := d0 |})
    as (da' & Ea' & Hidsa & Hkeepa).
  rewrite Ea in Ea'. injection Ea' as <-. rewrite Ea. clear Ea.
  cbn [fst committed working] in *.
  assert (Hia : tbl_raw_ocr_bets da !! i = Some r) by (apply Hkeepa; assumption).
  assert (Hpa : tbl_players da = tbl_players d).
  { destruct Hs0 as [Hp0 _]. destruct Hsa as [Hpa _]. congruence. }
  cbn [review_rows]. unfold mbind at 1, M_bind at 1.
  destruct (review_row_exact bet {| committed := d; working := da |})
    as (db & -> & Hstep). cbn [committed working] in Hstep.
  rewrite (bet_needs_review_players da d _ Hpa) in Hstep.
  rewrite (select_player_id_players da d _ Hpa) in Hstep.
  assert (Hfreea : review_conflict pid bet da = false).
  { apply not_true_is_false. intros Ec. unfold review_conflict in Ec.
    apply existsb_exists in Ec. destruct Ec as (rt & Hrt & Ec).
    apply andb_true_iff in Ec. destruct Ec as [Ert Ec].
    apply Z.eqb_eq in Ert.
    apply existsb_exists in Ec. destruct Ec as (r' & Hr' & Ec).
    apply andb_true_iff in Ec. destruct Ec as [Er' Ec].
    apply negb_true_iff, Z.eqb_neq in Er'.
    apply list_elem_of_In, list_elem_of_lookup in Hrt. destruct Hrt as [i' Hi'].
    apply list_elem_of_In, list_elem_of_lookup in Hr'. destruct Hr' as [j Hj].
    assert (Ei : i' = i).
    { apply (NoDup_lookup (raw_ids d) _ _ (id r) Hndt).
      - rewrite <- Hids0, <- Hidsa. rewrite (raw_ids_lookup _ _ _ Hi').
        congruence.
      - apply raw_ids_lookup, Hi. }
    subst i'. rewrite Hia in Hi'. injection Hi' as <-.
    assert (Hji : j <> i).
    { intros ->. rewrite Hia in Hj. injection Hj as <-. congruence. }
    destruct (raw_ids_lookup_inv d da j r' (eq_trans Hidsa Hids0) Hj)
      as (r2 & Hj2 & Hid2).
    destruct (Hfree j r2 pid Hj2 Hji Es) as [Hf1 Hf2].
    destruct (Houta j _ (Hrows0 j r2 Hj2)) as (r'' & Hj'' & Ho).
    rewrite Hj in Hj''. injection Hj'' as <-.
    destruct Ho as [-> | (bet2 & rs2 & pid2 & Hin2 & Hid2' & _ & Hpid2 & ->)].
    - assert (Ek : raw_unique_conflict (reviewed pid bet r)
                     (if bool_decide (id r2 ∈ deleted_ids d csv_df)
                      then set_is_voided r2 else r2)
                   = raw_unique_conflict (reviewed pid bet r) r2)
        by (destruct (bool_decide _); reflexivity).
      rewrite Ek, Hf1 in Ec. discriminate Ec.
    - assert (Ek : raw_unique_conflict (reviewed pid bet r)
                     (reviewed pid2 bet2
                        (if bool_decide (id r2 ∈ deleted_ids d csv_df)
                         then set_is_voided r2 else r2))
                   = raw_unique_conflict (reviewed pid bet r)
                       (reviewed pid2 bet2 r2))
        by (destruct (bool_decide _); reflexivity).
      rewrite Ek in Ec.
      rewrite (Hf2 bet2 pid2) in Ec; [discriminate Ec | | |].
      + apply Hsub1, Hin2.
      + rewrite Hid2'. destruct (bool_decide _); reflexivity.
      + rewrite <- Hpid2. apply select_player_id_players. symmetry. apply Hs0. }
  destruct Hstep as [[_ Hconf] | (rs' & pid' & _ & Hpid' & _ & ->)].
  { rewrite (Hconf reasons pid Hacc Es) in Hfreea. discriminate Hfreea. }
  assert (pid' = pid) by congruence. subst pid'.
  cbn [committed].
  destruct (review_rows_effect l2
              {| committed := d;
                 working := update_raw (fun r0 => Z.eqb (id r0) (c_id bet))
                                       (reviewed pid bet) da |})
    as (dc & -> & _ & Hkeepc).
  cbn [fst committed working] in *.
  apply Hkeepc; [| exact Hn2].
  rewrite (update_raw_lookup _ _ _ _ _ Hia).
  rewrite (proj2 (Z.eqb_eq _ _) Hid). reflexivity.
Qed.

(** A rejected correction: when the ids of the file are pairwise different
    and the classifier finds a reason against a CSV row, or fails on it,
    every table row with its id is left exactly as it was. *)
Theorem review_import_rejects bet0 (rest : list csv_row) d bet i r :
  NoDup (c_id <$> bet0 :: rest) ->
  bet ∈ bet0 :: rest ->
  (forall reasons, bet_needs_review d (c_bet bet) <> Ok (false, reasons)) ->
  tbl_raw_ocr_bets d !! i = Some r ->
  id r = c_id bet ->
  tbl_raw_ocr_bets (update_reviewed_entries (Some (bet0 :: rest)) d) !! i = Some r.
Proof.
  intros Hnd Hin Hrej Hi Hid.
  destruct (update_reviewed_entries_outcome bet0 rest d) as [_ Hrows].
  cbv zeta in Hrows. destruct (Hrows i r Hi) as (r' & Hi' & Ho).
  rewrite Hi'. f_equal.
  rewrite in_file_not_deleted in Ho
    by (rewrite Hid; apply list_elem_of_fmap; exists bet; auto).
  destruct Ho as [-> | (bet2 & rs2 & pid2 & Hin2 & Hid2 & Hacc2 & _)];
    [reflexivity |].
  assert (bet2 = bet)
    by (apply (csv_row_by_id (bet0 :: rest)); auto; congruence).
  subst bet2. destruct (Hrej rs2 Hacc2).
Qed.

End ReviewImport.

Section ReviewFrame.
Context `{!Builtins}.

Lemma review_keeps_refl r : review_keeps r r.
Proof. unfold review_keeps. repeat split; auto. Qed.

Lemma review_keeps_trans r1 r2 r3 :
  review_keeps r1 r2 -> review_keeps r2 r3 -> review_keeps r1 r3.
Proof.
  intros (?&?&?&?&?&?&?&?&?) (?&?&?&?&?&?&?&?&?).
  unfold review_keeps. repeat split; try congruence; auto.
Qed.

Lemma review_outcome_keeps d csv_df r r' :
  review_outcome d csv_df r r' -> review_keeps r r' /\ is_voided r' = is_voided r.
Proof.
  intros [-> | (? & ? & ? & _ & _ & _ & _ & ->)].
  - split; [apply review_keeps_refl | reflexivity].
  - split; [| reflexivity]. unfold review_keeps. cbn. repeat split; auto.
Qed.

(** What a review import never does: it leaves the players, the game
    stats, the results and the unplayed records alone, adds and removes no
    row, and in every row keeps the id, the processed flag, the date, the
    image, the OCR text and the debug columns; it never clears the voided
    flag and never sets the review flag; and it voids a row only when the
    id of the row is the id of a flagged row and is not in the file. *)
Theorem review_import_frame input_file d :
  let d' := update_reviewed_entries input_file d in
  same_but_raw_rows d d'
  /\ length (tbl_raw_ocr_bets d') = length (tbl_raw_ocr_bets d)
  /\ forall i r, tbl_raw_ocr_bets d !! i = Some r ->
       exists r', tbl_raw_ocr_bets d' !! i = Some r'
                  /\ review_keeps r r'
                  /\ (is_voided r' = true ->
                      is_voided r = true
                      \/ exists csv_df r0,
                           input_file = Some csv_df
                           /\ (id r ∉ (c_id <$> csv_df))
                           /\ r0 ∈ tbl_raw_ocr_bets d
                           /\ flagged r0 = true /\ id r0 = id r).
Proof.
  intros d'.
  assert (Hsame : d' = d ->
    same_but_raw_rows d d'
    /\ length (tbl_raw_ocr_bets d') = length (tbl_raw_ocr_bets d)
    /\ forall i r, tbl_raw_ocr_bets d !! i = Some r ->
         exists r', tbl_raw_ocr_bets d' !! i = Some r'
                    /\ review_keeps r r'
                    /\ (is_voided r' = true ->
                        is_voided r = true
                        \/ exists csv_df r0,
                             input_file = Some csv_df
                             /\ (id r ∉ (c_id <$> csv_df))
                             /\ r0 ∈ tbl_raw_ocr_bets d
                             /\ flagged r0 = true /\ id r0 = id r)).
  { intros ->. split; [apply same_but_raw_rows_refl |]. split; [reflexivity |].
    intros i r Hi. exists r. split; [exact Hi |].
    split; [apply review_keeps_refl | auto]. }
  destruct input_file as [[| bet0 rest] |]; try (apply Hsame; reflexivity).
  clear Hsame.
  destruct (update_reviewed_entries_outcome bet0 rest d) as [Hs Hrows].
  cbv zeta in Hs, Hrows. fold d' in Hs, Hrows.
  split; [exact Hs |]. split.
  { pose proof (proj1 (update_reviewed_entries_effect bet0 rest d)) as Hids.
    fold d' in Hids. unfold raw_ids in Hids.
    rewrite <- (length_fmap id (tbl_raw_ocr_bets d')), Hids. apply length_fmap. }
  intros i r Hi. destruct (Hrows i r Hi) as (r' & Hi' & Ho).
  exists r'. split; [exact Hi' |].
  destruct (review_outcome_keeps _ _ _ _ Ho) as [Hk Hv]. split.
  - eapply review_keeps_trans; [| exact Hk].
    destruct (bool_decide _); [| apply review_keeps_refl].
    unfold review_keeps. cbn. repeat split; auto.
  - rewrite Hv.
    destruct (bool_decide (id r ∈ deleted_ids d (bet0 :: rest))) eqn:Ed;
      [| auto].
    intros _. right. apply bool_decide_eq_true in Ed. unfold deleted_ids in Ed.
    apply elem_of_difference in Ed. destruct Ed as [Hfl Hnot].
    apply elem_of_list_to_set, list_elem_of_fmap in Hfl.
    destruct Hfl as (r0 & Eid & Hr0). apply list_elem_of_In, filter_In in Hr0.
    destruct Hr0 as [Hr0 Hf]. exists (bet0 :: rest), r0.
    split; [reflexivity |]. split.
    + intros Hin. apply Hnot, elem_of_list_to_set, Hin.
    + split; [apply list_elem_of_In, Hr0 | auto].
Qed.

(** The classifier of the review import agrees with the classifier of the
    image processor on every entry whose player cell is empty, or names a
    player that the players table has with a nonzero id and that the
    roster of the image processor has too. *)
Theorem review_classifier_agrees (player_ids : gmap string Z) d bet :
  (truthy (e_player bet) = true ->
   exists name p,
     e_player bet = VStr name
     /\ List.find (fun p => String.eqb (p_name p) name) (tbl_players d) = Some p
     /\ nba_api_id p <> 0
     /\ is_Some (player_ids !! name)) ->
  bet_needs_review d bet = Ok (_bet_needs_review player_ids bet).
Proof.
  intros Hp. unfold bet_needs_review, _bet_needs_review, check_player.
  assert (Et : truthy (if negb (isna (e_player bet)) then e_player bet else NA)
               = truthy (e_player bet))
    by (destruct (e_player bet); reflexivity).
  rewrite !Et.
  destruct (truthy (e_player bet)) eqn:Etr; cbn [negb andb mbind res_bind].
  - destruct (Hp eq_refl) as (name & p & En & Ef & Hid & Hsome).
    rewrite En. cbn [isna negb]. unfold select_player_id. rewrite Ef.
    cbn [mbind res_bind].
    destruct (Z.eqb_spec (nba_api_id p) 0) as [E0 | _]; [contradiction |].
    rewrite (bool_decide_eq_true_2 _ Hsome). cbn [negb]. reflexivity.
  - reflexivity.
Qed.

(** On a player name that the players table does not have, the classifier
    of the review import does not answer with a reason: it raises
    TypeError (the lookup indexes a missing row), so the import skips the
    CSV row; the classifier of the image processor flags the same entry
    with the reason that the player was not found. *)
Theorem review_classifier_unknown_player (player_ids : gmap string Z) d bet name :
  e_player bet = VStr name ->
  name <> EmptyString ->
  List.find (fun p => String.eqb (p_name p) name) (tbl_players d) = None ->
  player_ids !! name = None ->
  bet_needs_review d bet = Raise TypeError
  /\ (_bet_needs_review player_ids bet).1 = true
  /\ ("Player not found: " +:+ name) ∈ (_bet_needs_review player_ids bet).2.
Proof.
  intros En Hne Hf Hnone.
  assert (Etr : truthy (VStr name) = true).
  { cbn. apply negb_true_iff, String.eqb_neq, Hne. }
  split.
  - unfold bet_needs_review. rewrite En. cbn [isna negb]. rewrite Etr.
    cbn [negb]. unfold select_player_id. rewrite Hf. reflexivity.
  - assert (Hin : ("Player not found: " +:+ name)
                   ∈ (_bet_needs_review player_ids bet).2).
    { unfold _bet_needs_review. cbn [snd]. apply checks_keep.
      unfold check_player. rewrite En. cbn [isna negb]. rewrite Etr.
      cbn [negb andb]. rewrite Hnone.
      rewrite bool_decide_eq_false_2 by (intros [? ?]; discriminate).
      cbn [negb py_str]. apply elem_of_union. right.
      apply elem_of_singleton. reflexivity. }
    split; [| exact Hin].
    unfold _bet_needs_review in *. cbn [fst snd] in *.
    apply bool_decide_eq_true. intros E. rewrite E in Hin.
    apply elem_of_empty in Hin. exact Hin.
Qed.

End ReviewFrame.

Lemma review_import_accepts_witness :
  exists name p,
    e_player (sample_entry (VFloat (51 # 2))) = VStr name
    /\ List.find (fun p => String.eqb (p_name p) name) (tbl_players flagged_db) = Some p
    /\ tbl_raw_ocr_bets
         (@update_reviewed_entries decimal_builtins (Some reviewed_csv) flagged_db)
         !! 0%nat
       = Some {| id := 1; player_id := Some (nba_api_id p);
                 bet_type := Some "points"; score := Some (51 # 2);
                 date := Some "2025-02-14"; bet_line := Some "o21.5";
                 odds := Some (inject_Z (-150));
                 image_source := "slip5.png"; raw_text := "raw";
                 read_players := None; read_score_patterns := None;
                 is_processed := false; needs_review := false;
                 is_voided := false |}.
Proof.
  assert (Hids : NoDup (raw_ids flagged_db))
    by exact (bool_decide_unpack (NoDup (raw_ids flagged_db))
                ltac:(vm_compute; exact I)).
  assert (Hnd : NoDup (c_id <$> reviewed_csv))
    by exact (bool_decide_unpack (NoDup (c_id <$> reviewed_csv))
                ltac:(vm_compute; exact I)).
  assert (Hin : {| c_id := 1; c_bet := sample_entry (VFloat (51 # 2)) |}
                  ∈ reviewed_csv) by apply list_elem_of_here.
  assert (Hacc : @bet_needs_review decimal_builtins flagged_db
                   (sample_entry (VFloat (51 # 2))) = Ok (false, ∅))
    by (vm_compute; reflexivity).
  refine (@review_import_accepts decimal_builtins
            {| c_id := 1; c_bet := sample_entry (VFloat (51 # 2)) |}
            [ {| c_id := 2; c_bet := sample_entry NA |} ]
            flagged_db _ ∅ 0%nat (flagged_bet 1) Hids Hnd Hin Hacc eq_refl eq_refl _).
  intros j r2 pid Hj Hne Hpid.
  destruct j as [| [| j]]; [contradiction | | discriminate Hj].
  injection Hj as <-. vm_compute in Hpid. injection Hpid as <-.
  split; [vm_compute; reflexivity |].
  intros bet2 pid2 Hin2 Hid2 Hpid2.
  apply elem_of_cons in Hin2. destruct Hin2 as [-> | Hin2].
  - discriminate Hid2.
  - apply list_elem_of_singleton in Hin2. subst bet2.
    vm_compute in Hpid2. injection Hpid2 as <-. vm_compute. reflexivity.
Defined.

Lemma review_import_rejects_witness :
  tbl_raw_ocr_bets
    (@update_reviewed_entries decimal_builtins (Some reviewed_csv) flagged_db)
    !! 1%nat
  = Some (flagged_bet 2).
Proof.
  assert (Hnd : NoDup (c_id <$> reviewed_csv))
    by exact (bool_decide_unpack (NoDup (c_id <$> reviewed_csv))
                ltac:(vm_compute; exact I)).
  assert (Hin : {| c_id := 2; c_bet := sample_entry NA |} ∈ reviewed_csv)
    by (apply list_elem_of_further, list_elem_of_here).
  assert (Hrej : forall reasons,
             @bet_needs_review decimal_builtins flagged_db (sample_entry NA)
             <> Ok (false, reasons)).
  { intros reasons E. vm_compute in E. discriminate E. }
  exact (@review_import_rejects decimal_builtins
           {| c_id := 1; c_bet := sample_entry (VFloat (51 # 2)) |}
           [ {| c_id := 2; c_bet := sample_entry NA |} ]
           flagged_db _ 1%nat (flagged_bet 2) Hnd Hin Hrej eq_refl eq_refl).
Defined.

Lemma review_classifier_agrees_witness :
  @bet_needs_review decimal_builtins flagged_db (sample_entry NA)
  = Ok (@_bet_needs_review decimal_builtins sample_player_ids (sample_entry NA)).
Proof.
  apply (@review_classifier_agrees decimal_builtins sample_player_ids flagged_db
           (sample_entry NA)).
  intros _. exists "LeBron James".
  exists {| p_name := "LeBron James"; nba_api_id := 2544; is_active := true |}.
  split; [reflexivity |]. split; [reflexivity |]. split; [discriminate |].
  exists 2544. reflexivity.
Defined.

Lemma review_classifier_unknown_player_witness :
  @bet_needs_review decimal_builtins empty_db curry_entry = Raise TypeError.
Proof.
  refine (proj1 (@review_classifier_unknown_player decimal_builtins ∅ empty_db
                   curry_entry "Stephen Curry" eq_refl _ _ _)).
  - discriminate.
  - vm_compute. reflexivity.
  - reflexivity.
Defined.

(** ** A bet that passed the classifier settles *)

Ltac in_list :=
  cbn; first [ apply list_elem_of_here | apply list_elem_of_further; in_list ].

Lemma standardize_stat_names_whole (api_stats : gmap string Q) :
  (forall k, k ∈ bet_type_map.*1 -> exists v : Z, api_stats !! k = Some (inject_Z v)) ->
  exists stats items,
    _standardize_stat_names api_stats = Ok stats
    /\ dict_items stats stat_columns KeyError = Ok items
    /\ forall t, t ∈ stat_columns ->
         exists (s : Q) (k : Z), stats !! t = Some s /\ (s == inject_Z k)%Q.
Proof.
  intros Hall.
  destruct (Hall "PTS") as (pts & H1); [in_list |].
  destruct (Hall "AST") as (ast & H2); [in_list |].
  destruct (Hall "REB") as (reb & H3); [in_list |].
  destruct (Hall "BLK") as (blk & H4); [in_list |].
  destruct (Hall "STL") as (stl & H5); [in_list |].
  destruct (Hall "TOV") as (tov & H6); [in_list |].
  destruct (Hall "FG3M") as (fg3 & H7); [in_list |].
  unfold _standardize_stat_names, bet_type_map.
  cbn [res_mapM fst snd]. rewrite H1, H2, H3, H4, H5, H6, H7.
  cbn [mbind res_bind]. eexists. eexists. split; [reflexivity |]. split.
  - vm_compute. reflexivity.
  - intros t Ht. unfold stat_columns in Ht.
    repeat (apply elem_of_cons in Ht; destruct Ht as [-> | Ht]);
      [ exists (inject_Z pts), pts | exists (inject_Z ast), ast
      | exists (inject_Z reb), reb | exists (inject_Z blk), blk
      | exists (inject_Z stl), stl | exists (inject_Z tov), tov
      | exists (inject_Z fg3), fg3
      | exists (inject_Z pts + inject_Z reb + inject_Z ast)%Q, (pts + reb + ast)%Z
      | exists (inject_Z pts + inject_Z reb)%Q, (pts + reb)%Z
      | exists (inject_Z pts + inject_Z ast)%Q, (pts + ast)%Z
      | exists (inject_Z reb + inject_Z ast)%Q, (reb + ast)%Z
      | apply elem_of_nil in Ht; destruct Ht ];
      (split; [vm_compute; reflexivity | rewrite ?inject_Z_plus; reflexivity]).
Qed.

Lemma type_values_are_columns t : t ∈ TYPE_REPLACEMENTS_values -> t ∈ stat_columns.
Proof.
  unfold TYPE_REPLACEMENTS_values, TYPE_REPLACEMENTS. cbn [fmap list_fmap snd].
  intros Ht.
  repeat (apply elem_of_cons in Ht; destruct Ht as [-> | Ht]);
    [ in_list .. | apply elem_of_nil in Ht; destruct Ht ].
Qed.

Lemma find_none_existsb {A} (f g : A -> bool) (l : list A) :
  (forall x, f x = g x) -> existsb g l = false -> List.find f l = None.
Proof.
  intros Hfg. induction l as [| x l IH]; cbn; [reflexivity |].
  intros E. apply orb_false_iff in E. destruct E as [Ex El].
  rewrite Hfg, Ex. apply IH, El.
Qed.

Lemma existsb_pointwise {A} (f g : A -> bool) (l : list A) :
  (forall x, f x = g x) -> existsb f l = existsb g l.
Proof.
  intros Hfg. induction l as [| x l IH]; cbn; [reflexivity |].
  rewrite Hfg, IH. reflexivity.
Qed.

Lemma same_player_date_eqb pid dt pid' dt' :
  same_player_date (Some pid) (Some dt) pid' dt'
  = Z.eqb pid' pid && String.eqb dt' dt.
Proof.
  unfold same_player_date, sql_eq. rewrite Z.eqb_sym, String.eqb_sym. reflexivity.
Qed.

Lemma score_range_ok (q : Q) :
  (20 <= q)%Q -> exists name, _calculate_score_range (Fl q) = Ok name.
Proof.
  intros H20. unfold _calculate_score_range.
  rewrite (proj2 (Qltb_ge q 20) H20).
  destruct (List.find _ _) as [[[lo hi] name] |]; eauto.
Qed.

Section ValidBet.
Context `{!Builtins}.
Variable nba_api : Z -> option string -> api_reply.

(** The outcome of a bet with a whole stat and a line at a half. *)
Lemma calculate_results_half ocr_bet game_stats s l L z k n :
  reads ocr_bet game_stats s l L ->
  odds ocr_bet = Some (inject_Z z) ->
  startswith l "o" = true \/ startswith l "u" = true ->
  (s == inject_Z k)%Q ->
  (L == inject_Z n + (1 # 2))%Q ->
  exists r q,
    _calculate_results ocr_bet game_stats = Ok (r, Fl q, s, L, over_under_of l)
    /\ (r = "Win" \/ r = "Loss").
Proof.
  intros Hr Hz Hou Hs HL.
  pose proof (half_integer_apart s L k n Hs HL) as Hne.
  assert (Hcase : win_condition l s L \/ loss_condition l s L).
  { destruct (Q_dec s L) as [[Hlt | Hgt] | Heq]; [| | destruct (Hne Heq)].
    - destruct Hou as [Ho | Hu]; [right; left | left; right]; auto.
    - destruct Hou as [Ho | Hu]; [left; left | right; right]; auto. }
  destruct Hcase as [Hw | Hl].
  - exists "Win", 100%Q. split; [| left; reflexivity].
    exact (calculate_results_win _ _ _ _ _ Hr Hw).
  - rewrite (calculate_results_loss _ _ _ _ _ _ Hr Hz Hl). unfold loss_delta.
    destruct (0 <? z)%Z; eexists _, _; (split; [reflexivity | right; reflexivity]).
Qed.

(** A candidate with a player, a date, a canonical bet type, a line at a
    half that starts with o or u, odds and a score of 20 or more, for which
    the table has neither stats nor an unplayed record nor a result, and
    for whose game the stats service returns whole counters: its
    settlement raises nothing.  It appends one row to [game_stats] and one
    win or loss row to [bet_results] that refers to it, both committed,
    and marks the bet as processed in the open transaction. *)
Theorem valid_bet_settles ocr_bet c pid dt t l L n z sc api_stats :
  player_id ocr_bet = Some pid ->
  date ocr_bet = Some dt ->
  bet_type ocr_bet = Some t ->
  t ∈ TYPE_REPLACEMENTS_values ->
  bet_line ocr_bet = Some l ->
  startswith l "o" = true \/ startswith l "u" = true ->
  float_of_str (str_tail l) = Some L ->
  (L == inject_Z n + (1 # 2))%Q ->
  odds ocr_bet = Some (inject_Z z) ->
  score ocr_bet = Some sc ->
  (20 <= sc)%Q ->
  existsb (fun g => Z.eqb (gs_player_id g) pid && String.eqb (gs_date g) dt)
          (tbl_game_stats (working c)) = false ->
  _in_unplayed_bets ocr_bet (working c) = false ->
  existsb (fun b => Z.eqb (raw_bet_id b) (id ocr_bet))
          (tbl_bet_results (working c)) = false ->
  nba_api pid (Some dt) = GameOn api_stats ->
  (forall k, k ∈ bet_type_map.*1 ->
             exists v : Z, api_stats !! k = Some (inject_Z v)) ->
  exists c' g row,
    process_bet nba_api ocr_bet c = (c', Ok tt)
    /\ tbl_game_stats (working c') = tbl_game_stats (working c) ++ [g]
    /\ gs_player_id g = pid /\ gs_date g = dt
    /\ tbl_bet_results (working c') = tbl_bet_results (working c) ++ [row]
    /\ raw_bet_id row = id ocr_bet
    /\ game_stats_id row = gs_id g
    /\ (result row = "Win" \/ result row = "Loss")
    /\ line_value row = L
    /\ over_under row = over_under_of l
    /\ tbl_raw_ocr_bets (working c')
       = (fun r => if Z.eqb (id r) (id ocr_bet) then set_is_processed r else r)
           <$> tbl_raw_ocr_bets (working c)
    /\ tbl_game_stats (committed c') = tbl_game_stats (working c')
    /\ tbl_bet_results (committed c') = tbl_bet_results (working c')
    /\ tbl_raw_ocr_bets (committed c') = tbl_raw_ocr_bets (working c).
Proof.
  intros Hp Hd Ht Htv Hl Hou HL HLh Hz Hsc H20 Hnog Hnou Hnor Hapi Hwhole.
  destruct (standardize_stat_names_whole api_stats Hwhole)
    as (stats & items & Estd & Eitems & Hcols).
  destruct (Hcols t (type_values_are_columns t Htv)) as (s & k & Es & Hs).
  assert (Hreads : reads ocr_bet stats s l L).
  { split; [exists t; auto | auto]. }
  destruct (calculate_results_half ocr_bet stats s l L z k n Hreads Hz Hou Hs HLh)
    as (r & q & Ecalc & Hr).
  destruct (score_range_ok sc H20) as (name & Ename).
  set (g := {| gs_id := gs_seq (working c) + 1; gs_player_id := pid;
               gs_date := dt; gs_stats := list_to_map items |}).
  set (row := {| raw_bet_id := id ocr_bet; br_player_id := Some pid;
                 game_stats_id := gs_id g; br_bet_type := Some t;
                 result := r; result_delta := Fl q;
                 score_range := name; over_under := over_under_of l;
                 stat_result := s; line_value := L |}).
  set (d1 := put_game_stats (working c) (tbl_game_stats (working c) ++ [g])
                            (gs_seq (working c) + 1)).
  set (d2 := put_bet_results d1 (tbl_bet_results d1 ++ [row])).
  set (d3 := update_raw (fun r => Z.eqb (id r) (id ocr_bet)) set_is_processed d2).
  exists {| committed := d2; working := d3 |}, g, row.
  split; [| repeat split; auto].
  (* the stats come from the service *)
  assert (E1 : _get_player_game_stats nba_api ocr_bet c = (c, Ok (false, Some stats))).
  { unfold _get_player_game_stats, mbind, M_bind, query, lift, mret, M_ret.
    unfold _get_cached_stats. rewrite Hp, Hd.
    rewrite (find_none_existsb _ _ _ (fun g => same_player_date_eqb pid dt _ _) Hnog).
    rewrite Hnou. unfold _get_api_stats. rewrite Hp, Hd, Hapi, Estd. reflexivity. }
  assert (E2 : insert_into_game_stats ocr_bet stats c
               = ({| committed := d1; working := d1 |}, Ok tt)).
  { unfold insert_into_game_stats, with_conn, mbind, M_bind, lift, query, exec.
    rewrite Eitems, Hp, Hd, Hnog. reflexivity. }
  assert (E3 : insert_into_bet_results ocr_bet stats
                 {| committed := d1; working := d1 |}
               = ({| committed := d2; working := d2 |}, Ok tt)).
  { unfold insert_into_bet_results, with_conn, mbind, M_bind, lift, query, exec.
    rewrite Ecalc, Hsc. cbn [score_float]. rewrite Ename. cbn [working].
    unfold _get_game_stats_id. rewrite Hp, Hd, Ht.
    assert (Ef : List.find (fun g0 => same_player_date (Some pid) (Some dt)
                                        (gs_player_id g0) (gs_date g0))
                           (tbl_game_stats d1) = Some g).
    { unfold d1. cbn [tbl_game_stats put_game_stats]. apply find_app_last.
      - rewrite <- Hnog. apply existsb_pointwise.
        intros g0. apply same_player_date_eqb.
      - rewrite same_player_date_eqb. cbn [gs_player_id gs_date g].
        rewrite Z.eqb_refl, String.eqb_refl. reflexivity. }
    rewrite Ef.
    assert (Eacc : bet_results_accepts d1 row = true).
    { unfold bet_results_accepts, row. cbn [raw_bet_id br_player_id br_bet_type
        result result_delta over_under].
      unfold d1. cbn [tbl_bet_results put_game_stats]. rewrite Hnor.
      rewrite !bool_decide_eq_true_2 by eauto. cbn [negb andb].
      assert (Er : (String.eqb r "Win" || String.eqb r "Loss") = true)
        by (destruct Hr as [-> | ->]; reflexivity).
      rewrite Er. unfold over_under_of.
      destruct (startswith l "o"); reflexivity. }
    fold row. rewrite Eacc. reflexivity. }
  unfold process_bet. unfold mbind at 1, M_bind at 1. rewrite E1.
  unfold mbind at 1, M_bind at 1. rewrite E2.
  unfold mbind at 1, M_bind at 1. rewrite E3. reflexivity.
Qed.

End ValidBet.

Lemma valid_bet_settles_witness :
  exists c' g row,
    @process_bet decimal_builtins answering_api (sample_bet "o21.5" (-150))
      (connect two_bets_db) = (c', Ok tt)
    /\ tbl_game_stats (working c') = [g]
    /\ tbl_bet_results (working c') = [row]
    /\ raw_bet_id row = 1
    /\ (result row = "Win" \/ result row = "Loss").
Proof.
  destruct (@valid_bet_settles decimal_builtins answering_api
              (sample_bet "o21.5" (-150)) (connect two_bets_db)
              2544 "2025-02-14" "points" "o21.5" (43 # 2) 21 (-150) (51 # 2)
              game_log_row)
    as (c' & g & row & E & Hg & _ & _ & Hb & Hid & _ & Hr & _);
    try reflexivity.
  - in_list.
  - left. reflexivity.
  - discriminate.
  - intros k Hk. cbn in Hk.
    repeat (apply elem_of_cons in Hk; destruct Hk as [-> | Hk]);
      [ exists 25 | exists 7 | exists 8 | exists 1 | exists 2 | exists 3 | exists 2
      | apply elem_of_nil in Hk; destruct Hk ]; reflexivity.
  - exists c', g, row. auto.
Defined.

(** ** The validator after a settlement run and after a review import *)

Lemma calculate_results_delta `{!Builtins} ocr_bet game_stats r delta sv lv ou :
  _calculate_results ocr_bet game_stats = Ok (r, delta, sv, lv, ou) ->
  (r = "Win" /\ delta = Fl 100)
  \/ (r = "Loss" /\ loss_delta_of (odds ocr_bet) = Ok delta).
Proof.
  unfold _calculate_results, py_float_str.
  destruct (bet_type ocr_bet) as [t |]; [| discriminate].
  destruct (game_stats !! t) as [s |]; [| discriminate].
  destruct (bet_line ocr_bet) as [l |]; [| discriminate].
  cbn [mbind res_bind].
  destruct (float_of_str (str_tail l)) as [L |]; [| discriminate].
  cbn [mbind res_bind]. fold (loss_delta_of (odds ocr_bet)).
  destruct (startswith l "o"); [| destruct (startswith l "u")];
    cbn [mbind res_bind]; try discriminate;
    destruct (Qltb L s), (Qltb s L); cbn -[loss_delta_of];
    try discriminate;
    try (intros E; injection E as <- <- _ _ _; left; split; reflexivity);
    destruct (loss_delta_of (odds ocr_bet)) as [x | e]; cbn [mbind res_bind];
    try discriminate;
    intros E; injection E as <- <- _ _ _; right; split; reflexivity.
Qed.

(** Odds of at most 1000 other than 0 lose less than 0, when the division
    returns. *)
Lemma loss_delta_of_negative (q : Q) delta :
  (q <= 1000)%Q -> ~ (q == 0)%Q ->
  loss_delta_of (Some q) = Ok delta ->
  exists x, delta = Fl x /\ (x < 0)%Q.
Proof.
  intros Hle Hnz. unfold loss_delta_of, py_div.
  destruct (Qltb 0 q) eqn:Epos.
  - apply Qltb_lt in Epos.
    replace (Qeq_bool 100 0) with false by reflexivity. cbn [mbind res_bind].
    unfold nearest_double. destruct (underflows (q / 100)).
    { replace (Qeq_bool 0 0) with true by reflexivity. discriminate. }
    destruct (Qeq_bool (q / 100) 0); [discriminate |]. cbn [mbind res_bind].
    intros E. injection E as <-. eexists. split; [reflexivity |].
    assert (Hpos : (0 < q / 100)%Q).
    { apply Qlt_shift_div_l; [reflexivity |]. rewrite Qmult_0_l. exact Epos. }
    assert (Hlo : (inject_Z 10 <= 100 / (q / 100))%Q).
    { apply Qle_shift_div_l; [exact Hpos |].
      unfold Qdiv. rewrite Qmult_assoc.
      apply Qle_shift_div_r; [reflexivity |].
      rewrite (Qmult_comm (inject_Z 10) q).
      apply (Qle_trans _ (1000 * inject_Z 10)); [| discriminate].
      apply Qmult_le_compat_r; [exact Hle | discriminate]. }
    pose proof (np_round_lower _ _ Hlo) as H1.
    replace 0%Q with (inject_Z 0) by reflexivity.
    rewrite <- inject_Z_opp, <- Zlt_Qlt. lia.
  - apply Qltb_ge in Epos. intros E. injection E as <-.
    exists q. split; [reflexivity |].
    destruct (Qle_lt_or_eq _ _ Epos) as [Hlt | Heq]; [exact Hlt | contradiction].
Qed.

Lemma bind_nil_all {A B} (f : A -> list B) (l : list A) :
  l ≫= f = [] <-> forall x, x ∈ l -> f x = [].
Proof.
  induction l as [| a l IH]; cbn.
  - split; [intros _ x Hx; apply elem_of_nil in Hx; destruct Hx | reflexivity].
  - split.
    + intros E. apply app_eq_nil in E. destruct E as [Ea El].
      intros x Hx. apply elem_of_cons in Hx. destruct Hx as [-> | Hx]; [exact Ea |].
      apply (proj1 IH El x Hx).
    + intros Hall. rewrite (Hall a (list_elem_of_here _ _)). cbn.
      apply IH. intros x Hx. apply Hall, list_elem_of_further, Hx.
Qed.

(** Check 4 finds nothing exactly when every result with a bet fits. *)
Lemma invalid_results_empty d : invalid_results d = [] <-> results_valid d.
Proof.
  unfold invalid_results, results_valid. rewrite bind_nil_all. split.
  - intros Hall br Hbr Hid. specialize (Hall br Hbr).
    apply list_elem_of_fmap in Hid. destruct Hid as (r & Eid & Hr).
    destruct (result_is_invalid br) eqn:Ebad; [| reflexivity]. exfalso.
    assert (Hin : r ∈ List.filter (fun r => Z.eqb (raw_bet_id br) (id r))
                                  (tbl_raw_ocr_bets d)).
    { apply list_elem_of_In, filter_In. split; [apply list_elem_of_In, Hr |].
      apply Z.eqb_eq. auto. }
    pose proof (proj1 (bind_nil_all _ _) Hall r Hin) as Hr'.
    cbv beta in Hr'. discriminate Hr'.
  - intros Hv br Hbr. apply bind_nil_all. intros r Hr.
    apply list_elem_of_In, filter_In in Hr. destruct Hr as [Hr Eid].
    apply Z.eqb_eq in Eid.
    rewrite (Hv br Hbr); [reflexivity |].
    rewrite Eid. apply list_elem_of_fmap. exists r. split; [reflexivity |].
    apply list_elem_of_In, Hr.
Qed.

(** Check 5 finds nothing exactly when every result has its stats. *)
Lemma missing_stats_empty d : missing_stats d = [] <-> stats_present d.
Proof.
  unfold missing_stats, stats_present. rewrite filter_nil_all. split.
  - intros Hall br Hbr. specialize (Hall br Hbr). apply negb_false_iff in Hall.
    apply existsb_exists in Hall. destruct Hall as (gs & Hgs & E).
    exists gs. split; [apply list_elem_of_In, Hgs |].
    symmetry. apply Z.eqb_eq, E.
  - intros Hv br Hbr. destruct (Hv br Hbr) as (gs & Hgs & E).
    apply negb_false_iff, existsb_exists. exists gs.
    split; [apply list_elem_of_In, Hgs |]. apply Z.eqb_eq. auto.
Qed.

Section ValidatorAfterRun.
Context `{!Builtins}.
Variable nba_api : Z -> option string -> api_reply.

Lemma settle_step_raw_ids cands d d' : settle_step cands d d' -> raw_ids d' = raw_ids d.
Proof.
  intros Hs. destruct Hs; try reflexivity.
  apply update_raw_ids. reflexivity.
Qed.

Lemma settle_step_results_valid cands d d' :
  (forall bet q, bet ∈ cands -> odds bet = Some q ->
                 (q <= 1000)%Q /\ ~ (q == 0)%Q) ->
  settle_step cands d d' -> results_valid d -> results_valid d'.
Proof.
  intros Hodds Hs Hinv. pose proof (settle_step_raw_ids _ _ _ Hs) as Hids.
  destruct Hs as [bet g Hin Hp Hd Hex Hid | bet pid dt Hin Hp Hd Hex
                 | bet row game_stats g Hin Hid Hbp Hbt Hg Hgid Hcalc Hacc
                 | bet Hin Hrec];
    intros br Hbr Hk; rewrite Hids in Hk;
    cbn [tbl_bet_results put_game_stats put_unplayed_bets put_bet_results
         update_raw put_raw_ocr_bets] in Hbr;
    try (apply Hinv; assumption).
  apply elem_of_app in Hbr. destruct Hbr as [Hbr | Hbr]; [apply Hinv; assumption |].
  apply list_elem_of_singleton in Hbr. subst br.
  unfold result_is_invalid.
  destruct (calculate_results_delta _ _ _ _ _ _ _ Hcalc) as [[-> ->] | [-> Hloss]].
  - reflexivity.
  - destruct (odds bet) as [q0 |] eqn:Ez.
    2: { injection Hloss as <-. reflexivity. }
    destruct (Hodds bet q0 Hin Ez) as [Hle Hnz].
    destruct (loss_delta_of_negative q0 _ Hle Hnz Hloss) as (q & -> & Hq).
    cbn [String.eqb andb orb]. replace (Qle_bool 0 q) with false; [reflexivity |].
    symmetry. apply not_true_is_false. intros E. apply Qle_bool_iff in E.
    exact (Qlt_not_le _ _ Hq E).
Qed.

Lemma settle_step_stats_present cands d d' :
  settle_step cands d d' -> stats_present d -> stats_present d'.
Proof.
  intros Hs Hinv.
  destruct Hs as [bet g Hin Hp Hd Hex Hid | bet pid dt Hin Hp Hd Hex
                 | bet row game_stats g Hin Hid Hbp Hbt Hg Hgid Hcalc Hacc
                 | bet Hin Hrec];
    intros br Hbr;
    cbn [tbl_bet_results tbl_game_stats put_game_stats put_unplayed_bets
         put_bet_results update_raw put_raw_ocr_bets] in *;
    try (apply Hinv; assumption).
  - destruct (Hinv br Hbr) as (gs & Hgs & E). exists gs.
    split; [apply elem_of_app; auto | exact E].
  - apply elem_of_app in Hbr. destruct Hbr as [Hbr | Hbr]; [apply Hinv; assumption |].
    apply list_elem_of_singleton in Hbr. subst br. exists g. auto.
Qed.

Lemma settled_results_valid cands d d' :
  (forall bet q, bet ∈ cands -> odds bet = Some q ->
                 (q <= 1000)%Q /\ ~ (q == 0)%Q) ->
  rtc (settle_step cands) d d' -> results_valid d -> results_valid d'.
Proof.
  intros Hodds Ht. induction Ht as [| d1 d2 d3 Hs _ IH]; [auto |].
  intros H1. apply IH. exact (settle_step_results_valid _ _ _ Hodds Hs H1).
Qed.

Lemma settled_stats_present cands d d' :
  rtc (settle_step cands) d d' -> stats_present d -> stats_present d'.
Proof.
  intros Ht. induction Ht as [| d1 d2 d3 Hs _ IH]; [auto |].
  intros H1. apply IH. exact (settle_step_stats_present _ _ _ Hs H1).
Qed.

(** A run whose candidates have odds of at most 1000 other than 0 keeps
    check 4 of the validator clean: when no result contradicts its delta
    before the run, none does after it.  A win pays 100 and a loss pays
    less than 0. *)
Theorem settlement_run_keeps_results_valid d :
  invalid_results d = [] ->
  (forall bet q, bet ∈ _get_unprocessed_bets d -> odds bet = Some q ->
                 (q <= 1000)%Q /\ ~ (q == 0)%Q) ->
  invalid_results (settlement_run nba_api d).1 = [].
Proof.
  intros H4 Hodds. apply invalid_results_empty. apply invalid_results_empty in H4.
  exact (settled_results_valid _ _ _ Hodds (settlement_run_trace nba_api d) H4).
Qed.

(** A run keeps check 5 of the validator clean: when every result refers
    to a row of [game_stats] before the run, every result does after it. *)
Theorem settlement_run_keeps_stats_present d :
  missing_stats d = [] ->
  missing_stats (settlement_run nba_api d).1 = [].
Proof.
  intros H5. apply missing_stats_empty. apply missing_stats_empty in H5.
  exact (settled_stats_present _ _ _ (settlement_run_trace nba_api d) H5).
Qed.

End ValidatorAfterRun.

Section ValidatorFindings.
Context `{!Builtins}.
Variable nba_api : Z -> option string -> api_reply.

(** Odds of 0 pass the range check of the classifier, but a bet at odds 0
    that loses is settled with a delta of 0, and check 4 of the validator
    reports the committed result as inconsistent. *)
Theorem zero_odds_loss_is_reported ocr_bet game_stats c s l L sc gid :
  reads ocr_bet game_stats s l L ->
  odds ocr_bet = Some (inject_Z 0) ->
  loss_condition l s L ->
  is_Some (player_id ocr_bet) ->
  score ocr_bet = Some sc ->
  (20 <= sc)%Q ->
  _get_game_stats_id ocr_bet (working c) = Ok gid ->
  existsb (fun b => Z.eqb (raw_bet_id b) (id ocr_bet))
          (tbl_bet_results (working c)) = false ->
  ocr_bet ∈ tbl_raw_ocr_bets (working c) ->
  (forall (e : bet_entry) (R : gset string), e_odds e = VInt 0 -> check_odds e R = R)
  /\ exists c' row,
       insert_into_bet_results ocr_bet game_stats c = (c', Ok tt)
       /\ raw_bet_id row = id ocr_bet
       /\ result row = "Loss"
       /\ result_delta row = Fl 0
       /\ (row, bet_line ocr_bet) ∈ invalid_results (committed c').
Proof.
  intros Hr Hz Hl Hp Hsc H20 Hgid Hnor Hin. split.
  { intros e R He. unfold check_odds. rewrite He. reflexivity. }
  destruct (score_range_ok sc H20) as (name & Ename).
  pose proof (calculate_results_loss _ _ _ _ _ _ Hr Hz Hl) as Ecalc.
  change (loss_delta 0) with (Fl 0) in Ecalc.
  destruct Hr as ((t & Ht & Hs) & Hline & HL).
  set (row := {| raw_bet_id := id ocr_bet; br_player_id := player_id ocr_bet;
                 game_stats_id := gid; br_bet_type := bet_type ocr_bet;
                 result := "Loss"; result_delta := Fl 0;
                 score_range := name; over_under := over_under_of l;
                 stat_result := s; line_value := L |}).
  set (d1 := put_bet_results (working c) (tbl_bet_results (working c) ++ [row])).
  assert (Eacc : bet_results_accepts (working c) row = true).
  { unfold bet_results_accepts, row. cbn [raw_bet_id br_player_id br_bet_type
      result result_delta over_under]. rewrite Hnor, Ht.
    rewrite !bool_decide_eq_true_2 by eauto. cbn [negb andb String.eqb orb].
    unfold over_under_of. destruct (startswith l "o"); reflexivity. }
  exists {| committed := d1; working := d1 |}, row.
  split; [| repeat split].
  - unfold insert_into_bet_results, with_conn, mbind, M_bind, lift, query, exec.
    rewrite Ecalc, Hsc. cbn [score_float]. rewrite Ename, Hgid.
    fold row. rewrite Eacc. reflexivity.
  - cbn [committed]. unfold invalid_results, d1.
    cbn [tbl_bet_results tbl_raw_ocr_bets put_bet_results].
    apply list_elem_of_bind. exists row. split.
    + apply list_elem_of_bind. exists ocr_bet. split.
      * replace (result_is_invalid row) with true by reflexivity.
        apply list_elem_of_here.
      * apply list_elem_of_In, filter_In. split; [apply list_elem_of_In, Hin |].
        apply Z.eqb_refl.
    + apply elem_of_app. right. apply list_elem_of_here.
Qed.

(** A row that a review import voids keeps its review flag, so check 2 of
    the validator reports it as a row with inconsistent status flags. *)
Theorem voided_row_fails_status_check bet0 (rest : list csv_row) d r :
  r ∈ tbl_raw_ocr_bets d ->
  flagged r = true ->
  id r ∉ (c_id <$> bet0 :: rest) ->
  (id r, is_processed r, true, true)
    ∈ inconsistent_status (update_reviewed_entries (Some (bet0 :: rest)) d).
Proof.
  intros Hin Hflag Hnot.
  destruct (update_reviewed_entries_effect bet0 rest d) as [_ Hrows].
  cbv zeta in Hrows. unfold inconsistent_status.
  assert (Hdel : id r ∈ deleted_ids d (bet0 :: rest)).
  { unfold deleted_ids. apply elem_of_difference. split.
    - apply elem_of_list_to_set, list_elem_of_fmap. exists r. split; [reflexivity |].
      apply list_elem_of_In, filter_In. split; [apply list_elem_of_In, Hin | exact Hflag].
    - intros Hc. apply elem_of_list_to_set in Hc. exact (Hnot Hc). }
  unfold flagged in Hflag. apply andb_true_iff in Hflag. destruct Hflag as [Hn _].
  apply list_elem_of_fmap. exists (set_is_voided r). split.
  - cbn. rewrite Hn. reflexivity.
  - apply list_elem_of_In, filter_In. split.
    + apply list_elem_of_lookup in Hin. destruct Hin as [i Hi].
      apply list_elem_of_In, list_elem_of_lookup. exists i.
      apply Hrows; [| exact Hnot].
      rewrite bool_decide_eq_true_2.
      * rewrite (update_raw_lookup _ _ _ _ _ Hi).
        rewrite (bool_decide_eq_true_2 _ Hdel). reflexivity.
      * intros E. rewrite E in Hdel. apply elem_of_empty in Hdel. exact Hdel.
    + cbn. rewrite Hn. apply orb_true_r.
Qed.

(** With distinct row ids, a settlement run keeps check 2 of the validator
    clean: it marks only rows that are neither flagged nor voided. *)
Theorem settlement_run_keeps_status_consistent d :
  NoDup (raw_ids d) ->
  inconsistent_status d = [] ->
  inconsistent_status (settlement_run nba_api d).1 = [].
Proof.
  intros Hnd H2.
  destruct (settled_marks _ _ _ (settlement_run_trace nba_api d))
    as (_ & Hlen & Hrows & _).
  unfold inconsistent_status in *. apply fmap_nil_inv in H2.
  replace (List.filter _ (tbl_raw_ocr_bets (settlement_run nba_api d).1))
    with (@nil raw_bet); [reflexivity |].
  symmetry. apply filter_nil_all. intros r' Hr'.
  apply list_elem_of_lookup in Hr'. destruct Hr' as [i Hi'].
  destruct (tbl_raw_ocr_bets d !! i) as [r |] eqn:Hi.
  2: { apply lookup_ge_None in Hi. apply lookup_lt_Some in Hi'. lia. }
  assert (Hr : r ∈ tbl_raw_ocr_bets d) by (eapply list_elem_of_lookup_2; eauto).
  pose proof (proj1 (filter_nil_all _ _) H2 r Hr) as Hok. cbv beta in Hok.
  destruct (Hrows i r Hi) as [Hsame | [Hset (bet & Hbet & Eid)]].
  - rewrite Hsame in Hi'. injection Hi' as <-. exact Hok.
  - rewrite Hset in Hi'. injection Hi' as <-.
    assert (Hb : bet ∈ tbl_raw_ocr_bets d).
    { unfold _get_unprocessed_bets in Hbet. apply list_elem_of_In, filter_In in Hbet.
      apply list_elem_of_In, Hbet. }
    rewrite <- (NoDup_fmap_elem id _ bet r Hnd Hb Hr Eid).
    unfold _get_unprocessed_bets in Hbet. apply list_elem_of_In, filter_In in Hbet.
    destruct Hbet as [_ Hc]. apply andb_true_iff in Hc. destruct Hc as [Hc Hv].
    apply andb_true_iff in Hc. destruct Hc as [_ Hn].
    apply negb_true_iff in Hv, Hn. cbn. rewrite Hv, Hn. reflexivity.
Qed.

End ValidatorFindings.

Lemma settlement_run_keeps_results_valid_witness :
  invalid_results two_bets_db = []
  /\ invalid_results (@settlement_run decimal_builtins answering_api two_bets_db).1
     = [].
Proof.
  assert (H4 : invalid_results two_bets_db = []) by (vm_compute; reflexivity).
  split; [exact H4 |].
  apply (@settlement_run_keeps_results_valid decimal_builtins answering_api
           two_bets_db H4).
  intros bet z Hb Hz. cbn in Hb.
  repeat (apply elem_of_cons in Hb; destruct Hb as [-> | Hb]);
    [ | | apply elem_of_nil in Hb; destruct Hb ];
    cbn in Hz; injection Hz as <-; split; discriminate.
Defined.

Lemma settlement_run_keeps_stats_present_witness :
  missing_stats two_bets_db = []
  /\ missing_stats (@settlement_run decimal_builtins answering_api two_bets_db).1 = [].
Proof.
  assert (H5 : missing_stats two_bets_db = []) by (vm_compute; reflexivity).
  split; [exact H5 |].
  exact (@settlement_run_keeps_stats_present decimal_builtins answering_api
           two_bets_db H5).
Defined.

Lemma zero_odds_loss_is_reported_witness :
  exists c' row,
    @insert_into_bet_results decimal_builtins zero_odds_bet (sample_stats 18)
      (connect zero_odds_db) = (c', Ok tt)
    /\ result row = "Loss"
    /\ result_delta row = Fl 0
    /\ (row, Some "o21.5") ∈ invalid_results (committed c').
Proof.
  destruct (@zero_odds_loss_is_reported decimal_builtins zero_odds_bet
              (sample_stats 18) (connect zero_odds_db)
              18%Q "o21.5" (43 # 2)%Q (51 # 2)%Q 1)
    as [_ (c' & row & E & _ & Hr & Hd & Hin)].
  - split; [exists "points"; split; reflexivity | split; reflexivity].
  - reflexivity.
  - left. split; reflexivity.
  - eexists. reflexivity.
  - reflexivity.
  - discriminate.
  - reflexivity.
  - reflexivity.
  - apply list_elem_of_here.
  - exists c', row. auto.
Defined.

Lemma voided_row_fails_status_check_witness :
  (2, false, true, true)
    ∈ inconsistent_status
        (@update_reviewed_entries decimal_builtins
           (Some [ {| c_id := 1; c_bet := sample_entry NA |} ]) flagged_db).
Proof.
  apply (@voided_row_fails_status_check decimal_builtins
           {| c_id := 1; c_bet := sample_entry NA |} [] flagged_db (flagged_bet 2)).
  - in_list.
  - reflexivity.
  - intros Hin. apply list_elem_of_singleton in Hin. discriminate Hin.
Defined.

Lemma settlement_run_keeps_status_consistent_witness :
  inconsistent_status
    (@settlement_run decimal_builtins answering_api two_bets_db).1 = [].
Proof.
  apply (@settlement_run_keeps_status_consistent decimal_builtins answering_api
           two_bets_db).
  - exact (bool_decide_unpack (NoDup (raw_ids two_bets_db))
             ltac:(vm_compute; exact I)).
  - vm_compute. reflexivity.
Defined.

(** ** The upload to the sheet *)

Lemma group_keys_spec (ks : list (string * string)) :
  NoDup (merge_sort key_le (remove_dups ks))
  /\ forall k, k ∈ merge_sort key_le (remove_dups ks) <-> k ∈ ks.
Proof.
  pose proof (merge_sort_Permutation key_le (remove_dups ks)) as Hp. split.
  - rewrite Hp. apply NoDup_remove_dups.
  - intros k. rewrite Hp. apply elem_of_remove_dups.
Qed.

Lemma indicator_sum {K} `{EqDecision K} (k0 : K) (keys : list K) :
  NoDup keys -> k0 ∈ keys ->
  foldr Z.add 0%Z ((fun k => if bool_decide (k0 = k) then 1 else 0)%Z <$> keys) = 1%Z.
Proof.
  induction keys as [| k keys IH]; intros Hnd Hin.
  - apply elem_of_nil in Hin. destruct Hin.
  - apply NoDup_cons in Hnd. destruct Hnd as [Hn Hnd]. cbn.
    destruct (bool_decide (k0 = k)) eqn:E.
    + apply bool_decide_eq_true in E. subst k.
      assert (E0 : foldr Z.add 0%Z
                     ((fun k => if bool_decide (k0 = k) then 1 else 0)%Z <$> keys) = 0%Z).
      { clear IH Hin Hnd. induction keys as [| k keys IH]; [reflexivity |].
        apply not_elem_of_cons in Hn. destruct Hn as [Hne Hn]. cbn.
        rewrite (bool_decide_eq_false_2 _ Hne), (IH Hn). reflexivity. }
      rewrite E0. reflexivity.
    + apply bool_decide_eq_false in E. apply elem_of_cons in Hin.
      destruct Hin as [-> | Hin]; [contradiction |].
      rewrite (IH Hnd Hin). reflexivity.
Qed.

(** The sizes of the groups add up to the number of rows. *)
Lemma count_partition {A K} `{EqDecision K} (key : A -> K) (keys : list K)
      (l : list A) :
  NoDup keys -> (forall a, a ∈ l -> key a ∈ keys) ->
  foldr Z.add 0%Z
    ((fun k => Z.of_nat (length (List.filter (fun a => bool_decide (key a = k)) l)))
       <$> keys)
  = Z.of_nat (length l).
Proof.
  intros Hnd. induction l as [| a l IH]; intros Hall.
  - cbn [List.filter length]. clear. induction keys as [| k keys IH]; [reflexivity |].
    cbn. rewrite IH. reflexivity.
  - assert (Hsplit : forall ks : list K,
      foldr Z.add 0%Z
        ((fun k => Z.of_nat (length (List.filter
                                       (fun a => bool_decide (key a = k)) (a :: l))))
           <$> ks)
      = (foldr Z.add 0%Z ((fun k => if bool_decide (key a = k) then 1 else 0)%Z <$> ks)
         + foldr Z.add 0%Z
             ((fun k => Z.of_nat (length (List.filter
                                            (fun a => bool_decide (key a = k)) l)))
                <$> ks))%Z).
    { induction ks as [| k ks IHk]; [reflexivity |].
      rewrite !fmap_cons. cbn [foldr]. rewrite IHk. cbn [List.filter].
      destruct (bool_decide (key a = k)); cbn [length]; lia. }
    rewrite Hsplit, IH by (intros a' Ha'; apply Hall, list_elem_of_further, Ha').
    rewrite (indicator_sum (key a) keys Hnd (Hall a (list_elem_of_here _ _))).
    cbn [length]. lia.
Qed.

Lemma foldl_Qplus (a : Q) (l : list Q) :
  (foldl Qplus a l == a + foldr Qplus 0 l)%Q.
Proof.
  revert a. induction l as [| x l IH]; intros a; cbn [foldl foldr].
  - rewrite Qplus_0_r. reflexivity.
  - rewrite IH. rewrite Qplus_assoc. reflexivity.
Qed.

(** The sums of the groups add up to the sum over the rows. *)
Lemma sum_partition {A K} `{EqDecision K} (key : A -> K) (val : A -> Q)
      (keys : list K) (l : list A) :
  NoDup keys -> (forall a, a ∈ l -> key a ∈ keys) ->
  (foldr Qplus 0
     ((fun k => foldl Qplus 0
                  (val <$> List.filter (fun a => bool_decide (key a = k)) l))
        <$> keys)
   == foldr Qplus 0 (val <$> l))%Q.
Proof.
  intros Hnd. induction l as [| a l IH]; intros Hall.
  - cbn [List.filter fmap list_fmap foldl foldr]. clear.
    induction keys as [| k keys IH]; [reflexivity |].
    cbn. rewrite IH. reflexivity.
  - assert (Hsplit : forall ks : list K, NoDup ks ->
      (foldr Qplus 0
         ((fun k => foldl Qplus 0
                      (val <$> List.filter (fun a => bool_decide (key a = k)) (a :: l)))
            <$> ks)
       == (if bool_decide (key a ∈ ks) then val a else 0)
          + foldr Qplus 0
              ((fun k => foldl Qplus 0
                           (val <$> List.filter (fun a => bool_decide (key a = k)) l))
                 <$> ks))%Q).
    { induction ks as [| k ks IHk]; intros Hks.
      - cbn. reflexivity.
      - apply NoDup_cons in Hks. destruct Hks as [Hn Hks].
        rewrite !fmap_cons. cbn [foldr]. rewrite (IHk Hks). cbn [List.filter].
        destruct (bool_decide (key a = k)) eqn:E.
        + apply bool_decide_eq_true in E.
          rewrite (bool_decide_eq_true_2 (key a ∈ k :: ks))
            by (rewrite E; apply list_elem_of_here).
          rewrite (bool_decide_eq_false_2 (key a ∈ ks)) by (rewrite E; exact Hn).
          cbn [fmap list_fmap]. rewrite !foldl_Qplus. cbn [foldr]. ring.
        + apply bool_decide_eq_false in E.
          destruct (bool_decide (key a ∈ ks)) eqn:E2.
          * apply bool_decide_eq_true in E2.
            rewrite (bool_decide_eq_true_2 (key a ∈ k :: ks))
              by (apply list_elem_of_further, E2).
            ring.
          * apply bool_decide_eq_false in E2.
            rewrite (bool_decide_eq_false_2 (key a ∈ k :: ks)).
            -- ring.
            -- intros Hin. apply elem_of_cons in Hin. tauto. }
    rewrite (Hsplit keys Hnd).
    rewrite (bool_decide_eq_true_2 _ (Hall a (list_elem_of_here _ _))).
    rewrite IH by (intros a' Ha'; apply Hall, list_elem_of_further, Ha').
    cbn [fmap list_fmap foldr]. reflexivity.
Qed.

(** Grouping loses and duplicates nothing: the groups have pairwise
    different keys, every bet has its group, the counts add up to the
    number of bets and the sums to the sum of their deltas. *)
Theorem group_bets_totals (bets : list unuploaded_bet) :
  NoDup ((fun g => (g_bet_type g, g_score_range g)) <$> _group_bets bets)
  /\ (forall b, b ∈ bets ->
        exists g, g ∈ _group_bets bets
                  /\ g_bet_type g = ub_bet_type b
                  /\ g_score_range g = ub_score_range b)
  /\ foldr Z.add 0%Z (Count <$> _group_bets bets) = Z.of_nat (length bets)
  /\ (foldr Qplus 0 (ResultSum <$> _group_bets bets)
      == foldr Qplus 0 (ub_result_delta <$> bets))%Q.
Proof.
  unfold _group_bets.
  destruct (group_keys_spec (group_key <$> bets)) as [Hnd Hkeys].
  set (keys := merge_sort key_le (remove_dups (group_key <$> bets))) in *.
  assert (Hall : forall b, b ∈ bets -> group_key b ∈ keys).
  { intros b Hb. apply Hkeys, list_elem_of_fmap. eauto. }
  split; [| split; [| split]].
  - rewrite <- list_fmap_compose.
    erewrite list_fmap_ext; [rewrite list_fmap_id; exact Hnd |].
    intros i [k1 k2] _. reflexivity.
  - intros b Hb. eexists. split.
    + apply list_elem_of_fmap. exists (group_key b). split; [reflexivity |].
      apply Hall, Hb.
    + split; reflexivity.
  - rewrite <- list_fmap_compose.
    exact (count_partition group_key keys bets Hnd Hall).
  - rewrite <- list_fmap_compose.
    exact (sum_partition group_key ub_result_delta keys bets Hnd Hall).
Qed.

Section UploadFacts.
Variable SHEET_CELL_MAPPING : gmap (string * string * string) string.
Variable sheet_result : string -> res Z.
Variable sheet_volume : string -> res Z.
Variable batch_update : list (string * cell_value) -> res unit.
Variable today : string.

(** The dictionary of the current values has, for every cell that was
    read, the number read from it. *)
Lemma dict_of_lookup (f : string -> res Z) (cells : list string) (values : list Z) :
  res_mapM f cells = Ok values ->
  forall c, c ∈ cells -> exists v, f c = Ok v /\ dict_of cells values !! c = Some v.
Proof.
  intros E. apply res_mapM_Forall2 in E. unfold dict_of.
  assert (Hgen : forall m : gmap string Z,
    (forall c v, m !! c = Some v -> f c = Ok v) ->
    (forall c v, foldl (fun m kv => <[kv.1 := kv.2]> m) m (zip cells values) !! c
                 = Some v -> f c = Ok v)
    /\ (forall c, c ∈ cells \/ is_Some (m !! c) ->
          is_Some (foldl (fun m kv => <[kv.1 := kv.2]> m) m (zip cells values) !! c))).
  { induction E as [| c0 v0 cells values E0 E IH]; intros m Hm.
    - cbn. split; [exact Hm |]. intros c [Hc | Hc]; [| exact Hc].
      apply elem_of_nil in Hc. destruct Hc.
    - cbn [zip zip_with foldl fst snd].
      destruct (IH (<[c0 := v0]> m)) as [H1 H2].
      + intros c v Hcv. destruct (decide (c = c0)) as [-> | Hne].
        * rewrite lookup_insert_eq in Hcv. injection Hcv as <-. exact E0.
        * rewrite lookup_insert_ne in Hcv by auto. exact (Hm c v Hcv).
      + split; [exact H1 |]. intros c Hc. apply H2.
        destruct (decide (c = c0)) as [-> | Hne].
        * right. rewrite lookup_insert_eq. eauto.
        * destruct Hc as [Hc | Hc].
          -- apply elem_of_cons in Hc. destruct Hc as [-> | Hc]; [contradiction | auto].
          -- right. rewrite lookup_insert_ne by auto. exact Hc. }
  destruct (Hgen ∅) as [H1 H2].
  { intros c v Hcv. rewrite lookup_empty in Hcv. discriminate. }
  intros c Hc. destruct (H2 c (or_introl Hc)) as [v Hv].
  exists v. split; [exact (H1 c v Hv) | exact Hv].
Qed.

Lemma Forall2_res_mapM {A B} (f : A -> res B) (l : list A) (l' : list B) :
  Forall2 (fun a b => f a = Ok b) l l' -> res_mapM f l = Ok l'.
Proof.
  induction 1 as [| a b l l' E _ IH]; cbn [res_mapM]; [reflexivity |].
  rewrite E, IH. reflexivity.
Qed.

Local Abbreviation cell_of' := (cell_of SHEET_CELL_MAPPING).
Local Abbreviation group_update' :=
  (group_update SHEET_CELL_MAPPING sheet_result sheet_volume).
Local Abbreviation reads_group' :=
  (reads_group SHEET_CELL_MAPPING sheet_result sheet_volume).

Lemma group_update_reads g p :
  group_update' g = Ok p <-> exists rc vc r v, reads_group' g rc vc r v p.
Proof.
  unfold group_update, reads_group. split.
  - destruct (cell_of' g "Result") as [rc |]; [| discriminate].
    destruct (cell_of' g "Volume") as [vc |]; [| discriminate].
    cbn [mbind res_bind].
    destruct (sheet_result rc) as [r |] eqn:Er; [| discriminate].
    destruct (sheet_volume vc) as [v |] eqn:Ev; [| discriminate].
    cbn [mbind res_bind]. intros E. injection E as <-.
    exists rc, vc, r, v. repeat split; auto.
  - intros (rc & vc & r & v & -> & -> & Hr & Hv & ->). cbn [mbind res_bind].
    rewrite Hr, Hv. reflexivity.
Qed.

(** The four passes of [_get_current_values] succeed exactly when every
    group has its update. *)
Lemma current_values_passes (grouped : list bet_group) :
  (forall rcs vcs rv vv,
     res_mapM (fun g => cell_of' g "Result") grouped = Ok rcs ->
     res_mapM (fun g => cell_of' g "Volume") grouped = Ok vcs ->
     res_mapM sheet_result rcs = Ok rv ->
     res_mapM sheet_volume vcs = Ok vv ->
     exists per,
       res_mapM group_update' grouped = Ok per
       /\ Forall2 (fun g p => exists rc vc r v,
                      reads_group' g rc vc r v p /\ rc ∈ rcs /\ vc ∈ vcs)
                  grouped per)
  /\ (forall per,
        res_mapM group_update' grouped = Ok per ->
        exists rcs vcs rv vv,
          res_mapM (fun g => cell_of' g "Result") grouped = Ok rcs
          /\ res_mapM (fun g => cell_of' g "Volume") grouped = Ok vcs
          /\ res_mapM sheet_result rcs = Ok rv
          /\ res_mapM sheet_volume vcs = Ok vv).
Proof.
  induction grouped as [| g grouped [IH1 IH2]]; split.
  - intros rcs vcs rv vv E1 E2 E3 E4. exists []. split; [reflexivity | constructor].
  - intros per _. exists [], [], [], []. auto.
  - intros rcs vcs rv vv E1 E2 E3 E4. cbn [res_mapM] in E1, E2.
    destruct (cell_of' g "Result") as [rc |] eqn:Erc; [| discriminate].
    destruct (cell_of' g "Volume") as [vc |] eqn:Evc; [| discriminate].
    cbn [mbind res_bind] in E1, E2.
    destruct (res_mapM (fun g => cell_of' g "Result") grouped) as [rcs' |] eqn:E1';
      [| discriminate].
    destruct (res_mapM (fun g => cell_of' g "Volume") grouped) as [vcs' |] eqn:E2';
      [| discriminate].
    cbn [mbind res_bind] in E1, E2. injection E1 as <-. injection E2 as <-.
    cbn [res_mapM] in E3, E4.
    destruct (sheet_result rc) as [r |] eqn:Er; [| discriminate].
    destruct (sheet_volume vc) as [v |] eqn:Ev; [| discriminate].
    cbn [mbind res_bind] in E3, E4.
    destruct (res_mapM sheet_result rcs') as [rv' |] eqn:E3'; [| discriminate].
    destruct (res_mapM sheet_volume vcs') as [vv' |] eqn:E4'; [| discriminate].
    destruct (IH1 rcs' vcs' rv' vv' eq_refl eq_refl E3' E4') as (per & Eper & Hper).
    assert (Hg : reads_group' g rc vc r v
                   [ (rc, NewResult (inject_Z r + ResultSum g)%Q);
                     (vc, NewVolume (v + Count g)%Z) ])
      by (unfold reads_group; repeat split; auto).
    assert (Eg : group_update' g
                 = Ok [ (rc, NewResult (inject_Z r + ResultSum g)%Q);
                        (vc, NewVolume (v + Count g)%Z) ])
      by (apply group_update_reads; eauto).
    eexists (_ :: per). split.
    + cbn [res_mapM]. rewrite Eg, Eper. reflexivity.
    + constructor.
      * exists rc, vc, r, v.
        split; [exact Hg |]. split; apply list_elem_of_here.
      * eapply Forall2_impl; [exact Hper |].
        intros g' p' (rc' & vc' & r' & v' & Hreads & Hin1 & Hin2).
        exists rc', vc', r', v'.
        split; [exact Hreads |]. split; apply list_elem_of_further; assumption.
  - intros per E. cbn [res_mapM] in E.
    destruct (group_update' g) as [p |] eqn:Eg; [| discriminate].
    cbn [mbind res_bind] in E.
    destruct (res_mapM group_update' grouped) as [per' |] eqn:Eper; [| discriminate].
    apply group_update_reads in Eg.
    destruct Eg as (rc & vc & r & v & Erc & Evc & Er & Ev & _).
    destruct (IH2 per' eq_refl) as (rcs & vcs & rv & vv & E1 & E2 & E3 & E4).
    exists (rc :: rcs), (vc :: vcs), (r :: rv), (v :: vv).
    cbn [res_mapM]. rewrite Erc, Evc, E1, E2. cbn [mbind res_bind].
    rewrite Er, Ev, E3, E4. auto.
Qed.

Local Abbreviation saved_today' := (saved_today today).

Lemma upsert_keeps_saved dt cell new merge (t : gmap string aggregated_result) c row :
  (forall old, saved_today' dt old -> saved_today' dt (merge old)) ->
  t !! c = Some row -> saved_today' dt row ->
  exists row', upsert cell new merge t !! c = Some row' /\ saved_today' dt row'.
Proof.
  intros Hm Hc Hs. unfold upsert.
  destruct (decide (c = cell)) as [-> | Hne].
  - rewrite Hc. rewrite lookup_insert_eq. eauto.
  - destruct (t !! cell); rewrite lookup_insert_ne by auto; eauto.
Qed.

Lemma upsert_at cell new merge (t : gmap string aggregated_result) :
  exists row, upsert cell new merge t !! cell = Some row
              /\ (row = new \/ exists old, t !! cell = Some old /\ row = merge old).
Proof.
  unfold upsert. destruct (t !! cell) as [old |] eqn:E; rewrite lookup_insert_eq.
  - eexists. split; [reflexivity |]. right. eauto.
  - eexists. split; [reflexivity |]. left. reflexivity.
Qed.

(** One group saved: the rows written today stay so, and the row of the
    result cell is one of them. *)
Lemma save_aggregated_results_ok g dt new_result new_volume t rc vc :
  cell_of' g "Result" = Ok rc -> cell_of' g "Volume" = Ok vc ->
  exists t',
    _save_aggregated_results SHEET_CELL_MAPPING today g (Some dt)
                             new_result new_volume t = (t', Ok tt)
    /\ (forall c row, t !! c = Some row -> saved_today' dt row ->
          exists row', t' !! c = Some row' /\ saved_today' dt row')
    /\ exists row, t' !! rc = Some row /\ saved_today' dt row.
Proof.
  intros Erc Evc. unfold _save_aggregated_results. rewrite Erc, Evc.
  cbn [mbind res_bind]. eexists. split; [reflexivity |].
  assert (Hm1 : forall old,
    saved_today' dt old ->
    saved_today' dt
      {| ar_bet_type := ar_bet_type old; ar_score_range := ar_score_range old;
         ar_volume := ar_volume old; ar_result := Some new_result;
         ar_updated_to := dt; ar_processed_at := today |}).
  { intros old _. unfold saved_today. cbn. eauto. }
  assert (Hm2 : forall old,
    saved_today' dt old ->
    saved_today' dt
      {| ar_bet_type := ar_bet_type old; ar_score_range := ar_score_range old;
         ar_volume := Some new_volume; ar_result := ar_result old;
         ar_updated_to := dt; ar_processed_at := today |}).
  { intros old (_ & _ & Hr). unfold saved_today. cbn. auto. }
  split.
  - intros c row Hc Hs.
    match goal with
    | |- context [upsert vc _ _ (upsert rc ?new ?merge t)] =>
        destruct (upsert_keeps_saved dt rc new merge t c row Hm1 Hc Hs)
          as (row1 & Hc1 & Hs1)
    end.
    eapply upsert_keeps_saved; [exact Hm2 | exact Hc1 | exact Hs1].
  - match goal with
    | |- context [upsert vc _ _ (upsert rc ?new ?merge t)] =>
        destruct (upsert_at rc new merge t) as (row1 & Hrow1 & Hcase)
    end.
    assert (Hs1 : saved_today' dt row1).
    { destruct Hcase as [-> | (old & _ & ->)]; unfold saved_today; cbn; eauto. }
    eapply upsert_keeps_saved; [exact Hm2 | exact Hrow1 | exact Hs1].
Qed.

(** The loop of [_create_updates] when every group finds its cells and
    its current numbers. *)
Lemma create_updates_ok grouped (cr cv : gmap string Z) dt t per :
  Forall2 (fun g p => exists rc vc r v,
             reads_group' g rc vc r v p
             /\ cr !! rc = Some r /\ cv !! vc = Some v) grouped per ->
  exists t',
    _create_updates SHEET_CELL_MAPPING today grouped cr cv (Some dt) t
    = (t', Ok (concat per))
    /\ (forall c row, t !! c = Some row -> saved_today' dt row ->
          exists row', t' !! c = Some row' /\ saved_today' dt row')
    /\ (forall g rc, g ∈ grouped -> cell_of' g "Result" = Ok rc ->
          exists row, t' !! rc = Some row /\ saved_today' dt row).
Proof.
  intros Hall. revert t.
  induction Hall as [| g p grouped per Hg Hall IH]; intros t.
  - exists t. cbn [_create_updates concat]. split; [reflexivity |].
    split; [eauto |]. intros g rc Hin. apply elem_of_nil in Hin. destruct Hin.
  - destruct Hg as (rc & vc & r & v & (Erc & Evc & _ & _ & ->) & Hr & Hv).
    cbn [_create_updates]. rewrite Erc, Evc. cbn [mbind res_bind].
    unfold dict_at. rewrite Hr, Hv. cbn [mbind res_bind].
    destruct (save_aggregated_results_ok g dt
                (inject_Z r + ResultSum g)%Q (v + Count g)%Z t rc vc Erc Evc)
      as (t1 & -> & Hkeep1 & (row1 & Hrow1 & Hs1)).
    destruct (IH t1) as (t2 & -> & Hkeep2 & Hnew2).
    exists t2. split; [reflexivity |]. split.
    + intros c row Hc Hs. destruct (Hkeep1 c row Hc Hs) as (row' & Hc' & Hs').
      exact (Hkeep2 c row' Hc' Hs').
    + intros g' rc' Hin Erc'. apply elem_of_cons in Hin.
      destruct Hin as [-> | Hin]; [| exact (Hnew2 g' rc' Hin Erc')].
      rewrite Erc in Erc'. injection Erc' as <-.
      exact (Hkeep2 rc row1 Hrow1 Hs1).
Qed.

(** [_get_updates] when every group has its update. *)
Lemma get_updates_ok grouped dt t per :
  res_mapM group_update' grouped = Ok per ->
  exists t',
    _get_updates SHEET_CELL_MAPPING sheet_result sheet_volume today
                 grouped (Some dt) t = (t', Ok (concat per))
    /\ (forall g rc, g ∈ grouped -> cell_of' g "Result" = Ok rc ->
          exists row, t' !! rc = Some row /\ saved_today' dt row).
Proof.
  intros Eper.
  destruct (proj2 (current_values_passes grouped) per Eper)
    as (rcs & vcs & rv & vv & E1 & E2 & E3 & E4).
  destruct (proj1 (current_values_passes grouped) rcs vcs rv vv E1 E2 E3 E4)
    as (per' & Eper' & Hper).
  rewrite Eper in Eper'. injection Eper' as <-.
  unfold _get_updates, _get_current_values. rewrite E1, E2. cbn [mbind res_bind].
  rewrite E3, E4. cbn [mbind res_bind].
  destruct (create_updates_ok grouped (dict_of rcs rv) (dict_of vcs vv) dt t per)
    as (t' & Et & _ & Hnew).
  - eapply Forall2_impl; [exact Hper |].
    intros g p (rc & vc & r & v & Hreads & Hin1 & Hin2).
    exists rc, vc, r, v. split; [exact Hreads |].
    destruct Hreads as (_ & _ & Hr & Hv & _).
    destruct (dict_of_lookup sheet_result rcs rv E3 rc Hin1) as (r' & Hr' & Hd1).
    destruct (dict_of_lookup sheet_volume vcs vv E4 vc Hin2) as (v' & Hv' & Hd2).
    rewrite Hr in Hr'. injection Hr' as <-. rewrite Hv in Hv'. injection Hv' as <-.
    auto.
  - exists t'. auto.
Qed.

(** [_get_updates] when some group has no update: nothing is saved. *)
Lemma get_updates_fails grouped ld t e :
  res_mapM group_update' grouped = Raise e ->
  exists e', _get_updates SHEET_CELL_MAPPING sheet_result sheet_volume today
                          grouped ld t = (t, Raise e').
Proof.
  intros Eper. unfold _get_updates.
  destruct (_get_current_values SHEET_CELL_MAPPING sheet_result sheet_volume grouped)
    as [[cr cv] | e'] eqn:Ec; [| eauto].
  exfalso. unfold _get_current_values in Ec.
  destruct (res_mapM (fun g => cell_of' g "Result") grouped) as [rcs |] eqn:E1;
    [| discriminate].
  destruct (res_mapM (fun g => cell_of' g "Volume") grouped) as [vcs |] eqn:E2;
    [| discriminate].
  cbn [mbind res_bind] in Ec.
  destruct (res_mapM sheet_result rcs) as [rv |] eqn:E3; [| discriminate].
  destruct (res_mapM sheet_volume vcs) as [vv |] eqn:E4; [| discriminate].
  destruct (proj1 (current_values_passes grouped) rcs vcs rv vv E1 E2 E3 E4)
    as (per & Eper' & _).
  rewrite Eper in Eper'. discriminate.
Qed.

End UploadFacts.

Section UploadTheorems.
Variable SHEET_CELL_MAPPING : gmap (string * string * string) string.
Variable sheet_result : string -> res Z.
Variable sheet_volume : string -> res Z.
Variable batch_update : list (string * cell_value) -> res unit.
Variable today : string.

(** The batch update is, group by group, the current number of the result
    cell plus the sum of the group and the current number of the volume
    cell plus its size, each read from the cell that is written.  When a
    group has no cell in the mapping, or a cell cannot be read, nothing is
    saved to [aggregated_results]. *)
Theorem get_updates_exact grouped dt t :
  match res_mapM (group_update SHEET_CELL_MAPPING sheet_result sheet_volume) grouped with
  | Ok per =>
      (_get_updates SHEET_CELL_MAPPING sheet_result sheet_volume today
                    grouped (Some dt) t).2 = Ok (concat per)
  | Raise _ =>
      exists e, _get_updates SHEET_CELL_MAPPING sheet_result sheet_volume today
                             grouped (Some dt) t = (t, Raise e)
  end.
Proof.
  destruct (res_mapM _ grouped) as [per | e] eqn:Eper.
  - destruct (get_updates_ok SHEET_CELL_MAPPING sheet_result sheet_volume today
                grouped dt t per Eper) as (t' & -> & _). reflexivity.
  - exact (get_updates_fails SHEET_CELL_MAPPING sheet_result sheet_volume today
             grouped (Some dt) t e Eper).
Qed.

(** A dry run sends nothing to the sheet and marks no result as uploaded,
    but it writes [aggregated_results] exactly as the real run does: the
    row of every result cell holds a result dated today. *)
Theorem dry_run_still_saves bets t dt per :
  bets <> [] ->
  last_date_of bets = Some dt ->
  res_mapM (group_update SHEET_CELL_MAPPING sheet_result sheet_volume)
           (_group_bets bets) = Ok per ->
  let dry := upload_to_sheets SHEET_CELL_MAPPING sheet_result sheet_volume
                              batch_update today true bets t in
  let real := upload_to_sheets SHEET_CELL_MAPPING sheet_result sheet_volume
                               batch_update today false bets t in
  dry.2 = Ok true
  /\ batch_sent dry.1 = None
  /\ marked_uploaded dry.1 = []
  /\ aggregated dry.1 = aggregated real.1
  /\ (forall g rc, g ∈ _group_bets bets ->
                   cell_of SHEET_CELL_MAPPING g "Result" = Ok rc ->
        exists row, aggregated dry.1 !! rc = Some row /\ saved_today today dt row)
  /\ (batch_update (concat per) = Ok tt ->
      real = ({| aggregated := aggregated dry.1; batch_sent := Some (concat per);
                 marked_uploaded := ub_bet_id <$> bets |}, Ok true)).
Proof.
  intros Hne Hdt Eper dry real. unfold dry, real, upload_to_sheets.
  destruct bets as [| b0 bets']; [contradiction |].
  rewrite Hdt.
  destruct (get_updates_ok SHEET_CELL_MAPPING sheet_result sheet_volume today
              (_group_bets (b0 :: bets')) dt t per Eper) as (t' & -> & Hnew).
  cbn [fst snd aggregated batch_sent marked_uploaded].
  repeat split; auto.
  - destruct (batch_update (concat per)) as [[] | e]; reflexivity.
  - intros ->. reflexivity.
Qed.

(** When a group of the new results has no cell in the mapping, or its
    cell cannot be read, the upload saves nothing, sends nothing and marks
    nothing, dry run or not. *)
Theorem upload_unreadable_group dry_run bets t e :
  res_mapM (group_update SHEET_CELL_MAPPING sheet_result sheet_volume)
           (_group_bets bets) = Raise e ->
  (upload_to_sheets SHEET_CELL_MAPPING sheet_result sheet_volume
                    batch_update today dry_run bets t).1
  = {| aggregated := t; batch_sent := None; marked_uploaded := [] |}.
Proof.
  intros Eper. unfold upload_to_sheets.
  destruct bets as [| b0 bets']; [reflexivity |].
  destruct (get_updates_fails SHEET_CELL_MAPPING sheet_result sheet_volume today
              (_group_bets (b0 :: bets')) (last_date_of (b0 :: bets')) t e Eper)
    as (e' & ->).
  reflexivity.
Qed.

End UploadTheorems.

Lemma dry_run_still_saves_witness :
  let dry := upload_to_sheets sample_mapping (fun _ => Ok 500) (fun _ => Ok 7)
                              (fun _ => Ok tt) "2025-03-01" true sample_uploads ∅ in
  dry.2 = Ok true
  /\ batch_sent dry.1 = None
  /\ exists row, aggregated dry.1 !! "B2" = Some row
                 /\ saved_today "2025-03-01" "2025-02-14" row.
Proof.
  assert (Hper : exists per,
            res_mapM (group_update sample_mapping (fun _ => Ok 500) (fun _ => Ok 7))
                     (_group_bets sample_uploads) = Ok per)
    by (eexists; vm_compute; reflexivity).
  destruct Hper as (per & Hper).
  destruct (dry_run_still_saves sample_mapping (fun _ => Ok 500) (fun _ => Ok 7)
              (fun _ => Ok tt) "2025-03-01" sample_uploads ∅ "2025-02-14" per)
    as (H1 & H2 & _ & _ & H5 & _).
  - discriminate.
  - reflexivity.
  - exact Hper.
  - cbv zeta. split; [exact H1 |]. split; [exact H2 |].
    apply (H5 {| g_bet_type := "points"; g_score_range := "25-30";
                 ResultSum := foldl Qplus 0%Q [100%Q; (-150)%Q]; Count := 2 |}).
    + vm_compute. left.
    + reflexivity.
Defined.

Lemma upload_unreadable_group_witness :
  (upload_to_sheets sample_mapping (fun _ => Ok 500) (fun _ => Ok 7)
                    (fun _ => Ok tt) "2025-03-01" false
                    [ sample_unuploaded 3 100 "30-35" ] ∅).1
  = {| aggregated := ∅; batch_sent := None; marked_uploaded := [] |}.
Proof.
  apply (upload_unreadable_group sample_mapping (fun _ => Ok 500) (fun _ => Ok 7)
           (fun _ => Ok tt) "2025-03-01" false
           [ sample_unuploaded 3 100 "30-35" ] ∅ KeyError).
  vm_compute. reflexivity.
Defined.

(** ** From the captured texts to fields that pass the classifier *)

Lemma digit_from_2 (c : ascii) :
  is_digit c = true -> Ascii.eqb c "0"%char = false -> Ascii.eqb c "1"%char = false ->
  (2 <= digit_val c)%Z.
Proof.
  destruct c as [[] [] [] [] [] [] [] []]; cbn; try discriminate; intros;
    vm_compute; intros E; discriminate E.
Qed.

Lemma remove_spaces_spaces n s : remove_spaces (spaces n +:+ s) = remove_spaces s.
Proof. induction n as [| n IH]; [reflexivity | exact IH]. Qed.

Lemma remove_spaces_digits ds s :
  all_digits ds = true -> remove_spaces (ds +:+ s) = ds +:+ remove_spaces s.
Proof.
  induction ds as [| c ds IH]; intros Hd; [reflexivity |].
  cbn [all_digits] in Hd. apply andb_true_iff in Hd. destruct Hd as [Hc Hd].
  change (String c ds +:+ s) with (String c (ds +:+ s)).
  change (String c ds +:+ remove_spaces s) with (String c (ds +:+ remove_spaces s)).
  cbn [remove_spaces].
  destruct (digit_facts c Hc) as (-> & _). rewrite (IH Hd). reflexivity.
Qed.

Lemma ocr_score_cleaned s :
  ocr_score s ->
  exists d1 d2 d3 d4,
    strip_ends (remove_spaces s)
    = String d1 (String d2 (String "."%char (String d3 (String d4 EmptyString))))
    /\ is_digit d1 = true /\ (2 <= digit_val d1)%Z
    /\ is_digit d2 = true /\ is_digit d3 = true /\ is_digit d4 = true.
Proof.
  intros (d1 & d2 & d3 & d4 & n1 & n2 & -> & H1 & H10 & H11 & H2 & H3 & H4).
  exists d1, d2, d3, d4. split; [| repeat split; auto using digit_from_2].
  destruct (digit_facts d1 H1) as (E1 & _).
  destruct (digit_facts d2 H2) as (E2 & _).
  destruct (digit_facts d3 H3) as (E3 & _).
  destruct (digit_facts d4 H4) as (E4 & _).
  cbn [remove_spaces]. rewrite E1, E2.
  replace (Ascii.eqb "+"%char " "%char) with false by reflexivity.
  rewrite remove_spaces_spaces. cbn [remove_spaces].
  replace (Ascii.eqb "."%char " "%char) with false by reflexivity.
  rewrite remove_spaces_spaces. cbn [remove_spaces]. rewrite E3, E4.
  replace (Ascii.eqb "%"%char " "%char) with false by reflexivity.
  reflexivity.
Qed.

Lemma parse_score_range d1 d2 d3 d4 :
  is_digit d1 = true -> (2 <= digit_val d1)%Z ->
  is_digit d2 = true -> is_digit d3 = true -> is_digit d4 = true ->
  exists q,
    parse_decimal
      (String d1 (String d2 (String "."%char (String d3 (String d4 EmptyString)))))
    = Some q
    /\ (20 <= q)%Q /\ (q <= 100)%Q.
Proof.
  intros H1 H12 H2 H3 H4.
  destruct (digit_facts d1 H1) as (_ & F1 & G1 & P1 & R1).
  destruct (digit_facts d2 H2) as (_ & F2 & _ & _ & R2).
  destruct (digit_facts d3 H3) as (_ & _ & _ & _ & R3).
  destruct (digit_facts d4 H4) as (_ & _ & _ & _ & R4).
  unfold parse_decimal, split_sign. rewrite G1, P1.
  cbn [split_at]. rewrite F1, F2.
  replace (Ascii.eqb "."%char "."%char) with true by reflexivity.
  cbn [digits_value]. rewrite H1, H2, H3, H4. cbn [digits_value mbind option_bind].
  eexists. split; [reflexivity |].
  cbn [String.length Z.of_nat Pos.of_succ_nat Pos.succ].
  change (10 ^ 2)%Z with 100%Z. change (Z.to_pos 100) with 100%positive.
  split; rewrite Qred_correct; unfold Qle; cbn [Qnum Qden]; lia.
Qed.

Lemma match_digits_dot5_digits ds :
  all_digits ds = true -> match_digits_dot5 true (ds +:+ ".5") = true.
Proof.
  induction ds as [| c ds IH]; intros Hd; [reflexivity |].
  cbn [all_digits] in Hd. apply andb_true_iff in Hd. destruct Hd as [Hc Hd].
  change (String c ds +:+ ".5") with (String c (ds +:+ ".5")).
  cbn [match_digits_dot5]. rewrite Hc. exact (IH Hd).
Qed.

Lemma ocr_line_cleaned s :
  ocr_line s ->
  exists c ds,
    fix_leading_o (remove_spaces s) = String c (ds +:+ ".5")
    /\ (c = "o"%char \/ c = "u"%char)
    /\ match_bet_line (String c (ds +:+ ".5")) = true.
Proof.
  intros (c & ds & n1 & n2 & -> & Hc & Hne & Hd).
  assert (Hrest : remove_spaces (ds +:+ spaces n1 +:+ String "."%char (spaces n2 +:+ "5"))
                  = ds +:+ ".5").
  { rewrite (remove_spaces_digits _ _ Hd), remove_spaces_spaces.
    cbn [remove_spaces].
    replace (Ascii.eqb "."%char " "%char) with false by reflexivity.
    rewrite remove_spaces_spaces. reflexivity. }
  assert (Hm : forall c', c' = "o"%char \/ c' = "u"%char ->
                          match_bet_line (String c' (ds +:+ ".5")) = true).
  { intros c' Hc'. unfold match_bet_line.
    replace (Ascii.eqb c' "o"%char || Ascii.eqb c' "u"%char) with true
      by (destruct Hc' as [-> | ->]; reflexivity).
    cbn [andb]. destruct ds as [| d ds']; [contradiction |].
    cbn [all_digits] in Hd. apply andb_true_iff in Hd. destruct Hd as [Hd1 Hd2].
    change (String d ds' +:+ ".5") with (String d (ds' +:+ ".5")).
    cbn [match_digits_dot5]. rewrite Hd1. apply match_digits_dot5_digits, Hd2. }
  destruct Hc as [-> | [-> | ->]].
  - exists "o"%char, ds. cbn [remove_spaces].
    replace (Ascii.eqb "0"%char " "%char) with false by reflexivity.
    rewrite Hrest. split; [reflexivity |]. split; [auto | apply Hm; auto].
  - exists "u"%char, ds. cbn [remove_spaces].
    replace (Ascii.eqb "u"%char " "%char) with false by reflexivity.
    rewrite Hrest. split; [reflexivity |]. split; [auto | apply Hm; auto].
  - exists "o"%char, ds. cbn [remove_spaces].
    replace (Ascii.eqb "o"%char " "%char) with false by reflexivity.
    rewrite Hrest. split; [reflexivity |]. split; [auto | apply Hm; auto].
Qed.

Lemma minus_to_4_digit c r :
  is_digit c = true -> minus_to_4 (String c r) = String c (minus_to_4 r).
Proof.
  intros Hc. cbn [minus_to_4]. destruct (digit_facts c Hc) as (_ & _ & -> & _).
  reflexivity.
Qed.

Lemma parse_three_digits o1 o2 o3 :
  is_digit o1 = true -> is_digit o2 = true -> is_digit o3 = true ->
  exists n, parse_nat (String o1 (String o2 (String o3 EmptyString))) = Some n
            /\ (0 <= n <= 999)%Z.
Proof.
  intros H1 H2 H3.
  destruct (digit_facts o1 H1) as (_ & _ & _ & _ & R1).
  destruct (digit_facts o2 H2) as (_ & _ & _ & _ & R2).
  destruct (digit_facts o3 H3) as (_ & _ & _ & _ & R3).
  unfold parse_nat. cbn [digits_value]. rewrite H1, H2, H3.
  eexists. split; [reflexivity | lia].
Qed.

Lemma ocr_odds_cleaned s :
  ocr_odds s ->
  exists z, parse_int (fix_inner_4 (fix_leading_minus (remove_spaces s))) = Some z
            /\ (-1000 <= z <= 1000)%Z.
Proof.
  intros (sg & o1 & o2 & o3 & -> & Hsg & H1 & H2 & H3).
  destruct (parse_three_digits o1 o2 o3 H1 H2 H3) as (n & En & Hn).
  destruct (digit_facts o1 H1) as (S1 & _).
  destruct (digit_facts o2 H2) as (S2 & _).
  destruct (digit_facts o3 H3) as (S3 & _).
  assert (Hsp : forall c, Ascii.eqb c " "%char = false ->
    remove_spaces (String c (String o1 (String o2 (String o3 EmptyString))))
    = String c (String o1 (String o2 (String o3 EmptyString)))).
  { intros c Ec. cbn [remove_spaces]. rewrite Ec, S1, S2, S3. reflexivity. }
  assert (Hin : minus_to_4 (String o1 (String o2 (String o3 EmptyString)))
                = String o1 (String o2 (String o3 EmptyString))).
  { rewrite !minus_to_4_digit by assumption. reflexivity. }
  assert (Hneg : parse_int (String "-"%char
                              (String o1 (String o2 (String o3 EmptyString))))
                 = Some (- n)%Z).
  { unfold parse_int, split_sign.
    replace (Ascii.eqb "-"%char "-"%char) with true by reflexivity.
    rewrite En. reflexivity. }
  assert (Hpos : parse_int (String "+"%char
                              (String o1 (String o2 (String o3 EmptyString))))
                 = Some n).
  { unfold parse_int, split_sign.
    replace (Ascii.eqb "+"%char "-"%char) with false by reflexivity.
    replace (Ascii.eqb "+"%char "+"%char) with true by reflexivity.
    rewrite En. reflexivity. }
  assert (Hspace : Ascii.eqb sg " "%char = false)
    by (destruct Hsg as [-> | [-> | [-> | [-> | [-> | ->]]]]]; reflexivity).
  assert (Hfix : forall r,
    fix_leading_minus (String sg r)
    = String (if Ascii.eqb sg "+"%char then "+"%char else "-"%char) r)
    by (intros r; destruct Hsg as [-> | [-> | [-> | [-> | [-> | ->]]]]];
        reflexivity).
  rewrite (Hsp sg Hspace), Hfix. cbn [fix_inner_4]. rewrite Hin.
  destruct (Ascii.eqb sg "+"%char).
  - exists n. split; [exact Hpos | lia].
  - exists (- n)%Z. split; [exact Hneg | lia].
Qed.

Lemma clean_data_rowwise `{!Builtins} year (df df1 df2 : list entry) :
  Forall2 (fun x x1 => clean_row_odds (clean_row_strings x) = Ok x1) df df1 ->
  Forall2 (fun x1 x2 => clean_row_date year (clean_row_line_score x1) = Ok x2)
          df1 df2 ->
  clean_data year df = Ok df2.
Proof.
  intros H1 H2. unfold clean_data.
  rewrite (Forall2_res_mapM clean_row_odds (clean_row_strings <$> df) df1)
    by (apply Forall2_fmap_l; exact H1).
  cbn [mbind res_bind].
  rewrite (Forall2_res_mapM (clean_row_date year) (clean_row_line_score <$> df1) df2)
    by (apply Forall2_fmap_l; exact H2).
  reflexivity.
Qed.

Lemma ocr_row_cleaned (player_ids : gmap string Z) year x :
  ocr_row year x ->
  exists x1 x2,
    @clean_row_odds decimal_builtins (clean_row_strings x) = Ok x1
    /\ @clean_row_date decimal_builtins year (clean_row_line_score x1) = Ok x2
    /\ @field_valid decimal_builtins player_ids FScore (x_bet x2)
    /\ @field_valid decimal_builtins player_ids FBetLine (x_bet x2)
    /\ @field_valid decimal_builtins player_ids FOdds (x_bet x2)
    /\ e_player (x_bet x2) = e_player (x_bet x)
    /\ e_bet_type (x_bet x2) = e_bet_type (x_bet x).
Proof.
  intros ((s & Es & Hs) & (l & El & Hl) & (o & Eo & Ho) & (d & Ed)).
  destruct (ocr_score_cleaned s Hs) as (d1 & d2 & d3 & d4 & Escore & H1 & H12 & H2 & H3 & H4).
  destruct (parse_score_range d1 d2 d3 d4 H1 H12 H2 H3 H4) as (q & Eq & Hq1 & Hq2).
  destruct (ocr_line_cleaned l Hl) as (c & ds & Eline & _ & Hm).
  destruct (ocr_odds_cleaned o Ho) as (z & Ez & Hz).
  unfold clean_row_odds, clean_row_strings, clean_odds.
  cbn [x_bet set_bet e_odds e_score e_bet_line e_player e_bet_type e_date].
  rewrite Eo, Es, El. cbn [on_str].
  change (@astype_Int64 decimal_builtins) with parse_int. rewrite Ez.
  cbn [mbind res_bind]. eexists. eexists. split; [reflexivity |].
  unfold clean_row_date, clean_row_line_score.
  cbn [x_bet set_bet e_odds e_score e_bet_line e_player e_bet_type e_date on_str].
  rewrite Ed. cbn [mbind res_bind]. split; [reflexivity |].
  cbn [x_bet set_bet e_odds e_score e_bet_line e_player e_bet_type e_date].
  rewrite Escore, Eline.
  split; [| split; [| split; [| split; reflexivity]]].
  - split; [reflexivity |]. exists q. cbn [py_float].
    change (@float_of_str decimal_builtins) with parse_decimal. auto.
  - split; [reflexivity |]. exact Hm.
  - split; [reflexivity |]. exists z. split; [reflexivity | exact Hz].
Qed.

(** The captures of the score pattern clean up to fields that pass: when
    every row of the extracted frame holds a score, a line and odds as the
    pattern captures them (blanks for the white space, no bar as first
    character, at least one digit in the line) and a date that converts,
    [clean_data] returns a frame of the same rows in which the score, the
    line and the odds of every row satisfy the rules of the classifier,
    whatever the OCR made of the minus sign (7, 4, tilde, double quote) or
    of the o of the line (0). *)
Theorem ocr_captures_clean_to_valid_fields (player_ids : gmap string Z) year df :
  Forall (ocr_row year) df ->
  exists df',
    @clean_data decimal_builtins year df = Ok df'
    /\ length df' = length df
    /\ Forall (fun x' =>
                 @field_valid decimal_builtins player_ids FScore (x_bet x')
                 /\ @field_valid decimal_builtins player_ids FBetLine (x_bet x')
                 /\ @field_valid decimal_builtins player_ids FOdds (x_bet x')) df'.
Proof.
  intros Hall.
  assert (Hrows : exists df1 df2,
    Forall2 (fun x x1 => @clean_row_odds decimal_builtins (clean_row_strings x) = Ok x1)
            df df1
    /\ Forall2 (fun x1 x2 => @clean_row_date decimal_builtins year
                               (clean_row_line_score x1) = Ok x2) df1 df2
    /\ Forall (fun x' =>
                 @field_valid decimal_builtins player_ids FScore (x_bet x')
                 /\ @field_valid decimal_builtins player_ids FBetLine (x_bet x')
                 /\ @field_valid decimal_builtins player_ids FOdds (x_bet x')) df2).
  { induction Hall as [| x df Hx _ IH].
    - exists [], []. repeat split; constructor.
    - destruct IH as (df1 & df2 & F1 & F2 & Fv).
      destruct (ocr_row_cleaned player_ids year x Hx)
        as (x1 & x2 & E1 & E2 & V1 & V2 & V3 & _).
      exists (x1 :: df1), (x2 :: df2).
      split; [constructor; assumption |]. split; [constructor; assumption |].
      constructor; auto. }
  destruct Hrows as (df1 & df2 & F1 & F2 & Fv).
  exists df2. split; [exact (clean_data_rowwise year df df1 df2 F1 F2) |].
  split; [| exact Fv].
  rewrite <- (Forall2_length _ _ _ F2). symmetry. exact (Forall2_length _ _ _ F1).
Qed.

Lemma ocr_captures_clean_to_valid_fields_witness :
  exists df',
    @clean_data decimal_builtins 2025 [noisy_entry] = Ok df'
    /\ Forall (fun x' =>
                 @field_valid decimal_builtins sample_player_ids FScore (x_bet x')
                 /\ @field_valid decimal_builtins sample_player_ids FBetLine (x_bet x')
                 /\ @field_valid decimal_builtins sample_player_ids FOdds (x_bet x'))
              df'.
Proof.
  destruct (ocr_captures_clean_to_valid_fields sample_player_ids 2025 [noisy_entry])
    as (df' & E & _ & Hv).
  - constructor; [| constructor]. unfold ocr_row. split; [| split; [| split]].
    + eexists. split; [reflexivity |].
      exists "2"%char, "5"%char, "5"%char, "0"%char, 1%nat, 1%nat.
      repeat split; reflexivity.
    + eexists. split; [reflexivity |].
      exists "0"%char, "21", 1%nat, 0%nat.
      split; [reflexivity |]. split; [auto |]. split; [discriminate | reflexivity].
    + eexists. split; [reflexivity |].
      exists "7"%char, "1"%char, "5"%char, "0"%char.
      split; [reflexivity |]. split; [auto |]. repeat split; reflexivity.
    + eexists. vm_compute. reflexivity.
  - exists df'. split; [exact E | exact Hv].
Defined.
